(* ===== verification/_CoqProject ===== *)
-Q . S2P
Prelude.v
Uuid.v
Handles.v
Base64.v
Padding.v
RingBuffer.v
AudioBridge.v
AudioPorts.v
Probe.v
Storage.v
StorageOpen.v
ContactResolver.v
Cdsi.v
Config.v
HttpClient.v
AuthSocket.v
SocketLife.v
DispatchQueue.v
ProtocolStores.v
CallSignaling.v
Crypto.v
PreKeys.v
LinkCiphers.v
Png.v
QrLink.v
Provisioning.v
Registration.v
AccountFinisher.v
GendbConfig.v
Gendb.v
GendbAccounts.v
GendbSettings.v
Calls.v
Handoff.v
HandoffSerial.v
Push.v
EndToEnd.v
Watchdog.v
StorageSync.v
Lifecycle.v
I18n.v
TuiLink.v
Tui.v
TuiSafety.v
TuiScreens.v
TuiGendb.v
MainLoop.v
DaemonRun.v
LiveConfig.v
