(* ===== verification/Prelude.v ===== *)
(** * signal2sip: verification library (root file)

    signal2sip connects Signal accounts with a SIP exchange: a daemon
    (src/daemon) keeps every account connected to Signal and registered on the
    SIP side and bridges calls in both directions; a command line tool
    (src/gendb) creates and edits the accounts; both work on one encrypted
    database (src/storage). A terminal interface (src/tui) runs gendb for its
    user. libsignal, libsignal-net, RingRTC, PJSIP, SQLite,
    OpenSSL, protobuf and libqrencode do the heavy lifting; the program's own
    logic is what it does with them, and that is what is modelled here.

    ** How the parts fit together

    A message pushed by the server enters [Push] (onPush), is decrypted by
    [Crypto] through the store callbacks of [ProtocolStores], which read and
    write [Storage]; a call message goes through the queue of [DispatchQueue]
    to RingRTC, whose callbacks are handlers of [Calls]; what these have to say
    leaves through [CallSignaling] over [AuthSocket]. [Calls] couples a Signal
    call with a SIP leg and wires the ports of [AudioBridge], whose buffers are
    [RingBuffer]; [Handoff] has the same legs between the threads that use them. [ContactResolver] (with [Cdsi]) finds whom a SIP call is for;
    [StorageSync] fetches the contacts it uses. [Config] makes the accounts
    from the database; [Lifecycle] starts, reloads and stops them and
    [Watchdog] keeps them connected; [MainLoop] is the daemon's main(), which
    does these in turn. On the other side [Gendb] runs the
    commands: [Registration] talks to the registration service, [Provisioning]
    links a device ([LinkCiphers], [QrLink], [Png]), [PreKeys] makes the keys
    and [AccountFinisher] saves the result; plain HTTPS goes through
    [HttpClient]. [Tui] runs gendb's commands and shows their output, with the
    texts of [I18n] and the link thread of [TuiLink]. [EndToEnd], [TuiGendb] and
    [LiveConfig] put the parts together: a sender with a receiver, the
    interface's form with the daemon's validation, an edit by gendb with the
    running daemon.

    ** Files and sources

    - this file: the monads [outcome] (a value or an exception) and [Comp]
      (a computation that changes a state, and keeps the change when it
      throws), the classes [Has], [HasLaws] and [HasIndep] with which a
      component's operations run inside a larger state ([lift]), the
      post-condition predicates [preserves], [raises], [yields], the hint
      databases, and lemmas on lists, strings and machine integers;
    - Uuid, Base64 (util/Base64.cpp), Padding (signal/Padding.cpp): codecs;
    - RingBuffer (voip/ring_buffer.h): [Seq] the operations, [Spsc] their
      atomic steps; AudioBridge (voip/audio_bridge.cpp,
      voip/ringrtc_sip_bridge.cpp and .h, wireBridgeAudio of daemon/main.cpp),
      AudioPorts what the ports own of PJSIP from construction to destruction;
    - Storage (storage/Storage.cpp): every method as its sequence of SQLite
      calls, over the tables of schema.sql; StorageOpen its connections;
      ContactResolver, Config
      (daemon/ContactResolver.cpp, daemon/Config.cpp and .h);
    - Handles: libsignal objects behind handles and [Await], the blocking wait
      for an asynchronous call; Cdsi (signal/Cdsi.cpp);
    - AuthSocket (signal/AuthSocket.cpp): [Attempt] one connection attempt and
      its race with the completion, [Socket] the object's operations; SocketLife
      its constructor, destructor and pushed messages, over libsignal's objects;
      HttpClient (util/RegistrationClient.cpp) the requests over libcurl;
      DispatchQueue (EnvelopeDispatchQueue of daemon/main.cpp);
    - ProtocolStores, Crypto, PreKeys (signal/ of the same names, FfiUtil.h);
      CallSignaling (daemon/CallSignaling.cpp);
    - Calls, Push, Watchdog, Lifecycle (daemon/main.cpp: the callbacks and SIP
      legs; onPush; the watchdogs of the main loop; setupAccount,
      teardownAccount, reloadConfig); StorageSync
      (daemon/StorageServiceSync.cpp); EndToEnd composes the sender with the
      receiver;
    - Handoff: the same handlers as lists of atomic instructions that interleave
      over RingRTC's, PJSIP's, libsignal's and the main thread, with
      callHandoffMutex and the registration of threads; HandoffSerial the
      histories in which the handlers that make or delete legs do not overlap,
      which are those of Calls; Probe the test tone (runProbe);
    - LinkCiphers (gendb/ProvisioningCipher.cpp, gendb/DeviceNameCipher.cpp),
      Png and QrLink (the output side of gendb/ProvisioningClient.cpp),
      Provisioning (its connection and waits), Registration
      (gendb/RegistrationServiceClient.cpp), AccountFinisher;
    - GendbConfig, Gendb (gendb/main.cpp); GendbAccounts and GendbSettings hold
      the theorems about its commands;
    - I18n (tui/i18n.h), TuiLink (the thread that runs gendb link and the parser
      of its output) and Tui (tui/main.cpp: state, pages, key handling, what
      is drawn); TuiSafety, TuiScreens and TuiGendb hold their theorems;
    - MainLoop (main of daemon/main.cpp: signals, pid file, reload triggers, the
      watchdogs over all accounts, with what happens outside while it sleeps and
      while a reload runs), DaemonRun its theorems, LiveConfig an edit
      made while it runs.

    A class of the source is a Record with the source's fields, a method is a
    definition of the same name, a chain of calls is a [Comp] with the calls in
    the source's order. Exceptions are values: [StdError] for what
    [catch (const std::exception&)] catches, [ForeignError] for the others.
    Failures are inputs: the n-th SQLite call of a connection fails when
    [fault n], the n-th libsignal call when [ffi_fault n]; answers of servers,
    callbacks and times are arguments. Theorems quantify over all of them.

    ** What the theorems show

    - Refinement and equivalence: the ring buffer is a bounded queue that drops
      and pads; under every interleaving of its two threads it is FIFO; the three
      watchdog loops are, account by account, the steps of one watchdog; (as a
      lemma) the handle-level cryptography is the one the sender is proved
      against.
    - Data: a delivered call message is the one sent; config set then get; the
      contacts, link URL, device name, codecs and (as a lemma) QR pictures; the schema's
      invariant under every write sequence and failure; all-or-nothing deletion.
    - Resources: which handles (each passed one destroyed exactly once, misuse of a
      dead one leaving a mark), connections, ports, legs, queues and managers
      are live after each operation, on success and failure: a socket from its
      constructor to its destructor, a request's libcurl objects, the end of a
      call, the end of the process, the PJSIP objects of a bridge.
    - Threads: however its handlers interleave, an account never dials through a
      pointer to a deleted leg, calls PJSIP only on known threads and does not
      block; while only one of them at a time makes or deletes legs, and under the
      two further conditions [HandoffSerial] names (when RINGING comes, and when a
      leg is given up), no leg is used after its deletion or lost. The examples beside these theorems show
      what does go wrong when two of them overlap.
    - Safety of calls and messages: a Signal call is accepted only after its
      SIP leg was confirmed; an accepted sealed-sender message was validated; a
      provisioning message is authentic; an uploaded prekey is stored; an
      account is wiped only on a confirmed deletion.
    - Where a theorem about the running daemon needs that no set-up kills it,
      that is the condition [safe_setup] of [Lifecycle]; what happens otherwise is
      in [setup_account_cases] and [reload_implements_config].
    - Outcomes: what setupAccount, a reload, an incoming call, a lookup, a sync,
      an HTTPS request, a registration, gendb's verify, link and config set
      leave behind, on every path.
    - The interface: no key or resize makes it fail or read out of bounds; gendb
      is only run with what the user asked for and confirmed; of a
      password the interface keeps only the length is drawn (what gendb prints of
      it is shown); a form that is saved is accepted by the daemon; every message
      exists in every language with its arguments.
    - Liveness and termination: the daemon's main ends after a stop request with
      everything released; a change of the configuration reaches the running
      accounts; a scanned link completes; (as a lemma) a cancelled one ends.
    Where the code does not do what it or its comments say, the theorem states
    what it does, and the divergence is noted beside the definition.

    ** Fuel and bounds

    Fixpoints are structural on the data (bytes, rows, queue items, events)
    except three kinds. Loops over a queue or a schedule carry fuel, and a
    theorem or lemma beside them gives the fuel that is enough and that the
    result no longer depends on it. Retries are bounded by the source's
    constants. Loops that run for the daemon's lifetime are step relations or
    folds over an arbitrary list of events. Integers are [Z] with the source's
    width written out where arithmetic can leave it ([u8], [to_uint], [to_int],
    64-bit sizes in [Padding], versions in [Storage]).

    ** Not modelled

    - FTXUI: layout, colours and the terminal; [Tui] stops at the tree of
      elements it hands over.
    - daemon/main.cpp: logging and usage texts; PJSIP's own set-up beyond the
      calls [Lifecycle] makes (codec priorities, credentials). gendb's help and
      printed wording (a command's output is a list of notes).
    - [Lifecycle] has the contact sync and the key request of a set-up as steps
      with an answer; what a sync does to the account is in [Watchdog] and
      [StorageSync]. DaemonConfig::load sees one state of the database.
    - data races below the granularity of the locks and atomics the source uses
      and the C++ memory model beyond the argument in [RingBuffer]; of an account
      that several threads use, [Handoff] has the legs, the peer and the mutex,
      the rest ([Calls], [Push]) runs one handler after the other. std::sin is a
      parameter of [Probe].
    - the tables of function pointers that ProtocolStores hands to libsignal,
      whose entries are the operations of [ProtocolStores].
    - src/test: programs run by hand against live services; they state nothing
      that could be checked here. *)

From Stdlib Require Export ZArith Lia Ascii.
From stdpp Require Export base gmap strings list pretty fin_maps relations.

#[export] Set Default Proof Using "Type".
Open Scope Z_scope.

(** ** Machine integers: a w-bit value is a [Z]; the wrap-around is written out *)

Definition wrap (w z : Z) : Z := z mod 2 ^ w.
Definition u8 (z : Z) : Z := wrap 8 z.
Definition u32 (z : Z) : Z := wrap 32 z.
Definition u64 (z : Z) : Z := wrap 64 z.

Definition int_min : Z := - 2 ^ 31.
Definition int_max : Z := 2 ^ 31 - 1.
Definition int64_max : Z := 2 ^ 63 - 1.

(** [std::vector<uint8_t>] *)
Abbreviation Bytes := (list Z).
Definition is_byte (z : Z) : Prop := 0 <= z < 256.

(** ** C++ exceptions

    The source distinguishes three kinds in its handlers: those derived from
    [std::exception], pjsua2's [pj::Error] (handled by its own clauses), and
    anything else, which only [catch (...)] stops. *)

Inductive exn :=
| StdError (what : string)
| PjError
| ForeignError.

Inductive outcome (A : Type) :=
| Ok (a : A)
| Throw (e : exn).
Arguments Ok {A} a.
Arguments Throw {A} e.

#[export] Instance exn_eq_dec : EqDecision exn.
Proof. solve_decision. Defined.
#[export] Instance outcome_eq_dec {A} `{EqDecision A} : EqDecision (outcome A).
Proof. solve_decision. Defined.

#[export] Instance outcome_ret : MRet outcome := @Ok.
#[export] Instance outcome_bind : MBind outcome := fun A B f m =>
  match m with Ok a => f a | Throw e => Throw e end.

(** No exception but a std::exception; none but pjsua2's. *)
Definition std_outcome {A} (o : outcome A) : Prop :=
  match o with Throw (StdError _) | Ok _ => True | _ => False end.
Definition pj_outcome {A} (o : outcome A) : Prop :=
  match o with Ok _ | Throw PjError => True | _ => False end.

Definition is_ok {A} (o : outcome A) : bool :=
  match o with Ok _ => true | Throw _ => false end.

(** ** Stateful computations whose state survives an exception

    A C++ function that throws keeps the side effects it had before the throw;
    so the state is returned in both cases. *)

Definition Comp (S A : Type) : Type := S -> outcome A * S.

#[export] Instance comp_ret {S} : MRet (Comp S) := fun A a s => (Ok a, s).
#[export] Instance comp_bind {S} : MBind (Comp S) := fun A B f m s =>
  match m s with
  | (Ok a, s') => f a s'
  | (Throw e, s') => (Throw e, s')
  end.

(** The result of code outside the model. *)
Definition of_outcome {S A} (o : outcome A) : Comp S A := fun s => (o, s).
Definition throw {S A} (e : exn) : Comp S A := fun s => (Throw e, s).
Definition throw_std {S A} (what : string) : Comp S A := throw (StdError what).
Definition get {S} : Comp S S := fun s => (Ok s, s).
Definition gets {S A} (f : S -> A) : Comp S A := fun s => (Ok (f s), s).
Definition modify {S} (f : S -> S) : Comp S unit := fun s => (Ok tt, f s).

(** [catch (const std::exception&)], [catch (pj::Error&)] and [catch (...)]. *)
Definition catch_std {S A} (m : Comp S A) (h : string -> Comp S A) : Comp S A := fun s =>
  match m s with
  | (Throw (StdError w), s') => h w s'
  | r => r
  end.
Definition catch_pj {S A} (m : Comp S A) (h : Comp S A) : Comp S A := fun s =>
  match m s with
  | (Throw PjError, s') => h s'
  | r => r
  end.
Definition catch_all {S A} (m : Comp S A) (h : exn -> Comp S A) : Comp S A := fun s =>
  match m s with
  | (Throw e, s') => h e s'
  | r => r
  end.

Definition when {S} (b : bool) (m : Comp S unit) : Comp S unit :=
  if b then m else mret tt.

(** [for (const auto& x : l) body(x)] *)
Fixpoint for_each {S A} (f : A -> Comp S unit) (l : list A) : Comp S unit :=
  match l with
  | [] => mret tt
  | x :: l => f x ;; for_each f l
  end.

(** A loop that collects one result per element. *)
Fixpoint map_each {S A B} (f : A -> Comp S B) (l : list A) : Comp S (list B) :=
  match l with
  | [] => mret []
  | x :: l => y ← f x; ys ← map_each f l; mret (y :: ys)
  end.

(** ** Interface: a component's state inside a larger one

    A client keeps a component's state in its own; [lift] runs the
    component's operations there.  The laws are what the client's theorems
    rely on. *)

Class Has (S W : Type) := { prj : W -> S; put : S -> W -> W }.
Arguments prj {S W _} _.
Arguments put {S W _} _ _.

Class HasLaws (S W : Type) `{!Has S W} := {
  prj_put : forall (s : S) (w : W), prj (put s w) = s;
  put_prj : forall w : W, put (prj w : S) w = w;
  put_put : forall (s1 s2 : S) (w : W), put s2 (put s1 w) = put s2 w;
}.

(** Two components that do not overlap. *)
Class HasIndep (S T W : Type) `{!Has S W} `{!Has T W} := {
  prj_put_indep : forall (s : S) (w : W), (prj (put s w) : T) = prj w;
}.

Definition lift {S W A} `{!Has S W} (m : Comp S A) : Comp W A := fun w =>
  let '(r, s) := m (prj w) in (r, put s w).

(** ** C++ strings *)

Definition ch (n : nat) : ascii := ascii_of_nat n.
Definition str_empty (s : string) : bool :=
  match s with EmptyString => true | _ => false end.
Definition str_nonempty (s : string) : bool := negb (str_empty s).
Definition str_eqb (s t : string) : bool := bool_decide (s = t).

(** [s.find(c)], as the parts before and after the first [c]. *)
Fixpoint split_first (c : ascii) (s : string) : option (string * string) :=
  match s with
  | EmptyString => None
  | String a s' =>
    if bool_decide (a = c) then Some (EmptyString, s')
    else match split_first c s' with
         | Some (p, q) => Some (String a p, q)
         | None => None
         end
  end.

(** [s.rfind(c)], as the parts before and after the last [c]. *)
Fixpoint split_last (c : ascii) (s : string) : option (string * string) :=
  match s with
  | EmptyString => None
  | String a s' =>
    match split_last c s' with
    | Some (p, q) => Some (String a p, q)
    | None => if bool_decide (a = c) then Some (EmptyString, s') else None
    end
  end.

Fixpoint str_mem (c : ascii) (s : string) : bool :=
  match s with
  | EmptyString => false
  | String a s' => bool_decide (a = c) || str_mem c s'
  end.

Fixpoint str_all (p : ascii -> bool) (s : string) : bool :=
  match s with EmptyString => true | String c s' => p c && str_all p s' end.

(** ** Decimal conversions: [std::to_string], [std::stoi], [std::stoul] *)

Definition to_string (z : Z) : string := pretty z.

Definition digit_of (c : ascii) : option Z :=
  let n := Z.of_nat (nat_of_ascii c) in
  if bool_decide (48 <= n <= 57) then Some (n - 48) else None.

(** The longest run of decimal digits at the head: (digits seen, value). *)
Fixpoint digits (seen : bool) (acc : Z) (s : string) : bool * Z :=
  match s with
  | EmptyString => (seen, acc)
  | String c s' =>
    match digit_of c with
    | Some d => digits true (10 * acc + d) s'
    | None => (seen, acc)
    end
  end.

Definition is_space (c : ascii) : bool :=
  let n := nat_of_ascii c in
  bool_decide (n = 32)%nat || (bool_decide (9 <= n)%nat && bool_decide (n <= 13)%nat).

Fixpoint skip_space (s : string) : string :=
  match s with
  | String c s' => if is_space c then skip_space s' else s
  | EmptyString => EmptyString
  end.

Definition sign_of (s : string) : bool * string :=
  match s with
  | String c s' =>
    if bool_decide (c = "-"%char) then (true, s')
    else if bool_decide (c = "+"%char) then (false, s') else (false, s)
  | EmptyString => (false, s)
  end.

Definition stoi (s : string) : outcome Z :=
  let '(neg, body) := sign_of (skip_space s) in
  let '(seen, v) := digits false 0 body in
  if negb seen then Throw (StdError "stoi: invalid_argument")
  else let z := if neg then - v else v in
       if bool_decide (int_min <= z <= int_max) then Ok z
       else Throw (StdError "stoi: out_of_range").

Definition stoul (s : string) : outcome Z :=
  let '(neg, body) := sign_of (skip_space s) in
  let '(seen, v) := digits false 0 body in
  if negb seen then Throw (StdError "stoul: invalid_argument")
  else if bool_decide (v < 2 ^ 64) then Ok (u64 (if neg then - v else v))
       else Throw (StdError "stoul: out_of_range").

(** ** Lemmas *)

Section comp_lemmas.
Context {S : Type}.

Lemma bind_ok {A B} (m : Comp S A) (f : A -> Comp S B) s a s' :
  m s = (Ok a, s') -> (m ≫= f) s = f a s'.
Proof. intros H. unfold mbind, comp_bind. by rewrite H. Qed.

Lemma bind_throw {A B} (m : Comp S A) (f : A -> Comp S B) s e s' :
  m s = (Throw e, s') -> (m ≫= f) s = (Throw e, s').
Proof. intros H. unfold mbind, comp_bind. by rewrite H. Qed.

Lemma bind_inv_ok {A B} (m : Comp S A) (f : A -> Comp S B) s b s' :
  (m ≫= f) s = (Ok b, s') ->
  exists a s1, m s = (Ok a, s1) /\ f a s1 = (Ok b, s').
Proof.
  unfold mbind, comp_bind. destruct (m s) as [[a|e] s1]; [eauto|congruence].
Qed.

(** A property of the state kept by every step of a computation. *)
Definition preserves {A} (I : S -> Prop) (m : Comp S A) : Prop :=
  forall s, I s -> I (m s).2.

Lemma preserves_ret {A} I (a : A) : preserves I (mret a).
Proof. by intros s. Qed.
Lemma preserves_throw {A} I e : preserves I (@throw S A e).
Proof. by intros s. Qed.
Lemma preserves_gets {A} I (f : S -> A) : preserves I (gets f).
Proof. by intros s. Qed.
Lemma preserves_of_outcome {A} I (o : outcome A) : preserves I (@of_outcome S A o).
Proof. by intros s. Qed.
Lemma preserves_get I : preserves I (@get S).
Proof. by intros s. Qed.
Lemma preserves_modify I f : (forall s, I s -> I (f s)) -> preserves I (modify f).
Proof. intros H s. apply H. Qed.

Lemma preserves_bind {A B} I (m : Comp S A) (f : A -> Comp S B) :
  preserves I m -> (forall a, preserves I (f a)) -> preserves I (m ≫= f).
Proof.
  intros Hm Hf s Hs. unfold mbind, comp_bind. specialize (Hm s Hs).
  destruct (m s) as [[a|e] s1]; [by apply Hf|done].
Qed.

Lemma preserves_catch_all {A} I (m : Comp S A) h :
  preserves I m -> (forall e, preserves I (h e)) -> preserves I (catch_all m h).
Proof.
  intros Hm Hh s Hs. unfold catch_all. specialize (Hm s Hs).
  destruct (m s) as [[a|e] s1]; [done|by apply Hh].
Qed.

Lemma preserves_catch_std {A} I (m : Comp S A) h :
  preserves I m -> (forall w, preserves I (h w)) -> preserves I (catch_std m h).
Proof.
  intros Hm Hh s Hs. unfold catch_std. specialize (Hm s Hs).
  destruct (m s) as [[a|[w| |]] s1]; [done|by apply Hh|done|done].
Qed.

Lemma preserves_catch_pj {A} I (m : Comp S A) h :
  preserves I m -> preserves I h -> preserves I (catch_pj m h).
Proof.
  intros Hm Hh s Hs. unfold catch_pj. specialize (Hm s Hs).
  destruct (m s) as [[a|[w| |]] s1]; [done|done|by apply Hh|done].
Qed.

Lemma preserves_when I b m : preserves I m -> preserves I (when b m).
Proof. destruct b; [done|intros _; apply preserves_ret]. Qed.

Lemma preserves_for_each {A} I (f : A -> Comp S unit) l :
  (forall x, preserves I (f x)) -> preserves I (for_each f l).
Proof.
  intros Hf. induction l as [|x l IH]; simpl; [apply preserves_ret|].
  apply preserves_bind; [apply Hf|intros _; apply IH].
Qed.

Lemma preserves_map_each {A B} I (f : A -> Comp S B) l :
  (forall x, preserves I (f x)) -> preserves I (map_each f l).
Proof.
  intros Hf. induction l as [|x l IH]; simpl; [apply preserves_ret|].
  apply preserves_bind; [apply Hf|intros y].
  apply preserves_bind; [apply IH|intros ys; apply preserves_ret].
Qed.
End comp_lemmas.

(** Only std::exceptions. *)
Definition std_comp {S A} (f : Comp S A) : Prop := forall s, std_outcome (f s).1.

Lemma std_comp_ret {S A} (a : A) : std_comp (@mret (Comp S) _ A a).
Proof. done. Qed.
Lemma std_comp_bind {S A B} (f : Comp S A) (k : A -> Comp S B) :
  std_comp f -> (forall a, std_comp (k a)) -> std_comp (f ≫= k).
Proof.
  intros Hf Hk s. unfold mbind, comp_bind. specialize (Hf s).
  destruct (f s) as [[a|e] s1]; [apply Hk|done].
Qed.

(** From a state with [P] the computation returns [a] in a state with [Q a];
    it throws only when [F]. *)
Definition yields {S A} (F : Prop) (P : S -> Prop) (m : Comp S A) (Q : A -> S -> Prop) : Prop :=
  forall s, P s -> match m s with (Ok a, s') => Q a s' | (Throw _, _) => F end.

Lemma yields_bind {S A B} F (P : S -> Prop) (m : Comp S A) (Q : A -> S -> Prop) (k : A -> Comp S B) R :
  yields F P m Q -> (forall a, yields F (Q a) (k a) R) -> yields F P (m ≫= k) R.
Proof.
  intros Hm Hk s Hs. unfold mbind, comp_bind. specialize (Hm s Hs).
  destruct (m s) as [[a|e] s1]; [by apply Hk|done].
Qed.
Lemma yields_ret {S A} F (P : S -> Prop) (a : A) (Q : A -> S -> Prop) :
  (forall s, P s -> Q a s) -> yields F P (mret a) Q.
Proof. intros H s Hs. by apply H. Qed.
Lemma yields_weaken {S A} F (P P' : S -> Prop) (m : Comp S A) (Q Q' : A -> S -> Prop) :
  yields F P m Q -> (forall s, P' s -> P s) -> (forall a s, Q a s -> Q' a s) -> yields F P' m Q'.
Proof. intros Hm HP HQ s Hs. specialize (Hm s (HP s Hs)). destruct (m s) as [[a|e] s1]; [by apply HQ|done]. Qed.

Lemma yields_run {S A} (P : S -> Prop) (f : Comp S A) (Q : A -> S -> Prop) s : yields False P f Q -> P s -> exists a s', f s = (Ok a, s') /\ Q a s'.
Proof. intros H Hs. specialize (H s Hs). destruct (f s) as [[a|e] s']; [by exists a, s'|done]. Qed.
Lemma yields_when {S} (P Q : S -> Prop) (b : bool) (f : Comp S unit) :
  (b = true -> yields False P f (fun _ => Q)) -> (b = false -> forall s, P s -> Q s) -> yields False P (when b f) (fun _ => Q).
Proof. destruct b; intros H1 H2; [by apply H1|]. intros s Hs. by apply H2. Qed.

(** Only exceptions in [E]; [never] none at all. *)
Definition raises_only {S A} (E : exn -> Prop) (f : Comp S A) : Prop :=
  forall s, match (f s).1 with Ok _ => True | Throw e => E e end.
Definition never (e : exn) : Prop := False.
Definition is_std (e : exn) : Prop := match e with StdError _ => True | _ => False end.
Definition is_pj (e : exn) : Prop := e = PjError.

Section raises.
Context {S : Type} (E : exn -> Prop).
Implicit Types A B : Type.

Lemma raises_ret {A} (a : A) : raises_only E (@mret (Comp S) _ A a).
Proof. done. Qed.
Lemma raises_gets {A} (f : S -> A) : raises_only E (gets f).
Proof. done. Qed.
Lemma raises_get : raises_only E (@get S).
Proof. done. Qed.
Lemma raises_modify (f : S -> S) : raises_only E (modify f).
Proof. done. Qed.
Lemma raises_throw {A} e : E e -> raises_only E (@throw S A e).
Proof. by intros H s. Qed.
Lemma raises_of_outcome {A} (o : outcome A) :
  match o with Ok _ => True | Throw e => E e end -> raises_only E (@of_outcome S A o).
Proof. by intros H s. Qed.
Lemma raises_bind {A B} (f : Comp S A) (k : A -> Comp S B) :
  raises_only E f -> (forall a, raises_only E (k a)) -> raises_only E (f ≫= k).
Proof.
  intros Hf Hk s. unfold mbind, comp_bind. specialize (Hf s).
  destruct (f s) as [[a|e] s1]; [apply Hk|done].
Qed.
Lemma raises_when b (f : Comp S unit) : raises_only E f -> raises_only E (when b f).
Proof. by destruct b. Qed.
Lemma raises_for_each {A} (f : A -> Comp S unit) l :
  (forall x, raises_only E (f x)) -> raises_only E (for_each f l).
Proof.
  intros Hf. induction l as [|x l IH]; [apply raises_ret|].
  apply raises_bind; [apply Hf|intros _; apply IH].
Qed.
Lemma raises_catch_all {A} (f : Comp S A) h :
  (forall e, raises_only E (h e)) -> raises_only E (catch_all f h).
Proof. intros Hh s. unfold catch_all. destruct (f s) as [[a|e] s1]; [done|apply Hh]. Qed.
Lemma raises_catch_std {A} (f : Comp S A) h :
  raises_only (fun e => is_std e \/ E e) f -> (forall w, raises_only E (h w)) ->
  raises_only E (catch_std f h).
Proof.
  intros Hf Hh s. unfold catch_std. specialize (Hf s).
  destruct (f s) as [[a|[w| |]] s1]; [done|apply Hh|by destruct Hf|by destruct Hf].
Qed.
Lemma raises_catch_pj {A} (f : Comp S A) h :
  raises_only (fun e => is_pj e \/ E e) f -> raises_only E h -> raises_only E (catch_pj f h).
Proof.
  intros Hf Hh s. unfold catch_pj. specialize (Hf s).
  destruct (f s) as [[a|[w| |]] s1]; [done|by destruct Hf|apply Hh|by destruct Hf].
Qed.
Lemma raises_mono {A} (E' : exn -> Prop) (f : Comp S A) :
  (forall e, E' e -> E e) -> raises_only E' f -> raises_only E f.
Proof. intros H Hf s. specialize (Hf s). destruct (f s) as [[a|e] s1]; [done|by apply H]. Qed.
End raises.

Lemma raises_lift {S W A} `{!Has S W} (E : exn -> Prop) (f : Comp S A) :
  raises_only E f -> raises_only E (lift f : Comp W A).
Proof. intros Hf w. unfold lift. specialize (Hf (prj w)). by destruct (f (prj w)). Qed.

Lemma raises_never {S A} (f : Comp S A) s : raises_only never f -> exists a s', f s = (Ok a, s').
Proof. intros Hf. specialize (Hf s). destruct (f s) as [[a|e] s']; [by exists a, s'|done]. Qed.

Lemma preserves_lift {S W A} `{!Has S W, !HasLaws S W} (I : S -> Prop) (m : Comp S A) :
  preserves I m -> preserves (fun w : W => I (prj w)) (lift m).
Proof.
  intros Hm w Hw. unfold lift. specialize (Hm _ Hw).
  destruct (m (prj w)) as [r s]. simpl in *. by rewrite prj_put.
Qed.

(** A component the computation does not touch keeps its state. *)
Lemma lift_ok_inv {S W A} `{!Has S W} (m : Comp S A) (w w' : W) a :
  lift m w = (Ok a, w') -> exists s', m (prj w) = (Ok a, s').
Proof. unfold lift. destruct (m (prj w)) as [r s']. intros [= -> _]. by exists s'. Qed.

Lemma lift_frame {S T W A} `{!Has S W, !Has T W, !HasIndep S T W} (m : Comp S A) (w : W) :
  (prj (lift m w).2 : T) = prj w.
Proof.
  unfold lift. destruct (m (prj w)) as [r s]. simpl. apply prj_put_indep.
Qed.

(** Invariants of a transition relation hold in every reachable state. *)
Lemma rtc_invariant {A} (R : relation A) (I : A -> Prop) x y :
  (forall a b, I a -> R a b -> I b) -> I x -> rtc R x y -> I y.
Proof. intros Hstep Hx Hr. induction Hr; eauto. Qed.

(** *** Strings *)

Lemma str_app_cons a s t : String.append (String a s) t = String a (String.append s t).
Proof. done. Qed.
Lemma str_app_nil_l t : String.append EmptyString t = t.
Proof. done. Qed.

Lemma str_app_nil_r s : String.append s EmptyString = s.
Proof. induction s as [|a s IH]; [done|]. by rewrite str_app_cons, IH. Qed.

Lemma str_app_assoc s t u :
  String.append (String.append s t) u = String.append s (String.append t u).
Proof. induction s as [|a s IH]; [done|]. by rewrite !str_app_cons, IH. Qed.

Lemma split_last_none c s : str_mem c s = false -> split_last c s = None.
Proof.
  induction s as [|a s IH]; simpl; [done|].
  intros [Ha Hs]%orb_false_iff. rewrite IH by done. by rewrite Ha.
Qed.

Lemma split_last_app c p q :
  str_mem c q = false -> split_last c (String.append p (String c q)) = Some (p, q).
Proof.
  intros Hq. induction p as [|a p IH].
  - rewrite str_app_nil_l. simpl. rewrite split_last_none by done.
    by rewrite bool_decide_eq_true_2.
  - rewrite str_app_cons. simpl. by rewrite IH.
Qed.

Lemma split_last_sound c s p q :
  split_last c s = Some (p, q) ->
  s = String.append p (String c q) /\ str_mem c q = false.
Proof.
  revert p q. induction s as [|a s IH]; simpl; [done|]. intros p q.
  destruct (split_last c s) as [[p' q']|] eqn:E.
  - intros [= <- <-]. destruct (IH p' q') as [-> ?]; done.
  - case_bool_decide; [|done]. intros [= <- <-]. subst. split; [done|].
    clear IH. induction s as [|b s IH]; simpl in *; [done|].
    destruct (split_last c s) as [[? ?]|]; [done|].
    case_bool_decide; [done|]. by apply IH.
Qed.

Lemma str_mem_app c s t : str_mem c (String.append s t) = str_mem c s || str_mem c t.
Proof.
  induction s as [|a s IH]; [done|]. rewrite str_app_cons. cbn [str_mem]. by rewrite IH, orb_assoc.
Qed.

Lemma str_all_app p s t : str_all p (String.append s t) = str_all p s && str_all p t.
Proof. induction s as [|c s IH]; [done|]. rewrite str_app_cons. cbn [str_all]. by rewrite IH, andb_assoc. Qed.

(** A character that does not satisfy what all of them do is not there. *)
Lemma str_all_mem p c s : p c = false -> str_all p s = true -> str_mem c s = false.
Proof.
  intros Hp. induction s as [|a s IH]; [done|]. cbn. intros [Ha Hs]%andb_true_iff. rewrite IH by done.
  case_bool_decide; [congruence|done].
Qed.

Lemma split_first_app c p q : str_mem c p = false -> split_first c (String.append p (String c q)) = Some (p, q).
Proof.
  induction p as [|a p IH]; cbn [str_mem]; intros H.
  - rewrite str_app_nil_l. cbn [split_first]. by rewrite bool_decide_eq_true_2.
  - apply orb_false_iff in H as [Ha Hp]. rewrite str_app_cons. cbn [split_first]. by rewrite Ha, IH.
Qed.

Lemma std_stoi s : std_outcome (stoi s).
Proof.
  unfold stoi. destruct (sign_of _) as [neg body], (digits false 0 body) as [seen v].
  destruct seen; [|done]. cbn [negb]. by destruct (bool_decide _).
Qed.

(** *** [std::to_string] is read back by [std::stoi] *)

Lemma pretty_N_char_digit n : (n < 10)%N -> digit_of (pretty_N_char n) = Some (Z.of_N n).
Proof.
  intros Hn.
  destruct n as [|p]; [done|].
  do 4 (try (destruct p as [p|p|]; try done)); lia.
Qed.

Lemma pretty_N_go_digits x s :
  (0 < x)%N ->
  exists k, forall seen acc,
    digits seen acc (pretty_N_go x s) = digits true (acc * 10 ^ Z.of_nat (S k) + Z.of_N x) s.
Proof.
  revert s. induction (N.lt_wf_0 x) as [x _ IH]; intros s Hx.
  rewrite pretty_N_go_step by done.
  assert (x `mod` 10 < 10)%N as Hm by (apply N.mod_lt; done).
  pose proof (N.div_mod x 10 ltac:(done)) as Hdm.
  destruct (decide (0 < x `div` 10)%N) as [Hq|Hq].
  - destruct (IH (x `div` 10)%N ltac:(by apply N.div_lt)
      (String (pretty_N_char (x `mod` 10)) s) Hq) as [k Hk].
    exists (S k). intros seen acc. rewrite Hk. simpl. rewrite pretty_N_char_digit by done.
    f_equal. rewrite !Nat2Z.inj_succ, !Z.pow_succ_r by lia. lia.
  - assert (x `div` 10 = 0)%N as Hz by lia. rewrite Hz, pretty_N_go_0.
    exists 0%nat. intros seen acc. simpl. rewrite pretty_N_char_digit by done.
    f_equal. change (10 ^ Z.of_nat 1) with 10. lia.
Qed.

Lemma digits_to_string z :
  0 <= z -> digits false 0 (to_string z) = (true, z).
Proof.
  intros Hz. unfold to_string, pretty, pretty_Z.
  destruct z as [|p|p]; [done| |lia].
  unfold pretty, pretty_positive, pretty, pretty_N. rewrite decide_False by done.
  destruct (pretty_N_go_digits (N.pos p) "" ltac:(lia)) as [k ->]. done.
Qed.

(** Every character [std::to_string] writes for a natural number is a digit. *)
Fixpoint all_digits (s : string) : bool :=
  match s with
  | EmptyString => true
  | String c s' => bool_decide (is_Some (digit_of c)) && all_digits s'
  end.

Lemma pretty_N_go_all_digits x s : all_digits s = true -> all_digits (pretty_N_go x s) = true.
Proof.
  revert s. induction (N.lt_wf_0 x) as [x _ IH]; intros s Hs.
  assert (x = 0 \/ 0 < x)%N as [->|Hx] by lia; [by rewrite pretty_N_go_0|].
  rewrite pretty_N_go_step by done. apply IH; [by apply N.div_lt|].
  simpl. rewrite pretty_N_char_digit by (apply N.mod_lt; done). done.
Qed.

Lemma to_string_all_digits z : 0 <= z -> all_digits (to_string z) = true.
Proof.
  intros Hz. unfold to_string, pretty, pretty_Z.
  destruct z as [|p|p]; [done| |lia].
  unfold pretty, pretty_positive, pretty, pretty_N. rewrite decide_False by done.
  by apply pretty_N_go_all_digits.
Qed.

Lemma all_digits_no c s : digit_of c = None -> all_digits s = true -> str_mem c s = false.
Proof.
  intros Hc. induction s as [|a s IH]; simpl; [done|].
  intros [Ha Hs]%andb_true_iff. apply bool_decide_eq_true_1 in Ha. rewrite IH by done.
  apply orb_false_iff. split; [|done]. apply bool_decide_eq_false_2. intros ->.
  destruct Ha as [d Ha]. congruence.
Qed.

Lemma digit_not_space_sign c d :
  digit_of c = Some d -> is_space c = false /\ c <> "-"%char /\ c <> "+"%char.
Proof.
  destruct c as [[] [] [] [] [] [] [] []]; vm_compute; intros H; try discriminate;
    repeat split; congruence.
Qed.

Lemma stoi_of_digits s z :
  all_digits s = true -> digits false 0 s = (true, z) -> 0 <= z <= int_max -> stoi s = Ok z.
Proof.
  intros Ha Hd Hz. unfold stoi. destruct s as [|c s]; [done|].
  simpl in Ha. apply andb_true_iff in Ha as [[d Hc]%bool_decide_eq_true_1 _].
  destruct (digit_not_space_sign _ _ Hc) as (Hsp & Hm & Hp).
  assert (skip_space (String c s) = String c s) as -> by (simpl; by rewrite Hsp).
  assert (sign_of (String c s) = (false, String c s)) as ->
    by (simpl; by rewrite !bool_decide_eq_false_2).
  rewrite Hd. simpl. rewrite bool_decide_eq_true_2; [done|]. unfold int_min. lia.
Qed.

Lemma stoi_to_string z : 0 <= z <= int_max -> stoi (to_string z) = Ok z.
Proof.
  intros Hz. apply stoi_of_digits; [by apply to_string_all_digits; lia| |done].
  apply digits_to_string; lia.
Qed.

Lemma stoul_of_digits s z :
  all_digits s = true -> digits false 0 s = (true, z) -> 0 <= z < 2 ^ 64 -> stoul s = Ok z.
Proof.
  intros Ha Hd Hz. unfold stoul. destruct s as [|c s]; [done|].
  simpl in Ha. apply andb_true_iff in Ha as [[d Hc]%bool_decide_eq_true_1 _].
  destruct (digit_not_space_sign _ _ Hc) as (Hsp & Hm & Hp).
  assert (skip_space (String c s) = String c s) as -> by (simpl; by rewrite Hsp).
  assert (sign_of (String c s) = (false, String c s)) as ->
    by (simpl; by rewrite !bool_decide_eq_false_2).
  rewrite Hd. cbn [negb]. rewrite bool_decide_eq_true_2 by lia.
  unfold u64, wrap. by rewrite Z.mod_small.
Qed.

Lemma stoul_to_string z : 0 <= z < 2 ^ 64 -> stoul (to_string z) = Ok z.
Proof.
  intros Hz. apply stoul_of_digits; [by apply to_string_all_digits; lia| |done].
  apply digits_to_string; lia.
Qed.

(** *** Automation shared by the components *)

Create HintDb signal.
Create Rewrite HintDb signal.
#[export] Hint Resolve preserves_ret preserves_throw preserves_gets
  preserves_of_outcome preserves_when : signal.
#[export] Hint Resolve preserves_for_each preserves_map_each : signal.
#[export] Hint Rewrite @str_app_assoc @str_app_nil_r : signal.

(** Evaluate the booleans of a goal that mention decided propositions. *)
Ltac bdec :=
  repeat match goal with
  | H : bool_decide _ = true |- _ => apply bool_decide_eq_true_1 in H
  | H : bool_decide _ = false |- _ => apply bool_decide_eq_false_1 in H
  | H : andb _ _ = true |- _ => apply andb_true_iff in H; destruct H
  | H : orb _ _ = false |- _ => apply orb_false_iff in H; destruct H
  | H : negb _ = true |- _ => apply negb_true_iff in H
  | H : negb _ = false |- _ => apply negb_false_iff in H
  end.

(** Walk through a computation bind by bind to show that it keeps an invariant. *)
Ltac keeps :=
  repeat match goal with
  | |- preserves _ (mbind _ _) => apply preserves_bind
  | |- preserves _ (mret _) => apply preserves_ret
  | |- preserves _ (throw _) => apply preserves_throw
  | |- preserves _ (throw_std _) => apply preserves_throw
  | |- preserves _ (gets _) => apply preserves_gets
  | |- preserves _ (when _ _) => apply preserves_when
  | |- preserves _ (for_each _ _) => apply preserves_for_each
  | |- preserves _ (map_each _ _) => apply preserves_map_each
  | |- preserves _ (catch_all _ _) => apply preserves_catch_all
  | |- preserves _ (catch_std _ _) => apply preserves_catch_std
  | |- preserves _ (catch_pj _ _) => apply preserves_catch_pj
  | |- preserves _ (if ?b then _ else _) => destruct b
  | |- preserves _ (match ?x with _ => _ end) => destruct x
  | |- forall _, _ => intros ?
  end; eauto with signal.

(** The same walk for the exceptions a computation can raise. *)
Ltac raises :=
  repeat match goal with
  | |- raises_only _ (mbind _ _) => apply raises_bind
  | |- raises_only _ (mret _) => apply raises_ret
  | |- raises_only _ (gets _) => apply raises_gets
  | |- raises_only _ get => apply raises_get
  | |- raises_only _ (modify _) => apply raises_modify
  | |- raises_only _ (when _ _) => apply raises_when
  | |- raises_only _ (for_each _ _) => apply raises_for_each
  | |- raises_only _ (lift _) => apply raises_lift
  | |- raises_only _ (of_outcome _) => apply raises_of_outcome
  | |- raises_only _ (catch_all _ _) => apply raises_catch_all
  | |- raises_only _ (catch_std _ _) => apply raises_catch_std
  | |- raises_only _ (catch_pj _ _) => apply raises_catch_pj
  | |- raises_only _ (if ?b then _ else _) => destruct b
  | |- raises_only _ (match ?x with _ => _ end) => destruct x
  | |- forall _, _ => intros ?
  end; eauto with signal.

(** Run a computation whose state is a constructor. *)
Ltac exec :=
  unfold when, throw_std, throw, gets, get, modify, catch_std, catch_pj, catch_all,
    mbind, comp_bind, mret, comp_ret in *; cbn in *.
