(* ===== verification/Uuid.v ===== *)
(** Service ids as text: the 8-4-4-4-12 form that src/daemon/StorageServiceSync.cpp
    and src/signal/Cdsi.cpp print with one and the same snprintf format, and a
    reader of it. *)

From S2P Require Import Prelude.

Open Scope Z_scope.

(** printf's %02x of a byte. *)
Definition hex_digit (n : Z) : ascii :=
  if bool_decide (n < 10) then ch (Z.to_nat (48 + n)) else ch (Z.to_nat (87 + n)).
Definition hex_byte (b : Z) : string := String (hex_digit (b / 16)) (String (hex_digit (b mod 16)) EmptyString).
Definition hex (l : Bytes) : string := foldr (fun b s => String.append (hex_byte b) s) EmptyString l.

Definition uuid_text (bytes : Bytes) : string :=
  String.append (hex (take 4 bytes)) (String "-" (String.append (hex (take 2 (drop 4 bytes)))
    (String "-" (String.append (hex (take 2 (drop 6 bytes))) (String "-"
      (String.append (hex (take 2 (drop 8 bytes))) (String "-" (hex (drop 10 bytes))))))))).

(** A reader of the text: hexadecimal digits in pairs, dashes passed over. *)
Definition hex_value (c : ascii) : option Z :=
  let n := Z.of_nat (nat_of_ascii c) in
  if bool_decide (48 <= n <= 57) then Some (n - 48)
  else if bool_decide (97 <= n <= 102) then Some (n - 87) else None.
Fixpoint unhex (s : string) : option Bytes :=
  match s with
  | EmptyString => Some []
  | String c s' =>
    if bool_decide (c = "-"%char) then unhex s' else
    match s' with
    | String d s'' => h ← hex_value c; l ← hex_value d; (h * 16 + l ::.) <$> unhex s''
    | EmptyString => None
    end
  end.

Lemma hex_value_digit n : 0 <= n < 16 -> hex_value (hex_digit n) = Some n /\ hex_digit n <> "-"%char.
Proof.
  intros Hn. assert (In n (map Z.of_nat (seq 0 16))) as Hin.
  { apply in_map_iff. exists (Z.to_nat n). split; [lia|]. apply in_seq. lia. }
  cbn in Hin. repeat destruct Hin as [<-|Hin]; try done; (split; [reflexivity|vm_compute; discriminate]).
Qed.

Lemma unhex_pair h l c d s :
  hex_value c = Some h -> c <> "-"%char -> hex_value d = Some l ->
  unhex (String c (String d s)) = (h * 16 + l ::.) <$> unhex s.
Proof. intros Hc Hd Hl. unfold unhex at 1. rewrite bool_decide_eq_false_2 by done. by rewrite Hc, Hl. Qed.
Lemma unhex_dash s : unhex (String "-" s) = unhex s.
Proof. done. Qed.

Lemma unhex_hex l s : Forall (fun b => 0 <= b < 256) l ->
  unhex (String.append (hex l) s) = (l ++.) <$> unhex s.
Proof.
  induction 1 as [|b l Hb _ IH]; [cbn [hex foldr]; rewrite str_app_nil_l; destruct (unhex s) as [r|]; reflexivity|].
  change (hex (b :: l)) with (String.append (hex_byte b) (hex l)). rewrite str_app_assoc. unfold hex_byte.
  rewrite !str_app_cons, str_app_nil_l.
  destruct (hex_value_digit (b / 16)) as [H1 N1]; [split; [apply Z.div_pos; lia|apply Z.div_lt_upper_bound; lia]|].
  destruct (hex_value_digit (b mod 16)) as [H2 _]; [apply Z.mod_pos_bound; lia|].
  rewrite (unhex_pair (b / 16) (b mod 16)), IH by done.
  destruct (unhex s) as [r|]; [|done]. cbn. by rewrite Z.mul_comm, <- Z.div_mod by done.
Qed.

Lemma unhex_uuid_text bytes :
  Forall (fun b => 0 <= b < 256) bytes -> length bytes = 16%nat -> unhex (uuid_text bytes) = Some bytes.
Proof.
  intros Hb Hlen. unfold uuid_text.
  do 16 (destruct bytes as [|? bytes]; [done|]). destruct bytes; [|done].
  repeat match goal with H : Forall _ (_ :: _) |- _ => apply Forall_cons in H as [? ?] end.
  cbn [take drop].
  repeat (rewrite unhex_hex by (repeat (apply Forall_cons; split; [done|]); apply Forall_nil_2); rewrite unhex_dash).
  rewrite <- (str_app_nil_r (hex _)), unhex_hex
    by (repeat (apply Forall_cons; split; [done|]); apply Forall_nil_2). done.
Qed.

(** The text is never empty. *)
Lemma uuid_text_nonempty bytes : length bytes = 16%nat -> uuid_text bytes <> EmptyString.
Proof. intros H. destruct bytes as [|b bytes]; [done|]. done. Qed.
