(* ===== verification/Handles.v ===== *)
(** libsignal's objects behind handles, and its asynchronous calls, as
    src/signal/Cdsi.cpp, src/gendb/RegistrationServiceClient.cpp and
    src/gendb/ProvisioningClient.cpp use them.

    [heap] is a table of live objects of a client's own type; the n-th call
    into libsignal fails when [ffi_fault n] says so.  [Await] is the blocking
    wait for an asynchronous call: a callback on a thread of libsignal's fills
    a state on the caller's stack. *)

From S2P Require Import Prelude.

Open Scope Z_scope.

Record heap (O : Type) := mkHeap { objects : gmap nat O; next_object : nat; ffi_made : nat }.
Arguments mkHeap {O} _ _ _.
Arguments objects {O} _.
Arguments next_object {O} _.
Arguments ffi_made {O} _.

Section Heap.
Context {O : Type} (ffi_fault : nat -> bool).

(** [checkError(signal_...(...))] *)
Definition checked (what : string) : Comp (heap O) unit := fun s =>
  (if ffi_fault (ffi_made s) then Throw (StdError what) else Ok tt,
   mkHeap (objects s) (next_object s) (S (ffi_made s))).

Definition insert_object (o : O) : Comp (heap O) nat := fun s =>
  (Ok (next_object s), mkHeap (<[next_object s := o]> (objects s)) (S (next_object s)) (ffi_made s)).
Definition delete_object (h : nat) : Comp (heap O) unit :=
  modify (fun s => mkHeap (delete h (objects s)) (next_object s) (ffi_made s)).

Definition acquire (what : string) (o : O) : Comp (heap O) nat := checked what ;; insert_object o.
Definition release (what : string) (h : nat) : Comp (heap O) unit := checked what ;; delete_object h.

(** A destroy whose error is freed and forgotten. *)
Definition release_quietly (what : string) (h : nat) : Comp (heap O) unit :=
  catch_std (release what h) (fun _ => mret tt).

(** Starting an asynchronous call, waiting for it, and [checkError] on the
    error it completed with. *)
Definition awaited {A} (what : string) (completion : outcome A) : Comp (heap O) A :=
  checked what ;; of_outcome completion.

(** *** Lemmas *)

(** No handle in use is still to be given out. *)
Definition fresh_heap (s : heap O) : Prop := forall h, (next_object s <= h)%nat -> objects s !! h = None.

Lemma fresh_next s : fresh_heap s -> objects s !! next_object s = None.
Proof. intros H. by apply H. Qed.
End Heap.

(** *** Fresh handles stay fresh *)

Section fresh.
Context {O : Type} (f : nat -> bool).

Lemma checked_fresh what : preserves (@fresh_heap O) (checked f what).
Proof. intros [m n k] H. by unfold checked; destruct (f _). Qed.
Lemma insert_object_fresh o : preserves (@fresh_heap O) (insert_object o).
Proof. intros [m n k] H h Hh. cbn in *. rewrite lookup_insert_ne by lia. apply H. cbn. lia. Qed.
Lemma delete_fresh h : preserves (@fresh_heap O) (delete_object h).
Proof. intros [m n k] H x Hx. cbn in *. apply lookup_delete_None. right. by apply H. Qed.
End fresh.
#[export] Hint Resolve checked_fresh insert_object_fresh delete_fresh : signal.

Lemma acquire_fresh {O} f what (o : O) : preserves fresh_heap (acquire f what o).
Proof. unfold acquire. keeps. Qed.
Lemma release_fresh {O} f what h : preserves (@fresh_heap O) (release f what h).
Proof. unfold release. keeps. Qed.
#[export] Hint Resolve acquire_fresh release_fresh : signal.

Definition never_fails : nat -> bool := fun _ => false.

Section heap_ok.
Context {O : Type}.
Implicit Types m : gmap nat O.

Lemma checked_ok what m n k : checked never_fails what (mkHeap m n k) = (Ok tt, mkHeap m n (S k)).
Proof. done. Qed.
Lemma acquire_ok what o m n k :
  acquire never_fails what o (mkHeap m n k) = (Ok n, mkHeap (<[n := o]> m) (S n) (S k)).
Proof. done. Qed.
Lemma release_ok what h m n k :
  release never_fails what h (mkHeap m n k) = (Ok tt, mkHeap (delete h m) n (S k)).
Proof. done. Qed.
Lemma release_quietly_ok what h m n k :
  release_quietly never_fails what h (mkHeap m n k) = (Ok tt, mkHeap (delete h m) n (S k)).
Proof. done. Qed.
Lemma awaited_ok {A} what (c : outcome A) m n k :
  awaited never_fails what c (mkHeap m n k) = (c, mkHeap m n (S k)).
Proof. done. Qed.
End heap_ok.

(** Run the next step of a computation on a heap, when it does not fail. *)
Ltac heap_step :=
  first
    [ rewrite (bind_ok _ _ _ _ _ (checked_ok _ _ _ _))
    | rewrite (bind_ok _ _ _ _ _ (acquire_ok _ _ _ _ _))
    | rewrite (bind_ok _ _ _ _ _ (release_ok _ _ _ _ _))
    | rewrite (bind_ok _ _ _ _ _ (release_quietly_ok _ _ _ _ _)) ]; cbv beta.

(** Equality of two tables of objects with fresh handles. *)
Ltac same_objects Hfresh :=
  apply map_eq; intros ?x; cbn [Nat.add];
  repeat first
    [ rewrite lookup_insert_eq | rewrite lookup_delete_eq
    | match goal with
      | |- context [<[?i := _]> _ !! ?x] =>
        destruct (decide (i = x)); [first [subst x|exfalso; lia]|rewrite lookup_insert_ne by done]
      | |- context [delete ?i _ !! ?x] =>
        destruct (decide (i = x)); [first [subst x|exfalso; lia]|rewrite lookup_delete_ne by done]
      end ];
  try done; try (exfalso; lia); repeat rewrite Hfresh by (cbn; lia); try done.

(** ** The blocking wait *)

Module Await.
Section Await.
(** What the call completes with. *)
Context {R : Type} (result : R).

Inductive waiter := Waiting | Returned (r : option R).
(** The callback: not yet called; holding the mutex, with the result stored,
    [done] set, the waiter notified; gone. *)
Inductive callback := Pending | Locked | Stored | Set_done | Notified | Left.

(** [frame]: the caller's stack frame, which holds the state, still exists.
    [bad_access]: the callback touched it when it did not. *)
Record state := mkState {
  waiting : waiter; cb : callback; done_flag : bool; slot : option R;
  frame : bool; bad_access : bool;
}.
Definition init : state := mkState Waiting Pending false None true false.

Definition next_cb (c : callback) : callback :=
  match c with
  | Pending => Locked | Locked => Stored | Stored => Set_done | Set_done => Notified
  | Notified => Left | Left => Left
  end.

(** The mutex is free when the callback does not hold it; the waiter holds it
    only within one of its steps. *)
Definition mutex_free (c : callback) : Prop := c = Pending \/ c = Left.

Inductive step : state -> state -> Prop :=
| step_callback s :
    cb s <> Left ->
    step s (mkState (waiting s) (next_cb (cb s))
              (match cb s with Stored => true | _ => done_flag s end)
              (match cb s with Locked => Some result | _ => slot s end)
              (frame s) (bad_access s || negb (frame s)))
| step_wake s :
    waiting s = Waiting -> mutex_free (cb s) -> done_flag s = true ->
    step s (mkState (Returned (slot s)) (cb s) (done_flag s) (slot s) false (bad_access s)).

Definition inv (s : state) : Prop :=
  bad_access s = false /\
  (done_flag s = true <-> cb s = Set_done \/ cb s = Notified \/ cb s = Left) /\
  (cb s <> Pending -> cb s <> Locked -> slot s = Some result) /\
  match waiting s with
  | Waiting => frame s = true
  | Returned r => r = Some result /\ cb s = Left
  end.

Lemma await_init : inv init.
Proof. split_and!; try done. cbn. split; [done|]. by intros [|[|]]. Qed.

Lemma await_step s s' : inv s -> step s s' -> inv s'.
Proof.
  intros Hi Hst. destruct Hst as [s0 Hc|s0 H1 [H2|H2] H3]; destruct Hi as (Hb & Hd & Hs & Hw); unfold inv; cbn.
  - destruct s0 as [w c d sl f b]. cbn in *. subst b.
    assert (f = true /\ w = Waiting) as [-> ->] by (destruct w; [done|by destruct Hw]).
    destruct c; cbn in *; split_and!; try done; try (intros; by apply Hs); try tauto;
      (split; [intros E|by intros [|[|]]]); by destruct (proj1 Hd E) as [|[|]].
  - rewrite H2 in Hd. destruct Hd as [Hd _]. by destruct (Hd H3) as [|[|]].
  - split_and!; try done. by apply Hs; rewrite H2.
Qed.

Lemma await_reachable s : rtc step init s -> inv s.
Proof. apply (rtc_invariant step inv); [exact await_step|exact await_init]. Qed.

Fixpoint remaining (c : callback) : nat :=
  match c with Pending => 5 | Locked => 4 | Stored => 3 | Set_done => 2 | Notified => 1 | Left => 0 end.

Lemma await_progress n s : inv s -> remaining (cb s) = n -> exists s', rtc step s s' /\ waiting s' = Returned (Some result).
Proof.
  revert s. induction n as [|n IH]; intros s Hs Hn.
  - destruct Hs as (_ & Hd & Hsl & Hw). destruct (cb s) eqn:E; try done.
    destruct (waiting s) as [|r] eqn:W; [|exists s; split; [done|]; rewrite W; by destruct Hw as [-> _]].
    eexists. split; [apply rtc_once, step_wake; [done|by right|tauto]|]. cbn. by rewrite Hsl.
  - assert (cb s <> Left) as E by (intros E; by rewrite E in Hn).
    pose proof (step_callback s E) as Hst. destruct (IH _ (await_step _ _ Hs Hst)) as (s' & Hr & Hw).
    { cbn. by destruct (cb s); cbn in *; try congruence; injection Hn as <-. }
    exists s'. split; [by eapply rtc_l|done].
Qed.

(** The blocking wait for an asynchronous call of libsignal's is sound:
    under every interleaving of the caller with the callback, the callback
    never touches the caller's stack frame once it is gone; the caller
    returns only what the call completed with, and only after the callback
    has left; and from every point the wait can still be completed. *)
Lemma await_returns_completion s (Hs : rtc step init s) :
  bad_access s = false /\
  (forall r, waiting s = Returned r -> r = Some result /\ cb s = Left) /\
  exists s', rtc step s s' /\ waiting s' = Returned (Some result).
Proof.
  pose proof (await_reachable s Hs) as Hi. split_and!; [by apply Hi| |by apply (await_progress _ s Hi eq_refl)].
  intros r Hr. destruct Hi as (_ & _ & _ & Hw). by rewrite Hr in Hw.
Qed.
End Await.

Lemma await_returns_completion_witness :
  let s := mkState (R := nat) Waiting Set_done true (Some 7%nat) true false in
  bad_access s = false /\
  (forall r, waiting s = Returned r -> r = Some 7%nat /\ cb s = Left) /\
  exists s', rtc (step 7%nat) s s' /\ waiting s' = Returned (Some 7%nat).
Proof.
  intros s. apply (await_returns_completion 7%nat s).
  eapply rtc_l; [by apply step_callback|]. eapply rtc_l; [by apply step_callback|].
  eapply rtc_l; [by apply step_callback|]. reflexivity.
Defined.
End Await.
