(* ===== verification/Base64.v ===== *)
(** Base64 (src/util/Base64.cpp): the encoder and the decoder the HTTP bodies,
    the storage service's item keys and the trust roots go through.

    The encoder consumes three bytes per round and pads the last group; the
    decoder keeps a 32-bit shift register, skips characters outside the
    alphabet and stops at the first '='. *)

From S2P Require Import Prelude.

Definition alphabet : string :=
  "ABCDEFGHIJKLMNOPQRSTUVWXYZabcdefghijklmnopqrstuvwxyz0123456789+/".

Fixpoint str_nth (s : string) (n : nat) : ascii :=
  match s, n with
  | EmptyString, _ => Ascii.zero
  | String a _, O => a
  | String _ s', S n' => str_nth s' n'
  end.

(** [kAlphabet[i]] *)
Definition kAlphabet (i : Z) : ascii := str_nth alphabet (Z.to_nat i).

(** The position of a character in the alphabet, what filling the table from
    index 0 to 63 leaves at that character's entry. *)
Fixpoint index_of (c : ascii) (s : string) (i : Z) : Z :=
  match s with
  | EmptyString => -1
  | String a s' => if bool_decide (a = c) then i else index_of c s' (i + 1)
  end.

(** [kTable[c]]: -1 outside the alphabet. *)
Definition kTable (c : ascii) : Z := index_of c alphabet 0.

Definition sextet (n shift : Z) : ascii := kAlphabet (Z.land (Z.shiftr n shift) 0x3F).

Definition pack3 (a b c : Z) : Z := Z.lor (Z.lor (Z.shiftl a 16) (Z.shiftl b 8)) c.

Fixpoint base64Encode (input : Bytes) : string :=
  match input with
  | a :: b :: c :: rest =>
    let n := pack3 a b c in
    String (sextet n 18) (String (sextet n 12) (String (sextet n 6) (String (sextet n 0)
      (base64Encode rest))))
  | [a] =>
    let n := Z.shiftl a 16 in
    String (sextet n 18) (String (sextet n 12) "==")
  | [a; b] =>
    let n := Z.lor (Z.shiftl a 16) (Z.shiftl b 8) in
    String (sextet n 18) (String (sextet n 12) (String (sextet n 6) "="))
  | [] => ""
  end.

Definition is_pad (c : ascii) : bool := bool_decide (c = "="%char).

(** The decoder's loop; [buffer] is a uint32_t, so the shift drops high bits. *)
Fixpoint decode_loop (buffer bits : Z) (s : string) : Bytes :=
  match s with
  | EmptyString => []
  | String c s' =>
    if is_pad c then [] else
    let value := kTable c in
    if bool_decide (value < 0) then decode_loop buffer bits s' else
    let buffer' := Z.lor (u32 (Z.shiftl buffer 6)) value in
    let bits' := bits + 6 in
    if bool_decide (8 <= bits') then
      u8 (Z.land (Z.shiftr buffer' (bits' - 8)) 0xFF) :: decode_loop buffer' (bits' - 8) s'
    else decode_loop buffer' bits' s'
  end.

Definition base64Decode (input : string) : Bytes := decode_loop 0 0 input.

(** What [base64Decode] reads: the text up to the first '=' with everything
    outside the alphabet left out. *)
Fixpoint significant (s : string) : string :=
  match s with
  | EmptyString => ""
  | String c s' =>
    if is_pad c then ""
    else if bool_decide (kTable c < 0) then significant s'
    else String c (significant s')
  end.

(** ** Lemmas *)

Lemma kTable_kAlphabet v : 0 <= v < 64 -> kTable (kAlphabet v) = v.
Proof.
  intros Hv.
  assert (forallb (fun n => kTable (kAlphabet (Z.of_nat n)) =? Z.of_nat n) (seq 0 64) = true)
    as H by (vm_compute; reflexivity).
  rewrite forallb_forall in H. specialize (H (Z.to_nat v)).
  rewrite Z2Nat.id in H by lia. apply Z.eqb_eq, H, in_seq. lia.
Qed.

Lemma kAlphabet_not_pad v : 0 <= v < 64 -> is_pad (kAlphabet v) = false.
Proof.
  intros Hv.
  assert (forallb (fun n => negb (is_pad (kAlphabet (Z.of_nat n)))) (seq 0 64) = true)
    as H by (vm_compute; reflexivity).
  rewrite forallb_forall in H. specialize (H (Z.to_nat v)).
  rewrite Z2Nat.id in H by lia. apply negb_true_iff, H, in_seq. lia.
Qed.

Lemma land_63 n : Z.land n 0x3F = n mod 64.
Proof. exact (Z.land_ones n 6 ltac:(lia)). Qed.

Lemma sextet_arith n k : 0 <= k -> sextet n k = kAlphabet ((n / 2 ^ k) mod 64).
Proof. intros Hk. unfold sextet. by rewrite land_63, Z.shiftr_div_pow2. Qed.

(** Disjoint bit fields: or is addition. *)
Lemma lor_disjoint_add x y k :
  0 <= k -> 0 <= y < 2 ^ k -> Z.lor (x * 2 ^ k) y = x * 2 ^ k + y.
Proof.
  intros Hk Hy. assert (Z.land (x * 2 ^ k) y = 0) as Hland.
  { apply Z.bits_inj'. intros i Hi. rewrite Z.land_spec, Z.bits_0.
    destruct (decide (i < k)) as [Hlt|Hge].
    - by rewrite Z.mul_pow2_bits_low.
    - rewrite <-(Z.mod_small y (2 ^ k)), Z.mod_pow2_bits_high, andb_false_r; [done|lia..]. }
  rewrite <-Z.lxor_lor by done. by rewrite <-Z.add_nocarry_lxor.
Qed.

Lemma lor_shiftl_add x y k :
  0 <= k -> 0 <= y < 2 ^ k -> Z.lor (Z.shiftl x k) y = x * 2 ^ k + y.
Proof. intros. by rewrite Z.shiftl_mul_pow2, lor_disjoint_add. Qed.

Lemma pack3_arith a b c :
  is_byte b -> is_byte c -> pack3 a b c = a * 65536 + b * 256 + c.
Proof.
  unfold is_byte, pack3. intros Hb Hc. rewrite (Z.shiftl_mul_pow2 b) by lia.
  rewrite lor_shiftl_add by lia.
  replace (a * 2 ^ 16 + b * 2 ^ 8) with ((a * 256 + b) * 2 ^ 8) by lia.
  rewrite lor_disjoint_add by lia. lia.
Qed.

(** One loop step of the decoder on an alphabet character, without the bit
    operations. *)
Lemma decode_step v s buffer bits :
  0 <= v < 64 -> 0 <= bits < 8 ->
  decode_loop buffer bits (String (kAlphabet v) s) =
  let buffer' := (buffer * 64) mod 2 ^ 32 + v in
  if bool_decide (2 <= bits) then
    (buffer' / 2 ^ (bits - 2)) mod 256 :: decode_loop buffer' (bits - 2) s
  else decode_loop buffer' (bits + 6) s.
Proof.
  intros Hv Hb. simpl. rewrite kAlphabet_not_pad, kTable_kAlphabet by done.
  rewrite (bool_decide_eq_false_2 (v < 0)) by lia.
  assert (Z.lor (u32 (Z.shiftl buffer 6)) v = (buffer * 64) mod 2 ^ 32 + v) as ->.
  { unfold u32, wrap. rewrite Z.shiftl_mul_pow2 by lia.
    change (2 ^ 32) with (2 ^ 26 * 2 ^ 6). change 64 with (2 ^ 6).
    rewrite Zmult_mod_distr_r. apply lor_disjoint_add; lia. }
  repeat case_bool_decide; try lia; [|done].
  replace (bits + 6 - 8) with (bits - 2) by lia. f_equal.
  unfold u8, wrap. rewrite Z.shiftr_div_pow2 by lia.
  change 0xFF with (Z.ones 8). rewrite Z.land_ones by lia. by rewrite Zmod_mod.
Qed.

(** The four phases of a group. *)
Lemma decode_0 v s buffer : 0 <= v < 64 ->
  decode_loop buffer 0 (String (kAlphabet v) s) =
  decode_loop ((buffer * 64) mod 4294967296 + v) 6 s.
Proof. intros. by rewrite decode_step. Qed.
Lemma decode_6 v s buffer : 0 <= v < 64 ->
  decode_loop buffer 6 (String (kAlphabet v) s) =
  (((buffer * 64) mod 4294967296 + v) / 16) mod 256 ::
  decode_loop ((buffer * 64) mod 4294967296 + v) 4 s.
Proof. intros. by rewrite decode_step. Qed.
Lemma decode_4 v s buffer : 0 <= v < 64 ->
  decode_loop buffer 4 (String (kAlphabet v) s) =
  (((buffer * 64) mod 4294967296 + v) / 4) mod 256 ::
  decode_loop ((buffer * 64) mod 4294967296 + v) 2 s.
Proof. intros. by rewrite decode_step. Qed.
Lemma decode_2 v s buffer : 0 <= v < 64 ->
  decode_loop buffer 2 (String (kAlphabet v) s) =
  ((buffer * 64) mod 4294967296 + v) mod 256 ::
  decode_loop ((buffer * 64) mod 4294967296 + v) 0 s.
Proof. intros. rewrite decode_step by lia. simpl. by rewrite Z.div_1_r. Qed.

Lemma sextet_lt n k : 0 <= (n / 2 ^ k) mod 64 < 64.
Proof. apply Z.mod_pos_bound; lia. Qed.

(** Two, three and four characters give back the bytes they were made from. *)
Lemma decode_group2 v0 v1 s buffer :
  0 <= v0 < 64 -> 0 <= v1 < 64 ->
  decode_loop buffer 0 (String (kAlphabet v0) (String (kAlphabet v1) s)) =
  v0 * 4 + v1 / 16 ::
  decode_loop ((((buffer * 64) mod 4294967296 + v0) * 64) mod 4294967296 + v1) 4 s.
Proof.
  intros H0 H1. rewrite decode_0, decode_6 by done. f_equal.
  Z.div_mod_to_equations; lia.
Qed.

Lemma decode_group3 v1 v2 s buffer :
  0 <= v1 < 64 -> 0 <= v2 < 64 ->
  decode_loop ((buffer * 64) mod 4294967296 + v1) 4 (String (kAlphabet v2) s) =
  (v1 mod 16) * 16 + v2 / 4 ::
  decode_loop (((((buffer * 64) mod 4294967296 + v1)) * 64) mod 4294967296 + v2) 2 s.
Proof.
  intros H1 H2. rewrite decode_4 by done. f_equal.
  Z.div_mod_to_equations; lia.
Qed.

Lemma decode_group4 v2 v3 s buffer :
  0 <= v2 < 64 -> 0 <= v3 < 64 ->
  exists buffer',
  decode_loop ((buffer * 64) mod 4294967296 + v2) 2 (String (kAlphabet v3) s) =
  (v2 mod 4) * 64 + v3 :: decode_loop buffer' 0 s.
Proof.
  intros H2 H3. rewrite decode_2 by done. eexists. f_equal.
  Z.div_mod_to_equations; lia.
Qed.

Lemma list_ind3 {A} (P : list A -> Prop) :
  P [] -> (forall a, P [a]) -> (forall a b, P [a; b]) ->
  (forall a b c l, P l -> P (a :: b :: c :: l)) -> forall l, P l.
Proof.
  intros H0 H1 H2 H3. fix IH 1.
  intros [|a [|b [|c l]]]; [apply H0|apply H1|apply H2|apply H3, IH].
Qed.

Lemma decode_pad s buffer bits : decode_loop buffer bits (String "=" s) = [].
Proof. done. Qed.

Lemma decode_pack3 a b c s buffer :
  is_byte a -> is_byte b -> is_byte c ->
  exists buffer', decode_loop buffer 0
    (String (sextet (pack3 a b c) 18) (String (sextet (pack3 a b c) 12)
    (String (sextet (pack3 a b c) 6) (String (sextet (pack3 a b c) 0) s)))) =
  a :: b :: c :: decode_loop buffer' 0 s.
Proof.
  intros Ha Hb Hc. rewrite !sextet_arith, pack3_arith by (done || lia).
  set (n := a * 65536 + b * 256 + c).
  rewrite decode_group2, decode_group3 by apply sextet_lt.
  edestruct (decode_group4 ((n / 2 ^ 6) mod 64) ((n / 2 ^ 0) mod 64)) as [buffer' ->];
    [apply sextet_lt..|].
  exists buffer'. unfold is_byte in *. subst n.
  change (2 ^ 18) with 262144. change (2 ^ 12) with 4096. change (2 ^ 6) with 64.
  change (2 ^ 0) with 1. rewrite Z.div_1_r.
  f_equal; [|f_equal; [|f_equal]]; Z.div_mod_to_equations; lia.
Qed.

Lemma decode_encode_loop bs buffer :
  Forall is_byte bs -> decode_loop buffer 0 (base64Encode bs) = bs.
Proof.
  revert buffer. induction bs as [|a|a b|a b c l IH] using list_ind3; intros buffer Hbs.
  - done.
  - apply Forall_cons in Hbs as [Ha _]. cbn [base64Encode].
    rewrite !sextet_arith, decode_group2 by (apply sextet_lt || lia). rewrite decode_pad.
    f_equal. unfold is_byte in Ha. rewrite Z.shiftl_mul_pow2 by lia.
    change (2 ^ 18) with 262144. change (2 ^ 12) with 4096. change (2 ^ 16) with 65536.
    Z.div_mod_to_equations; lia.
  - apply Forall_cons in Hbs as [Ha [Hb _]%Forall_cons]. cbn [base64Encode].
    rewrite !sextet_arith, decode_group2, decode_group3 by (apply sextet_lt || lia).
    rewrite decode_pad. unfold is_byte in *.
    rewrite (Z.shiftl_mul_pow2 b), lor_shiftl_add by lia.
    change (2 ^ 18) with 262144. change (2 ^ 12) with 4096. change (2 ^ 16) with 65536.
    change (2 ^ 6) with 64. change (2 ^ 8) with 256.
    f_equal; [|f_equal]; Z.div_mod_to_equations; lia.
  - apply Forall_cons in Hbs as [Ha [Hb [Hc Hl]%Forall_cons]%Forall_cons]. cbn [base64Encode].
    destruct (decode_pack3 a b c (base64Encode l) buffer) as [buffer' ->]; [done..|].
    by rewrite IH.
Qed.

Lemma decode_significant buffer bits s :
  decode_loop buffer bits s = decode_loop buffer bits (significant s).
Proof.
  revert buffer bits. induction s as [|c s IH]; intros buffer bits; [done|].
  simpl. destruct (is_pad c) eqn:Hp; [done|].
  case_bool_decide as Hv; [done|]. simpl. rewrite Hp, (bool_decide_eq_false_2 (kTable c < 0)) by done.
  case_bool_decide; by rewrite IH.
Qed.

Lemma encode_length_eq bs :
  (String.length (base64Encode bs) = 4 * ((length bs + 2) / 3))%nat.
Proof.
  induction bs as [| | |a b c l IH] using list_ind3; [reflexivity..|].
  cbn [base64Encode String.length length]. rewrite IH.
  replace (S (S (S (length l))) + 2)%nat with (1 * 3 + (length l + 2))%nat by lia.
  rewrite Nat.div_add_l by done. lia.
Qed.

(** ** Properties *)

(** Decoding what the encoder wrote gives back the
    bytes, and the encoder writes four characters for every started group of
    three bytes. *)
Lemma base64_roundtrip (bs : Bytes) (H : Forall is_byte bs) :
  base64Decode (base64Encode bs) = bs /\
  (String.length (base64Encode bs) = 4 * ((length bs + 2) / 3))%nat.
Proof. split; [by apply decode_encode_loop|apply encode_length_eq]. Qed.

Lemma base64_roundtrip_witness :
  base64Decode (base64Encode [0; 255; 16; 131; 7]) = [0; 255; 16; 131; 7] /\
  String.length (base64Encode [0; 255; 16; 131; 7]) = 8%nat.
Proof.
  apply (base64_roundtrip [0; 255; 16; 131; 7]).
  repeat constructor; unfold is_byte; lia.
Defined.

(** The decoder is total, returns bytes, and depends only on the
    alphabet characters before the first '=': line breaks, spaces and
    everything after the padding are ignored. *)
Lemma base64_decode_noise (s : string) :
  base64Decode s = base64Decode (significant s) /\ Forall is_byte (base64Decode s).
Proof.
  split; [apply decode_significant|]. unfold base64Decode. generalize 0 at 1. generalize 0.
  induction s as [|c s IH]; intros bits buffer; simpl; [constructor|].
  destruct (is_pad c); [constructor|]. repeat case_bool_decide; auto.
  constructor; [|done]. unfold is_byte, u8, wrap. apply Z.mod_pos_bound. lia.
Qed.
