(* ===== verification/Padding.v ===== *)
(** Message padding (src/signal/Padding.cpp): the ISO 7816-like padding a
    plaintext gets before encryption and loses after decryption. *)

From S2P Require Import Prelude.

Definition kPaddingBlockSize : Z := 80.

(** Sizes are [size_t]: 64-bit, with wrap-around. *)
Definition paddedMessageLength (messageLength : Z) : Z :=
  let messageLengthWithTerminator := u64 (messageLength + 1) in
  let messagePartCount := messageLengthWithTerminator / kPaddingBlockSize in
  let messagePartCount :=
    if bool_decide (messageLengthWithTerminator mod kPaddingBlockSize <> 0)
    then messagePartCount + 1 else messagePartCount in
  u64 (messagePartCount * kPaddingBlockSize).

(** [None]: the copy or the write of the terminator would be out of bounds. *)
Definition padMessageBody (messageBody : Bytes) : option Bytes :=
  let size := Z.of_nat (length messageBody) in
  let n := u64 (paddedMessageLength (u64 (size + 1)) - 1) in
  let padded := replicate (Z.to_nat n) 0 in
  if bool_decide (size < n) then
    let copied := messageBody ++ drop (length messageBody) padded in
    Some (<[length messageBody := 0x80]> copied)
  else None.

(** [for (size_t i = size; i-- > 0;)] *)
Fixpoint strip_loop (msg : Bytes) (i : nat) : Bytes :=
  match i with
  | O => msg
  | S i' =>
    match msg !! i' with
    | Some x =>
      if bool_decide (x = 0x80) then take i' msg
      else if bool_decide (x <> 0x00) then msg
      else strip_loop msg i'
    | None => msg
    end
  end.

Definition stripPaddingMessageBody (messageWithPadding : Bytes) : Bytes :=
  strip_loop messageWithPadding (length messageWithPadding).

(** The sizes for which no [size_t] computation wraps. *)
Definition fits_size_t (m : Bytes) : Prop := Z.of_nat (length m) + 82 < 2 ^ 64.

(** ** Lemmas *)

Lemma padded_length_arith n :
  0 <= n -> n + 81 < 2 ^ 64 ->
  paddedMessageLength n = (n / 80 + 1) * 80.
Proof.
  intros H0 Hn. unfold paddedMessageLength, u64, wrap, kPaddingBlockSize.
  rewrite (Z.mod_small (n + 1)) by lia.
  case_bool_decide; rewrite Z.mod_small; Z.div_mod_to_equations; lia.
Qed.

Lemma strip_zeros m k j :
  (j <= k)%nat ->
  strip_loop (m ++ 0x80 :: replicate k 0) (length m + 1 + j) = m.
Proof.
  intros Hj. induction j as [|j IH].
  - replace (length m + 1 + 0)%nat with (S (length m)) by lia. simpl.
    rewrite list_lookup_middle by done. simpl. by rewrite take_app_length.
  - replace (length m + 1 + S j)%nat with (S (length m + 1 + j)) by lia. simpl.
    rewrite lookup_app_r by lia. replace (length m + 1 + j - length m)%nat with (S j) by lia.
    simpl. rewrite lookup_replicate_2 by lia. simpl. apply IH. lia.
Qed.

Lemma strip_take m i : exists k, strip_loop m i = take k m.
Proof.
  induction i as [|i IH]; simpl; [by exists (length m); rewrite firstn_all|].
  destruct (m !! i); [|by exists (length m); rewrite firstn_all].
  repeat case_bool_decide; [by exists i| |done]. by exists (length m); rewrite firstn_all.
Qed.

Lemma pad_shape m :
  fits_size_t m ->
  exists k, padMessageBody m = Some (m ++ 0x80 :: replicate k 0) /\
    Z.of_nat (length m + 1 + k) + 1 = ((Z.of_nat (length m) + 1) / 80 + 1) * 80.
Proof.
  unfold fits_size_t. intros Hm. unfold padMessageBody.
  set (n := Z.of_nat (length m)). assert (0 <= n) by lia.
  assert (u64 (n + 1) = n + 1) as -> by (apply Z.mod_small; lia).
  rewrite padded_length_arith by lia.
  assert (u64 ((((n + 1) / 80) + 1) * 80 - 1) = ((n + 1) / 80 + 1) * 80 - 1) as ->
    by (apply Z.mod_small; Z.div_mod_to_equations; lia).
  set (p := ((n + 1) / 80 + 1) * 80 - 1).
  assert (n < p) as Hlt by (unfold p; Z.div_mod_to_equations; lia).
  rewrite bool_decide_eq_true_2 by done.
  exists (Z.to_nat p - length m - 1)%nat. split; [|lia].
  f_equal. rewrite drop_replicate.
  replace (Z.to_nat p - length m)%nat with (S (Z.to_nat p - length m - 1)) by lia.
  cbn [replicate]. rewrite insert_app_r_alt by lia. rewrite Nat.sub_diag. simpl. by rewrite Nat.sub_0_r.
Qed.

(** ** Properties *)

(** Padding then stripping returns the message, for every message whose
    size does not overflow [size_t]; and padding never writes out of bounds. *)
Lemma pad_strip_roundtrip (m : Bytes) (H : fits_size_t m) :
  stripPaddingMessageBody <$> padMessageBody m = Some m.
Proof.
  destruct (pad_shape m H) as (k & -> & _). simpl. f_equal.
  unfold stripPaddingMessageBody. rewrite length_app. simpl. rewrite length_replicate.
  replace (length m + S k)%nat with (length m + 1 + k)%nat by lia. by apply strip_zeros.
Qed.

Lemma pad_strip_roundtrip_witness :
  stripPaddingMessageBody <$> padMessageBody [1; 0x80; 0; 0] = Some [1; 0x80; 0; 0].
Proof. apply pad_strip_roundtrip. vm_compute. reflexivity. Defined.

(** The padded length is one less than the smallest multiple of 80 that
    holds the message, its terminator and one byte for the cipher; every
    padded body therefore has one of few lengths, and the message is a
    prefix of it. *)
Lemma pad_length_minimal (m : Bytes) (H : fits_size_t m) :
  exists p, padMessageBody m = Some p /\ m `prefix_of` p /\
    (80 | Z.of_nat (length p) + 1) /\
    Z.of_nat (length m) + 2 <= Z.of_nat (length p) + 1 < Z.of_nat (length m) + 2 + 80.
Proof.
  destruct (pad_shape m H) as (k & -> & Hk). eexists. split; [done|].
  split; [by apply prefix_app_r|]. rewrite length_app. simpl. rewrite length_replicate.
  replace (length m + S k)%nat with (length m + 1 + k)%nat by lia. rewrite Hk.
  split; [by apply Z.divide_factor_r|]. Z.div_mod_to_equations; lia.
Qed.

Lemma pad_length_minimal_witness :
  exists p, padMessageBody [7] = Some p /\ [7] `prefix_of` p /\
    (80 | Z.of_nat (length p) + 1) /\ 3 <= Z.of_nat (length p) + 1 < 83.
Proof. apply (pad_length_minimal [7]). vm_compute. reflexivity. Defined.

(** Stripping is total and only ever shortens: the result is a prefix of
    its input whatever the input is, and the input itself when no terminator
    follows the last non-zero byte. *)
Lemma strip_prefix (m : Bytes) :
  stripPaddingMessageBody m `prefix_of` m /\
  (forall k x, x <> 0 -> x <> 0x80 ->
    stripPaddingMessageBody (m ++ x :: replicate k 0) = m ++ x :: replicate k 0).
Proof.
  split.
  - unfold stripPaddingMessageBody. destruct (strip_take m (length m)) as [k ->].
    exists (drop k m). by rewrite take_drop.
  - intros k x H0 H80. unfold stripPaddingMessageBody.
    rewrite length_app. simpl. rewrite length_replicate.
    replace (length m + S k)%nat with (length m + 1 + k)%nat by lia.
    assert (forall j, (j <= k)%nat ->
      strip_loop (m ++ x :: replicate k 0) (length m + 1 + j) = m ++ x :: replicate k 0) as Hl;
      [|by apply Hl].
    intros j. induction j as [|j IH]; intros Hj.
    + replace (length m + 1 + 0)%nat with (S (length m)) by lia. simpl.
      rewrite list_lookup_middle by done. by rewrite (bool_decide_eq_false_2 (x = 128)), (bool_decide_eq_true_2 (x <> 0)).
    + replace (length m + 1 + S j)%nat with (S (length m + 1 + j)) by lia. simpl.
      rewrite lookup_app_r by lia. replace (length m + 1 + j - length m)%nat with (S j) by lia.
      simpl. rewrite lookup_replicate_2 by lia. simpl. apply IH. lia.
Qed.
