(* ===== verification/RingBuffer.v ===== *)
(** The single-producer single-consumer ring buffer (src/voip/ring_buffer.h).

    [Seq] holds the data and the two operations run to completion; [Spsc]
    splits each into the atomic steps its thread takes (the loads of [head_]
    and [tail_], each slot access, the release store) and interleaves them.
    Release/acquire pairs order a slot's write before the index store that
    publishes it, so the interleavings of these steps are the executions. *)

From S2P Require Import Prelude.

Module Seq.

Record RingBuffer := mkRing {
  capacity : Z;
  buffer : list Z;   (* int16_t samples *)
  head : Z;
  tail : Z;
}.

Definition new (capacity_samples : Z) : RingBuffer :=
  mkRing capacity_samples (replicate (Z.to_nat capacity_samples) 0) 0 0.

(** [(head - tail + capacity_) % capacity_] in [size_t] arithmetic. *)
Definition filled (cap head tail : Z) : Z := u64 (u64 (head - tail) + cap) mod cap.

Definition room (cap head tail : Z) : Z := u64 (u64 (cap - 1) - filled cap head tail).

Definition slot (cap i : Z) : nat := Z.to_nat (i mod cap).

Fixpoint write_slots (cap head : Z) (i : Z) (data : list Z) (buf : list Z) : list Z :=
  match data with
  | [] => buf
  | x :: data' => write_slots cap head (i + 1) data' (<[slot cap (u64 (head + i)) := x]> buf)
  end.

(** [push(data, samples)] with [samples = length data]. *)
Definition push (data : list Z) (r : RingBuffer) : RingBuffer :=
  let available := room (capacity r) (head r) (tail r) in
  let samples := if bool_decide (Z.of_nat (length data) > available)
                 then available else Z.of_nat (length data) in
  if bool_decide (samples = 0) then r else
  let data' := take (Z.to_nat samples) data in
  mkRing (capacity r) (write_slots (capacity r) (head r) 0 data' (buffer r))
    (u64 (head r + samples) mod capacity r) (tail r).

Definition read_slots (cap tail : Z) (n : nat) (buf : list Z) : list Z :=
  (fun i => buf !!! slot cap (u64 (tail + Z.of_nat i))) <$> seq 0 n.

(** [pop(data, samples)]: the array filled, and the ring afterwards. *)
Definition pop (samples : nat) (r : RingBuffer) : list Z * RingBuffer :=
  let available := filled (capacity r) (head r) (tail r) in
  let to_copy := if bool_decide (Z.of_nat samples < available) then samples else Z.to_nat available in
  (read_slots (capacity r) (tail r) to_copy (buffer r) ++ replicate (samples - to_copy) 0,
   mkRing (capacity r) (buffer r) (head r)
     (u64 (tail r + Z.of_nat to_copy) mod capacity r)).

(** ** The queue a ring stands for *)

(** A ring of this capacity, [q] being its samples from the oldest to the
    newest.  [T] is the number of samples consumed since the ring was made. *)
Definition represents (r : RingBuffer) (T : Z) (q : list Z) : Prop :=
  0 < capacity r < 2 ^ 62 /\ 0 <= T /\
  length (buffer r) = Z.to_nat (capacity r) /\
  tail r = T mod capacity r /\
  head r = (T + Z.of_nat (length q)) mod capacity r /\
  Z.of_nat (length q) <= capacity r - 1 /\
  forall i x, q !! i = Some x -> buffer r !! slot (capacity r) (T + Z.of_nat i) = Some x.

Lemma slot_lt cap i : 0 < cap -> (slot cap i < Z.to_nat cap)%nat.
Proof. intros Hc. unfold slot. pose proof (Z.mod_pos_bound i cap Hc). lia. Qed.

Lemma slot_u64 cap T i :
  0 < cap < 2 ^ 62 -> 0 <= i < cap -> slot cap (u64 (T mod cap + i)) = slot cap (T + i).
Proof.
  intros Hc Hi. unfold slot, u64, wrap. pose proof (Z.mod_pos_bound T cap ltac:(lia)).
  rewrite (Z.mod_small (T mod cap + i)) by lia. by rewrite Zplus_mod_idemp_l.
Qed.

Lemma index_u64 cap T i :
  0 < cap < 2 ^ 62 -> 0 <= i < cap -> u64 (T mod cap + i) mod cap = (T + i) mod cap.
Proof.
  intros Hc Hi. unfold u64, wrap. pose proof (Z.mod_pos_bound T cap ltac:(lia)).
  rewrite (Z.mod_small (T mod cap + i)) by lia. by rewrite Zplus_mod_idemp_l.
Qed.

(** Two indices less than a capacity apart use different slots. *)
Lemma slot_inj cap i j : 0 < cap -> Z.abs (i - j) < cap -> slot cap i = slot cap j -> i = j.
Proof.
  intros Hc Hd Heq. unfold slot in Heq.
  pose proof (Z.mod_pos_bound i cap Hc). pose proof (Z.mod_pos_bound j cap Hc).
  assert (i mod cap = j mod cap) as Hm by lia.
  pose proof (Z.div_mod i cap ltac:(lia)). pose proof (Z.div_mod j cap ltac:(lia)).
  assert (i - j = cap * (i / cap - j / cap)) as Hk by lia.
  assert (i / cap - j / cap = 0) as Hz by nia. rewrite Hz in Hk. lia.
Qed.

Lemma filled_spec cap T n :
  0 < cap < 2 ^ 62 -> 0 <= n <= cap - 1 -> filled cap ((T + n) mod cap) (T mod cap) = n.
Proof.
  intros Hc Hn. unfold filled, u64, wrap.
  pose proof (Z.mod_pos_bound T cap ltac:(lia)).
  pose proof (Z.mod_pos_bound (T + n) cap ltac:(lia)).
  rewrite Zplus_mod_idemp_l. rewrite (Z.mod_small (_ - _ + cap)) by lia.
  replace ((T + n) mod cap - T mod cap + cap) with ((T + n) mod cap - T mod cap + 1 * cap) by lia.
  rewrite Z.mod_add, <-Zminus_mod by lia. rewrite Z.mod_small; lia.
Qed.

Lemma room_spec cap T n :
  0 < cap < 2 ^ 62 -> 0 <= n <= cap - 1 -> room cap ((T + n) mod cap) (T mod cap) = cap - 1 - n.
Proof.
  intros Hc Hn. unfold room. rewrite filled_spec by done. unfold u64, wrap.
  rewrite (Z.mod_small (cap - 1)) by lia. apply Z.mod_small. lia.
Qed.

Lemma length_write_slots cap h i data buf : length (write_slots cap h i data buf) = length buf.
Proof. revert i buf. induction data; intros; simpl; [done|]. by rewrite IHdata, length_insert. Qed.

Lemma write_slots_other cap h i data buf k :
  (forall j, (j < length data)%nat -> k <> slot cap (u64 (h + (i + Z.of_nat j)))) ->
  write_slots cap h i data buf !! k = buf !! k.
Proof.
  revert i buf. induction data as [|x data IH]; intros i buf Hk; simpl; [done|].
  rewrite IH.
  - apply list_lookup_insert_ne. intros Heq. apply (Hk 0%nat); simpl; [lia|].
    by rewrite Z.add_0_r.
  - intros j Hj. replace (i + 1 + Z.of_nat j) with (i + Z.of_nat (S j)) by lia.
    apply Hk. simpl. lia.
Qed.

Lemma write_slots_in cap T i data buf j x :
  0 < cap < 2 ^ 62 -> length buf = Z.to_nat cap ->
  0 <= i -> i + Z.of_nat (length data) <= cap -> data !! j = Some x ->
  write_slots cap (T mod cap) i data buf !! slot cap (T + (i + Z.of_nat j)) = Some x.
Proof.
  intros Hc. revert i buf j. induction data as [|y data IH]; intros i buf j Hl Hi Hn Hj; [done|].
  simpl in Hn |- *. destruct j as [|j]; simpl in Hj.
  - injection Hj as ->. rewrite Z.add_0_r, write_slots_other.
    + rewrite slot_u64 by lia. apply list_lookup_insert_eq. rewrite Hl. apply slot_lt. lia.
    + intros j Hj Heq. rewrite slot_u64 in Heq by lia. apply slot_inj in Heq; lia.
  - replace (i + Z.of_nat (S j)) with (i + 1 + Z.of_nat j) by lia.
    apply IH; [by rewrite length_insert|lia|lia|done].
Qed.

Lemma new_represents cap : 0 < cap < 2 ^ 62 -> represents (new cap) 0 [].
Proof.
  intros Hc. split_and!; simpl; try done; try lia.
  by rewrite length_replicate.
Qed.

(** [push] appends as much of the data as there is room for (one slot always
    stays free), in order, and drops the rest. *)
Lemma push_represents (r : RingBuffer) (T : Z) (q data : list Z)
    (Hr : represents r T q) :
  represents (push data r) T
    (q ++ take (Z.to_nat (capacity r - 1 - Z.of_nat (length q))) data).
Proof.
  pose proof Hr as (Hc & HT & Hl & Ht & Hh & Hq & Hb).
  unfold push. rewrite Hh, Ht, room_spec by lia.
  set (free := capacity r - 1 - Z.of_nat (length q)).
  set (samples := if bool_decide (Z.of_nat (length data) > free) then free else Z.of_nat (length data)).
  assert (samples = Z.min (Z.of_nat (length data)) free) as Hs
    by (unfold samples; case_bool_decide; lia).
  assert (take (Z.to_nat samples) data = take (Z.to_nat free) data) as Htk.
  { rewrite Hs. destruct (decide (Z.of_nat (length data) <= free)).
    - rewrite !take_ge; [done|lia|lia].
    - f_equal. lia. }
  rewrite Htk. clearbody samples. case_bool_decide as Hz.
  { assert (take (Z.to_nat free) data = []) as ->.
    { rewrite Hs in Hz. destruct (decide (free = 0)) as [->|]; [done|].
      assert (length data = 0)%nat as ->%nil_length_inv by lia. apply take_nil. }
    by rewrite app_nil_r. }
  set (d := take (Z.to_nat free) data).
  assert (Z.of_nat (length d) = samples) as Hd by (unfold d; rewrite length_take; lia).
  split_and!; simpl; try done; try lia.
  - by rewrite length_write_slots.
  - rewrite index_u64, length_app by lia. f_equal. lia.
  - rewrite length_app. lia.
  - intros i x. rewrite lookup_app_Some. intros [Hx|[Hge Hx]].
    + rewrite write_slots_other; [by apply Hb|].
      intros j Hj Heq. rewrite slot_u64 in Heq by lia.
      apply lookup_lt_Some in Hx. apply slot_inj in Heq; lia.
    + apply lookup_lt_Some in Hx as Hlt.
      pose proof (write_slots_in (capacity r) (T + Z.of_nat (length q)) 0 d (buffer r)
        (i - length q) x Hc Hl ltac:(lia) ltac:(lia) Hx) as Hw.
      replace (T + Z.of_nat (length q) + (0 + Z.of_nat (i - length q))) with (T + Z.of_nat i)
        in Hw by lia. done.
Qed.

Lemma read_slots_spec cap T q n buf :
  0 < cap < 2 ^ 62 -> (n <= length q)%nat -> Z.of_nat (length q) <= cap - 1 ->
  (forall i x, q !! i = Some x -> buf !! slot cap (T + Z.of_nat i) = Some x) ->
  read_slots cap (T mod cap) n buf = take n q.
Proof.
  intros Hc Hn Hq Hb. apply list_eq. intros i. unfold read_slots.
  rewrite list_lookup_fmap. destruct (decide (i < n)%nat) as [Hi|Hi].
  - rewrite lookup_seq_lt, lookup_take_lt by lia. simpl.
    destruct (lookup_lt_is_Some_2 q i ltac:(lia)) as [x Hx]. rewrite Hx. f_equal.
    rewrite slot_u64 by lia. apply list_lookup_total_correct. by apply Hb.
  - rewrite lookup_seq_ge, lookup_take_ge by lia. done.
Qed.

(** [pop] always fills the whole array, first with the oldest samples in order,
    then with silence, and removes exactly the samples it delivered. *)
Lemma pop_represents (r : RingBuffer) (T : Z) (q : list Z) (n : nat)
    (Hr : represents r T q) :
  (pop n r).1 = take n q ++ replicate (n - length q) 0 /\ length (pop n r).1 = n /\
  represents (pop n r).2 (T + Z.of_nat (length (take n q))) (drop n q).
Proof.
  pose proof Hr as (Hc & HT & Hl & Ht & Hh & Hq & Hb). unfold pop.
  rewrite Hh, Ht, filled_spec by lia. rewrite Nat2Z.id.
  set (k := if bool_decide (Z.of_nat n < Z.of_nat (length q)) then n else length q).
  assert (k = (n `min` length q)%nat) as Hk by (unfold k; case_bool_decide; lia).
  clearbody k. simpl. rewrite (read_slots_spec _ _ q) by (done || lia).
  assert (take k q = take n q) as ->.
  { subst k. destruct (decide (n <= length q)%nat); [f_equal; lia|].
    rewrite !take_ge; [done|lia|lia]. }
  replace (n - k)%nat with (n - length q)%nat by lia.
  split; [done|]. split; [rewrite length_app, length_take, length_replicate; lia|].
  rewrite length_take. split_and!; simpl; try done; try lia.
  - rewrite index_u64 by lia. f_equal. lia.
  - rewrite length_drop. f_equal. lia.
  - rewrite length_drop. lia.
  - intros i x. rewrite lookup_drop. intros Hx.
    apply lookup_lt_Some in Hx as Hlt.
    replace (T + Z.of_nat (n `min` length q) + Z.of_nat i) with (T + Z.of_nat (n + i)) by lia.
    by apply Hb.
Qed.

(** *** The abstract bounded queue and the refinement *)

Inductive op := OpPush (data : list Z) | OpPop (samples : nat).

(** The ring's run: what each pop delivered, and the final ring. *)
Fixpoint run (ops : list op) (r : RingBuffer) : list (list Z) * RingBuffer :=
  match ops with
  | [] => ([], r)
  | OpPush data :: ops => run ops (push data r)
  | OpPop n :: ops =>
    let '(out, r) := pop n r in let '(outs, r) := run ops r in (out :: outs, r)
  end.

(** The specification: a queue of at most [cap - 1] samples. *)
Fixpoint spec_run (cap : Z) (ops : list op) (q : list Z) : list (list Z) * list Z :=
  match ops with
  | [] => ([], q)
  | OpPush data :: ops =>
    spec_run cap ops (q ++ take (Z.to_nat (cap - 1 - Z.of_nat (length q))) data)
  | OpPop n :: ops =>
    let '(outs, q') := spec_run cap ops (drop n q) in
    ((take n q ++ replicate (n - length q) 0) :: outs, q')
  end.

Lemma run_represents ops r T q :
  represents r T q ->
  (run ops r).1 = (spec_run (capacity r) ops q).1 /\
  exists T', represents (run ops r).2 T' (spec_run (capacity r) ops q).2.
Proof.
  revert r T q. induction ops as [|[data|n] ops IH]; intros r T q Hr; cbn [run spec_run]; [eauto|..].
  - pose proof (IH _ _ _ (push_represents r T q data Hr)) as IHr.
    assert (capacity (push data r) = capacity r) as Hc by (unfold push; by case_bool_decide).
    by rewrite Hc in IHr.
  - destruct (pop_represents r T q n Hr) as (Ho & _ & Hr').
    assert (capacity (pop n r).2 = capacity r) as Hc by done.
    destruct (pop n r) as [out r']. simpl in *. subst out.
    destruct (IH r' _ _ Hr') as [Houts Hex]. rewrite Hc in *.
    destruct (run ops r') as [outs r'']. destruct (spec_run (capacity r) ops (drop n q)).
    simpl in *. subst. eauto.
Qed.

(** C13: any sequence of pushes and pops on a fresh ring of [capacity] samples
    behaves as a FIFO queue that holds at most [capacity - 1] samples: every
    pop delivers exactly what the queue specification delivers (oldest samples
    first, silence on underrun, overflow dropped), and the ring always
    represents the specification's queue. *)
Theorem ring_refines_queue (cap : Z) (ops : list op) (Hcap : 0 < cap < 2 ^ 62) :
  (run ops (new cap)).1 = (spec_run cap ops []).1 /\
  exists T, represents (run ops (new cap)).2 T (spec_run cap ops []).2.
Proof. apply (run_represents ops (new cap) 0 []). by apply new_represents. Qed.

Lemma ring_refines_queue_witness :
  (run [OpPush [1; 2; 3; 4]; OpPop 2; OpPush [5; 6]; OpPop 5] (new 4)).1 =
    [[1; 2]; [3; 5; 6; 0; 0]] /\
  exists T, represents (run [OpPush [1; 2; 3; 4]; OpPop 2; OpPush [5; 6]; OpPop 5] (new 4)).2 T [].
Proof.
  apply (ring_refines_queue 4 [OpPush [1; 2; 3; 4]; OpPop 2; OpPush [5; 6]; OpPop 5]). lia.
Defined.

End Seq.

Module Spsc.
Import Seq.

(** Where the producer's [push] is. *)
Inductive producer :=
| PIdle
| PHead (data : list Z) (h : Z)                 (* head_ loaded *)
| PWrite (data : list Z) (h : Z) (i : nat).     (* tail_ loaded, i slots written *)

(** Where the consumer's [pop] is. *)
Inductive consumer :=
| CIdle
| CHead (samples : nat) (h : Z)                               (* head_ loaded *)
| CRead (samples : nat) (t : Z) (to_copy : nat) (got : list Z). (* tail_ loaded *)

(** The shared ring, both threads, and two ghost streams: what the producer
    has published and what the consumer has delivered (without the silence). *)
Record state := mkState {
  ring : RingBuffer;
  prod : producer;
  cons : consumer;
  published : list Z;
  delivered : list Z;
}.

Definition init (cap : Z) : state := mkState (new cap) PIdle CIdle [] [].

Definition set_buffer (r : RingBuffer) (b : list Z) : RingBuffer :=
  mkRing (capacity r) b (head r) (tail r).
Definition set_head (r : RingBuffer) (h : Z) : RingBuffer :=
  mkRing (capacity r) (buffer r) h (tail r).
Definition set_tail (r : RingBuffer) (t : Z) : RingBuffer :=
  mkRing (capacity r) (buffer r) (head r) t.

(** The samples a push keeps, from the [head_] and [tail_] it loaded. *)
Definition accepted (cap h t : Z) (data : list Z) : list Z :=
  let available := room cap h t in
  take (Z.to_nat (if bool_decide (Z.of_nat (length data) > available)
                  then available else Z.of_nat (length data))) data.

Inductive step : state -> state -> Prop :=
| push_load_head r c pub del data :
    step (mkState r PIdle c pub del) (mkState r (PHead data (head r)) c pub del)
| push_load_tail r c pub del data h :
    accepted (capacity r) h (tail r) data <> [] ->
    step (mkState r (PHead data h) c pub del)
         (mkState r (PWrite (accepted (capacity r) h (tail r) data) h 0) c pub del)
| push_nothing r c pub del data h :
    accepted (capacity r) h (tail r) data = [] ->
    step (mkState r (PHead data h) c pub del) (mkState r PIdle c pub del)
| push_write r c pub del data h i x :
    data !! i = Some x ->
    step (mkState r (PWrite data h i) c pub del)
         (mkState (set_buffer r (<[slot (capacity r) (u64 (h + Z.of_nat i)) := x]> (buffer r)))
            (PWrite data h (S i)) c pub del)
| push_publish r c pub del data h :
    step (mkState r (PWrite data h (length data)) c pub del)
         (mkState (set_head r (u64 (h + Z.of_nat (length data)) mod capacity r))
            PIdle c (pub ++ data) del)
| pop_load_head r p pub del n :
    step (mkState r p CIdle pub del) (mkState r p (CHead n (head r)) pub del)
| pop_load_tail r p pub del n h :
    let available := filled (capacity r) h (tail r) in
    step (mkState r p (CHead n h) pub del)
         (mkState r p (CRead n (tail r)
            (if bool_decide (Z.of_nat n < available) then n else Z.to_nat available) []) pub del)
| pop_read r p pub del n t k got :
    (length got < k)%nat ->
    step (mkState r p (CRead n t k got) pub del)
         (mkState r p (CRead n t k
            (got ++ [buffer r !!! slot (capacity r) (u64 (t + Z.of_nat (length got)))])) pub del)
| pop_release r p pub del n t k got :
    length got = k ->
    step (mkState r p (CRead n t k got) pub del)
         (mkState (set_tail r (u64 (t + Z.of_nat k) mod capacity r)) p CIdle pub (del ++ got)).

(** ** The invariant *)

Definition inv_ring (s : state) : Prop :=
  let cap := capacity (ring s) in
  let T := Z.of_nat (length (delivered s)) in
  let H := Z.of_nat (length (published s)) in
  0 < cap < 2 ^ 62 /\ length (buffer (ring s)) = Z.to_nat cap /\
  head (ring s) = H mod cap /\ tail (ring s) = T mod cap /\
  0 <= H - T <= cap - 1 /\
  delivered s = take (length (delivered s)) (published s) /\
  forall i x, published s !! i = Some x -> T <= Z.of_nat i ->
    buffer (ring s) !! slot cap (Z.of_nat i) = Some x.

Definition inv_prod (s : state) : Prop :=
  let cap := capacity (ring s) in
  let T := Z.of_nat (length (delivered s)) in
  let H := Z.of_nat (length (published s)) in
  match prod s with
  | PIdle => True
  | PHead _ h => h = H mod cap
  | PWrite data h i =>
    h = H mod cap /\ (i <= length data)%nat /\ H + Z.of_nat (length data) <= T + cap - 1 /\
    forall j x, (j < i)%nat -> data !! j = Some x ->
      buffer (ring s) !! slot cap (H + Z.of_nat j) = Some x
  end.

Definition inv_cons (s : state) : Prop :=
  let cap := capacity (ring s) in
  let T := Z.of_nat (length (delivered s)) in
  let H := Z.of_nat (length (published s)) in
  match cons s with
  | CIdle => True
  | CHead _ h => exists Hl, h = Hl mod cap /\ T <= Hl <= H
  | CRead _ t k got =>
    t = T mod cap /\ (length got <= k)%nat /\ T + Z.of_nat k <= H /\
    got = take (length got) (drop (length (delivered s)) (published s))
  end.

Definition inv (s : state) : Prop := inv_ring s /\ inv_prod s /\ inv_cons s.

Local Ltac split_inv := unfold inv, inv_ring, inv_prod, inv_cons in *; simpl in *; split_and!.

Lemma inv_init cap : 0 < cap < 2 ^ 62 -> inv (init cap).
Proof.
  intros Hc. split_inv; simpl; try done; try lia; first by rewrite length_replicate.
Qed.

Lemma accepted_length cap T H data :
  0 < cap < 2 ^ 62 -> 0 <= H - T <= cap - 1 ->
  Z.of_nat (length (accepted cap (H mod cap) (T mod cap) data)) <= cap - 1 - (H - T).
Proof.
  intros Hc Hd. unfold accepted. replace H with (T + (H - T)) by lia.
  rewrite room_spec by lia. rewrite length_take. case_bool_decide; lia.
Qed.

(** Each thread's steps keep the invariant. *)
Lemma inv_push_load_tail r c pub del data h :
  inv (mkState r (PHead data h) c pub del) ->
  inv (mkState r (PWrite (accepted (capacity r) h (tail r) data) h 0) c pub del).
Proof.
  intros ((Hc & Hl & Hh & Ht & Hd & Hdel & Hb) & -> & Hcs). simpl in *.
  split_inv; try done; try lia. rewrite Ht.
  pose proof (accepted_length (capacity r) (Z.of_nat (length del)) (Z.of_nat (length pub)) data
    Hc Hd). lia.
Qed.

Lemma inv_push_write r c pub del data h i x :
  data !! i = Some x ->
  inv (mkState r (PWrite data h i) c pub del) ->
  inv (mkState (set_buffer r (<[slot (capacity r) (u64 (h + Z.of_nat i)) := x]> (buffer r)))
         (PWrite data h (S i)) c pub del).
Proof.
  intros Hx ((Hc & Hl & Hh & Ht & Hd & Hdel & Hb) & (-> & Hi & Hroom & Hw) & Hcs).
  simpl in *. apply lookup_lt_Some in Hx as Hlt.
  assert (forall k, Z.abs (Z.of_nat (length pub) + Z.of_nat i - k) < capacity r ->
    k <> Z.of_nat (length pub) + Z.of_nat i ->
    slot (capacity r) (u64 (Z.of_nat (length pub) mod capacity r + Z.of_nat i)) <>
    slot (capacity r) k) as Hne.
  { intros k Hk Hnk Heq. rewrite slot_u64 in Heq by lia. apply slot_inj in Heq; lia. }
  split_inv; simpl; try done; try lia.
  - by rewrite length_insert.
  - intros j y Hy HT. apply lookup_lt_Some in Hy as Hjl.
    rewrite list_lookup_insert_ne by (apply Hne; lia). by apply Hb.
  - intros j y Hj Hy. destruct (decide (j = i)) as [->|Hji].
    + replace y with x by congruence. rewrite slot_u64 by lia. apply list_lookup_insert_eq.
      rewrite Hl. apply slot_lt. lia.
    + rewrite list_lookup_insert_ne by (apply Hne; lia). apply Hw; [lia|done].
Qed.

Lemma inv_push_publish r c pub del data h :
  inv (mkState r (PWrite data h (length data)) c pub del) ->
  inv (mkState (set_head r (u64 (h + Z.of_nat (length data)) mod capacity r))
         PIdle c (pub ++ data) del).
Proof.
  intros ((Hc & Hl & Hh & Ht & Hd & Hdel & Hb) & (-> & Hi & Hroom & Hw) & Hcs).
  simpl in *. assert (length del <= length pub)%nat as Hle by lia.
  split_inv; simpl; try done; rewrite ?length_app; try lia.
  - rewrite index_u64 by lia. f_equal. lia.
  - by rewrite take_app_le.
  - intros i x. rewrite lookup_app_Some. intros [Hx|[Hge Hx]] HT; [by apply Hb|].
    apply lookup_lt_Some in Hx as Hlt.
    replace (Z.of_nat i) with (Z.of_nat (length pub) + Z.of_nat (i - length pub)) by lia.
    by apply Hw.
  - unfold inv_cons in *. simpl in *. destruct c as [|n hc|n t k got]; [done|..].
    + destruct Hcs as (Hl' & ? & ?). exists Hl'. lia.
    + destruct Hcs as (? & ? & ? & Hg). split_and!; try done; try lia.
      rewrite drop_app_le by lia. rewrite take_app_le; [done|]. rewrite length_drop. lia.
Qed.

Lemma inv_pop_load_tail r p pub del n h :
  inv (mkState r p (CHead n h) pub del) ->
  inv (mkState r p (CRead n (tail r)
    (if bool_decide (Z.of_nat n < filled (capacity r) h (tail r)) then n
     else Z.to_nat (filled (capacity r) h (tail r))) []) pub del).
Proof.
  intros ((Hc & Hl & Hh & Ht & Hd & Hdel & Hb) & Hp & (Hl' & -> & HT)). simpl in *.
  split_inv; try done; simpl; try lia.
  assert (filled (capacity r) (Hl' mod capacity r) (tail r) = Hl' - Z.of_nat (length del)) as ->.
  { rewrite Ht. replace Hl' with (Z.of_nat (length del) + (Hl' - Z.of_nat (length del))) at 1 by lia.
    apply filled_spec; lia. }
  case_bool_decide; lia.
Qed.

Lemma inv_pop_read r p pub del n t k got :
  (length got < k)%nat ->
  inv (mkState r p (CRead n t k got) pub del) ->
  inv (mkState r p (CRead n t k
    (got ++ [buffer r !!! slot (capacity r) (u64 (t + Z.of_nat (length got)))])) pub del).
Proof.
  intros Hg ((Hc & Hl & Hh & Ht & Hd & Hdel & Hb) & Hp & (-> & Hk & HT & Hgot)). simpl in *.
  split_inv; try done; simpl; rewrite ?length_app; simpl; try lia.
  destruct (lookup_lt_is_Some_2 pub (length del + length got) ltac:(lia)) as [x Hx].
  rewrite Nat.add_1_r, (take_S_r _ _ x) by (by rewrite lookup_drop).
  rewrite <-Hgot. do 2 f_equal. rewrite slot_u64 by lia. apply list_lookup_total_correct.
  rewrite <-Nat2Z.inj_add. apply Hb; [done|lia].
Qed.

Lemma inv_pop_release r p pub del n t k got :
  length got = k ->
  inv (mkState r p (CRead n t k got) pub del) ->
  inv (mkState (set_tail r (u64 (t + Z.of_nat k) mod capacity r)) p CIdle pub (del ++ got)).
Proof.
  intros <- ((Hc & Hl & Hh & Ht & Hd & Hdel & Hb) & Hp & (-> & _ & HT & Hgot)). simpl in *.
  split_inv; simpl; rewrite ?length_app; try done; try lia.
  - rewrite index_u64 by lia. f_equal. lia.
  - rewrite Hdel at 1. rewrite Hgot at 1. by rewrite <-take_take_drop.
  - intros i x Hx Hi. apply Hb; [done|lia].
  - unfold inv_prod in *. simpl in *. destruct p as [|data h|data h i]; try done.
    destruct Hp as (? & ? & ? & ?). split_and!; try done; lia.
Qed.

Lemma inv_step s s' : inv s -> step s s' -> inv s'.
Proof.
  intros Hi Hs. destruct Hs.
  - destruct Hi as (Hr & _ & Hc). split; [done|]. split; [|done]. apply Hr.
  - by apply inv_push_load_tail.
  - destruct Hi as (Hr & _ & Hc). by split.
  - by apply inv_push_write.
  - by eapply inv_push_publish.
  - destruct Hi as (Hr & Hp & _). split; [done|]. split; [done|].
    destruct Hr as (_ & _ & Hh & _ & Hd & _). simpl in *.
    exists (Z.of_nat (length pub)). simpl. split; [done|lia].
  - by apply inv_pop_load_tail.
  - by apply inv_pop_read.
  - by eapply inv_pop_release.
Qed.

(** ** Property *)

(** C14: whatever the interleaving of the producer's and the consumer's steps,
    the samples delivered are a prefix of the samples published (nothing is
    lost, repeated, reordered or torn), never more than [capacity - 1] are in
    flight, and a pop that has read its slots holds exactly the next published
    samples. *)
Theorem spsc_fifo (cap : Z) (s : state)
    (Hcap : 0 < cap < 2 ^ 62) (Hs : rtc step (init cap) s) :
  delivered s `prefix_of` published s /\
  Z.of_nat (length (published s)) - Z.of_nat (length (delivered s)) <= cap - 1 /\
  match cons s with
  | CRead _ _ k got => delivered s ++ got `prefix_of` published s
  | _ => True
  end.
Proof.
  assert (inv s /\ capacity (ring s) = cap) as [((Hc & Hl & Hh & Ht & Hd & Hdel & Hb) & _ & Hcs) Hcap'].
  { apply (rtc_invariant step (fun s => inv s /\ capacity (ring s) = cap) (init cap)); [| |done].
    - intros a b [Ha <-] Hab. split; [by eapply inv_step|]. by destruct Hab.
    - split; [by apply inv_init|done]. }
  split_and!.
  - rewrite Hdel. apply prefix_take.
  - lia.
  - unfold inv_cons in Hcs. destruct (cons s) as [| |n t k got]; try done.
    destruct Hcs as (_ & _ & _ & ->). rewrite Hdel at 1. rewrite take_take_drop. apply prefix_take.
Qed.

(** A run: a push of two samples is published while a pop of three is between
    its loads; the pop delivers the one sample that was there before. *)
Lemma spsc_run :
  rtc step (init 4)
    (mkState (mkRing 4 [7; 8; 9; 0] 3 0) PIdle (CRead 3 0 1 [7]) [7; 8; 9] []).
Proof.
  eapply rtc_l; [apply (push_load_head _ _ _ _ [7])|].
  eapply rtc_l; [apply push_load_tail; vm_compute; discriminate|].
  eapply rtc_l; [by apply (push_write _ _ _ _ _ _ 0 7)|].
  eapply rtc_l; [apply (push_publish _ _ _ _ [7])|].
  eapply rtc_l; [apply (pop_load_head _ _ _ _ 3)|].
  eapply rtc_l; [apply (push_load_head _ _ _ _ [8; 9])|].
  eapply rtc_l; [apply push_load_tail; vm_compute; discriminate|].
  eapply rtc_l; [by apply (push_write _ _ _ _ _ _ 0 8)|].
  eapply rtc_l; [apply pop_load_tail|].
  eapply rtc_l; [by apply (push_write _ _ _ _ _ _ 1 9)|].
  eapply rtc_l; [apply (push_publish _ _ _ _ [8; 9])|].
  eapply rtc_l; [apply pop_read; vm_compute; lia|].
  vm_compute. apply rtc_refl.
Qed.

Lemma spsc_fifo_witness :
  [] `prefix_of` [7; 8; 9] /\ 3 - 0 <= 4 - 1 /\ [] ++ [7] `prefix_of` [7; 8; 9].
Proof. apply (spsc_fifo 4 _ ltac:(lia) spsc_run). Defined.

End Spsc.
