(* ===== verification/AudioBridge.v ===== *)
(** The audio bridge of one call (src/voip/audio_bridge.cpp,
    src/voip/ringrtc_sip_bridge.cpp and .h, and [wireBridgeAudio] of
    src/daemon/main.cpp): the PJSIP-facing ports, the 10 ms feeder loop
    between them and RingRTC, and the wiring and teardown of the resample
    ports in PJSIP's conference bridge. *)

From S2P Require Import Prelude RingBuffer.
Import RingBuffer.Seq.

Definition SAMPLES_PER_FRAME : nat := 480.
Definition kRingBufferCapacitySamples : Z := 48000 * 2.

(** ** PJMEDIA frames and the ports' callbacks *)

Inductive frame_type := FRAME_NONE | FRAME_AUDIO | FRAME_OTHER.

(** [buf] holds 16-bit samples, [size] counts bytes. *)
Record frame := mkFrame { ftype : frame_type; buf : list Z; size : Z }.

Definition silence_frame (f : frame) : frame := mkFrame FRAME_NONE (buf f) 0.

(** The state of a [RingRtcSipBridge]; [feeder_thread] is true while the
    thread object is joinable. *)
Record bridge := mkBridge {
  mic_buffer : RingBuffer;
  playout_buffer : RingBuffer;
  input_active : bool;
  output_active : bool;
  feeder_running : bool;
  feeder_thread : bool;
  resample : option (nat * nat * nat);   (* pool, in port id, out port id *)
}.

Definition new_bridge : bridge :=
  mkBridge (new kRingBufferCapacitySamples) (new kRingBufferCapacitySamples)
    false false false false None.

Definition set_mic (b : bridge) (r : RingBuffer) : bridge :=
  mkBridge r (playout_buffer b) (input_active b) (output_active b) (feeder_running b)
    (feeder_thread b) (resample b).
Definition set_playout (b : bridge) (r : RingBuffer) : bridge :=
  mkBridge (mic_buffer b) r (input_active b) (output_active b) (feeder_running b)
    (feeder_thread b) (resample b).

(** [SoftwareAudioInput::PutFrameCallback]: PJSIP delivers decoded audio. *)
Definition input_PutFrame (f : frame) (b : bridge) : bridge :=
  match ftype f with
  | FRAME_AUDIO =>
    if negb (input_active b) then b
    else set_mic b (push (take (Z.to_nat (size f / 2)) (buf f)) (mic_buffer b))
  | _ => b
  end.

(** [SoftwareAudioInput::GetFrameCallback] *)
Definition input_GetFrame (f : frame) : frame := silence_frame f.

(** [SoftwareAudioOutput::PutFrameCallback] *)
Definition output_PutFrame (f : frame) : frame := silence_frame f.

(** [SoftwareAudioOutput::GetFrameCallback]: PJSIP asks for audio to send. *)
Definition output_GetFrame (f : frame) (b : bridge) : frame * bridge :=
  if negb (output_active b) then (silence_frame f, b)
  else let '(samples, r) := pop SAMPLES_PER_FRAME (playout_buffer b) in
       (mkFrame FRAME_AUDIO samples (Z.of_nat SAMPLES_PER_FRAME * 2), set_playout b r).

(** ** The feeder thread *)

(** One iteration of [FeederLoop]: the samples given to
    [signal2sip_push_recorded_samples]; [got] is what
    [signal2sip_pull_playout_samples] wrote, at most one frame. *)
Definition feeder_tick (got : list Z) (b : bridge) : list Z * bridge :=
  let '(mic_scratch, mic) := pop SAMPLES_PER_FRAME (mic_buffer b) in
  (mic_scratch, set_playout (set_mic b mic) (push got (playout_buffer b))).

(** [FeederLoop] over the ticks until [feeder_running_] reads false; [ticks]
    gives, per iteration, what RingRTC hands over. *)
Fixpoint FeederLoop (ticks : list (list Z)) (b : bridge) : list (list Z) * bridge :=
  match ticks with
  | [] => ([], b)
  | got :: ticks' =>
    if negb (feeder_running b) then ([], b)
    else let '(rec, b1) := feeder_tick got b in
         let '(recs, b2) := FeederLoop ticks' b1 in (rec :: recs, b2)
  end.

Definition Start (b : bridge) : bridge :=
  if feeder_running b then b   (* exchange(true) returned true: already running *)
  else mkBridge (mic_buffer b) (playout_buffer b) true true true true (resample b).

Definition Stop (b : bridge) : bridge :=
  if negb (feeder_running b) then b   (* wasn't running *)
  else mkBridge (mic_buffer b) (playout_buffer b) false false false false (resample b).

(** ** Wiring into PJSIP's conference bridge *)

Inductive side := InputPort | OutputPort.

(** The conference bridge: its resample ports, each with the bridge port it
    forwards to.  PJMEDIA's clock thread drives every live one. *)
Record conf := mkConf { next_id : nat; live : gmap nat side }.

Definition add_port (s : side) (c : conf) : nat * conf :=
  (next_id c, mkConf (S (next_id c)) (<[next_id c := s]> (live c))).

Definition remove_port (id : nat) (c : conf) : conf := mkConf (next_id c) (delete id (live c)).

Definition HasResamplePorts (b : bridge) : bool := bool_decide (is_Some (resample b)).

Definition SetResamplePorts (pool in_id out_id : nat) (b : bridge) : bridge :=
  mkBridge (mic_buffer b) (playout_buffer b) (input_active b) (output_active b)
    (feeder_running b) (feeder_thread b) (Some (pool, in_id, out_id)).

(** One entry of [ci.media]. *)
Record media := mkMedia { is_audio : bool; has_media : bool }.

Fixpoint wire_loop (ms : list media) (bc : bridge * conf) : bridge * conf :=
  match ms with
  | [] => bc
  | m :: ms' =>
    if negb (is_audio m) || negb (has_media m) then wire_loop ms' bc
    else
      let '(b, c) := bc in
      let '(pool, c) := (next_id c, mkConf (S (next_id c)) (live c)) in
      let '(in_id, c) := add_port InputPort c in
      let '(out_id, c) := add_port OutputPort c in
      wire_loop ms' (Start (SetResamplePorts pool in_id out_id b), c)
  end.

Definition wireBridgeAudio (ms : list media) (bc : bridge * conf) : bridge * conf :=
  if HasResamplePorts bc.1 then bc else wire_loop ms bc.

(** [~RingRtcSipBridge]: the body, then the members in reverse order of
    declaration.  The result is the conference bridge afterwards and whether a
    joinable thread object was destroyed (which terminates the process). *)
Definition destroy (b : bridge) (c : conf) : conf * bool :=
  let b := Stop b in
  let c := match resample b with
           | Some (_, in_id, out_id) => remove_port out_id (remove_port in_id c)
           | None => c
           end in
  (c, feeder_thread b).

(** ** Invariants *)

(** Flags agree: the ports are active and the thread joinable exactly while
    the feeder runs. *)
Definition flags_ok (b : bridge) : Prop :=
  input_active b = feeder_running b /\ output_active b = feeder_running b /\
  feeder_thread b = feeder_running b.

(** Identifiers not yet given out are not in use. *)
Definition conf_ok (c : conf) : Prop := forall id, (next_id c <= id)%nat -> live c !! id = None.

(** No live resample port forwards into this bridge, except those recorded. *)
Definition only_recorded (b : bridge) (c : conf) : Prop :=
  forall id, is_Some (live c !! id) ->
    match resample b with
    | Some (_, in_id, out_id) => id = in_id \/ id = out_id
    | None => False
    end.

Definition audio_count (ms : list media) : nat :=
  length (filter (fun m => is_audio m = true /\ has_media m = true) ms).

Lemma capacity_ok : 0 < kRingBufferCapacitySamples < 2 ^ 62.
Proof. done. Qed.

Lemma flags_Start b : flags_ok b -> flags_ok (Start b).
Proof.
  intros (? & ? & ?). unfold Start, flags_ok.
  destruct (feeder_running b) eqn:E; simpl; split_and!; congruence.
Qed.
Lemma flags_Stop b : flags_ok b -> flags_ok (Stop b) /\ feeder_running (Stop b) = false.
Proof.
  intros (? & ? & ?). unfold Stop, flags_ok.
  destruct (feeder_running b) eqn:E; simpl; split_and!; congruence.
Qed.

Lemma flags_wire_loop ms b c : flags_ok b -> flags_ok (wire_loop ms (b, c)).1.
Proof.
  revert b c. induction ms as [|m ms IH]; intros b c Hb; simpl; [done|].
  destruct (_ || _); [by apply IH|]. apply IH. apply flags_Start. apply Hb.
Qed.

Lemma wire_loop_none ms bc : audio_count ms = 0%nat -> wire_loop ms bc = bc.
Proof.
  unfold audio_count. induction ms as [|[a h] ms IH]; simpl; [done|].
  rewrite filter_cons. simpl. destruct a, h; simpl; try apply IH; done.
Qed.

(** ** Properties *)

(** One feeder iteration always hands RingRTC exactly one full frame,
    the oldest microphone samples padded with silence, and queues the pulled
    playout samples behind those already waiting. *)
Lemma feeder_tick_spec (b : bridge) (got qm qp : list Z) (Tm Tp : Z)
    (Hm : represents (mic_buffer b) Tm qm) (Hp : represents (playout_buffer b) Tp qp) :
  let '(rec, b') := feeder_tick got b in
  length rec = SAMPLES_PER_FRAME /\
  rec = take SAMPLES_PER_FRAME qm ++ replicate (SAMPLES_PER_FRAME - length qm) 0 /\
  represents (mic_buffer b') (Tm + Z.of_nat (length (take SAMPLES_PER_FRAME qm)))
    (drop SAMPLES_PER_FRAME qm) /\
  represents (playout_buffer b') Tp
    (qp ++ take (Z.to_nat (capacity (playout_buffer b) - 1 - Z.of_nat (length qp))) got).
Proof.
  unfold feeder_tick.
  destruct (pop_represents _ _ _ SAMPLES_PER_FRAME Hm) as (H1 & H2 & H3).
  destruct (pop SAMPLES_PER_FRAME (mic_buffer b)) as [rec mic]. cbn [fst snd] in *.
  split_and!; [done|done|done|]. by apply push_represents.
Qed.

Lemma feeder_tick_spec_witness :
  let '(rec, b') := feeder_tick [9; 9] new_bridge in
  length rec = SAMPLES_PER_FRAME /\
  rec = take SAMPLES_PER_FRAME [] ++ replicate (SAMPLES_PER_FRAME - length (@nil Z)) 0 /\
  represents (mic_buffer b') 0 [] /\
  represents (playout_buffer b') 0 ([] ++ take (Z.to_nat (96000 - 1 - 0)) [9; 9]).
Proof.
  exact (feeder_tick_spec new_bridge [9; 9] [] [] 0 0
    (new_represents _ capacity_ok) (new_represents _ capacity_ok)).
Defined.

(** The PJSIP-side callbacks. A port that is not active ignores audio
    put into it and answers a request with an empty frame; an active output
    port always answers with one full 480-sample (960-byte) audio frame; an
    active input port queues exactly the samples of an audio frame; the two
    unused directions carry nothing. *)
Lemma port_callbacks_spec (b : bridge) (f : frame) :
  (input_active b = false \/ ftype f <> FRAME_AUDIO -> input_PutFrame f b = b) /\
  (input_active b = true -> ftype f = FRAME_AUDIO ->
    input_PutFrame f b = set_mic b (push (take (Z.to_nat (size f / 2)) (buf f)) (mic_buffer b))) /\
  (output_active b = false -> output_GetFrame f b = (silence_frame f, b)) /\
  (forall T q, output_active b = true -> represents (playout_buffer b) T q ->
    let '(f', b') := output_GetFrame f b in
    ftype f' = FRAME_AUDIO /\ size f' = 960 /\ length (buf f') = 480%nat /\
    buf f' = take 480 q ++ replicate (480 - length q) 0 /\
    represents (playout_buffer b') (T + Z.of_nat (length (take 480 q))) (drop 480 q)) /\
  size (input_GetFrame f) = 0 /\ size (output_PutFrame f) = 0.
Proof.
  unfold input_PutFrame, output_GetFrame. split_and!; try done.
  - intros [->|Hf]; destruct (ftype f); done.
  - intros -> ->. done.
  - intros ->. done.
  - intros T q -> Hq. cbn [negb].
    destruct (pop_represents _ _ _ SAMPLES_PER_FRAME Hq) as (H1 & H2 & H3).
    destruct (pop SAMPLES_PER_FRAME (playout_buffer b)) as [out r]. cbn [fst snd] in *.
    split_and!; done.
Qed.

(** [Start] and [Stop] are idempotent and keep the flags in agreement, and
    any sequence of them from a fresh bridge does: the ports are active, and a
    thread is there to join, exactly while the feeder runs. A [Stop] that
    finds no feeder changes nothing, and the feeder loop hands over nothing
    once the flag is down. *)
Lemma start_stop_flags (calls : list bool) :
  let b := foldl (fun b (c : bool) => if c then Start b else Stop b) new_bridge calls in
  flags_ok b /\ Start (Start b) = Start b /\ Stop (Stop b) = Stop b /\
  feeder_running (Start b) = true /\ feeder_running (Stop b) = false /\
  (forall ticks, FeederLoop ticks (Stop b) = ([], Stop b)).
Proof.
  intros b. assert (flags_ok b) as Hb.
  { unfold b. assert (flags_ok new_bridge) as Hn by done. revert Hn. generalize new_bridge.
    induction calls as [|[] calls IH]; intros b0 H0; simpl; [done|..]; apply IH.
    - by apply flags_Start.
    - by apply flags_Stop. }
  split; [done|]. clearbody b. destruct (flags_Stop b Hb) as [_ Hs].
  assert (feeder_running (Start b) = true) as Ht
    by (unfold Start; by destruct (feeder_running b) eqn:E).
  split_and!; try done.
  - unfold Start at 1. by rewrite Ht.
  - unfold Stop at 1. by rewrite Hs.
  - intros [|got ticks]; simpl; [done|]. by rewrite Hs.
Qed.


(** What wiring keeps: flags, fresh identifiers, and that every live resample
    port is one the bridge has on record. *)
Definition wire_inv (bc : bridge * conf) : Prop :=
  flags_ok bc.1 /\ conf_ok bc.2 /\ only_recorded bc.1 bc.2.

Lemma wire_one_inv b c m :
  wire_inv (b, c) -> resample b = None -> is_audio m = true -> has_media m = true ->
  wire_inv (wire_loop [m] (b, c)).
Proof.
  intros (Hf & Hc & Ho) Hn Ha Hm. simpl in *. rewrite Ha, Hm. simpl.
  unfold only_recorded in Ho. rewrite Hn in Ho. split_and!; simpl.
  - apply flags_Start. apply Hf.
  - intros id Hid. simpl in *. rewrite !lookup_insert_ne by lia. apply Hc. lia.
  - intros id Hid. unfold Start. destruct (feeder_running _); simpl in *.
    all: destruct (decide (id = S (S (next_id c)))) as [->|H1]; [by right|].
    all: destruct (decide (id = S (next_id c))) as [->|H2]; [by left|].
    all: rewrite !lookup_insert_ne in Hid by done; by apply Ho in Hid.
Qed.

Lemma wire_loop_inv ms b c :
  (audio_count ms <= 1)%nat -> wire_inv (b, c) -> resample b = None ->
  wire_inv (wire_loop ms (b, c)).
Proof.
  induction ms as [|[a h] ms IH]; intros Hone Hi Hn; [done|].
  destruct a, h; try (by apply IH).
  assert (audio_count ms = 0%nat) as Hz by (unfold audio_count in *; simpl in Hone; lia).
  pose proof (wire_one_inv b c (mkMedia true true) Hi Hn eq_refl eq_refl) as H1.
  simpl in *. by rewrite wire_loop_none.
Qed.

Lemma wire_events_inv events bc :
  Forall (fun ms => (audio_count ms <= 1)%nat) events -> wire_inv bc ->
  wire_inv (foldl (fun bc ms => wireBridgeAudio ms bc) bc events).
Proof.
  intros Hev. revert bc. induction Hev as [|ms events Hone _ IH]; intros [b c] Hi; simpl; [done|].
  apply IH. unfold wireBridgeAudio, HasResamplePorts. simpl. case_bool_decide as Hr; [done|].
  apply wire_loop_inv; [done|done|]. by apply eq_None_not_Some.
Qed.

Lemma only_recorded_destroy b c :
  only_recorded b c -> live (destroy b c).1 = ∅.
Proof.
  intros Ho. unfold only_recorded in Ho. unfold destroy. simpl.
  assert (resample (Stop b) = resample b) as -> by (unfold Stop; by destruct (negb _)).
  apply map_eq. intros id. rewrite lookup_empty.
  destruct (resample b) as [[[pool i] o]|]; simpl.
  - destruct (decide (id = o)) as [->|]; [by rewrite lookup_delete_eq|].
    rewrite lookup_delete_ne by done.
    destruct (decide (id = i)) as [->|]; [by rewrite lookup_delete_eq|].
    rewrite lookup_delete_ne by done. apply eq_None_not_Some. intros Hs. apply Ho in Hs. naive_solver.
  - apply eq_None_not_Some. intros Hs. by apply Ho in Hs.
Qed.

(** However often the media state changes, if no change shows more than
    one audio stream, then when the bridge is destroyed no resample port is
    left forwarding into its freed ports and no joinable thread object is
    destroyed. *)
Lemma wiring_torn_down (events : list (list media)) (c : conf)
    (Hc : conf_ok c) (Hl : live c = ∅)
    (Hone : Forall (fun ms => (audio_count ms <= 1)%nat) events) :
  let '(b, c') := foldl (fun bc ms => wireBridgeAudio ms bc) (new_bridge, c) events in
  live (destroy b c').1 = ∅ /\ (destroy b c').2 = false.
Proof.
  assert (wire_inv (new_bridge, c)) as Hi.
  { split_and!; [done|done|]. intros id. simpl. rewrite Hl, lookup_empty. by intros [??]. }
  apply (wire_events_inv events _ Hone) in Hi. destruct (foldl _ _ _) as [b c'].
  destruct Hi as (Hf & _ & Ho). split; [by apply only_recorded_destroy|].
  destruct (flags_Stop b Hf) as [(_ & _ & Ht) Hs]. unfold destroy. simpl. congruence.
Qed.

Lemma wiring_torn_down_witness :
  let '(b, c') := foldl (fun bc ms => wireBridgeAudio ms bc) (new_bridge, mkConf 0 ∅)
    [[mkMedia true true]; [mkMedia false true; mkMedia true true]] in
  live (destroy b c').1 = ∅ /\ (destroy b c').2 = false.
Proof.
  apply (wiring_torn_down [[mkMedia true true]; [mkMedia false true; mkMedia true true]]
    (mkConf 0 ∅)); [intros id _; apply lookup_empty|done|].
  repeat constructor.
Defined.

(** The ports a wiring loop adds are never taken away by it. *)
Lemma wire_loop_keeps ms bc id sd :
  conf_ok bc.2 -> live bc.2 !! id = Some sd -> live (wire_loop ms bc).2 !! id = Some sd.
Proof.
  revert bc. induction ms as [|m ms IH]; intros [b c] Hc Hid; simpl in *; [done|].
  destruct (_ || _); [by apply IH|]. apply IH; simpl.
  - intros j Hj. simpl in *. rewrite !lookup_insert_ne by lia. apply Hc. lia.
  - rewrite !lookup_insert_ne; [done|intros <-..]; rewrite Hc in Hid by lia; done.
Qed.

(** The ports on record after a loop are the last pair it added. *)
Lemma wire_loop_recorded ms b c pool i o :
  resample b = Some (pool, i, o) -> (i < next_id c)%nat -> (o < next_id c)%nat ->
  exists pool' i' o', resample (wire_loop ms (b, c)).1 = Some (pool', i', o') /\
    ((i' = i /\ o' = o) \/ (next_id c <= i' /\ next_id c <= o')%nat).
Proof.
  revert b c pool i o. induction ms as [|m ms IH]; intros b c pool i o Hr Hi Ho; simpl.
  - exists pool, i, o. auto.
  - destruct (_ || _); [by eapply IH|].
    destruct (IH (Start (SetResamplePorts (next_id c) (S (next_id c)) (S (S (next_id c))) b))
      (mkConf (S (S (S (next_id c)))) (<[S (S (next_id c)):=OutputPort]>
        (<[S (next_id c):=InputPort]> (live c)))) (next_id c) (S (next_id c)) (S (S (next_id c))))
      as (p' & i' & o' & Hr' & Hio).
    + unfold Start. simpl. by destruct (feeder_running b).
    + simpl. lia.
    + simpl. lia.
    + exists p', i', o'. split; [done|]. right. simpl in Hio. lia.
Qed.

(** The guard against double wiring is only tested before the loop over a
    call's streams, so a call with two audio streams is wired twice and only
    the second pair is on record: after the bridge is destroyed the first
    pair still forwards into its freed ports. *)
Lemma two_streams_leak (ms : list media) (c : conf) (Hc : conf_ok c) :
  let '(b, c') :=
    wireBridgeAudio (mkMedia true true :: mkMedia true true :: ms) (new_bridge, c) in
  live (destroy b c').1 !! S (next_id c) = Some InputPort.
Proof.
  change (wireBridgeAudio _ _) with
    (wire_loop (mkMedia true true :: mkMedia true true :: ms) (new_bridge, c)). simpl.
  match goal with |- let '(b, c') := wire_loop ms (?b2, ?c2) in _ =>
    pose proof (wire_loop_keeps ms (b2, c2) (S (next_id c)) InputPort) as Hk;
    pose proof (wire_loop_recorded ms b2 c2 _ _ _ eq_refl) as Hrec end.
  simpl in Hk, Hrec. destruct Hrec as (p' & i' & o' & Hr & Hio); [lia..|].
  destruct (wire_loop ms _) as [b' c'] eqn:E. simpl in *. unfold destroy. simpl.
  assert (resample (Stop b') = resample b') as -> by (unfold Stop; by destruct (negb _)).
  rewrite Hr. simpl. rewrite !lookup_delete_ne by lia. apply Hk.
  - intros id Hid. simpl in *. rewrite !lookup_insert_ne by lia. apply Hc. lia.
  - rewrite !lookup_insert_ne by lia. apply lookup_insert_eq.
Qed.

Lemma two_streams_leak_witness :
  let '(b, c') := wireBridgeAudio [mkMedia true true; mkMedia true true] (new_bridge, mkConf 0 ∅) in
  live (destroy b c').1 !! 1%nat = Some InputPort.
Proof. apply (two_streams_leak [] (mkConf 0 ∅)). intros id _. apply lookup_empty. Defined.
