(* ===== verification/AudioPorts.v ===== *)
(** What a bridge owns of PJSIP (src/voip/audio_bridge.cpp,
    src/voip/ringrtc_sip_bridge.cpp and [wireBridgeAudio] of
    src/daemon/main.cpp): memory pools with the media ports in them, and the
    slots of the conference bridge through which PJMEDIA's clock thread, at any
    time, calls those ports.

    [AudioBridge] models what flows through the ports and which resample ports
    are on record; here is who frees what, and when. *)

From S2P Require Import Prelude.

Open Scope nat_scope.

(** A pool holds the media ports made from it.  A slot drives the port in
    [port], and through a resample port also the one in [downstream]. *)
Inductive object := Pool (name : string) | ConfSlot (port : nat) (downstream : option nat).

(** [freed_while_driven]: a pool was released while the clock thread could
    still reach a port in it. *)
Record pjsip := mkPjsip { objects : gmap nat object; next : nat; registrations : nat; freed_while_driven : bool }.

Definition drives (pool : nat) (o : object) : bool :=
  match o with
  | Pool _ => false
  | ConfSlot port downstream => bool_decide (port = pool) || bool_decide (downstream = Some pool)
  end.
Definition driven (pool : nat) (s : pjsip) : bool := existsb (fun x => drives pool x.2) (map_to_list (objects s)).

Definition insert_object (o : object) : Comp pjsip nat := fun s =>
  (Ok (next s), mkPjsip (<[next s := o]> (objects s)) (S (next s)) (registrations s) (freed_while_driven s)).
Definition delete_object (h : nat) : Comp pjsip unit :=
  modify (fun s => mkPjsip (delete h (objects s)) (next s) (registrations s) (freed_while_driven s)).

Definition pjsua_pool_create (name : string) : Comp pjsip nat := insert_object (Pool name).
Definition pj_pool_release (pool : nat) : Comp pjsip unit :=
  modify (fun s => mkPjsip (objects s) (next s) (registrations s) (freed_while_driven s || driven pool s)) ;;
  delete_object pool.
Definition pjsua_conf_remove_port (slot : nat) : Comp pjsip unit := delete_object slot.

Section Ports.
(** The n-th [registerMediaPort] throws [pj::Error]: no slot is free. *)
Context (conf_fault : nat -> bool).

Definition registerMediaPort (port : nat) : Comp pjsip nat := fun s =>
  let s' := mkPjsip (objects s) (next s) (S (registrations s)) (freed_while_driven s) in
  if conf_fault (registrations s) then (Throw PjError, s') else insert_object (ConfSlot port None) s'.

(** [SoftwareAudioInput], [SoftwareAudioOutput]: its pool, which holds its
    port, and its slot. *)
Record audio := mkAudio { pj_pool : nat; slot : nat }.
Definition new_audio (name : string) : Comp pjsip audio :=
  pool ← pjsua_pool_create name;
  id ← registerMediaPort pool;
  mret (mkAudio pool id).
Definition new_SoftwareAudioInput : Comp pjsip audio := new_audio "voip-input%p".
Definition new_SoftwareAudioOutput : Comp pjsip audio := new_audio "voip-output%p".
(** [~SoftwareAudioInput], [~SoftwareAudioOutput]; [pjmedia_port_destroy] has
    nothing of its own to free. *)
Definition delete_audio (a : audio) : Comp pjsip unit :=
  pjsua_conf_remove_port (slot a) ;; pj_pool_release (pj_pool a).

(** [RingRtcSipBridge]: the members in order of declaration; when the second
    cannot be made the first is destroyed, the object's own destructor does
    not run. *)
Record bridge := mkBridge { audio_input : audio; audio_output : audio; resample : option (nat * nat * nat) }.
Definition new_RingRtcSipBridge : Comp pjsip bridge :=
  input ← new_SoftwareAudioInput;
  output ← catch_all new_SoftwareAudioOutput (fun e => delete_audio input ;; throw e);
  mret (mkBridge input output None).
End Ports.

(** One audio stream of [wireBridgeAudio]; what it does not look at, whether the
    two resample ports could be made, is taken to have worked. *)
Definition wire_stream (b : bridge) : Comp pjsip bridge :=
  pool ← pjsua_pool_create "resample";
  inResampleId ← insert_object (ConfSlot pool (Some (pj_pool (audio_input b))));
  outResampleId ← insert_object (ConfSlot pool (Some (pj_pool (audio_output b))));
  mret (mkBridge (audio_input b) (audio_output b) (Some (pool, inResampleId, outResampleId))).
Definition wireBridgeAudio (streams : nat) (b : bridge) : Comp pjsip bridge :=
  match resample b with
  | Some _ => mret b
  | None => Nat.iter streams (fun m => b ← m; wire_stream b) (mret b)
  end.

(** [~RingRtcSipBridge]: its body ([Stop] is in [AudioBridge]), then the members
    in reverse order. *)
Definition delete_RingRtcSipBridge (b : bridge) : Comp pjsip unit :=
  match resample b with
  | Some (pool, in_id, out_id) => pjsua_conf_remove_port in_id ;; pjsua_conf_remove_port out_id ;; pj_pool_release pool
  | None => mret tt
  end ;;
  delete_audio (audio_output b) ;; delete_audio (audio_input b).

(** ** Lemmas *)

(** What is still to be handed out is nobody's, and nobody drives it. *)
Record tidy_at (m : gmap nat object) (n : nat) : Prop := {
  ti_fresh : forall h, n <= h -> m !! h = None;
  ti_driven : forall h port d, m !! h = Some (ConfSlot port d) -> port < n /\ forall p, d = Some p -> p < n;
}.
Definition tidy (s : pjsip) : Prop := tidy_at (objects s) (next s).

Lemma driven_true pool s : driven pool s = true <-> exists h o, objects s !! h = Some o /\ drives pool o = true.
Proof.
  unfold driven. rewrite existsb_exists. split.
  - intros ([h o] & Hin & Hd). exists h, o. split; [|done]. by apply elem_of_map_to_list, list_elem_of_In.
  - intros (h & o & Ho & Hd). exists (h, o). split; [|done]. by apply list_elem_of_In, elem_of_map_to_list.
Qed.
Lemma not_driven pool s : (forall h o, objects s !! h = Some o -> drives pool o = false) -> driven pool s = false.
Proof. intros H. apply not_true_iff_false. rewrite driven_true. intros (h & o & Ho & Hd). by rewrite (H h o Ho) in Hd. Qed.
Lemma old_not_driven m n pool h o : tidy_at m n -> n <= pool -> m !! h = Some o -> drives pool o = false.
Proof.
  intros [_ Hd] Hp Ho. destruct o as [|port d]; [done|]. cbn. destruct (Hd _ _ _ Ho) as [H1 H2].
  apply orb_false_iff. split; apply bool_decide_eq_false; [lia|]. intros ->. specialize (H2 _ eq_refl). lia.
Qed.

(** The objects of a bridge, its slots before the pools they reach. *)
Definition audio_objects (name : string) (a : audio) : list (nat * object) := [(slot a, ConfSlot (pj_pool a) None); (pj_pool a, Pool name)].
Definition resample_objects (b : bridge) : list (nat * object) :=
  match resample b with
  | Some (pool, i, o) =>
    [(i, ConfSlot pool (Some (pj_pool (audio_input b)))); (o, ConfSlot pool (Some (pj_pool (audio_output b)))); (pool, Pool "resample")]
  | None => []
  end.
Definition bridge_objects (b : bridge) : list (nat * object) :=
  resample_objects b ++ audio_objects "voip-output%p" (audio_output b) ++ audio_objects "voip-input%p" (audio_input b).

(** These objects are there, each with its own handle, and nothing else drives
    the pools among them. *)
Record owns (l : list (nat * object)) (m : gmap nat object) : Prop := {
  ow_there : Forall (fun x => m !! x.1 = Some x.2) l;
  ow_apart : NoDup l.*1;
  ow_only : forall h o x, m !! h = Some o -> x ∈ l -> drives x.1 o = true -> (h, o) ∈ l;
}.
Definition owned (b : bridge) (s : pjsip) : Prop := owns (bridge_objects b) (objects s).

Definition without (ids : list nat) (m : gmap nat object) : gmap nat object := foldl (fun m h => delete h m) m ids.

Lemma without_lookup ids m h : without ids m !! h = if decide (h ∈ ids) then None else m !! h.
Proof.
  revert m. induction ids as [|i ids IH]; intros m; [done|]. change (without (i :: ids) m) with (without ids (delete i m)). rewrite IH.
  destruct (decide (h ∈ ids)), (decide (h ∈ i :: ids)) as [Hi|Hi]; try done; try (by rewrite elem_of_cons in Hi; destruct Hi; auto).
  - apply elem_of_cons in Hi as [->|]; [apply lookup_delete_eq|done].
  - rewrite lookup_delete_ne; [done|]. intros ->. by apply Hi, elem_of_cons; left.
Qed.
Lemma delete_without h ids m : delete h (without ids m) = without (ids ++ [h]) m.
Proof. unfold without. by rewrite foldl_app. Qed.

(** Releasing one of the pools once the bridge's own slots that reach it are
    gone. *)
Lemma release_free l m gone pool name n r f : owns l m -> (pool, Pool name) ∈ l ->
  (forall x, x ∈ l -> drives pool x.2 = true -> x.1 ∈ gone) ->
  pj_pool_release pool (mkPjsip (without gone m) n r f) = (Ok tt, mkPjsip (without (gone ++ [pool]) m) n r f).
Proof.
  intros Ho Hp Hg. unfold pj_pool_release, delete_object, modify, mbind, comp_bind. cbn [objects next registrations freed_while_driven].
  rewrite delete_without, not_driven, orb_false_r; [done|]. intros h o. cbn. rewrite without_lookup.
  destruct (decide (h ∈ gone)) as [|Hh]; [done|]. intros Hx. apply not_true_iff_false. intros Hd. apply Hh.
  apply (Hg (h, o)); [|done]. by apply (ow_only _ _ Ho h o (pool, Pool name)).
Qed.

(** Who drives a pool of the bridge, among its own objects. *)
Lemma drivers b s x pool : owned b s -> x ∈ bridge_objects b -> drives pool x.2 = true ->
  (pool = pj_pool (audio_input b) -> x.1 ∈ (resample_objects b).*1 ++ [slot (audio_input b)]) /\
  (pool = pj_pool (audio_output b) -> x.1 ∈ (resample_objects b).*1 ++ [slot (audio_output b)]) /\
  (forall i o, resample b = Some (pool, i, o) -> x.1 ∈ [i; o]).
Proof.
  intros [_ Hnd _] Hx Hd. destruct b as [[pi si] [po so] r]. unfold bridge_objects, resample_objects, audio_objects in *.
  cbn [audio_input audio_output resample slot pj_pool] in *.
  destruct r as [[[pr ri] ro]|]; cbn in *; rewrite ?NoDup_cons in Hnd;
    repeat match type of Hx with _ ∈ _ :: _ => apply elem_of_cons in Hx as [->|Hx] | _ ∈ [] => by apply elem_of_nil in Hx end;
    cbn in Hd; try discriminate Hd; rewrite orb_true_iff, !bool_decide_eq_true in Hd; cbn [fst snd];
    (split_and!; [intros ->|intros ->|intros i o E; try discriminate E; injection E as -> -> ->]); destruct Hd as [Hd|Hd]; try discriminate Hd;
    try (injection Hd as Hd); subst; try set_solver.
Qed.

Lemma delete_audio_free l m gone a name : owns l m -> (pj_pool a, Pool name) ∈ l ->
  (forall x, x ∈ l -> drives (pj_pool a) x.2 = true -> x.1 ∈ gone ++ [slot a]) -> forall n r f,
  delete_audio a (mkPjsip (without gone m) n r f) = (Ok tt, mkPjsip (without (gone ++ [slot a; pj_pool a]) m) n r f).
Proof.
  intros Ho Hp Hg n r f. unfold delete_audio, pjsua_conf_remove_port, delete_object at 1, modify, mbind at 1, comp_bind at 1.
  cbn [objects next registrations freed_while_driven]. rewrite delete_without, (release_free l m _ _ name) by done. by rewrite <- app_assoc.
Qed.

(** Destroying a bridge takes back all it owns, and only that, and at no moment
    is a pool released while the clock thread can reach it. *)
Lemma delete_takes_back b s : owned b s ->
  delete_RingRtcSipBridge b s = (Ok tt, mkPjsip (without (bridge_objects b).*1 (objects s)) (next s) (registrations s) (freed_while_driven s)).
Proof.
  intros Ho. assert ((match resample b with
    | Some (pool, in_id, out_id) => pjsua_conf_remove_port in_id ;; pjsua_conf_remove_port out_id ;; pj_pool_release pool
    | None => mret tt end) s = (Ok tt, mkPjsip (without (resample_objects b).*1 (objects s)) (next s) (registrations s) (freed_while_driven s))) as E.
  { unfold resample_objects. destruct (resample b) as [[[pool i] o]|] eqn:Er; [|by destruct s].
    apply (release_free (bridge_objects b) (objects s) [i; o] pool "resample"); [done| |].
    - unfold bridge_objects, resample_objects. rewrite Er. set_solver.
    - intros x Hx Hd. by eapply (drivers b s). }
  unfold delete_RingRtcSipBridge. rewrite (bind_ok _ _ _ _ _ E). cbv beta.
  assert (forall x, x ∈ audio_objects "voip-output%p" (audio_output b) ++ audio_objects "voip-input%p" (audio_input b) -> x ∈ bridge_objects b) as Hin
    by (intros x Hx; unfold bridge_objects; apply elem_of_app; by right).
  rewrite (bind_ok _ _ _ _ _ (delete_audio_free _ _ _ (audio_output b) "voip-output%p" Ho ltac:(apply Hin; set_solver)
    ltac:(intros x Hx Hd; by apply (drivers b s x _ Ho Hx Hd)) _ _ _)). cbv beta.
  rewrite (delete_audio_free _ _ _ (audio_input b) "voip-input%p" Ho); [|apply Hin; set_solver|].
  - unfold bridge_objects. rewrite !fmap_app. cbn. by rewrite <- !app_assoc.
  - intros x Hx Hd. destruct (drivers b s x _ Ho Hx Hd) as [H _]. specialize (H eq_refl). set_solver.
Qed.

(** *** What is made *)

Definition with_objects (l : list (nat * object)) (m : gmap nat object) : gmap nat object := foldr (fun x m => <[x.1 := x.2]> m) m l.

Lemma with_objects_lookup l m h o : NoDup l.*1 -> with_objects l m !! h = Some o <-> (h, o) ∈ l \/ (h ∉ l.*1 /\ m !! h = Some o).
Proof.
  induction l as [|[i x] l IH]; intros Hnd; cbn in *; [set_solver|]. apply NoDup_cons in Hnd as [Hi Hnd]. rewrite lookup_insert_Some, IH by done. split.
  - intros [[-> ->]|[Hne [H|[H1 H2]]]]; [left; set_solver..|right; set_solver].
  - intros [[[= -> ->]|H]%elem_of_cons|[H1 H2]]; [by left| |right; set_solver].
    right. split; [|by left]. intros ->. apply Hi. apply list_elem_of_fmap. by exists (h, o).
Qed.
Lemma with_objects_none l m h : h ∉ l.*1 -> with_objects l m !! h = m !! h.
Proof. induction l as [|[i x] l IH]; intros H; cbn in *; [done|]. rewrite lookup_insert_ne by set_solver. apply IH. set_solver. Qed.

(** New objects join those of their owner; taking all away again leaves what
    the others have. *)
Lemma owns_grow l new m n : tidy_at m n -> owns l m -> NoDup new.*1 -> Forall (fun h => n <= h) new.*1 ->
  owns (new ++ l) (with_objects new m) /\ without (new ++ l).*1 (with_objects new m) = without l.*1 m.
Proof.
  intros Ht [H1 H2 H3] Hnd Hge. rewrite Forall_forall in Hge.
  assert (forall x, x ∈ l -> x.1 ∉ new.*1) as Hapart.
  { intros x Hx Hin. rewrite Forall_forall in H1. specialize (H1 x Hx). rewrite (ti_fresh _ _ Ht) in H1; [done|]. by apply Hge. }
  split; [split|].
  - apply Forall_app. split; apply Forall_forall; intros [h o] Hx; apply with_objects_lookup; [done|by left|done|].
    right. split; [by apply (Hapart (h, o))|]. rewrite Forall_forall in H1. by apply (H1 (h, o)).
  - rewrite fmap_app. apply NoDup_app. split_and!; [done| |done]. intros h Hh (x & -> & Hx)%list_elem_of_fmap. by apply (Hapart x).
  - intros h o x. rewrite with_objects_lookup by done. intros [Ho|[_ Ho]] Hx Hd; apply elem_of_app; [by left|right].
    apply elem_of_app in Hx as [Hx|Hx]; [|by eapply H3]. exfalso. rewrite (old_not_driven m n x.1 h o) in Hd; try done.
    apply Hge. apply list_elem_of_fmap. by exists x.
  - apply map_eq. intros h. rewrite !without_lookup, fmap_app. destruct (decide (h ∈ new.*1 ++ l.*1)) as [[Hh|Hh]%elem_of_app|Hh].
    + rewrite (ti_fresh _ _ Ht) by (by apply Hge). by case_decide.
    + by rewrite decide_True.
    + rewrite decide_False, with_objects_none by set_solver. done.
Qed.

Lemma tidy_insert m n o : tidy_at m n -> (forall port d, o = ConfSlot port d -> port < n /\ forall p, d = Some p -> p < n) ->
  tidy_at (<[n := o]> m) (S n).
Proof.
  intros [H1 H2] Ho. split.
  - intros h Hh. rewrite lookup_insert_ne by lia. apply H1. lia.
  - intros h port d [[<- Hx]|[_ Hx]]%lookup_insert_Some; [destruct (Ho _ _ Hx) as [H3 H4]|destruct (H2 _ _ _ Hx) as [H3 H4]];
      (split; [lia|]); intros p Hp; specialize (H4 p Hp); lia.
Qed.
Lemma tidy_pool m n name : tidy_at m n -> tidy_at (<[n := Pool name]> m) (S n).
Proof. intros H. by apply tidy_insert. Qed.
Lemma tidy_slot m n port d : tidy_at m n -> port < n -> (forall p, d = Some p -> p < n) -> tidy_at (<[n := ConfSlot port d]> m) (S n).
Proof. intros H Hp Hd. apply tidy_insert; [done|]. by intros ? ? [= <- <-]. Qed.
Lemma tidy_without ids m n : tidy_at m n -> tidy_at (without ids m) n.
Proof.
  intros [H1 H2]. split.
  - intros k Hk. rewrite without_lookup, H1 by done. by case_decide.
  - intros k port d. rewrite without_lookup. case_decide; [done|]. apply H2.
Qed.

Ltac apart := cbn; repeat (apply NoDup_cons; split; [rewrite ?elem_of_cons, elem_of_nil; lia|]); by apply NoDup_nil.

Lemma new_audio_cases conf_fault name s :
  new_audio conf_fault name s =
  if conf_fault (registrations s)
  then (Throw PjError, mkPjsip (<[next s := Pool name]> (objects s)) (S (next s)) (S (registrations s)) (freed_while_driven s))
  else (Ok (mkAudio (next s) (S (next s))),
        mkPjsip (<[S (next s) := ConfSlot (next s) None]> (<[next s := Pool name]> (objects s))) (S (S (next s))) (S (registrations s)) (freed_while_driven s)).
Proof. unfold new_audio, registerMediaPort, mbind, comp_bind. cbn. by destruct (conf_fault _). Qed.

Lemma owns_nothing m : owns [] m.
Proof. split; [done|constructor|set_solver]. Qed.

(** A new bridge owns what it has asked PJSIP for; when a slot is missing, the
    pool asked for last stays behind. *)
Lemma new_bridge_owns conf_fault s : tidy s ->
  match new_RingRtcSipBridge conf_fault s with
  | (Ok b, s') => owned b s' /\ tidy s' /\ without (bridge_objects b).*1 (objects s') = objects s /\
      freed_while_driven s' = freed_while_driven s /\ resample b = None
  | (Throw e, s') => e = PjError /\ tidy s' /\ freed_while_driven s' = freed_while_driven s /\
      exists h name, objects s !! h = None /\ objects s' = <[h := Pool name]> (objects s)
  end.
Proof.
  destruct s as [m n r f]. unfold tidy. cbn [objects next]. intros Ht. unfold new_RingRtcSipBridge, new_SoftwareAudioInput, new_SoftwareAudioOutput.
  unfold mbind at 1, comp_bind at 1. rewrite new_audio_cases. cbn [objects next registrations freed_while_driven].
  pose proof (ti_fresh _ _ Ht) as Hf. destruct (conf_fault r).
  { split_and!; [done|by apply tidy_pool|done|]. exists n, "voip-input%p". by rewrite Hf. }
  set (m1 := <[S n := ConfSlot n None]> (<[n := Pool "voip-input%p"]> m)).
  assert (tidy_at m1 (S (S n))) as Ht1 by (apply tidy_slot; [by apply tidy_pool|lia|done]).
  set (l1 := audio_objects "voip-input%p" (mkAudio n (S n))).
  destruct (owns_grow [] l1 m n Ht (owns_nothing m)) as [Ho1 Hw1]; [apart|repeat constructor; cbn; lia|].
  unfold mbind at 1, comp_bind at 1, catch_all. rewrite new_audio_cases. cbn [objects next registrations freed_while_driven].
  destruct (conf_fault (S r)).
  - destruct (owns_grow (l1 ++ []) [(S (S n), Pool "voip-output%p")] m1 (S (S n)) Ht1 Ho1) as [Ho2 _]; [apart|repeat constructor; cbn; lia|].
    unfold mbind at 1, comp_bind at 1.
    pose proof (delete_audio_free _ _ [] (mkAudio n (S n)) "voip-input%p" Ho2) as Hd. cbn [app with_objects foldr fst snd] in Hd.
    change (without [] ?m) with m in Hd. rewrite Hd; [|set_solver|].
    + unfold throw. cbn [objects next freed_while_driven slot pj_pool]. split_and!; [done|by apply (tidy_without [S n; n]), tidy_pool|done|]. exists (S (S n)), "voip-output%p". split; [apply Hf; lia|].
      apply map_eq. intros h. rewrite (without_lookup [S n; n]). assert (h ∈ [S n; n] <-> h = S n \/ h = n) as Hh by set_solver.
      case_decide as Hin; rewrite Hh in Hin; [rewrite lookup_insert_ne by lia; symmetry; apply Hf; lia|].
      destruct (decide (h = S (S n))) as [->|Hne]; [by rewrite !lookup_insert_eq|]. rewrite !lookup_insert_ne by done. unfold m1. by rewrite !lookup_insert_ne by lia.
    + intros x Hx Hdr. cbn in Hx. set_solver.
  - cbn. set (l2 := audio_objects "voip-output%p" (mkAudio (S (S n)) (S (S (S n))))).
    destruct (owns_grow (l1 ++ []) l2 m1 (S (S n)) Ht1 Ho1) as [Ho2 Hw2]; [apart|repeat constructor; cbn; lia|].
    split_and!; [exact Ho2|apply tidy_slot; [by apply tidy_pool|lia|done]|etrans; [exact Hw2|exact Hw1]|done|done].
Qed.

(** Wiring adds one pool and two slots to what the bridge owns. *)
Lemma wire_stream_owns b s : owned b s -> tidy s -> resample b = None ->
  exists b' s', wire_stream b s = (Ok b', s') /\ owned b' s' /\ tidy s' /\ freed_while_driven s' = freed_while_driven s /\
    without (bridge_objects b').*1 (objects s') = without (bridge_objects b).*1 (objects s).
Proof.
  destruct s as [m n r f]. unfold owned, tidy. cbn [objects next]. intros Ho Ht Hr. eexists _, _. split; [reflexivity|].
  cbn [objects next registrations freed_while_driven]. rewrite (insert_insert_ne _ (S (S n)) (S n)) by lia.
  assert (forall p name, (p, Pool name) ∈ bridge_objects b -> p < n) as Hp.
  { intros p name Hin. destruct (decide (p < n)) as [|Hge]; [done|]. pose proof (ow_there _ _ Ho) as H. rewrite Forall_forall in H. specialize (H _ Hin). cbn in H.
    rewrite (ti_fresh _ _ Ht) in H; [done|lia]. }
  assert (pj_pool (audio_input b) < n /\ pj_pool (audio_output b) < n) as [Hi Hou].
  { split; [apply (Hp _ "voip-input%p")|apply (Hp _ "voip-output%p")]; unfold bridge_objects, audio_objects; set_solver. }
  set (b' := mkBridge _ _ _). destruct (owns_grow (bridge_objects b) (resample_objects b') m n Ht Ho) as [Ho' Hw]; [apart|repeat constructor; cbn; lia|].
  assert (bridge_objects b' = resample_objects b' ++ bridge_objects b) as -> by (unfold bridge_objects at 2, resample_objects; by rewrite Hr).
  split_and!; [exact Ho'| |done|exact Hw]. rewrite (insert_insert_ne _ (S n) (S (S n))) by lia.
  apply tidy_slot; [apply tidy_slot; [by apply tidy_pool|lia|by intros ? [= <-]; lia]|lia|intros ? [= <-]; lia].
Qed.

(** The life of a bridge whose call shows at most one audio stream: PJSIP ends
    with exactly what it had before, or, when it has no slot for one of the two
    ports, with one pool more and a [pj::Error]; no pool is ever released under
    the clock thread. *)
Lemma bridge_life conf_fault streams s : tidy s -> streams <= 1 ->
  match (b ← new_RingRtcSipBridge conf_fault; b ← wireBridgeAudio streams b; delete_RingRtcSipBridge b) s with
  | (Ok _, s') => objects s' = objects s /\ freed_while_driven s' = freed_while_driven s
  | (Throw e, s') => e = PjError /\ freed_while_driven s' = freed_while_driven s /\
      exists h name, objects s !! h = None /\ objects s' = <[h := Pool name]> (objects s)
  end.
Proof.
  intros Ht Hle. pose proof (new_bridge_owns conf_fault s Ht) as H. unfold mbind at 1, comp_bind at 1.
  destruct (new_RingRtcSipBridge conf_fault s) as [[b|e] s1]; [|tauto]. destruct H as (Ho & Ht1 & Hw & Hf & Hr).
  unfold wireBridgeAudio. rewrite Hr. destruct streams as [|[|]]; [| |lia].
  - unfold mbind, comp_bind, mret, comp_ret. cbn [Nat.iter nat_rect]. rewrite delete_takes_back by done. cbn. by rewrite Hw.
  - destruct (wire_stream_owns b s1 Ho Ht1 Hr) as (b' & s2 & E & Ho2 & _ & Hf2 & Hw2).
    unfold mbind, comp_bind, mret, comp_ret. cbn [Nat.iter nat_rect]. rewrite E, delete_takes_back by done.
    cbn. by rewrite Hf2, Hw2, Hw, Hf.
Qed.

(** With two audio streams the first pair of resample ports stays, and drives
    the ports of the bridge when their pools are released. *)
Example two_streams_use_freed_ports :
  freed_while_driven ((b ← new_RingRtcSipBridge (fun _ => false); b ← wireBridgeAudio 2 b; delete_RingRtcSipBridge b) (mkPjsip ∅ 0 0 false)).2 = true.
Proof. vm_compute. reflexivity. Qed.
(** No slot for the second port: its pool stays. *)
Example second_port_leaks :
  map_to_list (objects (new_RingRtcSipBridge (fun n => bool_decide (n = 1)) (mkPjsip ∅ 0 0 false)).2) = [(2, Pool "voip-output%p")].
Proof. vm_compute. reflexivity. Qed.
