(* ===== verification/Probe.v ===== *)
(** The probe of an outgoing test call (src/daemon/main.cpp, [runProbe]): ten
    seconds of a tone into RingRTC, in step with what comes back, a verdict on
    the echo, and one hangup.  Doubles are IEEE's, as in the Standard Library's
    [SpecFloat]; [std::sin] and what RingRTC plays out are parameters. *)

From Stdlib Require Import Floats.SpecFloat.
From S2P Require Import Prelude.

Open Scope Z_scope.

Definition sampleRate : Z := 48000.
Definition toneHz : Z := 440.
Definition totalSamples : Z := sampleRate * 10.
Definition chunk : nat := 480.
#[local] Arguments chunk : simpl never.

(** ** Doubles *)

Definition of_int (z : Z) : spec_float := binary_normalize 53 1024 z 0 false.
Definition mul : spec_float -> spec_float -> spec_float := SFmul 53 1024.
Definition div : spec_float -> spec_float -> spec_float := SFdiv 53 1024.
Definition add : spec_float -> spec_float -> spec_float := SFadd 53 1024.
Definition sqrt : spec_float -> spec_float := SFsqrt 53 1024.
Definition M_PI : spec_float := binary_normalize 53 1024 7074237752028440 (-51) false.

(** The conversion to an integer drops the fraction. *)
Definition trunc (f : spec_float) : Z :=
  match f with
  | S754_finite s m e =>
    let v := if 0 <=? e then Z.pos m * 2 ^ e else Z.pos m / 2 ^ (- e) in
    if s then - v else v
  | _ => 0
  end.

(** ** The probe *)

Inductive effect := PushRecorded (samples : list Z) | Pulled (samples : list Z) | Sleep10ms | Verdict (passed : bool) | CallHangup.

Section probe.
Context (std_sin : spec_float -> spec_float) (playout : nat -> list Z).

Definition tone_sample (i : Z) : Z :=
  trunc (mul (of_int 8000) (std_sin (div (mul (mul (mul (of_int 2) M_PI) (of_int toneHz)) (of_int i)) (of_int sampleRate)))).
Definition tone : list Z := (fun i => tone_sample (Z.of_nat i)) <$> seq 0 (Z.to_nat totalSamples).

(** [for (offset = 0; offset < totalSamples; offset += chunk)]; the [k]-th
    round pulls [playout k]. *)
Fixpoint rounds (fuel k : nat) (samples received : list Z) (offset : nat) : option (list effect * list Z) :=
  if (offset <? length samples)%nat then
    match fuel with
    | O => None
    | S fuel =>
      let n := Nat.min chunk (length samples - offset) in
      let got := playout k in
      r ← rounds fuel (S k) samples (received ++ got) (offset + chunk)%nat;
      Some (PushRecorded (take n (drop offset samples)) :: Pulled got :: Sleep10ms :: r.1, r.2)
    end
  else Some ([], received).

Definition rms (received : list Z) : spec_float :=
  match received with
  | [] => of_int 0
  | _ => sqrt (div (fold_left (fun sum s => add sum (mul (of_int s) (of_int s))) received (of_int 0)) (of_int (Z.of_nat (length received))))
  end.
Definition audioFlowed (received : list Z) : bool :=
  (sampleRate <? Z.of_nat (length received)) && SFltb (of_int 20) (rms received).

Definition runProbe : option (list effect) :=
  r ← rounds 1000 0 tone [] 0;
  Some (r.1 ++ [Verdict (audioFlowed r.2); CallHangup]).

(** ** Lemmas *)

Lemma rounds_ends fuel : forall k samples received offset, (length samples <= offset + fuel * chunk)%nat ->
  exists n tr, rounds fuel k samples received offset = Some (tr, received ++ concat (playout <$> seq k n)) /\
  concat ((fun e => match e with PushRecorded s => s | _ => [] end) <$> tr) = drop offset samples /\
  Forall (fun e => match e with PushRecorded s => (length s <= chunk)%nat | Pulled _ | Sleep10ms => True | _ => False end) tr.
Proof.
  induction fuel as [|fuel IH]; intros k samples received offset H; cbn [rounds];
    (destruct (Nat.ltb_spec offset (length samples)) as [Hlt|Hge];
     [|exists 0%nat, []; cbn; rewrite app_nil_r, drop_ge by lia; by repeat constructor]).
  - lia.
  - destruct (IH (S k) samples (received ++ playout k) (offset + chunk)%nat) as (n & tr & -> & Hpush & Htr); [unfold chunk in *; lia|].
    exists (S n), (PushRecorded (take (Nat.min chunk (length samples - offset)) (drop offset samples)) :: Pulled (playout k) :: Sleep10ms :: tr).
    cbn. rewrite <- app_assoc. split; [done|]. split.
    + cbn in Hpush. rewrite Hpush, <- drop_drop. rewrite <- (take_drop chunk (drop offset samples)) at 3. f_equal.
      destruct (Nat.min_spec chunk (length samples - offset)) as [[_ ->]|[Hle ->]]; [done|]. rewrite !take_ge; rewrite ?length_drop; lia || done.
    + repeat (apply Forall_cons; split; [|done || idtac]); try done. rewrite length_take. lia.
Qed.

(** The probe ends after ten seconds at most: it has pushed the whole tone, in
    order and in pieces that fit the buffer, and hangs up once, last; the
    verdict is on all that was played out meanwhile. *)
Lemma probe_ends : exists n tr, runProbe = Some (tr ++ [Verdict (audioFlowed (concat (playout <$> seq 0 n))); CallHangup]) /\
  concat ((fun e => match e with PushRecorded s => s | _ => [] end) <$> tr) = tone /\
  Forall (fun e => match e with PushRecorded s => (length s <= chunk)%nat | Pulled _ | Sleep10ms => True | _ => False end) tr.
Proof.
  destruct (rounds_ends 1000 0 tone [] 0) as (n & tr & E & Hp & Htr).
  { unfold tone. rewrite length_fmap, length_seq. apply Nat2Z.inj_le. rewrite Nat2Z.inj_add, Nat2Z.inj_mul, Z2Nat.id; vm_compute; discriminate. }
  exists n, tr. unfold runProbe. rewrite E. cbn [mbind option_bind fst snd app]. rewrite drop_0 in Hp.
  split; [reflexivity|]. split; [exact Hp|exact Htr].
Qed.
End probe.

(** The verdict wants more than a second of sound louder than 20. *)
Example at_the_edge :
  (SFltb (of_int 20) (sqrt (div (of_int (400 * 480000)) (of_int 480000))), SFltb (of_int 20) (sqrt (div (of_int (400 * 480000 + 1)) (of_int 480000)))) = (false, true).
Proof. vm_compute. reflexivity. Qed.
Example half_a_second : audioFlowed (replicate 24000 1000) = false.
Proof. vm_compute. reflexivity. Qed.
