(* ===== verification/Storage.v ===== *)
(** The account database (src/storage/Storage.cpp, src/storage/Storage.h and
    the tables of src/storage/schema.sql).

    A [db] is the content of the tables.  [Storage]'s methods are sequences of
    SQLite calls; the n-th call of a connection fails (busy, I/O error, ...)
    when [fault n] says so, and a statement also fails when it would break a
    constraint of the schema.  A method reacts to a failed call exactly as the
    source does, which is not the same for reads and writes. *)

From S2P Require Import Prelude.
From stdpp Require Import sorting.

Open Scope Z_scope.

(** ** Rows *)

Record AccountRecord := mkAccount {
  e164 : string; aci : string; pni : string; password : string;
  device_id : Z;
  registration_id : Z;
  pni_registration_id : Z;
  flow : option string;
  account_entropy_pool : option string;
  media_root_backup_key : option Bytes;
  profile_key : option Bytes;
  registered_at : option Z;
  linked_at : option Z;
  prekeys_refreshed_at : option Z;
  server_url : string;
  sip_host : string; sip_extension : string; sip_password : string;
  sip_bridge_destination : string; sip_bridge_did : string;
  sip_srtp : string;
  sip_transport : string;
  sip_tls_ca_file : string;
  sip_tls_insecure : bool;
  outgoing_call_target : string;
  signal_proxy : string;
  signal_censorship_circumvention : bool;
  enabled : bool;
  config_version : Z;
}.

Record AccountSummary := mkSummary {
  sum_account_name : string; sum_e164 : string; sum_enabled : bool; sum_config_version : Z }.
Record IdentityKeypairRecord := mkKeypair { private_key : Bytes; public_key : Bytes }.
Record SignedPrekeyRecord := mkSignedPrekey { spk_key_id : Z; spk_record : Bytes }.
Record KyberPrekeyRecord := mkKyberPrekey { kpk_key_id : Z; kpk_record : Bytes }.
Record ResolvedContactRecord := mkResolved { rc_aci : string; rc_pni : string; resolved_at : Z }.
Record SyncedContactRecord := mkSynced {
  sc_e164 : string; sc_aci : string; sc_pni : string; sc_profile_key : Bytes;
  given_name : string; family_name : string; synced_at : Z }.

(** A row of synced_contact: the surrogate key, the account and the contact. *)
Record synced_row := mkRow { row_id : Z; row_account : string; contact : SyncedContactRecord }.

Record db := mkDb {
  account : gmap string AccountRecord;
  identity_keypair : gmap (string * string) IdentityKeypairRecord;
  signed_prekey : gmap (string * string) SignedPrekeyRecord;
  kyber_prekey : gmap (string * string) KyberPrekeyRecord;
  session : gmap (string * string) Bytes;
  remote_identity : gmap (string * string) Bytes;
  resolved_contact : gmap (string * string) ResolvedContactRecord;
  synced_contact : list synced_row;   (* in rowid order *)
  synced_seq : Z;                     (* AUTOINCREMENT's largest rowid so far *)
}.

Definition empty_db : db := mkDb ∅ ∅ ∅ ∅ ∅ ∅ ∅ [] 0.

Definition set_account (f : gmap string AccountRecord -> gmap string AccountRecord) (d : db) : db :=
  mkDb (f (account d)) (identity_keypair d) (signed_prekey d) (kyber_prekey d) (session d)
    (remote_identity d) (resolved_contact d) (synced_contact d) (synced_seq d).
Definition set_keypair (f : gmap (string * string) IdentityKeypairRecord ->
    gmap (string * string) IdentityKeypairRecord) (d : db) : db :=
  mkDb (account d) (f (identity_keypair d)) (signed_prekey d) (kyber_prekey d) (session d)
    (remote_identity d) (resolved_contact d) (synced_contact d) (synced_seq d).
Definition set_signed (f : gmap (string * string) SignedPrekeyRecord ->
    gmap (string * string) SignedPrekeyRecord) (d : db) : db :=
  mkDb (account d) (identity_keypair d) (f (signed_prekey d)) (kyber_prekey d) (session d)
    (remote_identity d) (resolved_contact d) (synced_contact d) (synced_seq d).
Definition set_kyber (f : gmap (string * string) KyberPrekeyRecord ->
    gmap (string * string) KyberPrekeyRecord) (d : db) : db :=
  mkDb (account d) (identity_keypair d) (signed_prekey d) (f (kyber_prekey d)) (session d)
    (remote_identity d) (resolved_contact d) (synced_contact d) (synced_seq d).
Definition set_session (f : gmap (string * string) Bytes -> gmap (string * string) Bytes)
    (d : db) : db :=
  mkDb (account d) (identity_keypair d) (signed_prekey d) (kyber_prekey d) (f (session d))
    (remote_identity d) (resolved_contact d) (synced_contact d) (synced_seq d).
Definition set_remote (f : gmap (string * string) Bytes -> gmap (string * string) Bytes)
    (d : db) : db :=
  mkDb (account d) (identity_keypair d) (signed_prekey d) (kyber_prekey d) (session d)
    (f (remote_identity d)) (resolved_contact d) (synced_contact d) (synced_seq d).
Definition set_resolved (f : gmap (string * string) ResolvedContactRecord ->
    gmap (string * string) ResolvedContactRecord) (d : db) : db :=
  mkDb (account d) (identity_keypair d) (signed_prekey d) (kyber_prekey d) (session d)
    (remote_identity d) (f (resolved_contact d)) (synced_contact d) (synced_seq d).
Definition set_synced (rows : list synced_row) (seq : Z) (d : db) : db :=
  mkDb (account d) (identity_keypair d) (signed_prekey d) (kyber_prekey d) (session d)
    (remote_identity d) (resolved_contact d) rows seq.

(** ** The connection *)

(** [cdb] is what this connection sees; [saved] holds the last committed
    content while a transaction is open. *)
Record conn := mkConn { cdb : db; saved : option db; calls : nat }.

Definition committed (c : conn) : db := default (cdb c) (saved c).

Definition set_cdb (d : db) (c : conn) : conn := mkConn d (saved c) (calls c).

(** ** Constraints of the schema *)

(** REFERENCES account(account_name), with PRAGMA foreign_keys = ON. *)
Definition fk_ok (acct : string) (d : db) : bool := bool_decide (is_Some (account d !! acct)).

(** CHECK (identity IN ('aci', 'pni')) *)
Definition identity_ok (identity : string) : bool :=
  str_eqb identity "aci" || str_eqb identity "pni".

(** The two partial unique indexes of synced_contact. *)
Definition clash (r s : synced_row) : bool :=
  str_eqb (row_account r) (row_account s) &&
  ((str_nonempty (sc_e164 (contact r)) && str_eqb (sc_e164 (contact r)) (sc_e164 (contact s))) ||
   (str_nonempty (sc_aci (contact r)) && str_eqb (sc_aci (contact r)) (sc_aci (contact s)))).

Definition unique_with (r : synced_row) (rows : list synced_row) : bool :=
  forallb (fun s => bool_decide (row_id s = row_id r) || negb (clash r s)) rows.

(** SQL's LIKE: '%' any text, '_' any character, letters without case. *)
Definition lower (c : ascii) : ascii :=
  let n := nat_of_ascii c in
  if bool_decide (65 <= n)%nat && bool_decide (n <= 90)%nat then ascii_of_nat (n + 32) else c.

Fixpoint like (pat : string) : string -> bool :=
  match pat with
  | EmptyString => str_empty
  | String c p =>
    if bool_decide (c = "%"%char) then
      fix any (s : string) : bool :=
        like p s || match s with EmptyString => false | String _ s' => any s' end
    else fun s =>
      match s with
      | EmptyString => false
      | String d s' =>
        (bool_decide (c = "_"%char) || bool_decide (lower c = lower d)) && like p s'
      end
  end.

(** ** Statements *)

Section Statements.
Context (fault : nat -> bool).

(** One SQLite call: whether it succeeded. *)
Definition sql_call : Comp conn bool := fun c =>
  (Ok (negb (fault (calls c))), mkConn (cdb c) (saved c) (S (calls c))).

(** The constructor of [Stmt]. *)
Definition prepare : Comp conn unit :=
  ok ← sql_call;
  if (ok : bool) then mret tt else throw_std "sqlite3_prepare_v2 failed".

(** A SELECT whose first row is read: a failed step is not a row. *)
Definition select {A} (q : db -> option A) : Comp conn (option A) :=
  prepare ;;
  ok ← sql_call;
  if (ok : bool) then gets (fun c => q (cdb c)) else mret None.

(** A SELECT read to the end: the loop stops at the first step that is not
    a row. *)
Fixpoint step_rows {A} (rows : list A) : Comp conn (list A) :=
  match rows with
  | [] => sql_call ;; mret []
  | r :: rows' =>
    ok ← sql_call;
    if (ok : bool) then rs ← step_rows rows'; mret (r :: rs) else mret []
  end.
Definition select_all {A} (q : db -> list A) : Comp conn (list A) :=
  prepare ;;
  rows ← gets (fun c => q (cdb c));
  step_rows rows.

(** An INSERT, UPDATE or DELETE that must end in SQLITE_DONE; [u] is [None]
    when it would break a constraint. *)
Definition run_write (what : string) (u : db -> option db) : Comp conn unit :=
  ok ← sql_call;
  if (ok : bool) then
    d ← gets cdb;
    match u d with
    | Some d' => modify (set_cdb d')
    | None => throw_std what
    end
  else throw_std what.
Definition write (what : string) (u : db -> option db) : Comp conn unit :=
  prepare ;; run_write what u.
End Statements.

(** ** The account row *)

(** The columns [saveAccount] writes come from [a], the others from [old]. *)
Definition take_identity (a old : AccountRecord) : AccountRecord :=
  mkAccount (e164 a) (aci a) (pni a) (password a) (device_id a) (registration_id a)
    (pni_registration_id a) (flow a) (account_entropy_pool a) (media_root_backup_key a)
    (profile_key a) (registered_at a) (linked_at a) (prekeys_refreshed_at a)
    (server_url old) (sip_host old) (sip_extension old) (sip_password old)
    (sip_bridge_destination old) (sip_bridge_did old) (sip_srtp old) (sip_transport old)
    (sip_tls_ca_file old) (sip_tls_insecure old) (outgoing_call_target old)
    (signal_proxy old) (signal_censorship_circumvention old) (enabled old)
    (config_version old).

(** The schema's DEFAULT values of the columns [saveAccount] does not name. *)
Definition column_defaults : AccountRecord :=
  mkAccount "" "" "" "" 0 0 0 None None None None None None None
    "" "" "" "" "" "" "disabled" "udp" "" false "" "" false true 0.

(** config_version + 1: SQLite turns an overflowing sum into a REAL, which
    sqlite3_column_int64 reads back as the largest integer. *)
Definition next_version (v : Z) : Z := Z.min (v + 1) int64_max.

(** The columns [saveAccountConfig] writes come from [a], the others from
    [old]; the version is never the caller's. *)
Definition take_config (a old : AccountRecord) : AccountRecord :=
  mkAccount (e164 old) (aci old) (pni old) (password old) (device_id old) (registration_id old)
    (pni_registration_id old) (flow old) (account_entropy_pool old) (media_root_backup_key old)
    (profile_key old) (registered_at old) (linked_at old) (prekeys_refreshed_at old)
    (server_url a) (sip_host a) (sip_extension a) (sip_password a)
    (sip_bridge_destination a) (sip_bridge_did a) (sip_srtp a) (sip_transport a)
    (sip_tls_ca_file a) (sip_tls_insecure a) (outgoing_call_target a)
    (signal_proxy a) (signal_censorship_circumvention a) (enabled a)
    (next_version (config_version old)).

(** ** The methods of one [Storage] *)

Section Methods.
Context (fault : nat -> bool) (accountName_ : string).

Definition hasAccount : Comp conn bool :=
  r ← select fault (fun d => account d !! accountName_);
  mret (match r with Some _ => true | None => false end).

Definition loadAccount : Comp conn AccountRecord :=
  r ← select fault (fun d => account d !! accountName_);
  match r with
  | Some a => mret a
  | None => throw_std "loadAccount: no account row present"
  end.

Definition saveAccountConfig (a : AccountRecord) : Comp conn unit :=
  write fault "saveAccountConfig failed" (fun d =>
    Some (set_account (alter (take_config a) accountName_) d)) ;;
  matched ← gets (fun c => bool_decide (is_Some (account (cdb c) !! accountName_)));
  if (matched : bool) then mret tt
  else throw_std "saveAccountConfig: no account row to update".

Definition saveAccount (a : AccountRecord) : Comp conn unit :=
  write fault "saveAccount failed" (fun d =>
    Some (set_account (fun m =>
      <[accountName_ := take_identity a (default column_defaults (m !! accountName_))]> m) d)).

(** ON CONFLICT (account_name, identity) DO UPDATE *)
Definition saveIdentityKeypair (identity : string) (keypair : IdentityKeypairRecord) :
    Comp conn unit :=
  write fault "saveIdentityKeypair failed" (fun d =>
    if identity_ok identity && fk_ok accountName_ d
    then Some (set_keypair (insert (accountName_, identity) keypair) d) else None).
Definition loadIdentityKeypair (identity : string) : Comp conn (option IdentityKeypairRecord) :=
  select fault (fun d => identity_keypair d !! (accountName_, identity)).

Definition saveSignedPrekey (identity : string) (prekey : SignedPrekeyRecord) :
    Comp conn unit :=
  write fault "saveSignedPrekey failed" (fun d =>
    if identity_ok identity && fk_ok accountName_ d
    then Some (set_signed (insert (accountName_, identity) prekey) d) else None).
Definition loadSignedPrekey (identity : string) : Comp conn (option SignedPrekeyRecord) :=
  select fault (fun d => signed_prekey d !! (accountName_, identity)).

Definition saveKyberPrekey (identity : string) (prekey : KyberPrekeyRecord) :
    Comp conn unit :=
  write fault "saveKyberPrekey failed" (fun d =>
    if identity_ok identity && fk_ok accountName_ d
    then Some (set_kyber (insert (accountName_, identity) prekey) d) else None).
Definition loadKyberPrekey (identity : string) : Comp conn (option KyberPrekeyRecord) :=
  select fault (fun d => kyber_prekey d !! (accountName_, identity)).

Definition saveSession (address : string) (record : Bytes) : Comp conn unit :=
  write fault "saveSession failed" (fun d =>
    if fk_ok accountName_ d
    then Some (set_session (insert (accountName_, address) record) d) else None).
Definition loadSession (address : string) : Comp conn (option Bytes) :=
  select fault (fun d => session d !! (accountName_, address)).

(** The loop body: the device id of a session address, if it has one. *)
Definition device_of (address : string) : option Z :=
  match split_last "."%char address with
  | None => None
  | Some (_, suffix) => match stoi suffix with Ok n => Some n | Throw _ => None end
  end.

Definition session_addresses (pattern : string) (d : db) : list string :=
  filter (fun a => like pattern a = true)
    (map (fun kv => kv.1.2) (filter (fun kv => kv.1.1 = accountName_) (map_to_list (session d)))).

Definition knownDeviceIdsFor (serviceId : string) : Comp conn (list Z) :=
  addresses ← select_all fault (session_addresses (String.append serviceId ".%"));
  mret (omap device_of addresses).

Definition saveRemoteIdentity (address : string) (publicKey : Bytes) : Comp conn unit :=
  write fault "saveRemoteIdentity failed" (fun d =>
    if fk_ok accountName_ d
    then Some (set_remote (insert (accountName_, address) publicKey) d) else None).
Definition loadRemoteIdentity (address : string) : Comp conn (option Bytes) :=
  select fault (fun d => remote_identity d !! (accountName_, address)).

(** [now] is [std::time(nullptr)]. *)
Definition saveResolvedContact (now : Z) (e164 aci pni : string) : Comp conn unit :=
  write fault "saveResolvedContact failed" (fun d =>
    if fk_ok accountName_ d
    then Some (set_resolved (insert (accountName_, e164) (mkResolved aci pni now)) d)
    else None).
Definition loadResolvedContact (e164 : string) : Comp conn (option ResolvedContactRecord) :=
  select fault (fun d => resolved_contact d !! (accountName_, e164)).

(** *** Synced contacts *)

Definition row_where (p : SyncedContactRecord -> bool) (d : db) : option synced_row :=
  List.find (fun r => str_eqb (row_account r) accountName_ && p (contact r)) (synced_contact d).
Definition by_e164 (e : string) (r : SyncedContactRecord) : bool := str_eqb (sc_e164 r) e.
Definition by_aci (a : string) (r : SyncedContactRecord) : bool := str_eqb (sc_aci r) a.

(** SELECT id FROM synced_contact WHERE ...: the id, or the sentinel -1. *)
Definition find_id (p : SyncedContactRecord -> bool) : Comp conn Z :=
  r ← select fault (row_where p);
  mret (match r with Some row => row_id row | None => -1 end).

Definition update_synced (id : Z) (rec : SyncedContactRecord) (d : db) : option db :=
  let upd r := if bool_decide (row_id r = id) then mkRow id (row_account r) rec else r in
  let rows := map upd (synced_contact d) in
  if forallb (fun r => unique_with (upd r) rows) (synced_contact d)
  then Some (set_synced rows (synced_seq d) d) else None.

Definition insert_synced (rec : SyncedContactRecord) (d : db) : option db :=
  let row := mkRow (synced_seq d + 1) accountName_ rec in
  if fk_ok accountName_ d && bool_decide (synced_seq d < int64_max) &&
     unique_with row (synced_contact d)
  then Some (set_synced (synced_contact d ++ [row]) (synced_seq d + 1) d) else None.

Definition saveSyncedContact (now : Z) (e164 aci pni : string) (profileKey : Bytes)
    (givenName familyName : string) : Comp conn unit :=
  id1 ← (if str_nonempty e164 then find_id (by_e164 e164) else mret (-1));
  existingId ← (if bool_decide (id1 < 0) && str_nonempty aci then find_id (by_aci aci)
                else mret id1);
  let rec := mkSynced e164 aci pni profileKey givenName familyName now in
  if bool_decide (0 <= existingId)
  then write fault "saveSyncedContact (update) failed" (update_synced existingId rec)
  else write fault "saveSyncedContact (insert) failed" (insert_synced rec).

Definition loadSyncedContact (e164 : string) : Comp conn (option SyncedContactRecord) :=
  r ← select fault (row_where (by_e164 e164)); mret (contact <$> r).
Definition loadSyncedContactByAci (aci : string) : Comp conn (option SyncedContactRecord) :=
  r ← select fault (row_where (by_aci aci)); mret (contact <$> r).

(** *** deleteAccount *)

Definition of_account {A} (m : gmap (string * string) A) : gmap (string * string) A :=
  filter (fun kv => kv.1.1 = accountName_) m.
Definition not_account {A} (m : gmap (string * string) A) : gmap (string * string) A :=
  filter (fun kv => kv.1.1 <> accountName_) m.

(** A row of a child table still refers to the account: with
    PRAGMA foreign_keys = ON the parent row cannot be deleted. *)
Definition referenced (d : db) : bool :=
  bool_decide (of_account (identity_keypair d) <> ∅) ||
  bool_decide (of_account (signed_prekey d) <> ∅) ||
  bool_decide (of_account (kyber_prekey d) <> ∅) ||
  bool_decide (of_account (session d) <> ∅) ||
  bool_decide (of_account (remote_identity d) <> ∅) ||
  bool_decide (of_account (resolved_contact d) <> ∅) ||
  existsb (fun r => str_eqb (row_account r) accountName_) (synced_contact d).

(** [kTables], each with its DELETE FROM ... WHERE account_name = ? *)
Definition kTables : list (string * (db -> option db)) := [
  ("identity_keypair", fun d => Some (set_keypair not_account d));
  ("signed_prekey", fun d => Some (set_signed not_account d));
  ("kyber_prekey", fun d => Some (set_kyber not_account d));
  ("session", fun d => Some (set_session not_account d));
  ("remote_identity", fun d => Some (set_remote not_account d));
  ("resolved_contact", fun d => Some (set_resolved not_account d));
  ("synced_contact", fun d =>
    Some (set_synced (filter (fun r => row_account r <> accountName_) (synced_contact d))
            (synced_seq d) d));
  ("account", fun d =>
    if referenced d then None else Some (set_account (delete accountName_) d))].

(** BEGIN inside a transaction is an error. *)
Definition begin_txn : Comp conn bool :=
  ok ← sql_call fault;
  c ← get;
  if (ok : bool) then
    match saved c with
    | None => modify (fun c => mkConn (cdb c) (Some (cdb c)) (calls c)) ;; mret true
    | Some _ => mret false
    end
  else mret false.
Definition commit_txn : Comp conn bool :=
  ok ← sql_call fault;
  when ok (modify (fun c => mkConn (cdb c) None (calls c))) ;; mret ok.
Definition rollback_txn : Comp conn unit :=
  ok ← sql_call fault;
  when ok (modify (fun c => mkConn (committed c) None (calls c))).

Definition deleteAccount : Comp conn unit :=
  begun ← begin_txn;
  if negb (begun : bool) then throw_std "deleteAccount: BEGIN failed" else
  catch_all (for_each (fun t => write fault (String.append "DELETE FROM " t.1) t.2) kTables)
    (fun e => rollback_txn ;; throw e) ;;
  committed_ok ← commit_txn;
  if negb (committed_ok : bool) then throw_std "deleteAccount: COMMIT failed" else mret tt.
End Methods.

(** [listAllAccounts], after its connection is open: ORDER BY account_name. *)
Definition summary_of (kv : string * AccountRecord) : AccountSummary :=
  mkSummary kv.1 (e164 kv.2) (enabled kv.2) (config_version kv.2).
Definition name_le (x y : string * AccountRecord) : Prop := String.le x.1 y.1.
#[export] Instance name_le_dec : RelDecision name_le := fun x y => String.le_dec x.1 y.1.
Definition listAllAccounts (fault : nat -> bool) : Comp conn (list AccountSummary) :=
  select_all fault (fun d => summary_of <$> merge_sort name_le (map_to_list (account d))).

(** ** Migrations of an existing database file

    Three objects of the file matter to the constructor's migrations:
    synced_contact (absent, in the old shape keyed by (account, e164), or in
    the current one), the table it is renamed to, and account's columns. *)

Record old_row := mkOld {
  old_account : string; old_e164 : string; old_aci : string; old_pni : string;
  old_profile_key : Bytes; old_synced_at : Z }.

Inductive synced_shape :=
| Absent
| OldShape (rows : list old_row)
| NewShape (rows : list synced_row) (seq : Z).

Record dbfile := mkFile {
  synced_tbl : synced_shape;
  old_pk_migration : option (list old_row);
  account_columns : list string;
  file_calls : nat;
}.

Definition new_row (id : Z) (o : old_row) : synced_row :=
  mkRow id (old_account o)
    (mkSynced (old_e164 o) (old_aci o) (old_pni o) (old_profile_key o) "" "" (old_synced_at o)).

(** INSERT ... SELECT: one row after the other; any violation undoes it. *)
Fixpoint insert_select (olds : list old_row) (rows : list synced_row) (seq : Z) :
    option (list synced_row * Z) :=
  match olds with
  | [] => Some (rows, seq)
  | o :: olds' =>
    let r := new_row (seq + 1) o in
    if unique_with r rows then insert_select olds' (rows ++ [r]) (seq + 1) else None
  end.

Definition config_columns : list string := [
  "server_url"; "sip_host"; "sip_extension"; "sip_password"; "sip_bridge_destination";
  "sip_bridge_did"; "sip_srtp"; "sip_transport"; "sip_tls_ca_file"; "sip_tls_insecure";
  "outgoing_call_target"; "signal_proxy"; "signal_censorship_circumvention"; "enabled";
  "config_version"].

Section Migration.
Context (fault : nat -> bool).

Definition file_call : Comp dbfile bool := fun f =>
  (Ok (negb (fault (file_calls f))),
   mkFile (synced_tbl f) (old_pk_migration f) (account_columns f) (S (file_calls f))).
Definition file_exec (what : string) (m : dbfile -> option dbfile) : Comp dbfile unit :=
  ok ← file_call;
  if (ok : bool) then
    f ← get;
    match m f with Some f' => modify (fun _ => f') | None => throw_std what end
  else throw_std what.
(** A [Stmt] whose step is compared with SQLITE_ROW. *)
Definition file_select (q : dbfile -> bool) : Comp dbfile bool :=
  ok ← file_call;
  if (ok : bool) then
    ok ← file_call;
    if (ok : bool) then gets q else mret false
  else throw_std "sqlite3_prepare_v2 failed".

Definition tableExists_synced : Comp dbfile bool :=
  file_select (fun f => match synced_tbl f with Absent => false | _ => true end).
Definition tableExists_migration : Comp dbfile bool :=
  file_select (fun f => bool_decide (is_Some (old_pk_migration f))).

(** ALTER TABLE ... RENAME; the columns of the current shape that the copy
    below does not read are [given_name] and [family_name]. *)
Definition as_old (s : synced_shape) : list old_row :=
  match s with
  | Absent => []
  | OldShape rows => rows
  | NewShape rows _ =>
    map (fun r => mkOld (row_account r) (sc_e164 (contact r)) (sc_aci (contact r))
                    (sc_pni (contact r)) (sc_profile_key (contact r))
                    (synced_at (contact r))) rows
  end.

Definition renameOldSyncedContactTableIfNeeded : Comp dbfile unit :=
  there ← tableExists_synced;
  if negb (there : bool) then mret tt else
  hasId ← file_select (fun f => match synced_tbl f with NewShape _ _ => true | _ => false end);
  if (hasId : bool) then mret tt else
  file_exec "failed to rename old synced_contact table for migration" (fun f =>
    match old_pk_migration f with
    | Some _ => None
    | None => Some (mkFile Absent (Some (as_old (synced_tbl f))) (account_columns f)
                      (file_calls f))
    end).

Definition column_names_before_config : list string := [
  "account_name"; "e164"; "aci"; "pni"; "device_id"; "password"; "registration_id";
  "pni_registration_id"; "flow"; "account_entropy_pool"; "media_root_backup_key";
  "profile_key"; "registered_at"; "linked_at"; "prekeys_refreshed_at"].

(** kSchemaSql: CREATE TABLE IF NOT EXISTS for every table. *)
Definition apply_schema : Comp dbfile unit :=
  file_exec "failed to apply schema" (fun f =>
    Some (mkFile
      (match synced_tbl f with Absent => NewShape [] 0 | s => s end)
      (old_pk_migration f)
      (match account_columns f with
       | [] => column_names_before_config ++ config_columns
       | cols => cols
       end)
      (file_calls f))).

(** One sqlite3_exec of two statements: the second runs, in a transaction of
    its own, only when the first is done. *)
Definition copyOldSyncedContactDataIfPresent : Comp dbfile unit :=
  there ← tableExists_migration;
  if negb (there : bool) then mret tt else
  file_exec "failed to migrate synced_contact data to new schema" (fun f =>
    match old_pk_migration f, synced_tbl f with
    | Some olds, NewShape rows seq =>
      match insert_select olds rows seq with
      | Some (rows', seq') =>
        Some (mkFile (NewShape rows' seq') (Some olds) (account_columns f) (file_calls f))
      | None => None
      end
    | _, _ => None
    end) ;;
  file_exec "failed to migrate synced_contact data to new schema" (fun f =>
    Some (mkFile (synced_tbl f) None (account_columns f) (file_calls f))).

Definition addColumnIfMissing (column : string) : Comp dbfile unit :=
  there ← file_select (fun f => bool_decide (column ∈ account_columns f));
  if (there : bool) then mret tt else
  file_exec "failed to add column" (fun f =>
    if bool_decide (column ∈ account_columns f) then None
    else Some (mkFile (synced_tbl f) (old_pk_migration f) (account_columns f ++ [column])
                 (file_calls f))).

Definition migrateAccountConfigColumnsIfNeeded : Comp dbfile unit :=
  for_each addColumnIfMissing config_columns.

(** What the constructor does to the file once it is open and keyed: four
    calls that change nothing the model keeps (open, PRAGMA key, the key
    check, PRAGMA journal_mode), then the schema and the migrations. *)
Definition open_call (what : string) : Comp dbfile unit :=
  ok ← file_call; if (ok : bool) then mret tt else throw_std what.
Definition Storage_Storage : Comp dbfile unit :=
  open_call "sqlite3_open failed" ;;
  open_call "PRAGMA key failed" ;;
  open_call "failed to open database (wrong key or corrupt file)" ;;
  open_call "PRAGMA journal_mode=WAL failed" ;;
  renameOldSyncedContactTableIfNeeded ;;
  apply_schema ;;
  copyOldSyncedContactDataIfPresent ;;
  migrateAccountConfigColumnsIfNeeded.
End Migration.

(** ** Lemmas: calls and statements *)

Definition no_fault : nat -> bool := fun _ => false.

(** Only the number of calls made differs. *)
Definition same_data (c c' : conn) : Prop := cdb c' = cdb c /\ saved c' = saved c.

Lemma same_data_calls d s n m : same_data (mkConn d s n) (mkConn d s m).
Proof. done. Qed.
#[export] Hint Resolve same_data_calls : signal.

Section statement_lemmas.
Context (fault : nat -> bool).

Lemma sql_call_eq c :
  sql_call fault c = (Ok (negb (fault (calls c))), mkConn (cdb c) (saved c) (S (calls c))).
Proof. done. Qed.

(** A read returns what the query says, nothing, or throws; it changes no data. *)
Lemma select_cases {A} (q : db -> option A) c :
  exists n, (exists w, select fault q c = (Throw (StdError w), mkConn (cdb c) (saved c) n)) \/
    select fault q c = (Ok None, mkConn (cdb c) (saved c) n) \/
    select fault q c = (Ok (q (cdb c)), mkConn (cdb c) (saved c) n).
Proof.
  destruct c as [d s k]. unfold select, prepare, sql_call, mbind, comp_bind. simpl.
  destruct (fault k); simpl; [exists (S k); left; eauto|].
  destruct (fault (S k)); simpl; exists (S (S k)); eauto.
Qed.

(** A write applies its update once, or throws and changes nothing. *)
Lemma write_cases what u c :
  exists n, (exists w, write fault what u c = (Throw (StdError w), mkConn (cdb c) (saved c) n)) \/
    (exists d', u (cdb c) = Some d' /\ write fault what u c = (Ok tt, mkConn d' (saved c) n)).
Proof.
  destruct c as [d s k]. unfold write, run_write, prepare, sql_call, mbind, comp_bind. simpl.
  destruct (fault k); simpl; [exists (S k); left; eauto|].
  destruct (fault (S k)); simpl; [exists (S (S k)); left; eauto|].
  destruct (u d) as [d'|] eqn:E; simpl; exists (S (S k)); [right|left]; eauto.
Qed.

Lemma step_rows_same {A} (rows : list A) c :
  same_data c (step_rows fault rows c).2.
Proof.
  revert c. induction rows as [|r rows IH]; intros [d s k]; cbn [step_rows];
    unfold mbind, comp_bind, sql_call; cbn -[step_rows]; [done|].
  destruct (fault k); cbn -[step_rows]; [done|].
  specialize (IH (mkConn d s (S k))).
  destruct (step_rows fault rows (mkConn d s (S k))) as [[l|e] c1]; exact IH.
Qed.
End statement_lemmas.

(** Without faults. *)
Lemma select_ok {A} (q : db -> option A) c :
  select no_fault q c = (Ok (q (cdb c)), mkConn (cdb c) (saved c) (S (S (calls c)))).
Proof. done. Qed.

Lemma write_ok what u c d' :
  u (cdb c) = Some d' ->
  write no_fault what u c = (Ok tt, mkConn d' (saved c) (S (S (calls c)))).
Proof.
  intros H. unfold write, run_write, prepare, sql_call, mbind, comp_bind. simpl. by rewrite H.
Qed.

Lemma step_rows_ok {A} (rows : list A) c :
  exists n, step_rows no_fault rows c = (Ok rows, mkConn (cdb c) (saved c) n).
Proof.
  revert c. induction rows as [|r rows IH]; intros [d s k]; cbn [step_rows];
    unfold mbind, comp_bind, sql_call; cbn -[step_rows]; [by eexists|].
  destruct (IH (mkConn d s (S k))) as [n ->]. by eexists.
Qed.

(** ** The invariant of the tables *)

Definition refs_ok {A} (accounts : gmap string AccountRecord) (m : gmap (string * string) A) : Prop :=
  forall k v, m !! k = Some v -> is_Some (accounts !! k.1).
Definition identities_ok {A} (m : gmap (string * string) A) : Prop :=
  forall k v, m !! k = Some v -> k.2 = "aci" \/ k.2 = "pni".

Record db_ok (d : db) : Prop := {
  ok_keypair : refs_ok (account d) (identity_keypair d) /\ identities_ok (identity_keypair d);
  ok_signed : refs_ok (account d) (signed_prekey d) /\ identities_ok (signed_prekey d);
  ok_kyber : refs_ok (account d) (kyber_prekey d) /\ identities_ok (kyber_prekey d);
  ok_session : refs_ok (account d) (session d);
  ok_remote : refs_ok (account d) (remote_identity d);
  ok_resolved : refs_ok (account d) (resolved_contact d);
  ok_synced : forall r, r ∈ synced_contact d ->
    is_Some (account d !! row_account r) /\ 0 < row_id r <= synced_seq d;
  ok_seq : 0 <= synced_seq d;
  ok_ids : NoDup (map row_id (synced_contact d));
  ok_unique : forall r s, r ∈ synced_contact d -> s ∈ synced_contact d ->
    row_id r <> row_id s -> clash r s = false;
}.

(** What the other accounts own. *)
Definition others (acct : string) (d : db) : db :=
  mkDb (delete acct (account d)) (not_account acct (identity_keypair d))
    (not_account acct (signed_prekey d)) (not_account acct (kyber_prekey d))
    (not_account acct (session d)) (not_account acct (remote_identity d))
    (not_account acct (resolved_contact d))
    (filter (fun r => row_account r <> acct) (synced_contact d)) 0.

(** A property of the tables, for what the connection sees and for what a
    rollback would restore. *)
Definition conn_inv (I : db -> Prop) (c : conn) : Prop :=
  I (cdb c) /\ (forall d, saved c = Some d -> I d).

Section conn_inv_lemmas.
Context (fault : nat -> bool) (I : db -> Prop).

Lemma conn_inv_same c c' : same_data c c' -> conn_inv I c -> conn_inv I c'.
Proof. intros [H1 H2] [Hi Hs]. split; rewrite ?H1, ?H2; done. Qed.

Lemma select_keeps {A} (q : db -> option A) : preserves (conn_inv I) (select fault q).
Proof.
  intros c Hc. destruct (select_cases fault q c) as [n [[w ->]|[->| ->]]]; exact Hc.
Qed.

Lemma write_keeps what u :
  (forall d d', I d -> u d = Some d' -> I d') -> preserves (conn_inv I) (write fault what u).
Proof.
  intros Hu c Hc. destruct (write_cases fault what u c) as [n [[w ->]|(d' & Hd & ->)]];
    [exact Hc|]. destruct Hc as [Hc Hs]. split; [by eapply Hu|exact Hs].
Qed.

Lemma select_all_keeps {A} (q : db -> list A) : preserves (conn_inv I) (select_all fault q).
Proof.
  intros [d s k] Hc. unfold select_all, prepare, mbind, comp_bind, sql_call.
  cbn -[step_rows]. destruct (fault k); cbn -[step_rows]; [exact Hc|].
  pose proof (step_rows_same fault (q d) (mkConn d s (S k))) as Hs.
  destruct (step_rows fault (q d) (mkConn d s (S k))) as [r c1].
  by eapply conn_inv_same.
Qed.
End conn_inv_lemmas.
#[export] Hint Resolve select_keeps select_all_keeps : signal.

(** ** Lemmas: tables *)

Section table_lemmas.
Context (acct : string).

Lemma lookup_not_account {A} (m : gmap (string * string) A) k v :
  not_account acct m !! k = Some v <-> m !! k = Some v /\ k.1 <> acct.
Proof. unfold not_account. by rewrite map_lookup_filter_Some. Qed.

Lemma not_account_idem {A} (m : gmap (string * string) A) :
  not_account acct (not_account acct m) = not_account acct m.
Proof.
  apply map_eq. intros k. apply option_eq. intros v. rewrite !lookup_not_account. tauto.
Qed.

Lemma not_account_insert {A} (m : gmap (string * string) A) k v :
  not_account acct (<[(acct, k) := v]> m) = not_account acct m.
Proof.
  apply map_eq. intros k'. apply option_eq. intros x. rewrite !lookup_not_account.
  destruct (decide (k' = (acct, k))) as [->|Hne].
  - split; intros [_ Hne]; by destruct Hne.
  - by rewrite lookup_insert_ne.
Qed.

Lemma of_account_empty {A} (m : gmap (string * string) A) :
  of_account acct m = ∅ <-> forall k v, m !! k = Some v -> k.1 <> acct.
Proof.
  unfold of_account. split.
  - intros H k v Hk Ha. by apply (map_filter_empty_not_lookup _ _ k v H Ha).
  - intros H. apply map_empty. intros k. apply map_lookup_filter_None. right.
    intros v Hk. by apply (H k v).
Qed.

Lemma refs_insert {A} (accounts : gmap string AccountRecord) (m : gmap (string * string) A) k v :
  is_Some (accounts !! acct) -> refs_ok accounts m -> refs_ok accounts (<[(acct, k) := v]> m).
Proof.
  intros Ha Hm k' v'. destruct (decide (k' = (acct, k))) as [->|Hne]; [done|].
  rewrite lookup_insert_ne by done. apply Hm.
Qed.

Lemma refs_not_account {A} (accounts : gmap string AccountRecord) (m : gmap (string * string) A) :
  refs_ok accounts m -> refs_ok accounts (not_account acct m).
Proof. intros Hm k v [Hk _]%lookup_not_account. by eapply Hm. Qed.

Lemma refs_accounts {A} (accounts accounts' : gmap string AccountRecord) (m : gmap (string * string) A) :
  (forall k, is_Some (accounts !! k) -> is_Some (accounts' !! k)) ->
  refs_ok accounts m -> refs_ok accounts' m.
Proof. intros Ha Hm k v Hk. apply Ha. by eapply Hm. Qed.

Lemma refs_delete {A} (accounts : gmap string AccountRecord) (m : gmap (string * string) A) :
  of_account acct m = ∅ -> refs_ok accounts m -> refs_ok (delete acct accounts) m.
Proof.
  intros Ho Hm k v Hk. rewrite lookup_delete_ne; [by eapply Hm|].
  intros Heq. by apply (proj1 (of_account_empty m) Ho k v Hk).
Qed.

Lemma identities_insert {A} (m : gmap (string * string) A) k v :
  identity_ok k = true -> identities_ok m -> identities_ok (<[(acct, k) := v]> m).
Proof.
  intros Hk Hm k' v'. destruct (decide (k' = (acct, k))) as [->|Hne].
  - intros _. unfold identity_ok, str_eqb in Hk. apply orb_true_iff in Hk as [Hk|Hk]; bdec; auto.
  - rewrite lookup_insert_ne by done. apply Hm.
Qed.

Lemma identities_not_account {A} (m : gmap (string * string) A) :
  identities_ok m -> identities_ok (not_account acct m).
Proof. intros Hm k v [Hk _]%lookup_not_account. by eapply Hm. Qed.
End table_lemmas.
#[export] Hint Resolve refs_insert refs_not_account identities_insert identities_not_account : signal.

(** ** Every write keeps the invariant and the other accounts' rows *)

Definition kept (acct : string) (o d : db) : Prop := db_ok d /\ others acct d = o.
Definition keptP (acct : string) (P : db -> Prop) (d : db) : Prop := db_ok d /\ P (others acct d).

Lemma keptP_step acct P d d' :
  (forall o, kept acct o d -> kept acct o d') -> keptP acct P d -> keptP acct P d'.
Proof.
  intros H [Hok HP]. destruct (H (others acct d) (conj Hok eq_refl)) as [Hok' Ho].
  split; [done|]. by rewrite Ho.
Qed.

Section writes_keep.
Context (fault : nat -> bool) (acct : string) (o : db).
Local Abbreviation K := (kept acct o).

Lemma keep_account f d :
  (forall m, delete acct (f m) = delete acct m) ->
  (forall m k, is_Some (m !! k) -> is_Some (f m !! k)) ->
  K d -> K (set_account f d).
Proof.
  intros Hd Hf [[[] [] [] ? ? ? Hsy ? ? ?] <-]. split.
  - constructor; simpl; eauto using refs_accounts.
    intros r Hr. destruct (Hsy r Hr). eauto.
  - unfold others. simpl. by rewrite Hd.
Qed.

Lemma fk_ok_true d : fk_ok acct d = true -> is_Some (account d !! acct).
Proof. apply bool_decide_eq_true_1. Qed.

(** The six child tables keyed by (account, k): one insert each. *)
Lemma keep_keypair d k v : identity_ok k && fk_ok acct d = true -> K d ->
  K (set_keypair (insert (acct, k) v) d).
Proof.
  intros [Hk Hf%fk_ok_true]%andb_true_iff [[[] [] [] ] <-].
  split; [constructor; simpl; eauto with signal|].
  unfold others. simpl. by rewrite not_account_insert.
Qed.
Lemma keep_signed d k v : identity_ok k && fk_ok acct d = true -> K d ->
  K (set_signed (insert (acct, k) v) d).
Proof.
  intros [Hk Hf%fk_ok_true]%andb_true_iff [[[] [] [] ] <-].
  split; [constructor; simpl; eauto with signal|].
  unfold others. simpl. by rewrite not_account_insert.
Qed.
Lemma keep_kyber d k v : identity_ok k && fk_ok acct d = true -> K d ->
  K (set_kyber (insert (acct, k) v) d).
Proof.
  intros [Hk Hf%fk_ok_true]%andb_true_iff [[[] [] [] ] <-].
  split; [constructor; simpl; eauto with signal|].
  unfold others. simpl. by rewrite not_account_insert.
Qed.
Lemma keep_session d k v : fk_ok acct d = true -> K d -> K (set_session (insert (acct, k) v) d).
Proof.
  intros Hf%fk_ok_true [[[] [] [] ] <-]. split; [constructor; simpl; eauto with signal|].
  unfold others. simpl. by rewrite not_account_insert.
Qed.
Lemma keep_remote d k v : fk_ok acct d = true -> K d -> K (set_remote (insert (acct, k) v) d).
Proof.
  intros Hf%fk_ok_true [[[] [] [] ] <-]. split; [constructor; simpl; eauto with signal|].
  unfold others. simpl. by rewrite not_account_insert.
Qed.
Lemma keep_resolved d k v : fk_ok acct d = true -> K d -> K (set_resolved (insert (acct, k) v) d).
Proof.
  intros Hf%fk_ok_true [[[] [] [] ] <-]. split; [constructor; simpl; eauto with signal|].
  unfold others. simpl. by rewrite not_account_insert.
Qed.

(** *** Synced contacts *)

Lemma clash_sym r s : clash r s = clash s r.
Proof.
  assert (forall a b : string, str_eqb a b = str_eqb b a) as Hs
    by (intros; apply bool_decide_ext; naive_solver).
  assert (forall a b : string, str_nonempty a && str_eqb a b = str_nonempty b && str_eqb b a) as Hn.
  { intros a b. rewrite (Hs b a). unfold str_eqb. case_bool_decide as H; [by rewrite H|].
    by rewrite !andb_false_r. }
  unfold clash. by rewrite (Hs (row_account r)), (Hn (sc_e164 (contact r))), (Hn (sc_aci (contact r))).
Qed.

Lemma unique_with_spec r rows :
  unique_with r rows = true <->
  forall s, s ∈ rows -> row_id s <> row_id r -> clash r s = false.
Proof.
  unfold unique_with. rewrite forallb_forall. split.
  - intros H s Hs Hne. apply list_elem_of_In in Hs. specialize (H s Hs).
    rewrite bool_decide_eq_false_2 in H by done. by apply negb_true_iff.
  - intros H s Hs. apply list_elem_of_In in Hs. case_bool_decide; [done|]. simpl.
    by rewrite H.
Qed.

Lemma keep_insert_synced rec d d' : K d -> insert_synced acct rec d = Some d' -> K d'.
Proof.
  unfold insert_synced. intros [[] <-] H.
  destruct (fk_ok acct d && bool_decide (synced_seq d < int64_max) && _) eqn:E; [|done].
  injection H as <-. apply andb_true_iff in E as [[Hf%fk_ok_true _]%andb_true_iff Hu].
  rewrite unique_with_spec in Hu. split.
  - constructor; simpl; try done; [| lia | |].
    + intros r [Hr| ->%list_elem_of_singleton]%elem_of_app; [|simpl; split; [done|lia]].
      destruct (ok_synced0 r Hr). split; [done|lia].
    + rewrite map_app. apply NoDup_app. split; [done|]. split; [|apply NoDup_singleton].
      intros i Hi ->%list_elem_of_singleton. apply list_elem_of_In, in_map_iff in Hi as (r & Hi & Hr).
      apply list_elem_of_In in Hr. destruct (ok_synced0 r Hr). simpl in Hi. lia.
    + intros r s [Hr| ->%list_elem_of_singleton]%elem_of_app
        [Hs| ->%list_elem_of_singleton]%elem_of_app Hne; [eauto| | |done].
      * rewrite clash_sym. by apply Hu.
      * apply Hu; [done|]. intros Heq. by apply Hne.
  - unfold others. simpl. rewrite filter_app, filter_cons_False by (simpl; tauto).
    by rewrite filter_nil, app_nil_r.
Qed.

Lemma row_where_spec p d r :
  row_where acct p d = Some r ->
  r ∈ synced_contact d /\ row_account r = acct /\ p (contact r) = true.
Proof.
  unfold row_where. intros [Hin Hp]%List.find_some. apply list_elem_of_In in Hin.
  unfold str_eqb in Hp. bdec. done.
Qed.

Definition renewed (id : Z) (rec : SyncedContactRecord) (r : synced_row) : synced_row :=
  if bool_decide (row_id r = id) then mkRow id (row_account r) rec else r.

Lemma renewed_id id rec r : row_id (renewed id rec r) = row_id r.
Proof. unfold renewed. case_bool_decide; [by subst|done]. Qed.
Lemma renewed_account id rec r : row_account (renewed id rec r) = row_account r.
Proof. unfold renewed. by case_bool_decide. Qed.

Lemma update_synced_some id rec d d' :
  update_synced id rec d = Some d' <->
  (forall r s, r ∈ synced_contact d -> s ∈ synced_contact d -> row_id r <> row_id s ->
     clash (renewed id rec r) (renewed id rec s) = false) /\
  d' = set_synced (map (renewed id rec) (synced_contact d)) (synced_seq d) d.
Proof.
  change (update_synced id rec d) with
    (if forallb (fun r => unique_with (renewed id rec r)
            (map (renewed id rec) (synced_contact d))) (synced_contact d)
     then Some (set_synced (map (renewed id rec) (synced_contact d)) (synced_seq d) d)
     else None).
  destruct (forallb _ _) eqn:E.
  - rewrite forallb_forall in E. split.
    + intros [= <-]. split; [|done]. intros r s Hr%list_elem_of_In Hs%list_elem_of_In Hne.
      specialize (E r Hr). rewrite unique_with_spec in E. apply E.
      * by apply list_elem_of_In, in_map.
      * change (row_id (renewed id rec s) <> row_id (renewed id rec r)).
        rewrite !renewed_id. done.
    + by intros [_ ->].
  - split; [done|]. intros [Hc _]. exfalso. apply not_true_iff_false in E. apply E.
    apply forallb_forall. intros r Hr%list_elem_of_In. apply unique_with_spec.
    intros s' (s & <- & Hs%list_elem_of_In)%list_elem_of_In%in_map_iff Hne.
    apply Hc; [done..|]. rewrite !renewed_id in Hne. done.
Qed.

Lemma NoDup_ids_inj d r s : db_ok d -> r ∈ synced_contact d -> s ∈ synced_contact d ->
  row_id r = row_id s -> r = s.
Proof.
  intros Hok Hr Hs Hid. pose proof (ok_ids d Hok) as Hnd.
  apply list_elem_of_lookup in Hr as [i Hi]. apply list_elem_of_lookup in Hs as [j Hj].
  assert (i = j) as ->.
  { eapply NoDup_lookup; [exact Hnd| |].
    - change (map row_id (synced_contact d)) with (row_id <$> synced_contact d).
      by rewrite list_lookup_fmap, Hi.
    - change (map row_id (synced_contact d)) with (row_id <$> synced_contact d).
      by rewrite list_lookup_fmap, Hj, Hid. }
  congruence.
Qed.

Lemma keep_update_synced rec d d' r :
  K d -> r ∈ synced_contact d -> row_account r = acct ->
  update_synced (row_id r) rec d = Some d' -> K d'.
Proof.
  intros [Hok <-] Hr Ha [Hc ->]%update_synced_some.
  assert (forall s, s ∈ map (renewed (row_id r) rec) (synced_contact d) ->
    exists s0, s0 ∈ synced_contact d /\ s = renewed (row_id r) rec s0) as Hin.
  { intros s (s0 & <- & Hs%list_elem_of_In)%list_elem_of_In%in_map_iff. eauto. }
  split.
  - pose proof Hok as []. constructor; simpl; try done.
    + intros s (s0 & Hs & ->)%Hin. rewrite renewed_id, renewed_account. auto.
    + rewrite map_map. erewrite map_ext; [done|]. intros s. apply renewed_id.
    + intros s t (s0 & Hs & ->)%Hin (t0 & Ht & ->)%Hin Hne. rewrite !renewed_id in Hne. auto.
  - unfold others. simpl. f_equal.
    assert (forall s, s ∈ synced_contact d -> row_account s <> acct ->
              renewed (row_id r) rec s = s) as Hsame.
    { intros s Hs Hne. unfold renewed. case_bool_decide as Hid; [|done]. exfalso.
      apply Hne. by rewrite (NoDup_ids_inj d s r Hok Hs Hr Hid). }
    clear Hin Hc Hok Hr. revert Hsame. induction (synced_contact d) as [|s l IH]; [done|].
    intros Hsame. cbn [map]. destruct (decide (row_account s = acct)) as [He|Hne].
    + rewrite !filter_cons_False by (rewrite ?renewed_account; tauto). apply IH.
      intros t Ht. apply Hsame. by right.
    + rewrite Hsame by (done || by left). rewrite !filter_cons_True by done. f_equal.
      apply IH. intros t Ht. apply Hsame. by right.
Qed.
End writes_keep.

(** What [find_id] finds. *)
Lemma find_id_cases fault acct p c :
  db_ok (cdb c) ->
  exists n, (exists w, find_id fault acct p c = (Throw (StdError w), mkConn (cdb c) (saved c) n)) \/
    find_id fault acct p c = (Ok (-1), mkConn (cdb c) (saved c) n) \/
    (exists r, row_where acct p (cdb c) = Some r /\
       find_id fault acct p c = (Ok (row_id r), mkConn (cdb c) (saved c) n)).
Proof.
  intros Hok. unfold find_id, mbind, comp_bind.
  destruct (select_cases fault (row_where acct p) c) as [n [[w ->]|[->| ->]]]; exists n; [eauto..|].
  destruct (row_where acct p (cdb c)) as [r|]; [right; right; eauto|right; left; done].
Qed.

Section synced_save.
Context (fault : nat -> bool) (acct : string) (now : Z).
Context (e164 aci pni : string) (profileKey : Bytes) (givenName familyName : string).
Local Abbreviation rec := (mkSynced e164 aci pni profileKey givenName familyName now).
Local Abbreviation save :=
  (saveSyncedContact fault acct now e164 aci pni profileKey givenName familyName).

(** One UPDATE of a row of this account, one INSERT, or an exception with the
    tables as they were. *)
Definition synced_result (c : conn) (x : outcome unit * conn) : Prop :=
  exists n, (exists w, x = (Throw (StdError w), mkConn (cdb c) (saved c) n)) \/
    (exists r d', r ∈ synced_contact (cdb c) /\ row_account r = acct /\
       update_synced (row_id r) rec (cdb c) = Some d' /\ x = (Ok tt, mkConn d' (saved c) n)) \/
    (exists d', insert_synced acct rec (cdb c) = Some d' /\ x = (Ok tt, mkConn d' (saved c) n)).

(** The row to update, when one of this account was found. *)
Definition found_row (c : conn) (id : Z) : Prop :=
  id = -1 \/ exists r, r ∈ synced_contact (cdb c) /\ row_account r = acct /\ id = row_id r.
Local Abbreviation last_write existingId :=
  (if bool_decide (0 <= existingId)
   then write fault "saveSyncedContact (update) failed" (update_synced existingId rec)
   else write fault "saveSyncedContact (insert) failed" (insert_synced acct rec)).

Lemma last_write_cases c id c0 : db_ok (cdb c) -> same_data c c0 -> found_row c id -> synced_result c (last_write id c0).
Proof.
  intros Hok [Hd Hs] [->|(r & Hr & Ha & ->)]; unfold synced_result.
  - rewrite bool_decide_eq_false_2 by lia.
    destruct (write_cases fault "saveSyncedContact (insert) failed" (insert_synced acct rec) c0)
      as [n [[w ->]|(d' & Hu & ->)]]; rewrite Hs; rewrite Hd in *; exists n; eauto 8.
  - destruct (ok_synced _ Hok r Hr) as [_ [Hpos _]].
    rewrite bool_decide_eq_true_2 by lia.
    destruct (write_cases fault "saveSyncedContact (update) failed"
      (update_synced (row_id r) rec) c0) as [n [[w ->]|(d' & Hu & ->)]];
      rewrite Hs; rewrite Hd in *; exists n; eauto 10.
Qed.

Lemma second_lookup_cases c id1 c0 : db_ok (cdb c) -> same_data c c0 -> found_row c id1 ->
  synced_result c ((existingId ← (if bool_decide (id1 < 0) && str_nonempty aci
                  then find_id fault acct (by_aci aci) else mret id1); last_write existingId) c0).
Proof.
  intros Hok Hsame Hid. pose proof Hsame as [Hd Hs]. unfold mbind, comp_bind.
  destruct (bool_decide (id1 < 0) && str_nonempty aci); [|by apply last_write_cases].
  pose proof Hok as Hok0. rewrite <- Hd in Hok0.
  destruct (find_id_cases fault acct (by_aci aci) c0 Hok0) as [n [[w ->]|[->|(r & Hr & ->)]]]; rewrite Hd, Hs.
  - exists n. eauto.
  - apply last_write_cases; [done|done|by left].
  - rewrite Hd in Hr. apply last_write_cases; [done|done|right].
    destruct (row_where_spec acct (by_aci aci) (cdb c) r Hr) as (? & ? & _). eauto.
Qed.

(** Whatever fails, these are the only outcomes. *)
Lemma saveSyncedContact_cases c :
  db_ok (cdb c) ->
  synced_result c (save c).
Proof.
  intros Hok. unfold saveSyncedContact. unfold mbind at 1, comp_bind at 1.
  destruct (str_nonempty e164); [|by apply second_lookup_cases; [..|left]].
  destruct (find_id_cases fault acct (by_e164 e164) c Hok) as [n [[w ->]|[->|(r & Hr & ->)]]].
  - exists n. eauto.
  - apply second_lookup_cases; [done|done|by left].
  - apply second_lookup_cases; [done|done|right].
    destruct (row_where_spec acct (by_e164 e164) (cdb c) r Hr) as (? & ? & _). eauto.
Qed.
End synced_save.

Section delete_lemmas.
Context (fault : nat -> bool) (acct : string).

Lemma referenced_false d :
  referenced acct d = false ->
  of_account acct (identity_keypair d) = ∅ /\ of_account acct (signed_prekey d) = ∅ /\
  of_account acct (kyber_prekey d) = ∅ /\ of_account acct (session d) = ∅ /\
  of_account acct (remote_identity d) = ∅ /\ of_account acct (resolved_contact d) = ∅ /\
  (forall r, r ∈ synced_contact d -> row_account r <> acct).
Proof.
  unfold referenced. intros H.
  repeat match type of H with
  | _ || _ = false => apply orb_false_iff in H; destruct H as [H ?]
  end. bdec.
  repeat match goal with
  | E : ~ (_ <> ∅) |- _ => apply dec_stable in E
  end. repeat (split; [done|]). intros r Hr Ha.
  match goal with E : existsb _ _ = false |- _ =>
    apply not_true_iff_false in E; apply E, existsb_exists end.
  exists r. split; [by apply list_elem_of_In|by apply bool_decide_eq_true_2].
Qed.

Lemma keep_filter_synced o d :
  kept acct o d ->
  kept acct o (set_synced (filter (fun r => row_account r <> acct) (synced_contact d))
                 (synced_seq d) d).
Proof.
  intros [[] <-]. split.
  - constructor; simpl; try done.
    + intros r [_ Hr]%list_elem_of_filter. auto.
    + clear - ok_ids0. induction (synced_contact d) as [|r l IH]; [constructor|].
      cbn [map] in ok_ids0. apply NoDup_cons in ok_ids0 as [Hni Hnd].
      destruct (decide (row_account r = acct)).
      * rewrite filter_cons_False by tauto. auto.
      * rewrite filter_cons_True by done. cbn [map]. apply NoDup_cons. split; [|auto].
        intros Hin. apply Hni. apply list_elem_of_In, in_map_iff in Hin as (s & Hs & Hin).
        apply list_elem_of_In, list_elem_of_filter in Hin as [_ Hin].
        apply list_elem_of_In, in_map_iff. exists s. split; [done|by apply list_elem_of_In].
    + intros r s [_ Hr]%list_elem_of_filter [_ Hs]%list_elem_of_filter. auto.
  - unfold others. simpl. f_equal. rewrite list_filter_filter.
    apply list_filter_iff. intros r. tauto.
Qed.

(** Every DELETE of the list keeps the invariant and the other accounts. *)
Lemma kTables_keep o t d d' :
  t ∈ kTables acct -> kept acct o d -> t.2 d = Some d' -> kept acct o d'.
Proof.
  intros Ht Hk Hd. unfold kTables in Ht.
  repeat (rewrite elem_of_cons in Ht; destruct Ht as [->|Ht]); simpl in Hd;
    [..|by apply elem_of_nil in Ht].
  1-6: injection Hd as <-; destruct Hk as [[[] [] [] ] <-]; split;
    [constructor; simpl; auto with signal
    |unfold others; simpl; by rewrite not_account_idem].
  - injection Hd as <-. by apply keep_filter_synced.
  - destruct (referenced acct d) eqn:E; [done|]. injection Hd as <-.
    apply referenced_false in E as (H1 & H2 & H3 & H4 & H5 & H6 & H7).
    destruct Hk as [[[] [] [] ] <-]. split.
    + constructor; simpl; auto using refs_delete.
      intros r Hr. rewrite lookup_delete_ne by (intros Heq; by apply (H7 r Hr)). auto.
    + unfold others. simpl. by rewrite delete_delete_eq.
Qed.

Lemma begin_txn_keeps I : preserves (conn_inv I) (begin_txn fault).
Proof.
  intros [d [s|] n] [Hd Hs]; unfold begin_txn, sql_call, get, modify, mbind, comp_bind; simpl;
    destruct (fault n); simpl; split; simpl; try done. by intros ? [= <-].
Qed.
Lemma commit_txn_keeps I : preserves (conn_inv I) (commit_txn fault).
Proof.
  intros [d s n] [Hd Hs]. unfold commit_txn, sql_call, when, modify, mbind, comp_bind; simpl.
  destruct (fault n); simpl; split; done.
Qed.
Lemma rollback_txn_keeps I : preserves (conn_inv I) (rollback_txn fault).
Proof.
  intros [d s n] [Hd Hs]. unfold rollback_txn, sql_call, when, modify, mbind, comp_bind; simpl.
  destruct (fault n); simpl; split; simpl; try done. unfold committed. simpl.
  destruct s; simpl; auto.
Qed.

Lemma for_each_in {S A} (I : S -> Prop) (f : A -> Comp S unit) l :
  (forall x, x ∈ l -> preserves I (f x)) -> preserves I (for_each f l).
Proof.
  intros Hf. induction l as [|x l IH]; [apply preserves_ret|].
  apply preserves_bind; [apply Hf; left|intros _; apply IH; intros y Hy; apply Hf; by right].
Qed.

Lemma deleteAccount_keeps P : preserves (conn_inv (keptP acct P)) (deleteAccount fault acct).
Proof.
  unfold deleteAccount. apply preserves_bind; [apply begin_txn_keeps|].
  intros [|]; cbn [negb]; [|apply preserves_throw].
  apply preserves_bind; [apply preserves_catch_all|].
  - apply for_each_in. intros t Ht. apply write_keeps. intros d d' Hk Hd.
    eapply keptP_step; [intros o Ho; by eapply kTables_keep|done].
  - intros e. apply preserves_bind; [apply rollback_txn_keeps|keeps].
  - intros _. apply preserves_bind; [apply commit_txn_keeps|keeps].
Qed.
End delete_lemmas.

(** ** Any sequence of writes *)

Inductive write_op :=
| SaveAccount (a : AccountRecord)
| SaveAccountConfig (a : AccountRecord)
| SaveIdentityKeypair (identity : string) (k : IdentityKeypairRecord)
| SaveSignedPrekey (identity : string) (k : SignedPrekeyRecord)
| SaveKyberPrekey (identity : string) (k : KyberPrekeyRecord)
| SaveSession (address : string) (record : Bytes)
| SaveRemoteIdentity (address : string) (publicKey : Bytes)
| SaveResolvedContact (now : Z) (e a p : string)
| SaveSyncedContact (now : Z) (e a p : string) (pk : Bytes) (given family : string)
| DeleteAccount.

Definition run_op (fault : nat -> bool) (acct : string) (op : write_op) : Comp conn unit :=
  match op with
  | SaveAccount a => saveAccount fault acct a
  | SaveAccountConfig a => saveAccountConfig fault acct a
  | SaveIdentityKeypair i k => saveIdentityKeypair fault acct i k
  | SaveSignedPrekey i k => saveSignedPrekey fault acct i k
  | SaveKyberPrekey i k => saveKyberPrekey fault acct i k
  | SaveSession ad r => saveSession fault acct ad r
  | SaveRemoteIdentity ad k => saveRemoteIdentity fault acct ad k
  | SaveResolvedContact now e a p => saveResolvedContact fault acct now e a p
  | SaveSyncedContact now e a p pk g f => saveSyncedContact fault acct now e a p pk g f
  | DeleteAccount => deleteAccount fault acct
  end.

(** A history of writes: a method that throws leaves the rest to run. *)
Fixpoint run_ops (fault : nat -> bool) (ops : list (string * write_op)) (c : conn) : conn :=
  match ops with
  | [] => c
  | (acct, op) :: ops' => run_ops fault ops' (run_op fault acct op c).2
  end.

Lemma run_op_keeps fault acct op P :
  preserves (conn_inv (keptP acct P)) (run_op fault acct op).
Proof.
  destruct op; cbn [run_op].
  1: { apply write_keeps. intros d d' Hk [= <-].
       eapply keptP_step; [intros o; apply keep_account|done].
       - intros m. apply delete_insert_eq.
       - intros m k Hs. destruct (decide (k = acct)) as [->|Hne];
           [rewrite lookup_insert_eq; eauto|by rewrite lookup_insert_ne]. }
  1: { unfold saveAccountConfig. keeps. apply write_keeps. intros d d' Hk [= <-].
       eapply keptP_step; [intros o; apply keep_account|done].
       - intros m. apply delete_alter_eq.
       - intros m k Hs. by rewrite lookup_alter_is_Some. }
  8: apply deleteAccount_keeps.
  7: { intros c Hc. destruct (saveSyncedContact_cases fault acct now e a p pk given family c
         (proj1 (proj1 Hc))) as [n [[w ->]|[(r & d' & Hr & Ha & Hu & ->)|(d' & Hi & ->)]]];
         [exact Hc| |]; destruct Hc as [Hc Hs]; (split; [|exact Hs]);
         (eapply keptP_step; [intros o Ho|exact Hc]).
       - by eapply keep_update_synced.
       - by eapply keep_insert_synced. }
  all: apply write_keeps; intros d d' Hk Hu; cbn beta in Hu.
  1-3: destruct (identity_ok identity && fk_ok acct d) eqn:E; [|done].
  4-6: destruct (fk_ok acct d) eqn:E; [|done].
  all: injection Hu as <-; (eapply keptP_step; [intros o Ho|exact Hk]).
  - by apply keep_keypair.
  - by apply keep_signed.
  - by apply keep_kyber.
  - by apply keep_session.
  - by apply keep_remote.
  - by apply keep_resolved.
Qed.

(** What one account owns. *)
Definition rows_of (b : string) (d : db) : db :=
  mkDb (match account d !! b with Some a => {[ b := a ]} | None => ∅ end)
    (of_account b (identity_keypair d)) (of_account b (signed_prekey d))
    (of_account b (kyber_prekey d)) (of_account b (session d))
    (of_account b (remote_identity d)) (of_account b (resolved_contact d))
    (filter (fun r => row_account r = b) (synced_contact d)) 0.

Lemma of_not_account {A} (a b : string) (m : gmap (string * string) A) :
  b <> a -> of_account b (not_account a m) = of_account b m.
Proof.
  intros Hne. apply map_eq. intros k. apply option_eq. intros v.
  unfold of_account, not_account. rewrite !map_lookup_filter_Some. simpl. naive_solver.
Qed.

Lemma rows_of_others a b d : b <> a -> rows_of b (others a d) = rows_of b d.
Proof.
  intros Hne. unfold rows_of, others. simpl. rewrite lookup_delete_ne by done.
  rewrite !of_not_account by done. f_equal. rewrite list_filter_filter.
  apply list_filter_iff. intros r. naive_solver.
Qed.

(** C12: Whatever sequence of writes the daemon makes, by whatever accounts and
    with whatever SQLite failures, the tables keep the schema's invariant
    (every child row refers to an existing account, identities are 'aci' or
    'pni', row ids and the partial unique indexes of synced_contact hold), in
    what the connection sees and in what a rollback would restore; and the
    rows of an account that made none of the writes are the same. *)
Theorem storage_writes_safe (fault : nat -> bool) (ops : list (string * write_op)) (c : conn)
    (b : string) (o : db) :
  conn_inv (fun d => db_ok d /\ rows_of b d = o) c ->
  (forall acct op, (acct, op) ∈ ops -> acct <> b) ->
  conn_inv (fun d => db_ok d /\ rows_of b d = o) (run_ops fault ops c).
Proof.
  revert c. induction ops as [|[acct op] ops IH]; intros c Hc Hb; [done|].
  simpl. apply IH; [|intros a p Hin; eapply Hb; right; exact Hin].
  assert (b <> acct) as Hne by (intros ->; by eapply (Hb acct op); [left|]).
  assert (forall d, db_ok d /\ rows_of b d = o <->
            keptP acct (fun x => rows_of b x = o) d) as Hiff.
  { intros d. unfold keptP. by rewrite rows_of_others. }
  assert (conn_inv (keptP acct (fun x => rows_of b x = o)) (run_op fault acct op c).2) as [H1 H2].
  { apply run_op_keeps. destruct Hc as [H1 H2]. split; [by apply Hiff|].
    intros d Hd. by apply Hiff, H2. }
  split; [by apply Hiff|]. intros d Hd. by apply Hiff, H2.
Qed.

Lemma db_ok_accounts m : db_ok (mkDb m ∅ ∅ ∅ ∅ ∅ ∅ [] 0).
Proof.
  constructor; simpl;
    try (split; intros k v Hk; by rewrite lookup_empty in Hk);
    try (intros k v Hk; by rewrite lookup_empty in Hk).
  - by intros r Hr%elem_of_nil.
  - lia.
  - constructor.
  - by intros r s Hr%elem_of_nil.
Qed.

(** A concrete connection: two accounts, nothing else. *)
Definition two_accounts : conn :=
  mkConn (mkDb (<["a" := column_defaults]> (<["b" := column_defaults]> ∅)) ∅ ∅ ∅ ∅ ∅ ∅ [] 0)
    None 0.

Lemma storage_writes_safe_witness :
  conn_inv (fun d => db_ok d /\ rows_of "b" d = rows_of "b" (cdb two_accounts))
    (run_ops (fun n => Nat.eqb n 3)
       [("a", SaveSession "x.1" [1]); ("a", SaveSyncedContact 5 "+1" "u" "" [] "" "");
        ("a", DeleteAccount)] two_accounts).
Proof.
  apply (storage_writes_safe (fun n => Nat.eqb n 3)
    [("a", SaveSession "x.1" [1]); ("a", SaveSyncedContact 5 "+1" "u" "" [] "" "");
     ("a", DeleteAccount)] two_accounts "b" (rows_of "b" (cdb two_accounts))).
  - split; [split; [apply db_ok_accounts|done]|done].
  - intros acct op Hin.
    repeat (rewrite elem_of_cons in Hin; destruct Hin as [[= -> _]|Hin]); [done..|].
    by apply elem_of_nil in Hin.
Defined.

(** ** The account row: two writers, one reader *)

(** [saveAccount] and [saveAccountConfig] write disjoint columns: on an
    existing row they commute, the identity columns are those of the former's
    argument, the configuration those of the latter's, and config_version is
    one more than before, whatever the caller's record held; [loadAccount]
    reads exactly that row back. *)
Lemma account_writers_commute (acct : string) (a b old : AccountRecord) (c : conn) :
  account (cdb c) !! acct = Some old ->
  exists c1 c2 c3,
    (saveAccount no_fault acct a ;; saveAccountConfig no_fault acct b) c = (Ok tt, c1) /\
    (saveAccountConfig no_fault acct b ;; saveAccount no_fault acct a) c = (Ok tt, c2) /\
    cdb c1 = cdb c2 /\
    loadAccount no_fault acct c1 = (Ok (take_config b (take_identity a old)), c3) /\
    cdb c3 = cdb c1.
Proof.
  intros Hold. destruct c as [d s n]. simpl in Hold.
  unfold saveAccount, saveAccountConfig, loadAccount.
  do 3 eexists. split; [|split; [|split; [|split]]].
  - erewrite bind_ok by (apply write_ok; reflexivity).
    erewrite bind_ok by (apply write_ok; reflexivity).
    erewrite bind_ok by reflexivity. simpl.
    rewrite bool_decide_eq_true_2; [reflexivity|].
    rewrite lookup_alter_is_Some, lookup_insert_eq. eauto.
  - erewrite bind_ok by (erewrite bind_ok by (apply write_ok; reflexivity);
      erewrite bind_ok by reflexivity; simpl;
      rewrite bool_decide_eq_true_2; [reflexivity|rewrite lookup_alter_is_Some, Hold; eauto]).
    apply write_ok. reflexivity.
  - unfold set_account. simpl. f_equal. rewrite Hold, lookup_alter_eq, Hold. simpl.
    rewrite alter_insert_eq. apply map_eq. intros k.
    destruct (decide (k = acct)) as [->|Hne].
    + rewrite !lookup_insert_eq. reflexivity.
    + rewrite !lookup_insert_ne, lookup_alter_ne by done. done.
  - erewrite bind_ok by (apply select_ok). simpl. rewrite lookup_alter_eq, lookup_insert_eq, Hold.
    simpl. reflexivity.
  - done.
Qed.

Lemma account_writers_commute_witness :
  exists c1 c2 c3,
    (saveAccount no_fault "a" column_defaults ;; saveAccountConfig no_fault "a" column_defaults)
      two_accounts = (Ok tt, c1) /\
    (saveAccountConfig no_fault "a" column_defaults ;; saveAccount no_fault "a" column_defaults)
      two_accounts = (Ok tt, c2) /\
    cdb c1 = cdb c2 /\
    loadAccount no_fault "a" c1 =
      (Ok (take_config column_defaults (take_identity column_defaults column_defaults)), c3) /\
    cdb c3 = cdb c1.
Proof. apply (account_writers_commute "a" column_defaults column_defaults column_defaults). reflexivity. Defined.

(** ** Device ids of stored sessions *)

Lemma like_percent p s : like (String "%" p) s =
  like p s || match s with EmptyString => false | String _ s' => like (String "%" p) s' end.
Proof. destruct s; reflexivity. Qed.

Lemma like_any s : like "%" s = true.
Proof.
  induction s as [|c s IH]; [done|]. rewrite like_percent. simpl (like "" _). exact IH.
Qed.

(** A prefix of the pattern matches itself, wildcards included. *)
Lemma like_self_prefix p s t : like p t = true -> like (String.append s p) (String.append s t) = true.
Proof.
  intros Hp. induction s as [|c s IH]; [done|]. rewrite !str_app_cons.
  destruct (decide (c = "%"%char)) as [->|Hc].
  - rewrite like_percent. destruct (String.append s t) as [|d u] eqn:E; apply orb_true_iff; right;
      rewrite like_percent, IH; done.
  - cbn [like]. rewrite bool_decide_eq_false_2 by done.
    rewrite (bool_decide_eq_true_2 (lower c = lower c)) by done. by rewrite orb_true_r.
Qed.

Lemma device_of_address sid dev :
  0 <= dev <= int_max -> device_of (String.append sid (String "." (to_string dev))) = Some dev.
Proof.
  intros Hd. unfold device_of.
  rewrite split_last_app by (apply all_digits_no; [done|apply to_string_all_digits; lia]).
  by rewrite stoi_to_string.
Qed.

(** After [saveSession] has stored a session for device [dev] of a
    service id, [knownDeviceIdsFor] that service id lists [dev]; and every id
    it lists is the suffix of a stored address of this account that matches
    the LIKE pattern. *)
Lemma known_devices_after_save (acct sid : string) (dev : Z) (record : Bytes) (c : conn) :
  0 <= dev <= int_max -> fk_ok acct (cdb c) = true ->
  exists c1 c2 ids,
    saveSession no_fault acct (String.append sid (String "." (to_string dev))) record c
      = (Ok tt, c1) /\
    knownDeviceIdsFor no_fault acct sid c1 = (Ok ids, c2) /\
    dev ∈ ids /\
    (forall n, n ∈ ids -> exists address r, session (cdb c1) !! (acct, address) = Some r /\
       like (String.append sid ".%") address = true /\ device_of address = Some n).
Proof.
  intros Hdev Hfk. set (addr := String.append sid (String "." (to_string dev))).
  assert (forall d n, n ∈ omap device_of (session_addresses acct (String.append sid ".%") d) <->
    exists address r, session d !! (acct, address) = Some r /\
      like (String.append sid ".%") address = true /\ device_of address = Some n) as Hin.
  { intros d n. rewrite list_elem_of_omap. unfold session_addresses. split.
    - intros (ad & Had & Hn). apply list_elem_of_filter in Had as [Hl Had].
      apply list_elem_of_In, in_map_iff in Had as ([[a' ad'] r] & Heq & Hkv).
      apply list_elem_of_In, list_elem_of_filter in Hkv as [Ha Hkv]. simpl in *. subst.
      apply elem_of_map_to_list in Hkv. eauto.
    - intros (ad & r & Hr & Hl & Hn). exists ad. split; [|done].
      apply list_elem_of_filter. split; [done|]. apply list_elem_of_In, in_map_iff.
      exists ((acct, ad), r). split; [done|]. apply list_elem_of_In, list_elem_of_filter.
      split; [done|]. by apply elem_of_map_to_list. }
  set (d1 := set_session (insert (acct, addr) record) (cdb c)).
  set (c1 := mkConn d1 (saved c) (S (S (calls c)))).
  destruct (step_rows_ok (session_addresses acct (String.append sid ".%") d1)
              (mkConn d1 (saved c) (S (S (S (calls c)))))) as [n Hn].
  exists c1. do 2 eexists. split; [|split; [|split]].
  - apply write_ok. by rewrite Hfk.
  - unfold knownDeviceIdsFor. erewrite bind_ok by exact Hn. reflexivity.
  - apply Hin. exists addr, record. split; [|split].
    + apply lookup_insert_eq.
    + unfold addr. apply like_self_prefix. cbn [like]. simpl. apply like_any.
    + by apply device_of_address.
  - intros m. apply Hin.
Qed.

Lemma known_devices_after_save_witness :
  (0 <= 2 <= int_max /\ fk_ok "a" (cdb two_accounts) = true) /\
  exists c1 c2 ids,
    saveSession no_fault "a" (String.append "0f-9" (String "." (to_string 2))) [7] two_accounts
      = (Ok tt, c1) /\
    knownDeviceIdsFor no_fault "a" "0f-9" c1 = (Ok ids, c2) /\ 2 ∈ ids /\
    (forall n, n ∈ ids -> exists address r, session (cdb c1) !! ("a", address) = Some r /\
       like (String.append "0f-9" ".%") address = true /\ device_of address = Some n).
Proof.
  split; [split; [done|reflexivity]|].
  apply (known_devices_after_save "a" "0f-9" 2 [7] two_accounts); [done|reflexivity].
Defined.

(** ** Synced contacts *)

Lemma same_e164_same_id d r s :
  db_ok d -> r ∈ synced_contact d -> s ∈ synced_contact d -> row_account r = row_account s ->
  sc_e164 (contact r) = sc_e164 (contact s) -> str_nonempty (sc_e164 (contact r)) = true ->
  row_id r = row_id s.
Proof.
  intros Hok Hr Hs Ha He Hne. destruct (decide (row_id r = row_id s)) as [|Hid]; [done|].
  pose proof (ok_unique d Hok r s Hr Hs Hid) as Hc. unfold clash, str_eqb in Hc.
  rewrite (bool_decide_eq_true_2 (row_account r = row_account s)) in Hc by done.
  rewrite (bool_decide_eq_true_2 (sc_e164 (contact r) = sc_e164 (contact s))), Hne in Hc by done.
  done.
Qed.

Lemma same_aci_same_id d r s :
  db_ok d -> r ∈ synced_contact d -> s ∈ synced_contact d -> row_account r = row_account s ->
  sc_aci (contact r) = sc_aci (contact s) -> str_nonempty (sc_aci (contact r)) = true ->
  row_id r = row_id s.
Proof.
  intros Hok Hr Hs Ha He Hne. destruct (decide (row_id r = row_id s)) as [|Hid]; [done|].
  pose proof (ok_unique d Hok r s Hr Hs Hid) as Hc. unfold clash, str_eqb in Hc.
  rewrite (bool_decide_eq_true_2 (row_account r = row_account s)) in Hc by done.
  rewrite (bool_decide_eq_true_2 (sc_aci (contact r) = sc_aci (contact s))), Hne in Hc by done.
  by rewrite orb_true_r in Hc.
Qed.

(** When a contact's number belongs to one stored row and its ACI to
    another one of the same account (the contact changed its number),
    [saveSyncedContact] throws, whatever else fails, and every table stays as
    it was: neither row is updated and none is added. *)
Lemma synced_conflict_throws (fault : nat -> bool) (acct : string) (now : Z)
    (e a p : string) (pk : Bytes) (given family : string) (c : conn) (r1 r2 : synced_row) :
  db_ok (cdb c) -> r1 ∈ synced_contact (cdb c) -> r2 ∈ synced_contact (cdb c) ->
  row_account r1 = acct -> row_account r2 = acct -> row_id r1 <> row_id r2 ->
  sc_e164 (contact r1) = e -> str_nonempty e = true ->
  sc_aci (contact r2) = a -> str_nonempty a = true ->
  exists w n, saveSyncedContact fault acct now e a p pk given family c
    = (Throw (StdError w), mkConn (cdb c) (saved c) n).
Proof.
  intros Hok H1 H2 Ha1 Ha2 Hid He Hne Ha Hna.
  destruct (saveSyncedContact_cases fault acct now e a p pk given family c Hok)
    as [n [[w ->]|[(r & d' & Hr & Har & Hu & _)|(d' & Hi & _)]]]; [eauto| |]; exfalso.
  - apply update_synced_some in Hu as [Hc _].
    destruct (decide (row_id r = row_id r1)) as [Heq|Hneq].
    + specialize (Hc r r2 Hr H2 ltac:(congruence)). unfold clash, renewed, str_eqb in Hc.
      rewrite (bool_decide_eq_true_2 (row_id r = row_id r)) in Hc by done.
      rewrite (bool_decide_eq_false_2 (row_id r2 = row_id r)) in Hc by congruence. simpl in Hc.
      rewrite Ha, Ha2, Har, Hna in Hc. rewrite (bool_decide_eq_true_2 (acct = acct)) in Hc by done.
      rewrite (bool_decide_eq_true_2 (a = a)), orb_true_r in Hc by done. done.
    + specialize (Hc r r1 Hr H1 Hneq). unfold clash, renewed, str_eqb in Hc.
      rewrite (bool_decide_eq_true_2 (row_id r = row_id r)) in Hc by done.
      rewrite (bool_decide_eq_false_2 (row_id r1 = row_id r)) in Hc by congruence. simpl in Hc.
      rewrite He, Ha1, Har, Hne in Hc. rewrite (bool_decide_eq_true_2 (acct = acct)) in Hc by done.
      by rewrite (bool_decide_eq_true_2 (e = e)) in Hc by done.
  - unfold insert_synced in Hi. destruct (_ && unique_with _ _) eqn:E; [|done].
    apply andb_true_iff in E as [_ E]. rewrite unique_with_spec in E.
    destruct (ok_synced _ Hok r1 H1) as [_ Hb].
    specialize (E r1 H1 ltac:(simpl; lia)). unfold clash, str_eqb in E. simpl in E.
    rewrite Ha1, He, Hne in E. rewrite (bool_decide_eq_true_2 (acct = acct)) in E by done.
    by rewrite (bool_decide_eq_true_2 (e = e)) in E by done.
Qed.

(** Two synced contacts of account "a": one by number, one by ACI. *)
Definition two_contacts : conn :=
  mkConn (mkDb (<["a" := column_defaults]> ∅) ∅ ∅ ∅ ∅ ∅ ∅
    [mkRow 1 "a" (mkSynced "+1" "" "" [] "" "" 0); mkRow 2 "a" (mkSynced "" "u" "" [] "" "" 0)] 2)
    None 0.

Lemma two_contacts_ok : db_ok (cdb two_contacts).
Proof.
  constructor; simpl;
    try (split; intros k v Hk; by rewrite lookup_empty in Hk);
    try (intros k v Hk; by rewrite lookup_empty in Hk).
  - intros r [->|[->|[]%elem_of_nil]%elem_of_cons]%elem_of_cons; simpl;
      rewrite lookup_insert_eq; split; eauto; lia.
  - lia.
  - by apply (bool_decide_eq_true_1 (NoDup [1; 2])).
  - intros r s [->|[->|[]%elem_of_nil]%elem_of_cons]%elem_of_cons
      [->|[->|[]%elem_of_nil]%elem_of_cons]%elem_of_cons; done.
Qed.

Lemma synced_conflict_throws_witness :
  exists w n, saveSyncedContact no_fault "a" 9 "+1" "u" "" [] "" "" two_contacts
    = (Throw (StdError w), mkConn (cdb two_contacts) (saved two_contacts) n).
Proof.
  apply (synced_conflict_throws no_fault "a" 9 "+1" "u" "" [] "" "" two_contacts
    (mkRow 1 "a" (mkSynced "+1" "" "" [] "" "" 0)) (mkRow 2 "a" (mkSynced "" "u" "" [] "" "" 0)));
    [apply two_contacts_ok|by left|by right; left|done..].
Defined.

(** The row a lookup must find. *)
Lemma row_where_unique acct p d r :
  db_ok d -> r ∈ synced_contact d -> row_account r = acct -> p (contact r) = true ->
  (forall s, s ∈ synced_contact d -> row_account s = acct -> p (contact s) = true ->
     row_id s = row_id r) ->
  row_where acct p d = Some r.
Proof.
  intros Hok Hr Ha Hp Huniq. destruct (row_where acct p d) as [s|] eqn:E.
  - apply row_where_spec in E as (Hs & Has & Hps). f_equal. eapply NoDup_ids_inj; eauto.
  - exfalso. unfold row_where in E. apply list_elem_of_In in Hr.
    pose proof (List.find_none _ _ E r Hr) as Hf. simpl in Hf. unfold str_eqb in Hf.
    rewrite Hp, bool_decide_eq_true_2 in Hf by done. done.
Qed.

Lemma row_where_none acct p d :
  row_where acct p d = None ->
  forall s, s ∈ synced_contact d -> row_account s = acct -> p (contact s) = false.
Proof.
  intros E s Hs Ha. apply list_elem_of_In in Hs. pose proof (List.find_none _ _ E s Hs) as Hf.
  simpl in Hf. unfold str_eqb in Hf. by rewrite bool_decide_eq_true_2 in Hf.
Qed.

(** No two different rows of the account hold the number and the ACI. *)
Definition no_conflict (acct e a : string) (d : db) : Prop :=
  forall r s, r ∈ synced_contact d -> s ∈ synced_contact d ->
    row_account r = acct -> row_account s = acct ->
    (sc_e164 (contact r) = e \/ sc_aci (contact r) = a /\ a <> "") ->
    (sc_e164 (contact s) = e \/ sc_aci (contact s) = a /\ a <> "") -> row_id r = row_id s.

Section upsert.
#[local] Set Default Proof Using "All".
Context (acct : string) (now : Z) (e a p : string) (pk : Bytes) (given family : string).
Context (d : db) (Hok : db_ok d) (Hfk : fk_ok acct d = true) (Hmax : synced_seq d < int64_max).
Context (He : str_nonempty e = true) (Hnc : no_conflict acct e a d).
Local Abbreviation rec := (mkSynced e a p pk given family now).

Lemma clash_rec s i : clash (mkRow i acct rec) s = true ->
  row_account s = acct /\ (sc_e164 (contact s) = e \/ sc_aci (contact s) = a /\ a <> "").
Proof.
  unfold clash, str_eqb. simpl. intros [Ha Hc]%andb_true_iff. bdec. split; [done|].
  apply orb_true_iff in Hc as [[_ Hc]%andb_true_iff|[Hn Hc]%andb_true_iff]; bdec; [by left|].
  right. split; [done|]. by intros ->.
Qed.

(** Updating the matching row breaks no index. *)
Lemma update_matching r :
  r ∈ synced_contact d -> row_account r = acct ->
  (sc_e164 (contact r) = e \/ sc_aci (contact r) = a /\ a <> "") ->
  exists d', update_synced (row_id r) rec d = Some d' /\
    mkRow (row_id r) acct rec ∈ synced_contact d' /\
    (forall s, s ∈ synced_contact d -> s <> r -> s ∈ synced_contact d').
Proof.
  intros Hr Ha Hm. eexists. split; [|split].
  - apply update_synced_some. split; [|reflexivity].
    assert (forall s t, s ∈ synced_contact d -> t ∈ synced_contact d -> row_id s = row_id r ->
      row_id t <> row_id r -> clash (mkRow (row_id r) (row_account s) rec) t = false) as Hone.
    { intros s t Hs Ht Hid Hid'. apply not_true_iff_false. intros Hc.
      rewrite (NoDup_ids_inj d s r Hok Hs Hr Hid), Ha in Hc. apply clash_rec in Hc as [Hat Hmt].
      apply Hid'. eapply Hnc; eauto. }
    intros s t Hs Ht Hne. unfold renewed.
    destruct (decide (row_id s = row_id r)) as [E1|E1], (decide (row_id t = row_id r)) as [E2|E2];
      rewrite ?(bool_decide_eq_true_2 _ E1), ?(bool_decide_eq_true_2 _ E2),
        ?(bool_decide_eq_false_2 _ E1), ?(bool_decide_eq_false_2 _ E2); [congruence|auto| |].
    + rewrite clash_sym. auto.
    + by apply (ok_unique d Hok).
  - simpl. apply list_elem_of_In, in_map_iff. exists r. split; [|by apply list_elem_of_In].
    unfold renewed. by rewrite bool_decide_eq_true_2, Ha.
  - simpl. intros s Hs Hne. apply list_elem_of_In, in_map_iff. exists s.
    split; [|by apply list_elem_of_In]. unfold renewed. rewrite bool_decide_eq_false_2; [done|].
    intros Hid. apply Hne. by apply (NoDup_ids_inj d).
Qed.

(** Inserting when no row matches breaks no index either. *)
Lemma insert_fresh :
  (forall s, s ∈ synced_contact d -> row_account s = acct ->
     sc_e164 (contact s) <> e /\ (sc_aci (contact s) = a -> a = "")) ->
  exists d', insert_synced acct rec d = Some d' /\
    mkRow (synced_seq d + 1) acct rec ∈ synced_contact d' /\
    (forall s, s ∈ synced_contact d -> s ∈ synced_contact d').
Proof.
  intros Hno. exists (set_synced (synced_contact d ++ [mkRow (synced_seq d + 1) acct rec])
    (synced_seq d + 1) d). split; [|split].
  - unfold insert_synced. rewrite Hfk, bool_decide_eq_true_2 by done.
    replace (unique_with _ _) with true; [done|]. symmetry. apply unique_with_spec.
    intros s Hs _. apply not_true_iff_false. intros [Ha Hm]%clash_rec.
    destruct (Hno s Hs Ha). tauto.
  - simpl. apply elem_of_app. right. by left.
  - simpl. intros s Hs. apply elem_of_app. by left.
Qed.

(** Either way the row is found again by its number. *)
Lemma found_by_e164 d' i :
  db_ok d' -> mkRow i acct rec ∈ synced_contact d' ->
  row_where acct (by_e164 e) d' = Some (mkRow i acct rec).
Proof.
  intros Hok' Hin. apply row_where_unique; [done|done|done| |].
  - by apply bool_decide_eq_true_2.
  - intros s Hs Ha Hp. apply bool_decide_eq_true_1 in Hp. eapply same_e164_same_id; eauto.
    by rewrite Hp.
Qed.
End upsert.

Lemma find_id_ok acct p c :
  exists n, find_id no_fault acct p c =
    (Ok (match row_where acct p (cdb c) with Some r => row_id r | None => -1 end),
     mkConn (cdb c) (saved c) n).
Proof. eexists. reflexivity. Qed.

Section saved_and_loaded.
Context (acct : string) (now : Z) (e a p : string) (pk : Bytes) (given family : string) (c : conn).
Context (Hok : db_ok (cdb c)) (Hfk : fk_ok acct (cdb c) = true) (Hmax : synced_seq (cdb c) < int64_max)
  (He : str_nonempty e = true) (Hnc : no_conflict acct e a (cdb c)).
Local Abbreviation rec := (mkSynced e a p pk given family now).
#[local] Set Default Proof Using "All".

(** The write succeeded, the contact is there, the unrelated rows too. *)
Definition loads_back (x : outcome unit * conn) : Prop :=
  exists c1 c2, x = (Ok tt, c1) /\ loadSyncedContact no_fault acct e c1 = (Ok (Some rec), c2) /\ db_ok (cdb c1) /\
    (forall s, s ∈ synced_contact (cdb c) -> sc_e164 (contact s) <> e -> sc_aci (contact s) <> a -> s ∈ synced_contact (cdb c1)).

Lemma loads_saved d' i n : db_ok d' -> mkRow i acct rec ∈ synced_contact d' ->
  loadSyncedContact no_fault acct e (mkConn d' (saved c) n) = (Ok (Some rec), mkConn d' (saved c) (S (S n))).
Proof.
  intros Hok' Hin. unfold loadSyncedContact. erewrite bind_ok by apply select_ok.
  cbn [cdb]. by rewrite (found_by_e164 acct now e a p pk given family (cdb c) Hok Hfk Hmax He Hnc d' i Hok' Hin).
Qed.

Lemma update_loads_back r n : r ∈ synced_contact (cdb c) -> row_account r = acct ->
  (sc_e164 (contact r) = e \/ sc_aci (contact r) = a /\ a <> "") ->
  loads_back (write no_fault "saveSyncedContact (update) failed" (update_synced (row_id r) rec) (mkConn (cdb c) (saved c) n)).
Proof.
  intros Hr Ha Hm.
  destruct (update_matching acct now e a p pk given family (cdb c) Hok Hfk Hmax He Hnc r Hr Ha Hm) as (d' & Hu & Hin & Hrest).
  destruct (keep_update_synced acct _ rec _ d' r (conj Hok eq_refl) Hr Ha Hu) as [Hok' _].
  do 2 eexists. split; [by apply write_ok|]. split; [by eapply loads_saved|]. split; [done|].
  intros s Hs H1 H2. apply Hrest; [done|]. intros ->. tauto.
Qed.

Lemma insert_loads_back n : row_where acct (by_e164 e) (cdb c) = None ->
  (forall s, s ∈ synced_contact (cdb c) -> row_account s = acct -> sc_aci (contact s) = a -> a = "") ->
  loads_back (write no_fault "saveSyncedContact (insert) failed" (insert_synced acct rec) (mkConn (cdb c) (saved c) n)).
Proof.
  intros Er Haci. pose proof (row_where_none _ _ _ Er) as Hnone.
  destruct (insert_fresh acct now e a p pk given family (cdb c) Hok Hfk Hmax He Hnc) as (d' & Hu & Hin & Hrest).
  { intros s Hs Ha. split; [|by apply Haci]. specialize (Hnone s Hs Ha). by apply bool_decide_eq_false_1 in Hnone. }
  destruct (keep_insert_synced acct _ rec _ d' (conj Hok eq_refl) Hu) as [Hok' _].
  do 2 eexists. split; [by apply write_ok|]. split; [by eapply loads_saved|]. split; [done|]. auto.
Qed.

Lemma save_loads_back : loads_back (saveSyncedContact no_fault acct now e a p pk given family c).
Proof.
  unfold saveSyncedContact. rewrite He.
  destruct (find_id_ok acct (by_e164 e) c) as [n1 E1]. erewrite bind_ok by exact E1. clear E1.
  destruct (row_where acct (by_e164 e) (cdb c)) as [r|] eqn:Er.
  - apply row_where_spec in Er as (Hr & Ha & Hp). apply bool_decide_eq_true_1 in Hp.
    destruct (ok_synced _ Hok r Hr) as [_ [Hpos _]].
    rewrite (bool_decide_eq_false_2 (row_id r < 0)) by lia. cbn [andb].
    erewrite bind_ok by reflexivity. rewrite (bool_decide_eq_true_2 (0 <= row_id r)) by lia. apply update_loads_back; auto.
  - rewrite (bool_decide_eq_true_2 (-1 < 0)) by lia. cbn [andb]. destruct (str_nonempty a) eqn:Hna.
    + destruct (find_id_ok acct (by_aci a) (mkConn (cdb c) (saved c) n1)) as [n2 E2].
      erewrite bind_ok by exact E2. clear E2. cbn [cdb saved].
      destruct (row_where acct (by_aci a) (cdb c)) as [r|] eqn:Er2.
      * apply row_where_spec in Er2 as (Hr & Ha & Hp). apply bool_decide_eq_true_1 in Hp.
        destruct (ok_synced _ Hok r Hr) as [_ [Hpos _]].
        rewrite (bool_decide_eq_true_2 (0 <= row_id r)) by lia. apply update_loads_back; [done..|].
        right. split; [done|]. by intros ->.
      * rewrite (bool_decide_eq_false_2 (0 <= -1)) by lia. apply insert_loads_back; [done|].
        intros s Hs Ha Hp. pose proof (row_where_none _ _ _ Er2 s Hs Ha) as Hf.
        by apply bool_decide_eq_false_1 in Hf.
    + erewrite bind_ok by reflexivity. rewrite (bool_decide_eq_false_2 (0 <= -1)) by lia.
      apply insert_loads_back; [done|]. intros _ _ _ _. by destruct a.
Qed.
End saved_and_loaded.

(** Without SQLite failures, saving a contact with a number whose number
    and ACI do not belong to two different rows succeeds; the contact is then
    loaded back by its number exactly as saved, the tables keep their
    invariant, and every row holding neither that number nor that ACI is
    still there. *)
Lemma synced_upsert_roundtrip (acct : string) (now : Z) (e a p : string) (pk : Bytes)
    (given family : string) (c : conn) :
  db_ok (cdb c) -> fk_ok acct (cdb c) = true -> synced_seq (cdb c) < int64_max ->
  str_nonempty e = true -> no_conflict acct e a (cdb c) ->
  exists c1 c2, saveSyncedContact no_fault acct now e a p pk given family c = (Ok tt, c1) /\
    loadSyncedContact no_fault acct e c1 = (Ok (Some (mkSynced e a p pk given family now)), c2) /\
    db_ok (cdb c1) /\
    (forall s, s ∈ synced_contact (cdb c) -> sc_e164 (contact s) <> e -> sc_aci (contact s) <> a ->
       s ∈ synced_contact (cdb c1)).
Proof. intros Hok Hfk Hmax He Hnc. by apply save_loads_back. Qed.

Lemma synced_upsert_roundtrip_witness :
  exists c1 c2, saveSyncedContact no_fault "a" 9 "+1" "w" "" [] "Ann" "" two_contacts = (Ok tt, c1) /\
    loadSyncedContact no_fault "a" "+1" c1 = (Ok (Some (mkSynced "+1" "w" "" [] "Ann" "" 9)), c2) /\
    db_ok (cdb c1) /\
    (forall s, s ∈ synced_contact (cdb two_contacts) -> sc_e164 (contact s) <> "+1" ->
       sc_aci (contact s) <> "w" -> s ∈ synced_contact (cdb c1)).
Proof.
  apply (synced_upsert_roundtrip "a" 9 "+1" "w" "" [] "Ann" "" two_contacts);
    [apply two_contacts_ok|reflexivity|reflexivity|reflexivity|].
  intros r s [->|[->|[]%elem_of_nil]%elem_of_cons]%elem_of_cons
    [->|[->|[]%elem_of_nil]%elem_of_cons]%elem_of_cons; simpl; naive_solver.
Defined.

(** ** deleteAccount *)

(** The tables without the account. *)
Definition wiped (acct : string) (d : db) : db :=
  mkDb (delete acct (account d)) (not_account acct (identity_keypair d))
    (not_account acct (signed_prekey d)) (not_account acct (kyber_prekey d))
    (not_account acct (session d)) (not_account acct (remote_identity d))
    (not_account acct (resolved_contact d))
    (filter (fun r => row_account r <> acct) (synced_contact d)) (synced_seq d).

Fixpoint apply_all (ts : list (string * (db -> option db))) (d : db) : option db :=
  match ts with
  | [] => Some d
  | t :: ts' => match t.2 d with Some d' => apply_all ts' d' | None => None end
  end.

Lemma of_not_account_same {A} (acct : string) (m : gmap (string * string) A) :
  of_account acct (not_account acct m) = ∅.
Proof. apply of_account_empty. by intros k v [_ Hk]%lookup_not_account. Qed.

(** Deleting the child rows first leaves nothing that refers to the account:
    the order of [kTables] matters. *)
Lemma apply_all_kTables acct d : apply_all (kTables acct) d = Some (wiped acct d).
Proof.
  unfold kTables. cbn [apply_all snd].
  replace (referenced acct _) with false; [done|]. symmetry. unfold referenced. simpl.
  rewrite !of_not_account_same, !bool_decide_eq_false_2 by tauto. cbn [orb].
  apply not_true_iff_false. intros (r & Hr & Ha)%existsb_exists.
  apply list_elem_of_In, list_elem_of_filter in Hr as [Hne _]. by apply bool_decide_eq_true_1 in Ha.
Qed.

Lemma for_each_writes (fault : nat -> bool) (f : string * (db -> option db) -> string) ts c :
  exists n, (exists e d, for_each (fun t => write fault (f t) t.2) ts c
      = (Throw e, mkConn d (saved c) n)) \/
    (exists d', apply_all ts (cdb c) = Some d' /\
       for_each (fun t => write fault (f t) t.2) ts c = (Ok tt, mkConn d' (saved c) n)).
Proof.
  revert c. induction ts as [|t ts IH]; intros c; cbn [for_each apply_all].
  - exists (calls c). right. exists (cdb c). by destruct c.
  - destruct (write_cases fault (f t) t.2 c) as [n [[w E]|(d' & Hu & E)]].
    + exists n. left. rewrite (bind_throw _ _ _ _ _ E). eauto.
    + rewrite (bind_ok _ _ _ _ _ E), Hu. destruct (IH (mkConn d' (saved c) n)) as [m Hm]. eauto.
Qed.

Lemma for_each_writes_ok (f : string * (db -> option db) -> string) ts c d' :
  apply_all ts (cdb c) = Some d' ->
  exists n, for_each (fun t => write no_fault (f t) t.2) ts c = (Ok tt, mkConn d' (saved c) n).
Proof.
  revert c. induction ts as [|t ts IH]; intros c; cbn [for_each apply_all].
  - intros [= <-]. exists (calls c). by destruct c.
  - destruct (t.2 (cdb c)) as [d1|] eqn:E; [|done]. intros H.
    rewrite (bind_ok _ _ _ _ _ (write_ok (f t) t.2 c d1 E)).
    apply (IH (mkConn d1 (saved c) (S (S (calls c)))) H).
Qed.

(** The run of [deleteAccount] from outside a transaction. *)
Lemma deleteAccount_cases (fault : nat -> bool) (acct : string) (c : conn) :
  saved c = None ->
  (exists n, deleteAccount fault acct c = (Ok tt, mkConn (wiped acct (cdb c)) None n)) \/
  (exists e c', deleteAccount fault acct c = (Throw e, c') /\ committed c' = cdb c).
Proof.
  destruct c as [d s n]. simpl. intros ->. unfold deleteAccount.
  destruct (fault n) eqn:F0.
  { right. do 2 eexists. split; [|].
    - unfold begin_txn, sql_call, get, mbind, comp_bind. simpl. rewrite F0. reflexivity.
    - reflexivity. }
  erewrite (bind_ok _ _ _ true (mkConn d (Some d) (S n)))
    by (unfold begin_txn, sql_call, get, modify, mbind, comp_bind; simpl; by rewrite F0).
  cbn [negb].
  destruct (for_each_writes fault (fun t => String.append "DELETE FROM " t.1) (kTables acct)
    (mkConn d (Some d) (S n))) as [k [(e & d1 & E)|(d1 & Hd & E)]]; cbn [saved] in E.
  - right. erewrite bind_throw.
    2: { unfold catch_all. rewrite E. unfold rollback_txn, sql_call, when, modify, mbind, comp_bind.
         simpl. instantiate (1 := if fault k then _ else _). instantiate (3 := e).
         destruct (fault k); simpl; reflexivity. }
    do 2 eexists. split; [reflexivity|]. by destruct (fault k).
  - rewrite apply_all_kTables in Hd. injection Hd as <-. cbn [cdb] in E.
    erewrite bind_ok by (unfold catch_all; rewrite E; reflexivity).
    destruct (fault k) eqn:Fk; [right|left].
    + do 2 eexists. split; [unfold commit_txn, sql_call, when, modify, mbind, comp_bind; simpl;
        rewrite Fk; reflexivity|]. done.
    + eexists. unfold commit_txn, sql_call, when, modify, mbind, comp_bind; simpl. rewrite Fk.
      reflexivity.
Qed.

Lemma deleteAccount_ok (acct : string) (c : conn) : saved c = None ->
  exists n, deleteAccount no_fault acct c = (Ok tt, mkConn (wiped acct (cdb c)) None n).
Proof.
  intros Hs. destruct c as [d s n]. simpl in Hs. subst s. unfold deleteAccount.
  rewrite (bind_ok _ _ _ true (mkConn d (Some d) (S n))) by reflexivity. cbn [negb].
  destruct (for_each_writes_ok (fun t => String.append "DELETE FROM " t.1) (kTables acct)
    (mkConn d (Some d) (S n)) _ (apply_all_kTables acct d)) as [k E].
  erewrite bind_ok by (unfold catch_all; cbn [saved] in E; rewrite E; reflexivity). by eexists.
Qed.

(** C23: [deleteAccount] is all or nothing in the committed database, whatever
    SQLite calls fail: either it returns, and the account's rows are gone from
    all eight tables while every other row is there, or it throws, and the
    committed content is what it was; without failures it returns. *)
Theorem delete_account_atomic (fault : nat -> bool) (acct : string) (c : conn) :
  saved c = None ->
  (match deleteAccount fault acct c with
   | (Ok _, c') => committed c' = wiped acct (cdb c) /\ saved c' = None
   | (Throw _, c') => committed c' = cdb c
   end) /\ is_ok (deleteAccount no_fault acct c).1 = true.
Proof.
  intros Hs. split.
  - destruct (deleteAccount_cases fault acct c Hs) as [[n ->]|(e & c' & -> & Hc)]; done.
  - by destruct (deleteAccount_ok acct c Hs) as [n ->].
Qed.

Lemma delete_account_atomic_witness :
  (match deleteAccount (Nat.eqb 8) "a" two_contacts with
   | (Ok _, c') => committed c' = wiped "a" (cdb two_contacts) /\ saved c' = None
   | (Throw _, c') => committed c' = cdb two_contacts
   end) /\ is_ok (deleteAccount no_fault "a" two_contacts).1 = true.
Proof. apply (delete_account_atomic (Nat.eqb 8) "a" two_contacts). reflexivity. Defined.

(** *** A COMMIT that fails *)

(** An open transaction stays open: no method but [deleteAccount] ends one, and
    [deleteAccount] fails at BEGIN. *)
Lemma deleteAccount_in_txn acct c d :
  saved c = Some d ->
  deleteAccount no_fault acct c =
    (Throw (StdError "deleteAccount: BEGIN failed"), mkConn (cdb c) (Some d) (S (calls c))).
Proof.
  destruct c as [dc s n]. simpl. intros ->. unfold deleteAccount.
  rewrite (bind_ok _ _ _ false (mkConn dc (Some d) (S n))) by reflexivity. reflexivity.
Qed.

Lemma run_op_in_txn acct op c d :
  saved c = Some d -> saved (run_op no_fault acct op c).2 = Some d.
Proof.
  intros Hs. destruct op; cbn [run_op].
  9: { assert (preserves (fun c => saved c = Some d)
         (saveSyncedContact no_fault acct now e a p pk given family)) as Hp; [|by apply Hp].
       clear c Hs. unfold saveSyncedContact.
       assert (forall q, preserves (fun c => saved c = Some d) (find_id no_fault acct q)) as Hf.
       { intros q c Hs. destruct (find_id_ok acct q c) as [n ->]. done. }
       assert (forall w u, preserves (fun c => saved c = Some d) (write no_fault w u)) as Hw.
       { intros w u c Hs. destruct (write_cases no_fault w u c) as [n [[x ->]|(d' & _ & ->)]]; done. }
       keeps. }
  9: by rewrite (deleteAccount_in_txn acct c d Hs).
  2: { assert (preserves (fun c => saved c = Some d) (saveAccountConfig no_fault acct a))
         as Hp; [|by apply Hp].
       clear c Hs. unfold saveAccountConfig. keeps. intros c Hs.
       destruct (write_cases no_fault "saveAccountConfig failed" (fun d =>
         Some (set_account (alter (take_config a) acct) d)) c) as [n [[x ->]|(d' & _ & ->)]]; done. }
  all: try (unfold saveAccount, saveIdentityKeypair, saveSignedPrekey, saveKyberPrekey, saveSession,
    saveRemoteIdentity, saveResolvedContact).
  all: match goal with |- saved (write no_fault ?w ?u ?k).2 = _ =>
    destruct (write_cases no_fault w u k) as [n [[x ->]|(d' & _ & ->)]]; done end.
Qed.

(** When the COMMIT of [deleteAccount] fails (its 18th SQLite call), the
    transaction is left open: from then on, even if no call ever fails again,
    nothing that is written through this connection is committed, and
    [deleteAccount] always throws. *)
Lemma failed_commit_loses_writes (acct : string) (c : conn) (ops : list (string * write_op)) :
  saved c = None ->
  exists e c', deleteAccount (fun n => Nat.eqb n (17 + calls c)) acct c = (Throw e, c') /\
    committed (run_ops no_fault ops c') = cdb c /\
    is_ok (deleteAccount no_fault acct (run_ops no_fault ops c')).1 = false.
Proof.
  destruct c as [d s n]. simpl. intros ->.
  set (fault := fun k => Nat.eqb k (17 + n)).
  assert (forall ts k d0, (k + 2 * length ts <= 17 + n)%nat -> forall d1, apply_all ts d0 = Some d1 ->
    for_each (fun t => write fault (String.append "DELETE FROM " t.1) t.2) ts
      (mkConn d0 (Some d) k) = (Ok tt, mkConn d1 (Some d) (k + 2 * length ts))) as Hrun.
  { induction ts as [|t ts IH]; intros k d0 Hk d1; cbn [apply_all for_each length].
    - intros [= ->]. by rewrite Nat.mul_0_r, Nat.add_0_r.
    - destruct (t.2 d0) as [d2|] eqn:E; [|done]. intros Hd. simpl in Hk.
      rewrite (bind_ok _ _ _ tt (mkConn d2 (Some d) (S (S k)))).
      + rewrite (IH (S (S k)) d2 ltac:(lia) d1 Hd). do 2 f_equal. lia.
      + unfold write, run_write, prepare, sql_call, mbind, comp_bind, fault. simpl.
        rewrite !(proj2 (Nat.eqb_neq _ _)) by lia. simpl.
        rewrite !(proj2 (Nat.eqb_neq _ _)) by lia. simpl. by rewrite E. }
  exists (StdError "deleteAccount: COMMIT failed"), (mkConn (wiped acct d) (Some d) (18 + n)).
  assert (forall ops c0, saved c0 = Some d -> saved (run_ops no_fault ops c0) = Some d) as Hops.
  { clear. induction ops as [|[a op] ops IH]; intros c0 Hs; [done|]. simpl.
    apply IH. by apply run_op_in_txn. }
  split; [|split].
  - match goal with |- deleteAccount _ _ _ = ?r =>
      change (deleteAccount fault acct (mkConn d None n) = r) end.
    unfold deleteAccount. rewrite (bind_ok _ _ _ true (mkConn d (Some d) (S n))).
    2: { unfold begin_txn, sql_call, get, modify, mbind, comp_bind, fault. simpl.
         by rewrite (proj2 (Nat.eqb_neq _ _)) by lia. }
    cbn [negb]. rewrite (bind_ok _ _ _ tt (mkConn (wiped acct d) (Some d) (S n + 16))).
    2: { unfold catch_all. rewrite (Hrun (kTables acct) (S n) d) with (d1 := wiped acct d);
           [done|simpl; lia|apply apply_all_kTables]. }
    unfold commit_txn, sql_call, when, modify, mbind, comp_bind, fault.
    cbn -[Nat.add Nat.eqb]. rewrite (proj2 (Nat.eqb_eq _ _)) by lia. cbn -[Nat.add]. do 2 f_equal. lia.
  - unfold committed. by rewrite Hops.
  - by erewrite deleteAccount_in_txn by (by apply Hops).
Qed.

Lemma failed_commit_loses_writes_witness :
  exists e c', deleteAccount (fun n => Nat.eqb n (17 + calls two_contacts)) "a" two_contacts
      = (Throw e, c') /\
    committed (run_ops no_fault [("a", SaveSession "u.1" [1])] c') = cdb two_contacts /\
    is_ok (deleteAccount no_fault "a" (run_ops no_fault [("a", SaveSession "u.1" [1])] c')).1 = false.
Proof. apply (failed_commit_loses_writes "a" two_contacts). reflexivity. Defined.

(** ** Opening an existing file *)

Definition file_data (f : dbfile) : synced_shape * option (list old_row) * list string :=
  (synced_tbl f, old_pk_migration f, account_columns f).

(** The rows an old table becomes: numbered in order. *)
Fixpoint number_rows (i : Z) (olds : list old_row) : list synced_row :=
  match olds with
  | [] => []
  | o :: olds' => new_row (i + 1) o :: number_rows (i + 1) olds'
  end.

(** No two old rows share an account and a number, or an account and an ACI. *)
Definition old_rows_distinct (olds : list old_row) : Prop :=
  ForallOrdPairs (fun o o' => clash (new_row 0 o) (new_row 1 o') = false) olds.

Lemma clash_new_row i j o o' : clash (new_row i o) (new_row j o') = clash (new_row 0 o) (new_row 1 o').
Proof. done. Qed.

Lemma insert_select_distinct olds rows seq :
  (forall o r, o ∈ olds -> r ∈ rows -> clash (new_row 0 o) r = false) -> old_rows_distinct olds ->
  insert_select olds rows seq = Some (rows ++ number_rows seq olds, seq + Z.of_nat (length olds)).
Proof.
  revert rows seq. induction olds as [|o olds IH]; intros rows seq Hr Hd; cbn [insert_select number_rows length].
  - by rewrite app_nil_r, Z.add_0_r.
  - inversion Hd as [|? ? Ho Hd']; subst. rewrite Forall_forall in Ho.
    assert (unique_with (new_row (seq + 1) o) rows = true) as ->.
    { apply unique_with_spec. intros s Hs _. apply (Hr o s); [by left|done]. }
    rewrite IH; [|intros o' r Ho' [Hr'| ->%list_elem_of_singleton]%elem_of_app|done].
    + rewrite <- app_assoc. simpl. do 2 f_equal. lia.
    + apply Hr; [by right|done].
    + rewrite clash_sym. by apply Ho.
Qed.

Lemma as_old_number_rows i olds seq : as_old (NewShape (number_rows i olds) seq) = olds.
Proof.
  simpl. revert i. induction olds as [|[] olds IH]; intros i; [done|]. simpl. by rewrite IH.
Qed.

(** *** What each step of the constructor does without failures *)

Lemma addColumnIfMissing_ok col f :
  exists n, addColumnIfMissing no_fault col f =
    (Ok tt, mkFile (synced_tbl f) (old_pk_migration f)
       (if bool_decide (col ∈ account_columns f) then account_columns f
        else account_columns f ++ [col]) n).
Proof.
  destruct f as [t p cols n]. unfold addColumnIfMissing.
  rewrite (bind_ok _ _ _ (bool_decide (col ∈ cols)) (mkFile t p cols (S (S n)))) by reflexivity.
  cbn [account_columns]. case_bool_decide as Hc; [by eexists|].
  eexists. unfold file_exec, file_call, get, modify, mbind, comp_bind. cbn -[elem_of].
  rewrite (bool_decide_eq_false_2 (col ∈ cols)) by done. reflexivity.
Qed.

Lemma add_columns_ok cs f :
  exists n cols, for_each (addColumnIfMissing no_fault) cs f =
    (Ok tt, mkFile (synced_tbl f) (old_pk_migration f) cols n) /\
    (forall c, c ∈ cs -> c ∈ cols) /\ (exists more, cols = account_columns f ++ more) /\
    ((forall c, c ∈ cs -> c ∈ account_columns f) -> cols = account_columns f).
Proof.
  revert f. induction cs as [|c cs IH]; intros f; cbn [for_each].
  - exists (file_calls f), (account_columns f). split; [by destruct f|].
    split; [by intros c Hc%elem_of_nil|]. split; [exists []; by rewrite app_nil_r|done].
  - destruct (addColumnIfMissing_ok c f) as [n E]. rewrite (bind_ok _ _ _ _ _ E).
    set (cols1 := if bool_decide _ then _ else _).
    destruct (IH (mkFile (synced_tbl f) (old_pk_migration f) cols1 n))
      as (n2 & cols & -> & Hin & [more Hmore] & Hsame). cbn [account_columns] in *.
    exists n2, cols. split; [done|]. split; [|split].
    + intros x [->|Hx]%elem_of_cons; [|by apply Hin]. rewrite Hmore. apply elem_of_app. left.
      unfold cols1. case_bool_decide; [done|]. apply elem_of_app. right. by left.
    + rewrite Hmore. unfold cols1. case_bool_decide; [eauto|]. rewrite <- app_assoc. eauto.
    + intros Hall. assert (cols1 = account_columns f) as H1.
      { unfold cols1. rewrite bool_decide_eq_true_2; [done|]. apply Hall. by left. }
      rewrite H1 in Hsame. apply Hsame. intros x Hx. apply Hall. by right.
Qed.

(** The constructor on a file whose synced_contact is, or becomes, current and
    that has no table left over from an earlier migration. *)
Lemma open_migrates t cols n rows seq :
  (t = NewShape rows seq \/ exists olds, t = OldShape olds /\
     insert_select olds [] 0 = Some (rows, seq)) -> cols <> [] ->
  exists cols' n', Storage_Storage no_fault (mkFile t None cols n) =
      (Ok tt, mkFile (NewShape rows seq) None cols' n') /\
    (forall c, c ∈ config_columns -> c ∈ cols') /\ (exists more, cols' = cols ++ more) /\
    ((forall c, c ∈ config_columns -> c ∈ cols) -> cols' = cols).
Proof.
  intros Ht Hcols. destruct cols as [|c0 cols]; [done|].
  assert (forall m, exists cols' n', migrateAccountConfigColumnsIfNeeded no_fault
      (mkFile (NewShape rows seq) None (c0 :: cols) m) =
      (Ok tt, mkFile (NewShape rows seq) None cols' n') /\
    (forall c, c ∈ config_columns -> c ∈ cols') /\ (exists more, cols' = (c0 :: cols) ++ more) /\
    ((forall c, c ∈ config_columns -> c ∈ c0 :: cols) -> cols' = c0 :: cols)) as Hadd.
  { intros m. destruct (add_columns_ok config_columns (mkFile (NewShape rows seq) None (c0 :: cols) m))
      as (n2 & cols' & E & H). eauto. }
  unfold Storage_Storage.
  do 4 rewrite (bind_ok (open_call no_fault _) _ _ tt (mkFile t None (c0 :: cols) (S _))) by reflexivity.
  destruct Ht as [->|(olds & -> & Hins)].
  - rewrite (bind_ok (renameOldSyncedContactTableIfNeeded no_fault) _ _ tt
      (mkFile (NewShape rows seq) None (c0 :: cols) (8 + n))) by reflexivity.
    rewrite (bind_ok (apply_schema no_fault) _ _ tt
      (mkFile (NewShape rows seq) None (c0 :: cols) (9 + n))) by reflexivity.
    rewrite (bind_ok (copyOldSyncedContactDataIfPresent no_fault) _ _ tt
      (mkFile (NewShape rows seq) None (c0 :: cols) (11 + n))) by reflexivity.
    apply Hadd.
  - rewrite (bind_ok (renameOldSyncedContactTableIfNeeded no_fault) _ _ tt
      (mkFile Absent (Some olds) (c0 :: cols) (9 + n))) by reflexivity.
    rewrite (bind_ok (apply_schema no_fault) _ _ tt
      (mkFile (NewShape [] 0) (Some olds) (c0 :: cols) (10 + n))) by reflexivity.
    rewrite (bind_ok (copyOldSyncedContactDataIfPresent no_fault) _ _ tt
      (mkFile (NewShape rows seq) None (c0 :: cols) (14 + n))); [apply Hadd|].
    unfold copyOldSyncedContactDataIfPresent.
    rewrite (bind_ok (tableExists_migration no_fault) _ _ true
      (mkFile (NewShape [] 0) (Some olds) (c0 :: cols) (12 + n))) by reflexivity. cbn [negb].
    rewrite (bind_ok _ _ _ tt (mkFile (NewShape rows seq) (Some olds) (c0 :: cols) (13 + n)));
      [reflexivity|].
    unfold file_exec, file_call, get, modify, mbind, comp_bind. cbn -[insert_select Nat.add].
    by rewrite Hins.
Qed.

(** Opening a database whose synced_contact has the old shape (with no two
    rows of an account sharing a number or an ACI) migrates it: the
    constructor succeeds, every old contact is there with its fields and empty
    names, in order, the temporary table is gone, every configuration column
    exists and no column is lost; opening the file again changes nothing. *)
Lemma migration_preserves_contacts (olds : list old_row) (cols : list string) (n : nat) :
  old_rows_distinct olds -> cols <> [] ->
  exists rows seq cols' n',
    Storage_Storage no_fault (mkFile (OldShape olds) None cols n) =
      (Ok tt, mkFile (NewShape rows seq) None cols' n') /\
    as_old (NewShape rows seq) = olds /\
    Forall (fun r => given_name (contact r) = EmptyString /\ family_name (contact r) = EmptyString) rows /\
    (forall c, c ∈ config_columns -> c ∈ cols') /\ (exists more, cols' = cols ++ more) /\
    (exists n2, Storage_Storage no_fault (mkFile (NewShape rows seq) None cols' n') =
       (Ok tt, mkFile (NewShape rows seq) None cols' n2)).
Proof.
  intros Hd Hcols.
  assert (insert_select olds [] 0 = Some (number_rows 0 olds, 0 + Z.of_nat (length olds))) as Hins.
  { apply insert_select_distinct; [|done]. by intros o r _ Hr%elem_of_nil. }
  destruct (open_migrates (OldShape olds) cols n _ _ (or_intror (ex_intro _ olds (conj eq_refl Hins))) Hcols)
    as (cols' & n' & E & Hall & Hmore & _).
  do 4 eexists. split; [exact E|]. split; [apply as_old_number_rows|].
  split; [|split; [done|split; [done|]]].
  - clear. generalize 0 as i. induction olds as [|o olds IH]; intros i; [constructor|].
    constructor; [done|apply IH].
  - destruct (open_migrates (NewShape (number_rows 0 olds) (0 + Z.of_nat (length olds))) cols' n' _ _
      (or_introl eq_refl)) as (cols2 & n2 & E2 & _ & _ & Hsame).
    { clear - Hmore Hcols. destruct Hmore as [more ->]. destruct cols; [congruence|discriminate]. }
    rewrite (Hsame Hall) in E2. eauto.
Qed.

Lemma migration_preserves_contacts_witness :
  let olds := [mkOld "a" "+1" "u" "" [1] 5; mkOld "a" "+2" "" "" [] 6; mkOld "b" "+1" "u" "" [] 7] in
  exists rows seq cols' n',
    Storage_Storage no_fault (mkFile (OldShape olds) None column_names_before_config 0) =
      (Ok tt, mkFile (NewShape rows seq) None cols' n') /\
    as_old (NewShape rows seq) = olds /\
    Forall (fun r => given_name (contact r) = EmptyString /\ family_name (contact r) = EmptyString) rows /\
    (forall c, c ∈ config_columns -> c ∈ cols') /\
    (exists more, cols' = column_names_before_config ++ more) /\
    (exists n2, Storage_Storage no_fault (mkFile (NewShape rows seq) None cols' n') =
       (Ok tt, mkFile (NewShape rows seq) None cols' n2)).
Proof.
  intros olds. apply (migration_preserves_contacts olds column_names_before_config 0); [|done].
  repeat (apply FOP_cons; [repeat (apply List.Forall_cons; [vm_compute; reflexivity|]); apply List.Forall_nil|]).
  apply FOP_nil.
Defined.

(** *** A migration that stops half way *)

(** A table left over whose rows cannot be inserted any more: every open
    throws and leaves the file in this state. *)
Definition stuck (f : dbfile) : Prop :=
  exists olds rows seq c0 cols n,
    f = mkFile (NewShape rows seq) (Some olds) (c0 :: cols) n /\ insert_select olds rows seq = None.

Lemma stuck_open f :
  stuck f -> exists e f', Storage_Storage no_fault f = (Throw e, f') /\ stuck f'.
Proof.
  intros (olds & rows & seq & c0 & cols & n & -> & Hins).
  exists (StdError "failed to migrate synced_contact data to new schema"),
    (mkFile (NewShape rows seq) (Some olds) (c0 :: cols) (12 + n)).
  split; [|by exists olds, rows, seq, c0, cols, (12 + n)%nat].
  unfold Storage_Storage.
  do 4 rewrite (bind_ok (open_call no_fault _) _ _ tt
    (mkFile (NewShape rows seq) (Some olds) (c0 :: cols) (S _))) by reflexivity.
  rewrite (bind_ok (renameOldSyncedContactTableIfNeeded no_fault) _ _ tt
    (mkFile (NewShape rows seq) (Some olds) (c0 :: cols) (8 + n))) by reflexivity.
  rewrite (bind_ok (apply_schema no_fault) _ _ tt
    (mkFile (NewShape rows seq) (Some olds) (c0 :: cols) (9 + n))) by reflexivity.
  apply bind_throw. unfold copyOldSyncedContactDataIfPresent.
  rewrite (bind_ok (tableExists_migration no_fault) _ _ true
    (mkFile (NewShape rows seq) (Some olds) (c0 :: cols) (11 + n))) by reflexivity. cbn [negb].
  apply bind_throw.
  unfold file_exec, file_call, get, modify, mbind, comp_bind. cbn -[insert_select Nat.add].
  by rewrite Hins.
Qed.

(** The file after [k] more opens. *)
Fixpoint reopen (k : nat) (f : dbfile) : dbfile :=
  match k with O => f | S k' => reopen k' (Storage_Storage no_fault f).2 end.

Lemma stuck_forever k f : stuck f -> is_ok (Storage_Storage no_fault (reopen k f)).1 = false.
Proof.
  revert f. induction k as [|k IH]; intros f Hf; simpl;
    destruct (stuck_open f Hf) as (e & f' & E & Hf'); rewrite E; [done|by apply IH].
Qed.

(** Inserting again a row that is there fails. *)
Lemma insert_select_again o olds seq :
  str_nonempty (old_e164 o) || str_nonempty (old_aci o) = true -> 1 <= seq ->
  insert_select (o :: olds) (number_rows 0 (o :: olds)) seq = None.
Proof.
  intros Hk Hs. cbn [insert_select].
  destruct (unique_with (new_row (seq + 1) o) (number_rows 0 (o :: olds))) eqn:E; [|done].
  rewrite unique_with_spec in E.
  specialize (E (new_row 1 o) (list_elem_of_here _ _) ltac:(simpl; lia)).
  unfold clash, str_eqb in E. cbn -[str_nonempty] in E.
  rewrite (bool_decide_eq_true_2 (old_account o = old_account o)) in E by done.
  rewrite (bool_decide_eq_true_2 (old_e164 o = old_e164 o)) in E by done.
  rewrite (bool_decide_eq_true_2 (old_aci o = old_aci o)) in E by done.
  rewrite !andb_true_r in E. cbn in E, Hk. by rewrite Hk in E.
Qed.

(** Calls of an open that fails at its thirteenth. *)
Section failing_at_the_drop.
Context (c0 : string) (cols : list string) (n : nat).
Local Abbreviation fault := (fun i => Nat.eqb i (13 + n)).
Local Abbreviation file t p i := (mkFile t p (c0 :: cols) (i + n)%nat).

Lemma early_call t p i : (i < 13)%nat -> file_call fault (file t p i) = (Ok true, file t p (S i)).
Proof.
  intros Hi. unfold file_call. cbn [file_calls synced_tbl old_pk_migration account_columns].
  assert (Nat.eqb (i + n) (13 + n) = false) as -> by (apply Nat.eqb_neq; lia). done.
Qed.
Lemma early_select q t p i : (S i < 13)%nat -> file_select fault q (file t p i) = (Ok (q (file t p (S (S i)))), file t p (S (S i))).
Proof.
  intros Hi. unfold file_select. rewrite (bind_ok _ _ _ _ _ (early_call t p i ltac:(lia))).
  by rewrite (bind_ok _ _ _ _ _ (early_call t p (S i) ltac:(lia))).
Qed.
Lemma early_exec w m t p i f' : (i < 13)%nat -> m (file t p (S i)) = Some f' -> file_exec fault w m (file t p i) = (Ok tt, f').
Proof.
  intros Hi Hm. unfold file_exec. rewrite (bind_ok _ _ _ _ _ (early_call t p i Hi)).
  rewrite (bind_ok get _ _ _ _ eq_refl). by rewrite Hm.
Qed.
Lemma early_open w t p i : (i < 13)%nat -> open_call fault w (file t p i) = (Ok tt, file t p (S i)).
Proof. intros Hi. unfold open_call. by rewrite (bind_ok _ _ _ _ _ (early_call t p i Hi)). Qed.

(** The copy has happened when the DROP fails. *)
Lemma drop_fails o olds rows seq : insert_select (o :: olds) [] 0 = Some (rows, seq) ->
  copyOldSyncedContactDataIfPresent fault (file (NewShape [] 0) (Some (o :: olds)) 10) =
    (Throw (StdError "failed to migrate synced_contact data to new schema"), file (NewShape rows seq) (Some (o :: olds)) 14).
Proof.
  intros Hins. unfold copyOldSyncedContactDataIfPresent, tableExists_migration.
  cbn [synced_tbl old_pk_migration account_columns file_calls as_old].
  rewrite (bind_ok _ _ _ _ _ (early_select _ _ _ 10%nat ltac:(lia))).
  cbn [negb old_pk_migration]. rewrite bool_decide_eq_true_2 by eauto. cbn [negb].
  rewrite (bind_ok _ _ _ tt (file (NewShape rows seq) (Some (o :: olds)) 13)).
  2: { apply (early_exec _ _ _ _ 12%nat); [lia|]. cbn [old_pk_migration synced_tbl]. by rewrite Hins. }
  unfold file_exec. rewrite (bind_ok _ _ _ false (file (NewShape rows seq) (Some (o :: olds)) 14)); [reflexivity|].
  unfold file_call. cbn [file_calls synced_tbl old_pk_migration account_columns]. by rewrite Nat.eqb_refl.
Qed.
End failing_at_the_drop.

(** The copy and the DROP of the migration are separate transactions of
    one sqlite3_exec.  If the DROP fails (or the process dies before it) the
    constructor throws with the rows already copied, and from then on every
    open of the file throws, with no failure at all: the INSERT meets its own
    rows.  The database can no longer be opened by the program. *)
Lemma interrupted_migration_is_permanent (o : old_row) (olds : list old_row) (c0 : string)
    (cols : list string) (n k : nat) :
  old_rows_distinct (o :: olds) ->
  str_nonempty (old_e164 o) || str_nonempty (old_aci o) = true ->
  exists e f1,
    Storage_Storage (fun i => Nat.eqb i (13 + n)) (mkFile (OldShape (o :: olds)) None (c0 :: cols) n)
      = (Throw e, f1) /\
    is_ok (Storage_Storage no_fault (reopen k f1)).1 = false.
Proof.
  intros Hd Hk.
  assert (insert_select (o :: olds) [] 0 =
    Some (number_rows 0 (o :: olds), 0 + Z.of_nat (length (o :: olds)))) as Hins.
  { apply insert_select_distinct; [|done]. by intros x r _ Hr%elem_of_nil. }
  set (rows := number_rows 0 (o :: olds)) in *. set (seq := 0 + Z.of_nat (length (o :: olds))) in *.
  exists (StdError "failed to migrate synced_contact data to new schema"),
    (mkFile (NewShape rows seq) (Some (o :: olds)) (c0 :: cols) (14 + n)).
  split.
  - unfold Storage_Storage.
    rewrite (bind_ok _ _ _ _ _ (early_open c0 cols n _ _ _ 0%nat ltac:(lia))).
    rewrite (bind_ok _ _ _ _ _ (early_open c0 cols n _ _ _ 1%nat ltac:(lia))).
    rewrite (bind_ok _ _ _ _ _ (early_open c0 cols n _ _ _ 2%nat ltac:(lia))).
    rewrite (bind_ok _ _ _ _ _ (early_open c0 cols n _ _ _ 3%nat ltac:(lia))).
    erewrite bind_ok.
    2: { unfold renameOldSyncedContactTableIfNeeded, tableExists_synced.
         rewrite (bind_ok _ _ _ _ _ (early_select c0 cols n _ _ _ 4%nat ltac:(lia))). cbn [negb synced_tbl].
         rewrite (bind_ok _ _ _ _ _ (early_select c0 cols n _ _ _ 6%nat ltac:(lia))). cbn [synced_tbl].
         apply (early_exec c0 cols n _ _ _ _ 8%nat); [lia|reflexivity]. }
    erewrite bind_ok by (apply (early_exec c0 cols n _ _ _ _ 9%nat); [lia|reflexivity]).
    apply bind_throw. by apply drop_fails.
  - apply stuck_forever. exists (o :: olds), rows, seq, c0, cols, (14 + n)%nat.
    split; [done|]. apply insert_select_again; [done|unfold seq; simpl; lia].
Qed.

Lemma interrupted_migration_is_permanent_witness :
  exists e f1,
    Storage_Storage (fun i => Nat.eqb i (13 + 0))
      (mkFile (OldShape [mkOld "a" "+1" "u" "" [] 5]) None ["account_name"] 0) = (Throw e, f1) /\
    is_ok (Storage_Storage no_fault (reopen 3 f1)).1 = false.
Proof.
  apply (interrupted_migration_is_permanent (mkOld "a" "+1" "u" "" [] 5) [] "account_name" [] 0 3).
  - apply FOP_cons; [apply List.Forall_nil|apply FOP_nil].
  - reflexivity.
Defined.
