(* ===== verification/StorageOpen.v ===== *)
(** Opening the database (src/storage/Storage.cpp): the connection handles the
    constructor of [Storage] and [listAllAccounts] make and close, around the
    schema and migration steps of Storage.v. *)

From S2P Require Import Prelude Storage.

Open Scope Z_scope.

(** The file, the data as the connection sees it, and the number of handles
    that were opened and not closed. *)
Record session := mkSession { s_file : dbfile; s_conn : conn; connections : nat }.
#[export] Instance session_file : Has dbfile session := { prj := s_file; put := fun f s => mkSession f (s_conn s) (connections s) }.
#[export] Instance session_conn : Has conn session := { prj := s_conn; put := fun c s => mkSession (s_file s) c (connections s) }.

Section Open.
Context (fault : nat -> bool).

Definition sqlite3_close : Comp session unit := modify (fun s => mkSession (s_file s) (s_conn s) (connections s - 1)).

(** A step whose failure closes the connection and throws on; [text] is what it
    throws then, when it is not the step's own message. *)
Definition guarded (text : option string) (step : Comp dbfile unit) : Comp session unit :=
  catch_std (lift step) (fun w => sqlite3_close ;; throw_std (default w text)).

(** sqlite3_open makes a handle also when it fails. *)
Definition opened (prefix : string) : Comp session unit :=
  modify (fun s => mkSession (s_file s) (s_conn s) (S (connections s))) ;;
  guarded (Some (String.append prefix "sqlite3_open failed")) (open_call fault "sqlite3_open failed") ;;
  guarded (Some (String.append prefix "PRAGMA key failed")) (open_call fault "PRAGMA key failed") ;;
  guarded (Some (String.append prefix "failed to open database (wrong key or corrupt file)"))
    (open_call fault "failed to open database (wrong key or corrupt file)") ;;
  guarded (Some (String.append prefix "PRAGMA journal_mode=WAL failed")) (open_call fault "PRAGMA journal_mode=WAL failed") ;;
  guarded None (renameOldSyncedContactTableIfNeeded fault) ;;
  guarded (Some (String.append prefix "failed to apply schema")) (apply_schema fault) ;;
  guarded None (copyOldSyncedContactDataIfPresent fault ;; migrateAccountConfigColumnsIfNeeded fault).

(** [Storage::Storage] and [~Storage] *)
Definition new_Storage : Comp session unit := opened "".
Definition delete_Storage : Comp session unit := sqlite3_close.

(** [listAllAccounts]: one short connection; nothing closes it when its
    statement cannot be prepared. *)
Definition listAllAccounts_once : Comp session (list AccountSummary) :=
  opened "listAllAccounts: " ;;
  result ← lift (listAllAccounts fault);
  sqlite3_close ;;
  mret result.
End Open.

(** ** Which connections stay *)

(** On an open connection, [m] does to the file what [f] does; when it throws,
    with a message, the connection is closed. *)
Definition tracks (m : Comp session unit) (f : Comp dbfile unit) : Prop := forall s, (0 < connections s)%nat ->
  let '(o, s') := m s in
  s_file s' = (f (s_file s)).2 /\ s_conn s' = s_conn s /\
  match (f (s_file s)).1 with
  | Ok _ => o = Ok tt /\ connections s' = connections s
  | Throw _ => (exists w, o = Throw (StdError w)) /\ connections s' = (connections s - 1)%nat
  end.

Lemma tracks_guarded text f : raises_only is_std f -> tracks (guarded text f) f.
Proof.
  intros Hstd s _. specialize (Hstd (s_file s)). unfold guarded, catch_std, lift. cbn [prj session_file].
  destruct (f (s_file s)) as [[[]|[w| |]] t]; cbn in *; try done. split_and!; [done|done|by eexists|done].
Qed.

Lemma tracks_bind m1 f1 m2 f2 : tracks m1 f1 -> tracks m2 f2 -> tracks (m1 ;; m2) (f1 ;; f2).
Proof.
  intros H1 H2 s Hs. specialize (H1 s Hs). unfold mbind, comp_bind. destruct (m1 s) as [o s1], (f1 (s_file s)) as [[[]|e] t]; cbn in H1;
    destruct H1 as (Ef & Ec & H1); [|destruct H1 as [[w ->] Hn]; cbn; split_and!; [done|done|by eexists|done]].
  destruct H1 as [-> Hn]. specialize (H2 s1 ltac:(by rewrite Hn)). rewrite Ef in H2. destruct (m2 s1) as [o s2].
  by rewrite <- Ec, <- Hn.
Qed.

Section lemmas.
Context (fault : nat -> bool).

Lemma file_call_std : raises_only is_std (file_call fault).
Proof. done. Qed.
Lemma open_call_std what : raises_only is_std (open_call fault what).
Proof. apply raises_bind; [done|intros []]; done. Qed.
Lemma file_exec_std what m : raises_only is_std (file_exec fault what m).
Proof.
  apply raises_bind; [done|intros []]; [|done]. apply raises_bind; [done|intros f]. by destruct (m f).
Qed.
Lemma file_select_std q : raises_only is_std (file_select fault q).
Proof. apply raises_bind; [done|intros []]; [|done]. apply raises_bind; [done|by intros []]. Qed.
#[local] Hint Resolve open_call_std file_exec_std file_select_std : core.

Lemma rename_std : raises_only is_std (renameOldSyncedContactTableIfNeeded fault).
Proof.
  apply raises_bind; [apply file_select_std|intros []; [|done]]. apply raises_bind; [apply file_select_std|intros []; [done|]]. apply file_exec_std.
Qed.
Lemma copy_std : raises_only is_std (copyOldSyncedContactDataIfPresent fault).
Proof.
  apply raises_bind; [apply file_select_std|intros []; [|done]]. apply raises_bind; [apply file_exec_std|intros _; apply file_exec_std].
Qed.
Lemma columns_std : raises_only is_std (migrateAccountConfigColumnsIfNeeded fault).
Proof. apply raises_for_each. intros c. apply raises_bind; [apply file_select_std|intros []; [done|apply file_exec_std]]. Qed.

Lemma opened_tracks prefix s :
  let '(o, s') := opened fault prefix s in
  s_file s' = (Storage_Storage fault (s_file s)).2 /\ s_conn s' = s_conn s /\
  match (Storage_Storage fault (s_file s)).1 with
  | Ok _ => o = Ok tt /\ connections s' = S (connections s)
  | Throw _ => (exists w, o = Throw (StdError w)) /\ connections s' = connections s
  end.
Proof.
  pose (s1 := mkSession (s_file s) (s_conn s) (S (connections s))).
  assert (exists m, opened fault prefix s = m s1 /\ tracks m (Storage_Storage fault)) as (m & -> & Hm).
  { eexists. split; [reflexivity|]. unfold Storage_Storage.
    repeat first [apply tracks_guarded; first [apply open_call_std | apply rename_std | apply file_exec_std]
                 |apply tracks_guarded, raises_bind; [apply copy_std|intros _; apply columns_std]|apply tracks_bind]. }
  specialize (Hm s1 ltac:(cbn; lia)). cbn in Hm. by rewrite Nat.sub_0_r in Hm.
Qed.

(** The constructor makes exactly one connection, or throws and leaves none;
    the destructor closes it. *)
Lemma storage_owns_connection s :
  let '(o, s') := new_Storage fault s in
  s_file s' = (Storage_Storage fault (s_file s)).2 /\ connections s' = (if is_ok o then S (connections s) else connections s) /\
  is_ok o = is_ok (Storage_Storage fault (s_file s)).1 /\
  (is_ok o = true -> connections (delete_Storage s').2 = connections s).
Proof.
  pose proof (opened_tracks "" s) as H. unfold new_Storage. destruct (opened fault "" s) as [o s'].
  destruct (Storage_Storage fault (s_file s)) as [[[]|e] t]; cbn in H; destruct H as (Hf & _ & Ho & Hn).
  - subst o. split_and!; [done|done|done|]. intros _. cbn. lia.
  - destruct Ho as [w ->]. by split_and!.
Qed.

(** [listAllAccounts] leaves no connection, except when the SELECT cannot be
    prepared: then it throws and leaves one. *)
Lemma listing_connections s :
  let '(o, s') := listAllAccounts_once fault s in
  (connections s' = connections s \/
   is_ok (Storage_Storage fault (s_file s)).1 = true /\ (listAllAccounts fault (s_conn s)).1 = o /\ is_ok o = false /\
   connections s' = S (connections s)) /\
  (forall r, o = Ok r -> connections s' = connections s /\ (listAllAccounts fault (s_conn s)).1 = Ok r).
Proof.
  pose proof (opened_tracks "listAllAccounts: " s) as H. unfold listAllAccounts_once, mbind, comp_bind.
  destruct (opened fault "listAllAccounts: " s) as [o s1].
  destruct (Storage_Storage fault (s_file s)) as [[[]|e] t]; cbn in H; destruct H as (Hf & Hc & Ho & Hn).
  - subst o. unfold lift. cbn. rewrite Hc. destruct (listAllAccounts fault (s_conn s)) as [[r|e] c]; cbn.
    + split; [left; lia|]. intros ? [= <-]. split; [lia|done].
    + split; [by right|done].
  - destruct Ho as [w ->]. split; [by left|done].
Qed.
End lemmas.

(** The one that is left open: here only the SELECT fails. *)
Example listing_leaks :
  let select_fails := fun n => bool_decide (n = 0)%nat in
  let file := mkFile (NewShape [] 0) None (column_names_before_config ++ config_columns) 1 in
  connections (listAllAccounts_once select_fails (mkSession file (mkConn empty_db None 0) 0)).2 = 1%nat.
Proof. vm_compute. reflexivity. Qed.
