(* ===== verification/ContactResolver.v ===== *)
(** Resolving the target of an outgoing call
    (src/daemon/ContactResolver.cpp, [resolveOutgoingTarget]).

    The function reads and writes the account database ([Storage]) and asks
    two services: GET /v2/directory/auth over the account's socket and the
    CDSI lookup.  Their answers are the [directory] below; the JSON of the
    auth answer is decoded by a library and is part of it. *)

From S2P Require Import Prelude Storage.

Open Scope Z_scope.

Record CdsiLookupResult := mkCdsi { cdsi_e164 : string; cdsi_aci : string; cdsi_pni : string }.

(** What the services answer during one call. *)
Record directory := mkDirectory {
  auth_response : outcome (Z * Bytes);                    (* status, body *)
  json_credentials : Bytes -> outcome (string * string);  (* json::parse, .at("username"), .at("password") *)
  cdsiLookup : string -> string -> list string -> outcome (list CdsiLookupResult);
}.

Section Resolver.
Context (fault : nat -> bool) (acct : string) (svc : directory).

Definition starts_with_plus (target : string) : bool :=
  match target with
  | EmptyString => false
  | String c _ => bool_decide (c = "+"%char)
  end.

(** The ACI when there is one, else the PNI with its prefix. *)
Definition choose (aci pni : string) (otherwise : string) : Comp conn string :=
  if str_nonempty aci then mret aci
  else if str_nonempty pni then mret (String.append "PNI:" pni)
  else throw_std otherwise.

(** From GET /v2/directory/auth to the end; [now] is the time of the save. *)
Definition resolve_online (now : Z) (target : string) : Comp conn string :=
  authResponse ← of_outcome (auth_response svc);
  if negb (bool_decide (authResponse.1 = 200))
  then throw_std (String.append "GET /v2/directory/auth -> status " (to_string authResponse.1)) else
  authToken ← of_outcome (json_credentials svc authResponse.2);
  results ← of_outcome (cdsiLookup svc authToken.1 authToken.2 [target]);
  match results with
  | [] => throw_std (String.append "CDSI lookup for " (String.append target " returned no result"))
  | result :: _ =>
    saveResolvedContact fault acct now target (cdsi_aci result) (cdsi_pni result) ;;
    choose (cdsi_aci result) (cdsi_pni result)
      (String.append target " is not on Signal (CDSI lookup found nothing)")
  end.

(** [now] is the time when the cached row is judged, [now'] when a fresh one
    is saved. *)
Definition resolve_cached_or_online (now now' : Z) (target : string) (ttlSec : Z) :
    Comp conn string :=
  cached ← loadResolvedContact fault acct target;
  match cached with
  | Some c =>
    if bool_decide (now - resolved_at c < ttlSec)
    then choose (rc_aci c) (rc_pni c)
           (String.append target " is not on Signal (cached CDSI result)")
    else resolve_online now' target
  | None => resolve_online now' target
  end.

Definition resolveOutgoingTarget (now now' : Z) (target : string) (ttlSec : Z) : Comp conn string :=
  if negb (starts_with_plus target) then mret target else
  synced ← loadSyncedContact fault acct target;
  match synced with
  | Some s => if str_nonempty (sc_aci s) then mret (sc_aci s)
              else resolve_cached_or_online now now' target ttlSec
  | None => resolve_cached_or_online now now' target ttlSec
  end.
End Resolver.

(** Services nobody can reach. *)
Definition offline : directory :=
  mkDirectory (Throw (StdError "not connected")) (fun _ => Throw (StdError "json"))
    (fun _ _ _ => Throw (StdError "cdsi")).

(** ** Lemmas *)

(** What [choose] gives, as a value. *)
Definition chosen (aci pni : string) : option string :=
  if str_nonempty aci then Some aci
  else if str_nonempty pni then Some (String.append "PNI:" pni) else None.

Lemma choose_chosen aci pni w c :
  choose aci pni w c = (match chosen aci pni with Some r => Ok r | None => Throw (StdError w) end, c).
Proof. unfold choose, chosen. by destruct (str_nonempty aci), (str_nonempty pni). Qed.

(** Where an answer may come from. *)
Definition answer (acct target : string) (d : db) (svc : directory) (r : string) : Prop :=
  (exists s, row_where acct (by_e164 target) d = Some s /\ sc_aci (contact s) = r /\
     str_nonempty r = true) \/
  (exists c, resolved_contact d !! (acct, target) = Some c /\ chosen (rc_aci c) (rc_pni c) = Some r) \/
  (exists u p x rest, cdsiLookup svc u p [target] = Ok (x :: rest) /\
     chosen (cdsi_aci x) (cdsi_pni x) = Some r).

Lemma resolve_online_sound fault acct svc now target c r c' :
  resolve_online fault acct svc now target c = (Ok r, c') ->
  saved c' = saved c /\
  exists u p x rest, cdsiLookup svc u p [target] = Ok (x :: rest) /\
    chosen (cdsi_aci x) (cdsi_pni x) = Some r /\ fk_ok acct (cdb c) = true /\
    cdb c' = set_resolved (insert (acct, target) (mkResolved (cdsi_aci x) (cdsi_pni x) now)) (cdb c).
Proof.
  unfold resolve_online. intros H.
  apply bind_inv_ok in H as ([st body] & c1 & H1 & H). injection H1 as _ <-.
  cbn [fst snd] in H. destruct (negb _); [done|].
  apply bind_inv_ok in H as ([u p] & c1 & H1 & H). injection H1 as _ <-.
  apply bind_inv_ok in H as (results & c1 & H1 & H). injection H1 as Hl <-. cbn [fst snd] in Hl.
  destruct results as [|x rest]; [done|].
  apply bind_inv_ok in H as ([] & c1 & H1 & H). rewrite choose_chosen in H.
  destruct (chosen (cdsi_aci x) (cdsi_pni x)) as [r'|] eqn:Hc; [|done]. injection H as <- <-.
  unfold saveResolvedContact in H1.
  destruct (write_cases fault "saveResolvedContact failed" (fun d => if fk_ok acct d then Some (set_resolved (insert (acct, target)
    (mkResolved (cdsi_aci x) (cdsi_pni x) now)) d) else None) c) as [n [[w E]|(d' & Hd & E)]];
    rewrite E in H1; [done|]. injection H1 as <-.
  destruct (fk_ok acct (cdb c)) eqn:Hf; [|done]. injection Hd as <-. cbn [saved cdb].
  split; [done|]. by exists u, p, x, rest.
Qed.

(** The part after the synced contact. *)
Lemma resolve_rest_sound fault acct svc now now' target ttl c r c' :
  resolve_cached_or_online fault acct svc now now' target ttl c = (Ok r, c') ->
  answer acct target (cdb c) svc r /\ saved c' = saved c /\
  (cdb c' = cdb c \/ exists x, cdb c' = set_resolved (insert (acct, target) x) (cdb c)).
Proof.
  unfold resolve_cached_or_online. intros H.
  apply bind_inv_ok in H as (cached & c1 & H1 & H). unfold loadResolvedContact in H1.
  assert (same_data c c1 /\ (cached = None \/ cached = resolved_contact (cdb c) !! (acct, target)))
    as [[Hd Hs] Hc].
  { destruct (select_cases fault (fun d => resolved_contact d !! (acct, target)) c)
      as [n [[w E]|[E|E]]]; rewrite E in H1; [done|injection H1 as <- <-|injection H1 as <- <-];
      (split; [done|eauto]). }
  assert (resolve_online fault acct svc now' target c1 = (Ok r, c') ->
    answer acct target (cdb c) svc r /\ saved c' = saved c /\
    (cdb c' = cdb c \/ exists x, cdb c' = set_resolved (insert (acct, target) x) (cdb c))) as Honline.
  { intros Ho. apply resolve_online_sound in Ho as (Hsv & u & p & x & rest & Hl & Hch & _ & Hcdb).
    rewrite Hs in Hsv. rewrite Hd in Hcdb. split; [right; right; eauto 6|eauto]. }
  destruct cached as [rc|]; [|by apply Honline].
  destruct Hc as [|Hc]; [done|]. case_bool_decide; [|by apply Honline].
  rewrite choose_chosen in H. destruct (chosen _ _) as [r'|] eqn:E; [|done]. injection H as <- <-.
  split; [right; left; eauto|eauto].
Qed.

(** C39: Whatever SQLite calls fail and whatever the services answer: a target
    without a leading '+' is returned as it is; for a number, the answer is a
    non-empty ACI of the account's synced contact with that number, or the
    ACI / "PNI:"-prefixed PNI of the cached row, or of what CDSI returned for
    this number; and nothing in the database changes but this account's
    cached row for this number. *)
Theorem resolve_sound (fault : nat -> bool) (acct : string) (svc : directory) (now now' : Z)
    (target : string) (ttl : Z) (c c' : conn) (r : string) :
  resolveOutgoingTarget fault acct svc now now' target ttl c = (Ok r, c') ->
  (if starts_with_plus target then answer acct target (cdb c) svc r else r = target) /\
  (cdb c' = cdb c \/ exists x, cdb c' = set_resolved (insert (acct, target) x) (cdb c)).
Proof.
  unfold resolveOutgoingTarget. destruct (starts_with_plus target); cbn [negb].
  2: { intros [= <- <-]. auto. }
  intros H. apply bind_inv_ok in H as (synced & c1 & H1 & H).
  unfold loadSyncedContact in H1. apply bind_inv_ok in H1 as (row & c0 & H1 & Hr).
  injection Hr as <- <-.
  assert (same_data c c0 /\ (row = None \/ row = row_where acct (by_e164 target) (cdb c)))
    as [[Hd Hs] Hc].
  { destruct (select_cases fault (row_where acct (by_e164 target)) c) as [n [[w E]|[E|E]]];
      rewrite E in H1; [done|injection H1 as <- <-|injection H1 as <- <-]; (split; [done|eauto]). }
  destruct row as [row|]; cbn [fmap option_fmap option_map] in H.
  - destruct (str_nonempty (sc_aci (contact row))) eqn:Ha.
    + injection H as <- <-. destruct Hc as [|Hc]; [done|]. split; [left; eauto|eauto].
    + apply resolve_rest_sound in H as (Han & _ & Hcd). rewrite Hd in Han, Hcd. eauto.
  - apply resolve_rest_sound in H as (Han & _ & Hcd). rewrite Hd in Han, Hcd. eauto.
Qed.

(** One account, an answering directory that knows only a PNI. *)
Definition pni_directory : directory :=
  mkDirectory (Ok (200, [])) (fun _ => Ok ("u"%string, "p"%string))
    (fun _ _ ts => match ts with t :: _ => Ok [mkCdsi t "" "77"] | [] => Ok [] end).

Lemma resolve_sound_witness :
  exists c', resolveOutgoingTarget no_fault "a" pni_directory 0 0 "+1" 60 two_accounts
    = (Ok "PNI:77"%string, c') /\
  (if starts_with_plus "+1" then answer "a" "+1" (cdb two_accounts) pni_directory "PNI:77"
   else "PNI:77"%string = "+1"%string) /\
  (cdb c' = cdb two_accounts \/
   exists x, cdb c' = set_resolved (insert ("a", "+1")%string x) (cdb two_accounts)).
Proof.
  eexists. split; [reflexivity|].
  eapply (resolve_sound no_fault "a" pni_directory 0 0 "+1" 60 two_accounts). reflexivity.
Defined.

(** A number resolved online is answered again from the cache without any
    service, with the same answer (also when the answer was "not on Signal"),
    until it is [ttlSec] seconds old, as long as no synced contact of the
    account has the number. *)
Lemma resolve_cached_repeat (acct : string) (svc : directory) (now t0 t1 : Z) (target : string)
    (ttl : Z) (c : conn) (x : CdsiLookupResult) (rest : list CdsiLookupResult) (u p : string)
    (body : Bytes) :
  starts_with_plus target = true ->
  row_where acct (by_e164 target) (cdb c) = None ->
  resolved_contact (cdb c) !! (acct, target) = None ->
  fk_ok acct (cdb c) = true ->
  auth_response svc = Ok (200, body) -> json_credentials svc body = Ok (u, p) ->
  cdsiLookup svc u p [target] = Ok (x :: rest) ->
  exists c1 c2 o1 o2,
    resolveOutgoingTarget no_fault acct svc now t0 target ttl c = (o1, c1) /\
    resolveOutgoingTarget no_fault acct offline t1 t1 target ttl c1 = (o2, c2) /\
    match chosen (cdsi_aci x) (cdsi_pni x) with
    | Some r => o1 = Ok r
    | None => is_ok o1 = false
    end /\
    (t1 - t0 < ttl -> match chosen (cdsi_aci x) (cdsi_pni x) with
                      | Some r => o2 = Ok r
                      | None => is_ok o2 = false
                      end /\ cdb c2 = cdb c1) /\
    (ttl <= t1 - t0 -> o2 = Throw (StdError "not connected")).
Proof.
  intros Hplus Hrow Hcache Hfk Hauth Hjson Hcdsi. destruct c as [d sv n]. cbn [cdb] in *.
  set (d1 := set_resolved (insert (acct, target) (mkResolved (cdsi_aci x) (cdsi_pni x) t0)) d).
  assert (forall now' m, exists o m', resolveOutgoingTarget no_fault acct offline now' now' target ttl
      (mkConn d1 sv m) = (o, mkConn d1 sv m') /\
    (now' - t0 < ttl -> match chosen (cdsi_aci x) (cdsi_pni x) with
                        | Some r => o = Ok r | None => is_ok o = false end) /\
    (ttl <= now' - t0 -> o = Throw (StdError "not connected"))) as Hagain.
  { intros now' m. unfold resolveOutgoingTarget. rewrite Hplus. cbn [negb].
    unfold loadSyncedContact, resolve_cached_or_online, loadResolvedContact.
    rewrite (bind_ok _ _ _ None (mkConn d1 sv (S (S m)))).
    2: { erewrite bind_ok by apply select_ok. cbn [cdb]. change (row_where acct (by_e164 target) d1)
           with (row_where acct (by_e164 target) d). by rewrite Hrow. }
    erewrite bind_ok by apply select_ok. unfold d1 at 1. cbn [cdb resolved_contact set_resolved saved calls].
    rewrite lookup_insert_eq. cbn [resolved_at rc_aci rc_pni]. case_bool_decide as Ht.
    - rewrite choose_chosen. do 2 eexists. split; [reflexivity|]. split; [|lia].
      intros _. by destruct (chosen _ _).
    - unfold resolve_online. erewrite bind_throw by reflexivity. do 2 eexists.
      split; [reflexivity|]. split; [lia|done]. }
  assert (exists o m, resolveOutgoingTarget no_fault acct svc now t0 target ttl (mkConn d sv n) =
    (o, mkConn d1 sv m) /\ match chosen (cdsi_aci x) (cdsi_pni x) with
                           | Some r => o = Ok r | None => is_ok o = false end) as (o1 & m1 & E1 & Ho1).
  { unfold resolveOutgoingTarget. rewrite Hplus. cbn [negb]. unfold loadSyncedContact, resolve_cached_or_online, loadResolvedContact.
    rewrite (bind_ok _ _ _ None (mkConn d sv (S (S n)))).
    2: { erewrite bind_ok by apply select_ok. cbn [cdb]. by rewrite Hrow. }
    erewrite bind_ok by apply select_ok. cbn [cdb saved calls]. rewrite Hcache.
    unfold resolve_online. rewrite Hauth. erewrite bind_ok by reflexivity. cbn [fst snd].
    rewrite bool_decide_eq_true_2 by done. cbn [negb]. rewrite Hjson. erewrite bind_ok by reflexivity.
    cbn [fst snd]. rewrite Hcdsi. erewrite bind_ok by reflexivity.
    cbv iota beta. erewrite bind_ok by (apply write_ok; cbn [cdb]; by rewrite Hfk).
    rewrite choose_chosen. do 2 eexists. split; [reflexivity|]. by destruct (chosen _ _). }
  destruct (Hagain t1 m1) as (o2 & m2 & E2 & Hfresh & Hstale).
  exists (mkConn d1 sv m1), (mkConn d1 sv m2), o1, o2. split; [done|]. split; [done|].
  split; [done|]. split; [|done]. intros Ht. split; [by apply Hfresh|done].
Qed.

Lemma resolve_cached_repeat_witness :
  exists c1 c2 o1 o2,
    resolveOutgoingTarget no_fault "a" pni_directory 5 7 "+1" 60 two_accounts = (o1, c1) /\
    resolveOutgoingTarget no_fault "a" offline 66 66 "+1" 60 c1 = (o2, c2) /\
    match chosen "" "77" with Some r => o1 = Ok r | None => is_ok o1 = false end /\
    (66 - 7 < 60 -> match chosen "" "77" with Some r => o2 = Ok r | None => is_ok o2 = false end /\
                    cdb c2 = cdb c1) /\
    (60 <= 66 - 7 -> o2 = Throw (StdError "not connected")).
Proof.
  apply (resolve_cached_repeat "a" pni_directory 5 7 66 "+1" 60 two_accounts (mkCdsi "+1" "" "77") []
    "u" "p" []); reflexivity.
Defined.
