(* ===== verification/Cdsi.v ===== *)
(** Looking up phone numbers in Signal's contact discovery service
    (src/signal/Cdsi.cpp).

    The lookup itself is libsignal's; here are the objects it is made of and
    what becomes of them, and the results as the source builds them.
    ContactResolver's directory service is this lookup. *)

From S2P Require Import Prelude Uuid Handles ContactResolver.

Open Scope Z_scope.

Inductive object :=
| Runtime | RemoteConfig | Manager
| Request (e164s : list string) | Lookup (e164s : list string)
| EntryList.

Record entry := mkEntry { entry_e164 : Z; rawAciUuid : Bytes; rawPniUuid : Bytes }.

(** What the two asynchronous calls complete with: whether there is a handle,
    and the response if there is one. *)
Record cdsi_service := mkCdsiService {
  cdsi_lookup_new : string -> string -> list string -> outcome bool;
  cdsi_lookup_complete : option (list string) -> outcome (option (list entry));
}.

(** The all-zero id means that there is none. *)
Definition formatUuidOrEmpty (bytes : Bytes) : string :=
  if forallb (fun b => bool_decide (b = 0)) bytes then EmptyString else uuid_text bytes.

Definition result_of (e : entry) : CdsiLookupResult :=
  mkCdsi (String "+" (to_string (entry_e164 e))) (formatUuidOrEmpty (rawAciUuid e)) (formatUuidOrEmpty (rawPniUuid e)).

Section Cdsi.
Context (ffi_fault : nat -> bool) (svc : cdsi_service).

Definition numbers_of (h : nat) : Comp (heap object) (list string) :=
  gets (fun s => match objects s !! h with Some (Request l) | Some (Lookup l) => l | _ => [] end).

(** signal_lookup_request_add_e164 *)
Definition add_e164 (request : nat) (e164 : string) : Comp (heap object) unit :=
  checked ffi_fault "signal_lookup_request_add_e164" ;;
  l ← numbers_of request;
  modify (fun s => mkHeap (<[request := Request (l ++ [e164])]> (objects s)) (next_object s) (ffi_made s)).

Definition awaitLookupHandle (username password : string) (request : nat) : Comp (heap object) (option nat) :=
  l ← numbers_of request;
  there ← awaited ffi_fault "signal_cdsi_lookup_new" (cdsi_lookup_new svc username password l);
  if (there : bool) then h ← insert_object (Lookup l); mret (Some h) else mret None.

Definition awaitLookupResponse (lookup : option nat) : Comp (heap object) (list CdsiLookupResult) :=
  l ← (match lookup with Some h => l ← numbers_of h; mret (Some l) | None => mret None end);
  response ← awaited ffi_fault "signal_cdsi_lookup_complete" (cdsi_lookup_complete svc l);
  match response with
  | Some entries =>
    list_ ← insert_object EntryList;
    delete_object list_ ;;
    mret (map result_of entries)
  | None => mret []
  end.

Definition cdsiLookup (username password : string) (e164s : list string) :
    Comp (heap object) (list CdsiLookupResult) :=
  runtime ← acquire ffi_fault "signal_tokio_async_context_new" Runtime;
  remoteConfig ← acquire ffi_fault "signal_bridged_string_map_new" RemoteConfig;
  manager ← acquire ffi_fault "signal_connection_manager_new" Manager;
  release ffi_fault "signal_bridged_string_map_destroy" remoteConfig ;;
  request ← acquire ffi_fault "signal_lookup_request_new" (Request []);
  for_each (add_e164 request) e164s ;;
  lookup ← awaitLookupHandle username password request;
  release ffi_fault "signal_lookup_request_destroy" request ;;
  results ← awaitLookupResponse lookup;
  (match lookup with
   | Some h => release ffi_fault "signal_cdsi_lookup_destroy" h
   | None => checked ffi_fault "signal_cdsi_lookup_destroy"
   end) ;;
  release ffi_fault "signal_connection_manager_destroy" manager ;;
  release ffi_fault "signal_tokio_async_context_destroy" runtime ;;
  mret results.
End Cdsi.

(** ContactResolver's directory, with the lookup made by a process that holds
    no other objects. *)
Definition directory_of (auth : outcome (Z * Bytes)) (credentials : Bytes -> outcome (string * string))
    (svc : cdsi_service) : directory :=
  mkDirectory auth credentials (fun u p l => (cdsiLookup never_fails svc u p l (mkHeap ∅ 0 0)).1).

(** ** Lemmas *)

Lemma add_one r l e m n k :
  m !! r = Some (Request l) ->
  add_e164 never_fails r e (mkHeap m n k) = (Ok tt, mkHeap (<[r := Request (l ++ [e])]> m) n (S k)).
Proof.
  intros Hr. unfold add_e164, numbers_of, checked, gets, modify, mbind, comp_bind, never_fails.
  cbn [objects next_object ffi_made]. by rewrite Hr.
Qed.

Lemma add_all r l e164s m n k :
  m !! r = Some (Request l) ->
  exists k', for_each (add_e164 never_fails r) e164s (mkHeap m n k) =
    (Ok tt, mkHeap (<[r := Request (l ++ e164s)]> m) n k').
Proof.
  revert l m k. induction e164s as [|e e164s IH]; intros l m k Hr.
  - exists k. cbn. by rewrite app_nil_r, insert_id.
  - cbn [for_each]. rewrite (bind_ok _ _ _ _ _ (add_one _ _ _ _ _ _ Hr)).
    destruct (IH (l ++ [e]) (<[r := Request (l ++ [e])]> m) (S k)) as [k' E]; [by rewrite lookup_insert_eq|].
    exists k'. rewrite E, insert_insert_eq. by rewrite <- app_assoc.
Qed.

(** The text of an id gives the id back, and is empty only for no id. *)
Lemma formatted_id bytes :
  Forall (fun b => 0 <= b < 256) bytes -> length bytes = 16%nat ->
  (formatUuidOrEmpty bytes = EmptyString <-> bytes = repeat 0 16) /\
  (bytes <> repeat 0 16 -> unhex (formatUuidOrEmpty bytes) = Some bytes).
Proof.
  intros Hb Hlen. unfold formatUuidOrEmpty.
  assert (forallb (fun b => bool_decide (b = 0)) bytes = true <-> bytes = repeat 0 16) as H.
  { rewrite forallb_forall. split.
    - intros H. rewrite <- Hlen. clear Hb Hlen. induction bytes as [|b bytes IH]; [done|]. cbn. f_equal.
      + apply (bool_decide_eq_true_1 (b = 0)), H. by left.
      + apply IH. intros x Hx. apply H. by right.
    - intros -> x Hx%repeat_spec. by apply bool_decide_eq_true_2. }
  destruct (forallb _ bytes); split.
  - split; [intros _; by apply H|done].
  - intros Hn. by destruct Hn; apply H.
  - split; [intros E; by destruct (uuid_text_nonempty _ Hlen)|intros E; by apply H in E].
  - intros _. by apply unhex_uuid_text.
Qed.

Lemma handle_eq svc u p r l m n k :
  m !! r = Some (Request l) ->
  awaitLookupHandle never_fails svc u p r (mkHeap m n k) =
  match cdsi_lookup_new svc u p l with
  | Ok there =>
    (Ok (if there then Some n else None),
     mkHeap (if there then <[n := Lookup l]> m else m) (if there then S n else n) (S k))
  | Throw e => (Throw e, mkHeap m n (S k))
  end.
Proof.
  intros Hr. unfold awaitLookupHandle, numbers_of, gets. unfold mbind at 1, comp_bind at 1.
  cbn [objects]. rewrite Hr. unfold mbind at 1, comp_bind at 1. rewrite awaited_ok.
  by destruct (cdsi_lookup_new svc u p l) as [[]|].
Qed.

Lemma response_eq svc lookup l m n k :
  m !! n = None ->
  match lookup with Some h => exists e164s, l = Some e164s /\ m !! h = Some (Lookup e164s) | None => l = None end ->
  exists n' k', awaitLookupResponse never_fails svc lookup (mkHeap m n k) =
    (r ← cdsi_lookup_complete svc l; mret (map result_of (default [] r)), mkHeap m n' k').
Proof.
  intros Hn Hl. unfold awaitLookupResponse, numbers_of, gets. erewrite bind_ok.
  2: { instantiate (2 := l). destruct lookup as [h|]; [|by subst l]. destruct Hl as (e164s & -> & Hh).
       unfold mbind, comp_bind. cbn [objects]. by rewrite Hh. }
  cbv beta. unfold mbind at 1, comp_bind at 1. rewrite awaited_ok.
  destruct (cdsi_lookup_complete svc l) as [[entries|]|e]; [|by eexists _, _..].
  exists (S n), (S k). unfold insert_object, delete_object, modify, mbind, comp_bind. cbn [objects next_object ffi_made].
  by rewrite delete_insert_id.
Qed.

(** What is left when the handshake or the lookup fails. *)
Definition left_by_failed_lookup (n : nat) (last : gmap nat object -> gmap nat object) (m : gmap nat object) :=
  last (<[(2 + n)%nat := Manager]> (<[n := Runtime]> m)).

(** A CDSI lookup gives one result per entry of the response, in order,
    and frees every object it made; when the connection or the lookup fails
    (a rate limit, a network error) it throws that error and leaves its Tokio
    runtime, its connection manager and the request or lookup behind. *)
Lemma cdsi_lookup_outcomes svc username password e164s s (Hfresh : fresh_heap s) :
  let n := next_object s in
  let '(r, s') := cdsiLookup never_fails svc username password e164s s in
  match cdsi_lookup_new svc username password e164s with
  | Throw e =>
    r = Throw e /\ objects s' = left_by_failed_lookup n (insert (3 + n)%nat (Request e164s)) (objects s)
  | Ok there =>
    match cdsi_lookup_complete svc (if there then Some e164s else None) with
    | Throw e =>
      r = Throw e /\ objects s' =
        left_by_failed_lookup n (fun m => if there then <[(4 + n)%nat := Lookup e164s]> m else m) (objects s)
    | Ok response => r = Ok (map result_of (default [] response)) /\ objects s' = objects s
    end
  end.
Proof.
  destruct s as [m n k]. unfold fresh_heap in Hfresh. cbn in Hfresh. cbn [next_object objects].
  unfold cdsiLookup, left_by_failed_lookup. do 5 heap_step.
  set (base := <[(2 + n)%nat := Manager]> (<[n := Runtime]> m)).
  replace (delete (S n) _) with base by (unfold base; same_objects Hfresh).
  destruct (add_all (S (S (S n))) [] e164s (<[S (S (S n)) := Request []]> base) (4 + n) (5 + k))
    as [k1 E]; [by rewrite lookup_insert_eq|].
  rewrite (bind_ok _ _ _ _ _ E). cbv beta. rewrite insert_insert_eq, app_nil_l. clear E.
  unfold mbind at 1, comp_bind at 1.
  rewrite (handle_eq _ _ _ _ e164s) by (by rewrite lookup_insert_eq).
  destruct (cdsi_lookup_new svc username password e164s) as [there|e]; [|done].
  assert (base !! (3 + n)%nat = None /\ base !! (4 + n)%nat = None) as [H3 H4]
    by (unfold base; split; rewrite !lookup_insert_ne by lia; apply Hfresh; lia).
  assert (delete (S n) m = m) as Hd by (apply delete_id, Hfresh; lia).
  set (m1 := if there then <[(4 + n)%nat := Lookup e164s]> base else base).
  replace (if there then _ else _) with (<[S (S (S n)) := Request e164s]> m1)
    by (unfold m1; destruct there; [by rewrite insert_insert_ne by lia|done]).
  heap_step. rewrite delete_insert_id by (unfold m1; destruct there; [by rewrite lookup_insert_ne by lia|done]).
  destruct (response_eq svc (if there then Some (4 + n)%nat else None) (if there then Some e164s else None) m1
    (if there then S (4 + n) else (4 + n)%nat) (S (S k1))) as (n' & k' & E).
  { unfold m1, base. destruct there; rewrite !lookup_insert_ne by lia; apply Hfresh; lia. }
  { unfold m1. destruct there; [|done]. eexists. by rewrite lookup_insert_eq. }
  unfold mbind at 1, comp_bind at 1. rewrite E.
  destruct (cdsi_lookup_complete svc _) as [response|e]; cbn [mbind outcome_bind mret outcome_ret].
  2: { split; [done|]. unfold m1. by destruct there. }
  destruct there; do 3 heap_step; (split; [done|]); cbn [objects]; unfold m1, base; same_objects Hfresh.
Qed.

(** ** Example *)

(** A service that knows one number, and is rate limited for "busy". *)
Definition toy_cdsi : cdsi_service := mkCdsiService
  (fun u _ _ => if str_eqb u "busy" then Throw (StdError "rate limited") else Ok true)
  (fun l => match l with
            | Some ["+491"] => Ok (Some [mkEntry 491 (repeat 0 16) (repeat 16 16)])
            | _ => Ok None
            end).

Lemma cdsi_lookup_outcomes_witness :
  (let '(r, s') := cdsiLookup never_fails toy_cdsi "u" "p" ["+491"] (mkHeap ∅ 0 0) in
   r = Ok [mkCdsi "+491" "" "10101010-1010-1010-1010-101010101010"] /\ objects s' = ∅) /\
  (let '(r, s') := cdsiLookup never_fails toy_cdsi "busy" "p" ["+491"] (mkHeap ∅ 0 0) in
   r = Throw (StdError "rate limited") /\
   objects s' = <[3%nat := Request ["+491"]]> (<[2%nat := Manager]> (<[0%nat := Runtime]> ∅))).
Proof.
  assert (fresh_heap (mkHeap (∅ : gmap nat object) 0 0)) as H by (intros h _; reflexivity).
  split.
  - exact (cdsi_lookup_outcomes toy_cdsi "u" "p" ["+491"] (mkHeap ∅ 0 0) H).
  - exact (cdsi_lookup_outcomes toy_cdsi "busy" "p" ["+491"] (mkHeap ∅ 0 0) H).
Defined.
