(* ===== verification/Config.v ===== *)
(** The daemon's configuration (src/daemon/Config.cpp, src/daemon/Config.h):
    the [global] section of the INI file, and one [AccountConfig] per enabled
    account row of the database. *)

From S2P Require Import Prelude Storage.
From stdpp Require Import sorting.

Open Scope Z_scope.

(** ** The INI file *)

(** [" \t\r\n"] *)
Definition is_blank (c : ascii) : bool :=
  let n := nat_of_ascii c in
  bool_decide (n = 32)%nat || bool_decide (n = 9)%nat || bool_decide (n = 13)%nat ||
  bool_decide (n = 10)%nat.

Fixpoint trim_left (s : string) : string :=
  match s with
  | EmptyString => EmptyString
  | String c s' => if is_blank c then trim_left s' else s
  end.

Fixpoint trim_right (s : string) : string :=
  match s with
  | EmptyString => EmptyString
  | String c s' =>
    match trim_right s' with
    | EmptyString => if is_blank c then EmptyString else String c EmptyString
    | t => String c t
    end
  end.

Definition trim (s : string) : string := trim_right (trim_left s).

Definition IniMap := gmap string (gmap string string).

Fixpoint last_char (s : string) : option ascii :=
  match s with
  | EmptyString => None
  | String c EmptyString => Some c
  | String _ s' => last_char s'
  end.
Definition first_char (s : string) : option ascii :=
  match s with EmptyString => None | String c _ => Some c end.

(** [trimmed.substr(1, trimmed.size() - 2)] *)
Definition inner (s : string) : string := String.substring 1 (String.length s - 2) s.

(** One line: the section it leaves current, and the map. *)
Definition parse_line (st : string * IniMap) (line : string) : string * IniMap :=
  let '(section, result) := st in
  let trimmed := trim line in
  match first_char trimmed with
  | None => st
  | Some c =>
    if bool_decide (c = ";"%char) || bool_decide (c = "#"%char) then st
    else if bool_decide (c = "["%char) && bool_decide (last_char trimmed = Some "]"%char)
    then (inner trimmed, result)
    else match split_first "="%char trimmed with
         | None => st
         | Some (k, v) =>
           (section, <[section := <[trim k := trim v]> (default ∅ (result !! section))]> result)
         end
  end.

(** [file] is [None] when the file cannot be opened, else its lines. *)
Definition parseIni (file : option (list string)) : outcome IniMap :=
  match file with
  | None => Throw (StdError "cannot open config file")
  | Some lines => Ok (foldl parse_line (EmptyString, ∅) lines).2
  end.

Definition getOr (ini : IniMap) (section key fallback : string) : string :=
  match ini !! section with
  | None => fallback
  | Some sec =>
    match sec !! key with
    | None => fallback
    | Some v => if str_empty v then fallback else v
    end
  end.

(** ** Accounts *)

Record AccountConfig := mkAccountConfig {
  name : string; configVersion : Z; cfg_e164 : string; serverUrl : string;
  sipHost : string; sipExtension : string; sipPassword : string;
  sipBridgeDestination : string; sipBridgeDid : string; sipSrtp : string;
  sipTransport : string; sipTlsCaFile : string; sipTlsInsecure : bool;
  outgoingCallTarget : string; signalProxy : string; signalCensorshipCircumvention : bool;
}.

Definition hasSip (a : AccountConfig) : bool := str_nonempty (sipHost a).

Definition one_of (s : string) (l : list string) : bool := bool_decide (s ∈ l).

Definition accountConfigFromRecord (nm : string) (r : AccountRecord) : outcome AccountConfig :=
  if str_empty (e164 r) then Throw (StdError "e164 is empty") else
  let srtp := if str_empty (sip_srtp r) then "disabled"%string else sip_srtp r in
  if negb (one_of srtp ["disabled"; "optional"; "mandatory"])
  then Throw (StdError "sip_srtp must be disabled/optional/mandatory") else
  let transport := if str_empty (sip_transport r) then "udp"%string else sip_transport r in
  if negb (one_of transport ["udp"; "tls"])
  then Throw (StdError "sip_transport must be udp/tls") else
  let host :=
    if str_eqb transport "tls" && str_nonempty (sip_host r) && negb (str_mem ":"%char (sip_host r))
    then String.append (sip_host r) ":5061" else sip_host r in
  if str_eqb transport "tls" && str_empty (sip_tls_ca_file r) && negb (sip_tls_insecure r)
  then Throw (StdError "sip_transport=tls needs either sip_tls_ca_file or sip_tls_insecure=yes") else
  Ok (mkAccountConfig nm (config_version r) (e164 r) (server_url r) host (sip_extension r)
        (sip_password r) (sip_bridge_destination r) (sip_bridge_did r) srtp transport
        (sip_tls_ca_file r) (sip_tls_insecure r) (outgoing_call_target r) (signal_proxy r)
        (signal_censorship_circumvention r)).

(** ** Paths *)

(** [exists] is [fileExists]; [argv1] is [argv[1]] when [argc > 1]. *)
Definition resolveConfigPath (fileExists : string -> bool) (argv1 : option string) : string :=
  match argv1 with
  | Some (String c s) => String c s
  | _ => if fileExists "/etc/signal2sip/signal2sip.conf"%string
         then "/etc/signal2sip/signal2sip.conf" else "./signal2sip.conf"
  end.
Definition resolveCaCertPath (fileExists : string -> bool) : string :=
  if fileExists "/etc/signal2sip/certs/signal-root-ca.pem"%string
  then "/etc/signal2sip/certs/signal-root-ca.pem" else "./certs/signal-root-ca.pem".

(** ** DaemonConfig::load *)

Record GlobalConfig := mkGlobal {
  dbPath : string; dbKey : string;
  sipRegWatchdogSec : Z; resolvedContactTtlSec : Z; storageSyncIntervalSec : Z;
  configPollIntervalSec : Z;
}.
Record DaemonConfig := mkDaemon { global : GlobalConfig; accounts : list AccountConfig }.

(** [static_cast<unsigned>(std::stoul(getOr(...)))] *)
Definition interval (ini : IniMap) (key fallback : string) : outcome Z :=
  v ← stoul (getOr ini "global" key fallback); mret (u32 v).

Definition load_global (ini : IniMap) : outcome GlobalConfig :=
  let path := getOr ini "global" "db_path" "" in
  if str_empty path then Throw (StdError "[global] db_path is required") else
  let key := getOr ini "global" "db_key" "" in
  if str_empty key then Throw (StdError "[global] db_key is required") else
  reg ← interval ini "sip_reg_watchdog_sec" "60";
  ttl ← interval ini "resolved_contact_ttl_sec" "86400";
  sync ← interval ini "storage_sync_interval_sec" "43200";
  poll ← interval ini "config_poll_interval_sec" "30";
  mret (mkGlobal path key reg ttl sync poll).

Section Load.
(** The database file as the load finds it: its tables, which opens succeed,
    and which SQLite calls of each connection fail. *)
Context (d : db) (open_list : bool) (list_fault : nat -> bool).
Context (open_account : string -> bool) (account_fault : string -> nat -> bool).

Definition connection : conn := mkConn d None 0.

Definition enumerate : outcome (list AccountSummary) :=
  if open_list then (listAllAccounts list_fault connection).1
  else Throw (StdError "listAllAccounts: failed to open database").

(** The body of the try block. *)
Definition load_account (nm : string) : outcome AccountConfig :=
  if open_account nm then
    r ← (loadAccount (account_fault nm) nm connection).1;
    accountConfigFromRecord nm r
  else Throw (StdError "failed to open database").

(** The loop, with its [catch (const std::exception&)]. *)
Fixpoint load_accounts (summaries : list AccountSummary) : outcome (list AccountConfig) :=
  match summaries with
  | [] => Ok []
  | s :: rest =>
    if negb (sum_enabled s) then load_accounts rest
    else match load_account (sum_account_name s) with
         | Ok a => l ← load_accounts rest; mret (a :: l)
         | Throw (StdError _) => load_accounts rest
         | Throw e => Throw e
         end
  end.

Definition load (file : option (list string)) : outcome DaemonConfig :=
  ini ← parseIni file;
  g ← load_global ini;
  summaries ← enumerate;
  l ← load_accounts summaries;
  mret (mkDaemon g l).
End Load.

(** [loadGlobalConfigLenient]: the two fields, [None] for a missing file. *)
Definition loadGlobalConfigLenient (file : option (list string)) : string * string :=
  match file with
  | None => (EmptyString, EmptyString)
  | Some lines =>
    let ini := (foldl parse_line (EmptyString, ∅) lines).2 in
    (getOr ini "global" "db_path" "", getOr ini "global" "db_key" "")
  end.

(** ** What a loaded account satisfies *)

Definition valid_account (a : AccountConfig) : Prop :=
  cfg_e164 a <> EmptyString /\
  sipSrtp a ∈ ["disabled"; "optional"; "mandatory"] /\ sipTransport a ∈ ["udp"; "tls"] /\
  (sipTransport a = "tls"%string ->
     (sipTlsCaFile a <> EmptyString \/ sipTlsInsecure a = true) /\
     (hasSip a = true -> str_mem ":"%char (sipHost a) = true)).

Lemma account_config_valid nm r a :
  accountConfigFromRecord nm r = Ok a -> valid_account a /\ name a = nm.
Proof.
  unfold accountConfigFromRecord. destruct (str_empty (e164 r)) eqn:He; [done|].
  set (srtp := if str_empty (sip_srtp r) then _ else _).
  destruct (one_of srtp _) eqn:Hs; [cbn [negb]|done].
  set (tr := if str_empty (sip_transport r) then _ else _).
  destruct (one_of tr _) eqn:Ht; [cbn [negb]|done].
  destruct (str_eqb tr "tls" && str_empty (sip_tls_ca_file r) && negb (sip_tls_insecure r)) eqn:Htls;
    [done|]. intros [= <-]. split; [|done]. unfold valid_account. cbn.
  unfold one_of in *. bdec. split; [by destruct (e164 r)|]. split; [done|]. split; [done|].
  intros Heq. unfold str_eqb in Htls |- *. rewrite bool_decide_eq_true_2 in Htls |- * by done.
  cbn [andb] in *. split.
  - apply andb_false_iff in Htls as [Hca|Hins]; [left; by destruct (sip_tls_ca_file r)|right].
    by apply negb_false_iff in Hins.
  - unfold hasSip. cbn [sipHost].
    destruct (str_nonempty (sip_host r)) eqn:Hh, (str_mem ":"%char (sip_host r)) eqn:Hm;
      cbn [negb andb]; intros Hx; try congruence.
    rewrite str_mem_app, Hm. reflexivity.
Qed.

(** ** The load only throws std::exceptions *)

Lemma step_rows_std {A} fault (rows : list A) c : std_outcome (step_rows fault rows c).1.
Proof.
  revert c. induction rows as [|r rows IH]; intros [d s k]; [done|].
  cbn [step_rows]. unfold mbind, comp_bind, sql_call. cbn -[step_rows].
  destruct (fault k); cbn -[step_rows]; [done|]. specialize (IH (mkConn d s (S k))).
  by destruct (step_rows fault rows _) as [[|[]] ?].
Qed.

Lemma listAllAccounts_std fault c : std_outcome (listAllAccounts fault c).1.
Proof.
  destruct c as [d s k]. unfold listAllAccounts, select_all, prepare, sql_call, mbind, comp_bind. cbn -[step_rows].
  destruct (fault k); [done|]. cbn -[step_rows]. apply step_rows_std.
Qed.

Lemma interval_std ini key fallback : std_outcome (interval ini key fallback).
Proof.
  unfold interval, stoul. destruct (sign_of _) as [neg body], (digits false 0 body) as [seen v].
  destruct seen; [|done]. cbn [negb]. by destruct (bool_decide _).
Qed.

Lemma load_global_std ini : std_outcome (load_global ini).
Proof.
  unfold load_global. do 2 (destruct (str_empty _); [done|]).
  repeat match goal with |- context [interval ?i ?k ?v] =>
    let H := fresh in pose proof (interval_std i k v) as H; destruct (interval i k v) as [|[]]; cbn; try done; clear H end.
Qed.

(** ** The loop keeps what it can *)

Section load_lemmas.
Context (d : db) (open_account : string -> bool) (account_fault : string -> nat -> bool).
Local Abbreviation one := (load_account d open_account account_fault).

Definition kept_account (s : AccountSummary) : option AccountConfig :=
  if sum_enabled s then match one (sum_account_name s) with Ok a => Some a | Throw _ => None end
  else None.

Lemma select_throws_std {A} fault (q : db -> option A) c e c' :
  select fault q c = (Throw e, c') -> exists w, e = StdError w.
Proof.
  intros H. destruct (select_cases fault q c) as [n [[w E]|[E|E]]]; rewrite E in H; [|done..].
  injection H as <- _. eauto.
Qed.

Lemma load_account_throws_std nm e : one nm = Throw e -> exists w, e = StdError w.
Proof.
  unfold load_account. destruct (open_account nm); [|intros [= <-]; eauto].
  unfold loadAccount. unfold mbind at 2, comp_bind.
  destruct (select _ _ _) as [[[r|]|e'] c'] eqn:E; cbn.
  - unfold accountConfigFromRecord. repeat case_match; intros Hx; try done; injection Hx as <-; eauto.
  - intros [= <-]. eauto.
  - intros [= <-]. by eapply select_throws_std.
Qed.

Lemma load_accounts_eq summaries :
  load_accounts d open_account account_fault summaries = Ok (omap kept_account summaries).
Proof.
  induction summaries as [|s rest IH]; [done|].
  cbn [load_accounts omap list_omap]. unfold kept_account at 1.
  destruct (sum_enabled s); cbn [negb]; [|exact IH].
  destruct (one (sum_account_name s)) as [a|e] eqn:E.
  - rewrite IH. done.
  - apply load_account_throws_std in E as [w ->]. exact IH.
Qed.
End load_lemmas.

Lemma load_std d open_list list_fault open_account account_fault file :
  std_outcome (load d open_list list_fault open_account account_fault file).
Proof.
  unfold load. destruct (parseIni file) as [ini|e] eqn:Ei; [|by destruct file; [done|injection Ei as <-]]. cbn -[enumerate load_accounts].
  pose proof (load_global_std ini) as Hg. destruct (load_global ini) as [g|[]]; cbn -[enumerate load_accounts]; try done. clear Hg.
  unfold enumerate. destruct open_list; [|done]. pose proof (listAllAccounts_std list_fault (connection d)) as Hl.
  destruct (listAllAccounts _ _) as [[l|[]] c]; cbn -[load_accounts] in *; try done. by rewrite load_accounts_eq.
Qed.

(** The names of the loaded accounts are distinct. *)
Lemma step_rows_prefix {A} fault (rows : list A) c l c' : step_rows fault rows c = (Ok l, c') -> l `prefix_of` rows.
Proof.
  revert c l. induction rows as [|r rows IH]; intros [d s k] l; cbn [step_rows]; unfold mbind, comp_bind, sql_call; cbn -[step_rows].
  - by intros [= <- _].
  - destruct (fault k); cbn -[step_rows]; [intros [= <- _]; apply prefix_nil|].
    destruct (step_rows fault rows (mkConn d s (S k))) as [[rs|e] c1] eqn:E; [|done]. intros [= <- <-].
    apply prefix_cons. by eapply IH.
Qed.

Lemma kept_names d open_account account_fault l :
  map name (omap (kept_account d open_account account_fault) l) `sublist_of` (sum_account_name <$> l).
Proof.
  induction l as [|s l IH]; [done|]. cbn [omap list_omap fmap list_fmap]. destruct (kept_account _ _ _ s) as [a|] eqn:E; cbn; [|by constructor].
  assert (name a = sum_account_name s) as ->; [|by constructor].
  unfold kept_account in E. destruct (sum_enabled s); [|done]. destruct (load_account _ _ _ _) as [a'|] eqn:Ea; [|done]. injection E as ->.
  unfold load_account in Ea. destruct (open_account _); [|done]. destruct (loadAccount _ _ _) as [[r|e] c]; [|done].
  cbn in Ea. by apply account_config_valid in Ea as [_ ->].
Qed.

Lemma load_names_nodup d open_list list_fault open_account account_fault file c :
  load d open_list list_fault open_account account_fault file = Ok c -> NoDup (map name (accounts c)).
Proof.
  unfold load. destruct (parseIni file) as [ini|]; [|done]. cbn -[enumerate load_accounts load_global].
  destruct (load_global ini) as [g|]; [|done]. cbn -[enumerate load_accounts].
  destruct (enumerate d open_list list_fault) as [l|] eqn:El; [|done]. cbn -[load_accounts]. rewrite load_accounts_eq.
  intros [= <-]. cbn [accounts]. eapply sublist_NoDup; [|apply kept_names].
  assert (l `prefix_of` summary_of <$> merge_sort name_le (map_to_list (account d))) as [k Hk].
  { unfold enumerate in El. destruct open_list; [|done]. unfold listAllAccounts, select_all, prepare, sql_call, mbind, comp_bind in El.
    cbn -[step_rows] in El. destruct (list_fault 0%nat); [done|]. cbn -[step_rows] in El.
    destruct (step_rows _ _ _) as [o c'] eqn:E. cbn in El. subst o. by eapply step_rows_prefix. }
  assert (NoDup (sum_account_name <$> (l ++ k))) as Hn; [|rewrite fmap_app in Hn; by apply NoDup_app in Hn as [Hn _]].
  rewrite <- Hk, <- list_fmap_compose. change (NoDup (fst <$> merge_sort name_le (map_to_list (account d)))).
  rewrite (merge_sort_Permutation name_le (map_to_list (account d))). apply NoDup_fst_map_to_list.
Qed.

Lemma enumerate_ok d :
  enumerate d true no_fault = Ok (summary_of <$> merge_sort name_le (map_to_list (account d))).
Proof.
  unfold enumerate, listAllAccounts, connection, select_all, prepare, mbind, comp_bind.
  cbn -[step_rows].
  destruct (step_rows_ok (summary_of <$> merge_sort name_le (map_to_list (account d)))
    (mkConn d None 1)) as [n E]. unfold sql_call. cbn -[step_rows]. by rewrite E.
Qed.

Lemma in_summaries d s :
  s ∈ summary_of <$> merge_sort name_le (map_to_list (account d)) <->
  exists r, account d !! sum_account_name s = Some r /\ s = summary_of (sum_account_name s, r).
Proof.
  rewrite list_elem_of_fmap. split.
  - intros ([nm r] & -> & Hin). rewrite merge_sort_Permutation in Hin.
    apply elem_of_map_to_list in Hin. by exists r.
  - intros (r & Hr & Hs). exists (sum_account_name s, r). split; [done|].
    rewrite merge_sort_Permutation. by apply elem_of_map_to_list.
Qed.

(** What [DaemonConfig::load] returns, for the theorems about it. *)
Lemma load_result (d : db) (open_account : string -> bool)
    (account_fault : string -> nat -> bool) (file : option (list string)) (ini : IniMap)
    (g : GlobalConfig) :
  parseIni file = Ok ini -> load_global ini = Ok g ->
  exists l, load d true no_fault open_account account_fault file = Ok (mkDaemon g l) /\
    (forall a, a ∈ l -> valid_account a /\
       exists r, account d !! name a = Some r /\ enabled r = true /\
         accountConfigFromRecord (name a) r = Ok a) /\
    (forall nm r, account d !! nm = Some r -> open_account nm = true -> account_fault nm = no_fault ->
       forall a, (a ∈ l /\ name a = nm) <->
         enabled r = true /\ accountConfigFromRecord nm r = Ok a).
Proof.
  intros Hini Hg. unfold load. rewrite Hini. cbn -[enumerate load_accounts load_global]. rewrite Hg.
  cbn -[enumerate load_accounts]. rewrite enumerate_ok. cbn -[load_accounts].
  rewrite load_accounts_eq. cbn -[omap list_omap merge_sort]. eexists. split; [reflexivity|].
  assert (forall nm a, load_account d open_account account_fault nm = Ok a ->
    exists r, account d !! nm = Some r /\ accountConfigFromRecord nm r = Ok a) as Hone.
  { intros nm a. unfold load_account. destruct (open_account nm); [|done].
    unfold loadAccount. unfold mbind at 2, comp_bind.
    destruct (select_cases (account_fault nm) (fun d => account d !! nm) (connection d))
      as [n [[w ->]|[->| ->]]]; cbn; [done|done|].
    destruct (account d !! nm) as [r|]; cbn; [eauto|done]. }
  assert (forall a, a ∈ omap (kept_account d open_account account_fault)
      (summary_of <$> merge_sort name_le (map_to_list (account d))) ->
    exists r, account d !! name a = Some r /\ enabled r = true /\
      accountConfigFromRecord (name a) r = Ok a) as Hin.
  { intros a (s & Hs & Hk)%list_elem_of_omap. apply in_summaries in Hs as (r & Hr & Heq).
    assert (sum_enabled s = enabled r) as Hse by (by rewrite Heq).
    unfold kept_account in Hk. rewrite Hse in Hk. destruct (enabled r) eqn:He; [|done].
    destruct (load_account _ _ _ _) as [a'|] eqn:E; [|done]. injection Hk as ->.
    apply Hone in E as (r' & Hr' & Ha). replace r' with r in * by congruence.
    destruct (account_config_valid _ _ _ Ha) as [_ ->]. eauto. }
  split.
  - intros a Ha. destruct (Hin a Ha) as (r & Hr & He & Hc). split; [|eauto].
    by destruct (account_config_valid _ _ _ Hc).
  - intros nm r Hr Ho Hf a. split.
    + intros [Ha <-]. destruct (Hin a Ha) as (r' & Hr' & He & Hc).
      replace r with r' by congruence. done.
    + intros [He Hc]. destruct (account_config_valid _ _ _ Hc) as [_ Hn]. split; [|done].
      apply list_elem_of_omap. exists (summary_of (nm, r)). split; [apply in_summaries; eauto|].
      unfold kept_account. cbn. rewrite He. unfold load_account, loadAccount. rewrite Ho, Hf.
      erewrite bind_ok by apply select_ok. cbn. rewrite Hr. cbn. by rewrite Hc.
Qed.

(** C24: [DaemonConfig::load] isolates accounts from each other: with a good
    [global] section and the accounts enumerated, it succeeds whatever happens
    to the others (database errors, invalid rows); every account it returns is
    an enabled row that passed the validation (known SRTP and transport
    values; TLS only with a pinned certificate or the explicit opt-out, and
    with a port); and an account whose own open and calls do not fail is in
    the result exactly when its row is enabled and valid. *)
Theorem load_isolates (d : db) (open_account : string -> bool)
    (account_fault : string -> nat -> bool) (file : option (list string)) (ini : IniMap)
    (g : GlobalConfig) :
  parseIni file = Ok ini -> load_global ini = Ok g ->
  exists l, load d true no_fault open_account account_fault file = Ok (mkDaemon g l) /\
    (forall a, a ∈ l -> valid_account a /\
       exists r, account d !! name a = Some r /\ enabled r = true /\
         accountConfigFromRecord (name a) r = Ok a) /\
    (forall nm r, account d !! nm = Some r -> open_account nm = true -> account_fault nm = no_fault ->
       forall a, (a ∈ l /\ name a = nm) <->
         enabled r = true /\ accountConfigFromRecord nm r = Ok a).
Proof. exact (load_result d open_account account_fault file ini g). Qed.

(** A file with the required keys and one interval. *)
Definition sample_file : option (list string) :=
  Some ["[global]"; "db_path = /x "; "db_key=k"; "# c"; "sip_reg_watchdog_sec = 4294967296"]%string.

Lemma load_isolates_witness :
  exists l, load (cdb two_accounts) true no_fault (fun _ => true) (fun _ => no_fault) sample_file =
      Ok (mkDaemon (mkGlobal "/x" "k" 0 86400 43200 30) l) /\
    (forall a, a ∈ l -> valid_account a /\
       exists r, account (cdb two_accounts) !! name a = Some r /\ enabled r = true /\
         accountConfigFromRecord (name a) r = Ok a) /\
    (forall nm r, account (cdb two_accounts) !! nm = Some r -> true = true -> no_fault = no_fault ->
       forall a, (a ∈ l /\ name a = nm) <->
         enabled r = true /\ accountConfigFromRecord nm r = Ok a).
Proof.
  eapply (load_isolates (cdb two_accounts) (fun _ => true) (fun _ => no_fault) sample_file).
  - reflexivity.
  - vm_compute. reflexivity.
Defined.

(** *** Intervals *)

Definition interval_keys : list (string * string * (GlobalConfig -> Z)) := [
  ("sip_reg_watchdog_sec", "60", sipRegWatchdogSec);
  ("resolved_contact_ttl_sec", "86400", resolvedContactTtlSec);
  ("storage_sync_interval_sec", "43200", storageSyncIntervalSec);
  ("config_poll_interval_sec", "30", configPollIntervalSec)]%string.

Lemma load_global_interval ini g k :
  load_global ini = Ok g -> k ∈ interval_keys -> interval ini k.1.1 k.1.2 = Ok (k.2 g).
Proof.
  unfold load_global. destruct (str_empty _); [done|]. destruct (str_empty _); [done|]. intros H.
  destruct (interval ini "sip_reg_watchdog_sec" "60") eqn:E1; [cbn in H|done].
  destruct (interval ini "resolved_contact_ttl_sec" "86400") eqn:E2; [cbn in H|done].
  destruct (interval ini "storage_sync_interval_sec" "43200") eqn:E3; [cbn in H|done].
  destruct (interval ini "config_poll_interval_sec" "30") eqn:E4; [cbn in H|done].
  injection H as <-. intros Hk. unfold interval_keys in Hk.
  repeat (rewrite elem_of_cons in Hk; destruct Hk as [->|Hk]; [done|]). by apply elem_of_nil in Hk.
Qed.

(** Each of the four intervals of [global] is the number written there
    modulo 2^32 (so 4294967296 is read as 0), for every number stoul accepts,
    and its default when the key is absent or empty. *)
Lemma intervals_wrap (d : db) (open_list : bool) (list_fault : nat -> bool)
    (open_account : string -> bool) (account_fault : string -> nat -> bool)
    (file : option (list string)) (ini : IniMap) (cfg : DaemonConfig)
    (k : string * string * (GlobalConfig -> Z)) :
  parseIni file = Ok ini ->
  load d open_list list_fault open_account account_fault file = Ok cfg -> k ∈ interval_keys ->
  (forall n, 0 <= n < 2 ^ 64 -> getOr ini "global" k.1.1 k.1.2 = to_string n ->
     k.2 (global cfg) = n mod 2 ^ 32) /\
  0 <= k.2 (global cfg) < 2 ^ 32.
Proof.
  intros Hini Hload Hk. unfold load in Hload. rewrite Hini in Hload.
  cbn -[enumerate load_accounts load_global] in Hload.
  destruct (load_global ini) as [g|] eqn:Hg; [cbn -[enumerate load_accounts] in Hload|done].
  destruct (enumerate d open_list list_fault); [cbn -[load_accounts] in Hload|done].
  rewrite load_accounts_eq in Hload. injection Hload as <-. cbn [global].
  pose proof (load_global_interval ini g k Hg Hk) as Hi. unfold interval in Hi. split.
  - intros n Hn Ht. rewrite Ht, stoul_to_string in Hi by done. by injection Hi as <-.
  - destruct (stoul _) as [v|]; [|done]. injection Hi as <-. by apply Z.mod_pos_bound.
Qed.

Lemma intervals_wrap_witness :
  exists ini cfg, parseIni sample_file = Ok ini /\
    load empty_db true no_fault (fun _ => true) (fun _ => no_fault) sample_file = Ok cfg /\
    ((forall n, 0 <= n < 2 ^ 64 -> getOr ini "global" "sip_reg_watchdog_sec" "60" = to_string n ->
        sipRegWatchdogSec (global cfg) = n mod 2 ^ 32) /\
     0 <= sipRegWatchdogSec (global cfg) < 2 ^ 32).
Proof.
  do 2 eexists. split; [reflexivity|]. split; [vm_compute; reflexivity|].
  eapply (intervals_wrap empty_db true no_fault (fun _ => true) (fun _ => no_fault) sample_file _ _
    ("sip_reg_watchdog_sec"%string, "60"%string, sipRegWatchdogSec)).
  - reflexivity.
  - vm_compute. reflexivity.
  - left.
Defined.
