(* ===== verification/HttpClient.v ===== *)
(** The HTTPS client of gendb and of the contact sync
    (src/util/RegistrationClient.cpp): one libcurl handle per request.

    libcurl's objects are entries of a table (Handles); the n-th call into
    libcurl reports a failure when [curl_fault n].  What the code looks at of
    such a failure is what the model looks at: a handle or list that could not
    be made is NULL, a failing [curl_easy_setopt] is not noticed.  What a
    transfer receives is an input; what libcurl sends for the options of a
    handle is a parameter of the theorems, described by its documentation. *)

From S2P Require Import Prelude Handles Config.

Open Scope Z_scope.

(** ** libcurl's objects *)

Definition CURLAUTH_BASIC : Z := 1.

(** The options the code sets; strings are handed over as C strings, the body
    by pointer and size. *)
Record easy := mkEasy {
  URL : option string; CAINFO : option string; TIMEOUT : Z;
  HTTPGET : bool; POST : bool; CUSTOMREQUEST : option string;
  POSTFIELDS : option string; POSTFIELDSIZE : option Z;
  HTTPHEADER : option nat; HTTPAUTH : option Z; USERPWD : option string;
}.
Definition new_easy : easy := mkEasy None None 0 false false None None None None None None.

Inductive object := Easy (e : easy) | Slist (lines : list string).

Definition set_URL x e := mkEasy (Some x) (CAINFO e) (TIMEOUT e) (HTTPGET e) (POST e) (CUSTOMREQUEST e) (POSTFIELDS e) (POSTFIELDSIZE e) (HTTPHEADER e) (HTTPAUTH e) (USERPWD e).
Definition set_CAINFO x e := mkEasy (URL e) (Some x) (TIMEOUT e) (HTTPGET e) (POST e) (CUSTOMREQUEST e) (POSTFIELDS e) (POSTFIELDSIZE e) (HTTPHEADER e) (HTTPAUTH e) (USERPWD e).
Definition set_TIMEOUT x e := mkEasy (URL e) (CAINFO e) x (HTTPGET e) (POST e) (CUSTOMREQUEST e) (POSTFIELDS e) (POSTFIELDSIZE e) (HTTPHEADER e) (HTTPAUTH e) (USERPWD e).
Definition set_HTTPGET e := mkEasy (URL e) (CAINFO e) (TIMEOUT e) true (POST e) (CUSTOMREQUEST e) (POSTFIELDS e) (POSTFIELDSIZE e) (HTTPHEADER e) (HTTPAUTH e) (USERPWD e).
Definition set_POST e := mkEasy (URL e) (CAINFO e) (TIMEOUT e) (HTTPGET e) true (CUSTOMREQUEST e) (POSTFIELDS e) (POSTFIELDSIZE e) (HTTPHEADER e) (HTTPAUTH e) (USERPWD e).
Definition set_CUSTOMREQUEST x e := mkEasy (URL e) (CAINFO e) (TIMEOUT e) (HTTPGET e) (POST e) (Some x) (POSTFIELDS e) (POSTFIELDSIZE e) (HTTPHEADER e) (HTTPAUTH e) (USERPWD e).
Definition set_POSTFIELDS x e := mkEasy (URL e) (CAINFO e) (TIMEOUT e) (HTTPGET e) (POST e) (CUSTOMREQUEST e) (Some x) (POSTFIELDSIZE e) (HTTPHEADER e) (HTTPAUTH e) (USERPWD e).
Definition set_POSTFIELDSIZE x e := mkEasy (URL e) (CAINFO e) (TIMEOUT e) (HTTPGET e) (POST e) (CUSTOMREQUEST e) (POSTFIELDS e) (Some x) (HTTPHEADER e) (HTTPAUTH e) (USERPWD e).
Definition set_HTTPHEADER x e := mkEasy (URL e) (CAINFO e) (TIMEOUT e) (HTTPGET e) (POST e) (CUSTOMREQUEST e) (POSTFIELDS e) (POSTFIELDSIZE e) (Some x) (HTTPAUTH e) (USERPWD e).
Definition set_HTTPAUTH x e := mkEasy (URL e) (CAINFO e) (TIMEOUT e) (HTTPGET e) (POST e) (CUSTOMREQUEST e) (POSTFIELDS e) (POSTFIELDSIZE e) (HTTPHEADER e) (Some x) (USERPWD e).
Definition set_USERPWD x e := mkEasy (URL e) (CAINFO e) (TIMEOUT e) (HTTPGET e) (POST e) (CUSTOMREQUEST e) (POSTFIELDS e) (POSTFIELDSIZE e) (HTTPHEADER e) (HTTPAUTH e) (Some x).

(** [std::string::c_str()], as a C function reads it. *)
Fixpoint c_str (s : string) : string :=
  match s with
  | EmptyString => EmptyString
  | String c t => if bool_decide (c = ch 0) then EmptyString else String c (c_str t)
  end.

Record HttpResponse := mkHttpResponse { status : Z; body : string }.

(** What a transfer brings: the pieces of the body the write callback gets, and
    its end, an error's text or the status. *)
Record transfer := mkTransfer { pieces : list string; ended : string + Z }.

(** The process: libcurl's objects, the path of the CA file once resolved, and
    the transfers that were performed (the handle's options and its header
    lines). *)
Record curl := mkCurl {
  c_heap : heap object; ca_path : option string; performed : list (easy * list string);
}.

#[export] Instance curl_heap : Has (heap object) curl := {
  prj := c_heap; put := fun h c => mkCurl h (ca_path c) (performed c);
}.
#[export] Instance curl_heap_laws : HasLaws (heap object) curl.
Proof. by split; [|intros []|]. Qed.

(** ** doRequest *)

Section Client.
Context (curl_fault : nat -> bool) (fileExists : string -> bool).

(** A call into libcurl; the answer is whether it worked. *)
Definition libcurl : Comp (heap object) bool := fun s =>
  (Ok (negb (curl_fault (ffi_made s))), mkHeap (objects s) (next_object s) (S (ffi_made s))).

Definition made (o : object) : Comp (heap object) (option nat) :=
  ok ← libcurl;
  if (ok : bool) then h ← insert_object o; mret (Some h) else mret None.
Definition curl_easy_init : Comp (heap object) (option nat) := made (Easy new_easy).
(** Appending to the empty list. *)
Definition curl_slist_append (line : string) : Comp (heap object) (option nat) := made (Slist [c_str line]).

(** The result of [curl_easy_setopt] is not looked at. *)
Definition curl_easy_setopt (h : nat) (f : easy -> easy) : Comp (heap object) unit :=
  ok ← libcurl;
  when ok (modify (fun s =>
    mkHeap (alter (fun o => match o with Easy e => Easy (f e) | _ => o end) h (objects s)) (next_object s) (ffi_made s))).

Definition curl_easy_cleanup (h : nat) : Comp (heap object) unit := libcurl ;; delete_object h.
Definition curl_slist_free_all (h : nat) : Comp (heap object) unit := libcurl ;; delete_object h.

Definition options (h : nat) (s : heap object) : easy :=
  match objects s !! h with Some (Easy e) => e | _ => new_easy end.
Definition lines (h : option nat) (s : heap object) : list string :=
  match h ≫= fun h => objects s !! h with Some (Slist l) => l | _ => [] end.

Definition caCertPath : Comp curl string :=
  s ← get;
  match ca_path s with
  | Some path => mret path
  | None => let path := resolveCaCertPath fileExists in
    modify (fun s => mkCurl (c_heap s) (Some path) (performed s)) ;; mret path
  end.

(** [writeCallback]: the pieces, one after the other. *)
Definition writeCallback (userdata ptr : string) : string := String.append userdata ptr.

Definition curl_easy_perform (h : nat) (x : transfer) : Comp curl (string + Z * string) :=
  modify (fun s => let e := options h (c_heap s) in
    mkCurl (c_heap s) (ca_path s) (performed s ++ [(e, lines (HTTPHEADER e) (c_heap s))])) ;;
  lift libcurl ;;
  mret (match ended x with
        | inl error => inl error
        | inr st => inr (st, foldl writeCallback EmptyString (pieces x))
        end).

Definition set_method (h : nat) (method body : string) : Comp (heap object) unit :=
  if str_eqb method "GET" then curl_easy_setopt h set_HTTPGET
  else
    when (negb (str_eqb method "POST")) (curl_easy_setopt h (set_CUSTOMREQUEST (c_str method))) ;;
    curl_easy_setopt h (set_POSTFIELDS body) ;;
    curl_easy_setopt h (set_POSTFIELDSIZE (Z.of_nat (String.length body))) ;;
    when (str_eqb method "POST") (curl_easy_setopt h set_POST).

Definition set_headers (h : nat) (body contentType : string) : Comp (heap object) (option nat) :=
  headers ← (if str_empty body then mret None else curl_slist_append (String.append "Content-Type: " contentType));
  match headers with Some l => curl_easy_setopt h (set_HTTPHEADER l) | None => mret tt end ;;
  mret headers.

Definition set_credentials (h : nat) (basicAuthUser basicAuthPass : string) : Comp (heap object) unit :=
  when (str_nonempty basicAuthUser)
    (curl_easy_setopt h (set_HTTPAUTH CURLAUTH_BASIC) ;;
     curl_easy_setopt h (set_USERPWD (c_str (String.append basicAuthUser (String.append ":" basicAuthPass))))).

(** The two objects of a request, on both ways out. *)
Definition clean_up (h : nat) (headers : option nat) : Comp (heap object) unit :=
  match headers with Some l => curl_slist_free_all l | None => mret tt end ;;
  curl_easy_cleanup h.

Definition doRequest (serverHost method path body contentType basicAuthUser basicAuthPass : string) (x : transfer) :
    Comp curl HttpResponse :=
  made ← lift curl_easy_init;
  match made with
  | None => throw_std "curl_easy_init failed"
  | Some h =>
    lift (curl_easy_setopt h (set_URL (c_str (String.append "https://" (String.append serverHost path))))) ;;
    ca ← caCertPath;
    lift (curl_easy_setopt h (set_CAINFO (c_str ca))) ;;
    lift libcurl ;; (* CURLOPT_WRITEFUNCTION *)
    lift libcurl ;; (* CURLOPT_WRITEDATA *)
    lift (curl_easy_setopt h (set_TIMEOUT 30)) ;;
    lift (set_method h method body) ;;
    headers ← lift (set_headers h body contentType);
    lift (set_credentials h basicAuthUser basicAuthPass) ;;
    res ← curl_easy_perform h x;
    match res with
    | inl error =>
      lift (clean_up h headers) ;;
      throw_std (String.append "HTTP request to " (String.append path (String.append " failed: " error)))
    | inr (st, responseBody) =>
      known ← lift libcurl; (* CURLINFO_RESPONSE_CODE *)
      lift (clean_up h headers) ;;
      mret (mkHttpResponse (if (known : bool) then st else 0) responseBody)
    end
  end.

(** [RegistrationClient]'s members; the object keeps its host. *)
Definition request (serverHost method path jsonBody basicAuthUser basicAuthPass : string) : transfer -> Comp curl HttpResponse :=
  doRequest serverHost method path jsonBody "application/json" basicAuthUser basicAuthPass.
Definition requestRaw (serverHost method path body contentType basicAuthUser basicAuthPass : string) : transfer -> Comp curl HttpResponse :=
  doRequest serverHost method path body contentType basicAuthUser basicAuthPass.
End Client.

(** ** Lemmas *)

Lemma c_str_id s : str_mem (ch 0) s = false -> c_str s = s.
Proof. induction s as [|c s IH]; [done|]. cbn. intros [Hc Hs]%orb_false_iff. by rewrite Hc, IH. Qed.

Lemma pieces_concat ps : foldl writeCallback EmptyString ps = String.concat EmptyString ps.
Proof.
  assert (forall acc, foldl writeCallback acc ps = String.append acc (String.concat EmptyString ps)) as H; [|by rewrite H].
  induction ps as [|p ps IH]; intros acc; [cbn; by rewrite str_app_nil_r|].
  cbn [foldl]. rewrite IH. unfold writeCallback. destruct ps as [|q ps]; [by rewrite str_app_nil_r|].
  cbn [String.concat]. by rewrite str_app_nil_l, str_app_assoc.
Qed.

Lemma substring_all s : String.substring 0 (String.length s) s = s.
Proof. induction s as [|c s IH]; [done|]. cbn. by rewrite IH. Qed.

Section Walk.
Context (curl_fault : nat -> bool) (fileExists : string -> bool).

Definition can_fail : Prop := exists n, curl_fault n = true.

(** The handle [h] has the options [e], unless setting one failed; the other
    objects are [m]. *)
Definition cell (m : gmap nat object) (h : nat) (e : easy) (s : heap object) : Prop :=
  fresh_heap s /\ exists e', (can_fail \/ e' = e) /\ objects s = <[h := Easy e']> m.

Lemma setopt_yields m h e f : yields False (cell m h e) (curl_easy_setopt curl_fault h f) (fun _ => cell m h (f e)).
Proof.
  intros s (Hf & e' & He & Ho). unfold curl_easy_setopt, libcurl, mbind, comp_bind. cbn.
  destruct (curl_fault (ffi_made s)) eqn:E; cbn; split.
  - exact Hf.
  - exists e'. split; [left; by eexists|done].
  - intros n Hn. cbn in *. specialize (Hf n Hn). rewrite Ho in Hf |- *. rewrite alter_insert_eq.
    destruct (decide (h = n)) as [->|]; [by rewrite lookup_insert_eq in Hf|by rewrite lookup_insert_ne in Hf |- *].
  - exists (f e'). cbn. rewrite Ho, alter_insert_eq. split; [|done]. destruct He as [H| ->]; [by left|by right].
Qed.

Lemma libcurl_yields m h e : yields False (cell m h e) (libcurl curl_fault) (fun ok s => (can_fail \/ ok = true) /\ cell m h e s).
Proof. intros s H. cbn. split; [|exact H]. destruct (curl_fault (ffi_made s)) eqn:E; [left; by eexists|by right]. Qed.

(** What the options should be. *)
Definition method_options (method body : string) (e : easy) : easy :=
  if str_eqb method "GET" then set_HTTPGET e
  else
    let e := if str_eqb method "POST" then e else set_CUSTOMREQUEST (c_str method) e in
    let e := set_POSTFIELDSIZE (Z.of_nat (String.length body)) (set_POSTFIELDS body e) in
    if str_eqb method "POST" then set_POST e else e.
Definition credential_options (user pass : string) (e : easy) : easy :=
  if str_empty user then e
  else set_USERPWD (c_str (String.append user (String.append ":" pass))) (set_HTTPAUTH CURLAUTH_BASIC e).

Lemma set_method_yields m h e method body :
  yields False (cell m h e) (set_method curl_fault h method body) (fun _ => cell m h (method_options method body e)).
Proof.
  unfold set_method, method_options. destruct (str_eqb method "GET"); [apply setopt_yields|].
  eapply yields_bind.
  - apply (yields_when _ (cell m h (if str_eqb method "POST" then e else set_CUSTOMREQUEST (c_str method) e)));
      destruct (str_eqb method "POST"); try done; intros _; apply setopt_yields.
  - intros ?. eapply yields_bind; [apply setopt_yields|intros ?]. eapply yields_bind; [apply setopt_yields|intros ?].
    apply (yields_when _ (cell m h _)); destruct (str_eqb method "POST"); try done; intros _; apply setopt_yields.
Qed.

Lemma set_credentials_yields m h e user pass :
  yields False (cell m h e) (set_credentials curl_fault h user pass) (fun _ => cell m h (credential_options user pass e)).
Proof.
  unfold set_credentials, credential_options, str_nonempty. apply (yields_when _ (cell m h _)); destruct (str_empty user); try done; intros _.
  eapply yields_bind; [apply setopt_yields|intros ?; apply setopt_yields].
Qed.

(** The header list: its lines, and what is kept of it. *)
Definition header_lines (body contentType : string) : list string :=
  if str_empty body then [] else [c_str (String.append "Content-Type: " contentType)].
Definition with_headers (headers : option nat) (ls : list string) (m : gmap nat object) : gmap nat object :=
  match headers with Some l => <[l := Slist ls]> m | None => m end.
Definition header_options (headers : option nat) (e : easy) : easy :=
  match headers with Some l => set_HTTPHEADER l e | None => e end.
Definition apart (m : gmap nat object) (h : nat) (headers : option nat) : Prop :=
  forall l, headers = Some l -> m !! l = None /\ l <> h.

Lemma set_headers_yields m h e body contentType :
  yields False (cell m h e) (set_headers curl_fault h body contentType) (fun headers s =>
    apart m h headers /\ (can_fail \/ (is_Some headers <-> str_empty body = false)) /\
    cell (with_headers headers (header_lines body contentType) m) h (header_options headers e) s).
Proof.
  unfold set_headers, header_lines. destruct (str_empty body) eqn:Eb.
  - intros s H. cbn. split; [done|]. split; [right; split; [by intros [? ?]|done]|done].
  - eapply yields_bind with (Q := fun headers s => apart m h headers /\ (can_fail \/ is_Some headers) /\
      cell (with_headers headers [c_str (String.append "Content-Type: " contentType)] m) h e s).
    + intros s (Hf & e' & He & Ho). unfold curl_slist_append, made, libcurl, mbind, comp_bind. cbn -[c_str].
      destruct (curl_fault (ffi_made s)) eqn:E; cbn -[c_str].
      * split; [done|]. split; [left; by eexists|]. split; [exact Hf|by exists e'].
      * assert (objects s !! next_object s = None) as Hn by (apply Hf; lia). rewrite Ho in Hn. apply lookup_insert_None in Hn as [Hn Hne].
        split; [intros l [= <-]; by split|]. split; [right; by eexists|]. split.
        -- intros k Hk. cbn -[c_str] in *. rewrite lookup_insert_ne by lia. apply Hf. lia.
        -- exists e'. split; [done|]. cbn -[c_str]. rewrite Ho. by apply insert_insert_ne.
    + intros headers s (Ha & Hh & Hc). destruct headers as [l|]; cbn [with_headers header_options].
      * pose proof (setopt_yields _ _ _ (set_HTTPHEADER l) s Hc) as H. unfold mbind, comp_bind.
        destruct (curl_easy_setopt _ _ _ s) as [[?|?] s']; [|done]. cbn. split; [done|]. split; [|done]. right. split; [done|by eexists].
      * cbn. split; [done|]. split; [|done]. destruct Hh as [|[? ?]]; [by left|done].
Qed.

Lemma clean_up_yields m h e headers ls : m !! h = None -> apart m h headers ->
  yields False (cell (with_headers headers ls m) h e) (clean_up curl_fault h headers) (fun _ s => objects s = m /\ fresh_heap s).
Proof.
  intros Hm Ha s (Hf & e' & _ & Ho).
  assert (forall d (o : gmap nat object) n k, fresh_heap (mkHeap o n k) -> fresh_heap (mkHeap (delete d o) n (S k))) as Hdel.
  { intros d o n k H j Hj. cbn in *. apply lookup_delete_None. right. by apply H. }
  destruct s as [o n k]. cbn in Ho. subst o. unfold clean_up. destruct headers as [l|]; cbn in *.
  - destruct (Ha l eq_refl) as [Hl Hne]. split; cbn; [|by apply Hdel, Hdel].
    rewrite delete_insert_ne, delete_insert_eq, delete_insert_eq by congruence. rewrite !delete_id; [done|done|].
    by rewrite delete_id.
  - split; cbn; [by apply delete_insert_id|by apply Hdel].
Qed.

(** Options and header lines of a request. *)
Definition asked_options (ca serverHost method path body user pass : string) (headers : option nat) : easy :=
  credential_options user pass (header_options headers (method_options method body
    (set_TIMEOUT 30 (set_CAINFO (c_str ca) (set_URL (c_str (String.append "https://" (String.append serverHost path))) new_easy))))).

Definition known_ca (s : curl) : string := default (resolveCaCertPath fileExists) (ca_path s).

Lemma lift_run {A} (f : Comp (heap object) A) a h s : f (c_heap s) = (Ok a, h) ->
  (lift f : Comp curl A) s = (Ok a, mkCurl h (ca_path s) (performed s)).
Proof. intros H. unfold lift. cbn. by rewrite H. Qed.

Lemma init_cases (s : curl) : fresh_heap (c_heap s) ->
  exists k, (lift (curl_easy_init curl_fault) : Comp curl (option nat)) s =
    (if curl_fault (ffi_made (c_heap s))
     then (Ok None, mkCurl (mkHeap (objects (c_heap s)) (next_object (c_heap s)) k) (ca_path s) (performed s))
     else (Ok (Some (next_object (c_heap s))),
           mkCurl (mkHeap (<[next_object (c_heap s) := Easy new_easy]> (objects (c_heap s))) (S (next_object (c_heap s))) k)
             (ca_path s) (performed s))).
Proof.
  intros Hf. exists (S (ffi_made (c_heap s))). unfold lift, curl_easy_init, made, libcurl, mbind, comp_bind. cbn.
  by destruct (curl_fault (ffi_made (c_heap s))).
Qed.

Lemma caCertPath_run (s : curl) : caCertPath fileExists s = (Ok (known_ca s), mkCurl (c_heap s) (Some (known_ca s)) (performed s)).
Proof. destruct s as [h [ca|] p]; done. Qed.

(** The next step of the program, by the lemma about it. *)
Lemma after_lift {A B} (P : heap object -> Prop) (f : Comp (heap object) A) (Q : A -> heap object -> Prop) (k : A -> Comp curl B) s
    (R : outcome B * curl -> Prop) :
  yields False P f Q -> P (c_heap s) -> (forall a h, Q a h -> R (k a (mkCurl h (ca_path s) (performed s)))) -> R ((lift f ≫= k) s).
Proof.
  intros Hf Hs Hk. destruct (yields_run P f Q _ Hf Hs) as (a & h & E & Hq). erewrite bind_ok by (by apply lift_run). by apply Hk.
Qed.

(** The request was made, once: what came of it, what it left. *)
Definition exchanged (serverHost method path body contentType user pass : string) (x : transfer) (s : curl)
    (r : outcome HttpResponse * curl) : Prop :=
  objects (c_heap r.2) = objects (c_heap s) /\ fresh_heap (c_heap r.2) /\ ca_path r.2 = Some (known_ca s) /\
  exists e ls st,
    r.1 = match ended x with
          | inl error => Throw (StdError (String.append "HTTP request to " (String.append path (String.append " failed: " error))))
          | inr _ => Ok (mkHttpResponse st (foldl writeCallback EmptyString (pieces x)))
          end /\
    performed r.2 = performed s ++ [(e, ls)] /\
    (can_fail \/ ls = header_lines body contentType /\ (forall status, ended x = inr status -> st = status) /\
       exists headers, (is_Some headers <-> str_empty body = false) /\
         e = asked_options (known_ca s) serverHost method path body user pass headers).

(** What a transfer answers. *)
Definition answer (x : transfer) : string + Z * string :=
  match ended x with inl error => inl error | inr st => inr (st, foldl writeCallback EmptyString (pieces x)) end.

Lemma perform_run h x (s : curl) : curl_easy_perform curl_fault h x s =
  (Ok (answer x), mkCurl (mkHeap (objects (c_heap s)) (next_object (c_heap s)) (S (ffi_made (c_heap s)))) (ca_path s)
     (performed s ++ [(options h (c_heap s), lines (HTTPHEADER (options h (c_heap s))) (c_heap s))])).
Proof. done. Qed.

Lemma header_kept method body user pass headers e : HTTPHEADER e = None ->
  HTTPHEADER (credential_options user pass (header_options headers (method_options method body e))) = headers.
Proof.
  intros H. unfold credential_options, method_options, header_options.
  by destruct (str_empty user), headers, (str_eqb method "GET"), (str_eqb method "POST").
Qed.

(** The part after the transfer. *)
Lemma after_transfer m h e headers ls path x res (s : curl) (R : outcome HttpResponse * curl -> Prop) :
  m !! h = None -> apart m h headers -> cell (with_headers headers ls m) h e (c_heap s) ->
  res = answer x ->
  (forall hp st, objects hp = m -> fresh_heap hp -> (can_fail \/ forall status, ended x = inr status -> st = status) ->
     R (match ended x with
        | inl error => Throw (StdError (String.append "HTTP request to " (String.append path (String.append " failed: " error))))
        | inr _ => Ok (mkHttpResponse st (foldl writeCallback EmptyString (pieces x)))
        end, mkCurl hp (ca_path s) (performed s))) ->
  R ((match res with
      | inl error => lift (clean_up curl_fault h headers) ;;
          throw_std (String.append "HTTP request to " (String.append path (String.append " failed: " error)))
      | inr (st, responseBody) => known ← lift (libcurl curl_fault); lift (clean_up curl_fault h headers) ;;
          mret (mkHttpResponse (if (known : bool) then st else 0) responseBody)
      end : Comp curl HttpResponse) s).
Proof.
  intros Hm Ha Hc -> HR. unfold answer. destruct (ended x) as [error|st].
  - eapply after_lift; [by eapply clean_up_yields|exact Hc|]. intros _ hp [Ho Hf]. apply (HR hp 0 Ho Hf). right. done.
  - eapply after_lift; [apply libcurl_yields|exact Hc|]. intros ok hp [Hok Hc']. cbn [ca_path performed].
    eapply after_lift; [by eapply clean_up_yields|exact Hc'|]. intros _ hp' [Ho Hf]. cbn [ca_path performed]. apply (HR hp' _ Ho Hf).
    destruct Hok as [Hok| ->]; [by left|right]. by intros ? [= <-].
Qed.

Lemma doRequest_spec serverHost method path body contentType user pass x (s : curl) (Hf : fresh_heap (c_heap s)) :
  let r := doRequest curl_fault fileExists serverHost method path body contentType user pass x s in
  if curl_fault (ffi_made (c_heap s))
  then r.1 = Throw (StdError "curl_easy_init failed") /\ objects (c_heap r.2) = objects (c_heap s) /\ fresh_heap (c_heap r.2) /\
    ca_path r.2 = ca_path s /\ performed r.2 = performed s
  else exchanged serverHost method path body contentType user pass x s r.
Proof.
  unfold doRequest. destruct (init_cases s Hf) as (k & E). cbv zeta. destruct (curl_fault (ffi_made (c_heap s))); erewrite bind_ok by exact E; [done|].
  clear E. cbv beta iota. set (m := objects (c_heap s)). set (h := next_object (c_heap s)).
  assert (m !! h = None) as Hm by (by apply Hf).
  assert (cell m h new_easy (mkHeap (<[h := Easy new_easy]> m) (S h) k)) as Hc.
  { split; [|eexists; split; [by right|done]]. intros j Hj. cbn in *. rewrite lookup_insert_ne by lia. apply Hf. fold h. lia. }
  set (R := exchanged _ _ _ _ _ _ _ _ _).
  eapply after_lift; [apply setopt_yields|exact Hc|]. clear Hc. intros ? h1 Hc. cbn [ca_path performed].
  erewrite bind_ok by apply caCertPath_run. cbn [c_heap performed]. unfold known_ca at 1 2. cbn [ca_path]. fold (known_ca s).
  eapply after_lift; [apply setopt_yields|exact Hc|]. clear Hc. intros ? h2 Hc.
  eapply after_lift; [apply libcurl_yields|exact Hc|]. clear Hc. intros ? h3 [_ Hc].
  eapply after_lift; [apply libcurl_yields|exact Hc|]. clear Hc. intros ? h4 [_ Hc].
  eapply after_lift; [apply setopt_yields|exact Hc|]. clear Hc. intros ? h5 Hc.
  eapply after_lift; [apply set_method_yields|exact Hc|]. clear Hc. intros ? h6 Hc.
  eapply after_lift; [apply set_headers_yields|exact Hc|]. clear Hc. intros headers h7 (Ha & Hh & Hc).
  eapply after_lift; [apply set_credentials_yields|exact Hc|]. clear Hc. intros ? h8 Hc. cbn [ca_path performed] in *.
  set (e := credential_options _ _ _) in Hc. assert (HTTPHEADER e = headers) as He by (by apply header_kept).
  assert (e = asked_options (known_ca s) serverHost method path body user pass headers) as Hasked by done. clearbody e.
  destruct Hc as [Hf8 (e' & He' & Ho)].
  assert (options h h8 = e') as Hopt by (unfold options; by rewrite Ho, lookup_insert_eq).
  erewrite bind_ok by apply perform_run. cbn [c_heap ca_path performed]. rewrite Hopt. cbv beta.
  eapply (after_transfer m h e headers); [exact Hm|exact Ha| |reflexivity|].
  { split; [exact Hf8|by exists e']. }
  intros hp st Hobj Hfp Hst. cbn [ca_path performed]. split; [exact Hobj|]. split; [exact Hfp|]. split; [done|].
  eexists _, _, st. split; [reflexivity|]. split; [reflexivity|].
  destruct He' as [Hcf| ->]; [by left|]. destruct Hh as [Hcf|Hh]; [by left|]. destruct Hst as [Hcf|Hst]; [by left|]. right.
  split; [|split; [done|by exists headers]]. rewrite He. unfold lines, header_lines in *. destruct headers as [l|]; cbn [mbind option_bind].
  - destruct (Ha l eq_refl) as [_ Hne]. rewrite Ho. cbn [with_headers]. by rewrite lookup_insert_ne, lookup_insert_eq.
  - destruct (str_empty body); [done|]. exfalso. destruct (proj2 Hh eq_refl) as [? ?]. done.
Qed.
End Walk.

(** ** What is sent *)

(** A request as the server sees it. *)
Record wire_request := mkWire {
  w_method : string; w_url : string; w_body : string; w_content_type : option string;
  w_credentials : option (string * string); w_ca : string; w_timeout : Z;
}.

Definition form : string := "application/x-www-form-urlencoded".
(** The value of a Content-Type line. *)
Definition content_type_line (value : string) : string := String.append "Content-Type: " value.

(** Texts libcurl passes on as they are: a host and an absolute path that need
    no escaping and no removal of dot segments, a method, a header's value. *)
Definition host_char (c : ascii) : bool :=
  let n := nat_of_ascii c in
  ((97 <=? n) && (n <=? 122) || (48 <=? n) && (n <=? 57) || (n =? 45) || (n =? 46))%nat.
Definition path_char (c : ascii) : bool :=
  let n := nat_of_ascii c in host_char c || ((65 <=? n) && (n <=? 90))%nat || str_mem c "/_~?=&+,;!*:$".
Definition method_char (c : ascii) : bool := let n := nat_of_ascii c in ((65 <=? n) && (n <=? 90))%nat.
Definition value_char (c : ascii) : bool := let n := nat_of_ascii c in ((33 <=? n) && (n <=? 126))%nat.

(** A segment that starts with a dot. *)
Fixpoint dotted (s : string) : bool :=
  match s with
  | String c t => bool_decide (c = "/"%char) && String.prefix "." t || dotted t
  | EmptyString => false
  end.

Definition plain_host (h : string) : bool := str_nonempty h && str_all host_char h.
Definition plain_path (p : string) : bool := String.prefix "/" p && str_all path_char p && negb (dotted p).
Definition plain_method (m : string) : bool := str_nonempty m && str_all method_char m.
Definition plain_value (v : string) : bool := str_nonempty v && str_all value_char v.

(** What libcurl's manual says of the options that are set here, for such
    texts: a body is sent when CURLOPT_POSTFIELDS is set and is read by its
    size; it is sent as a form unless a header line gives another type; the
    user name ends at the first colon. *)
Class Documented (wire : easy -> list string -> wire_request) := {
  wire_url e ls h p : plain_host h = true -> plain_path p = true ->
    URL e = Some (String.append "https://" (String.append h p)) ->
    w_url (wire e ls) = String.append "https://" (String.append h p);
  wire_ca e ls p : CAINFO e = Some p -> w_ca (wire e ls) = p;
  wire_timeout e ls : w_timeout (wire e ls) = TIMEOUT e;
  wire_get e ls : HTTPGET e = true -> POST e = false -> CUSTOMREQUEST e = None -> POSTFIELDS e = None ->
    w_method (wire e ls) = "GET"%string /\ w_body (wire e ls) = EmptyString;
  wire_post e ls : HTTPGET e = false -> POST e = true -> CUSTOMREQUEST e = None -> w_method (wire e ls) = "POST"%string;
  wire_custom e ls m : plain_method m = true -> HTTPGET e = false -> CUSTOMREQUEST e = Some m -> w_method (wire e ls) = m;
  wire_body e ls b n : HTTPGET e = false -> POSTFIELDS e = Some b -> POSTFIELDSIZE e = Some n ->
    0 <= n <= Z.of_nat (String.length b) -> w_body (wire e ls) = String.substring 0 (Z.to_nat n) b;
  wire_line e v : plain_value v = true -> is_Some (HTTPHEADER e) -> w_content_type (wire e [content_type_line v]) = Some v;
  wire_form e : HTTPGET e = false -> is_Some (POSTFIELDS e) -> w_content_type (wire e []) = Some form;
  wire_no_type e : HTTPGET e = true -> POST e = false -> POSTFIELDS e = None -> w_content_type (wire e []) = None;
  wire_basic e ls h p s user pass : plain_host h = true -> plain_path p = true ->
    URL e = Some (String.append "https://" (String.append h p)) -> HTTPAUTH e = Some CURLAUTH_BASIC ->
    USERPWD e = Some s -> split_first ":"%char s = Some (user, pass) ->
    w_credentials (wire e ls) = Some (user, pass);
  wire_anonymous e ls h p : plain_host h = true -> plain_path p = true ->
    URL e = Some (String.append "https://" (String.append h p)) -> USERPWD e = None -> w_credentials (wire e ls) = None;
}.

Definition nul_free (s : string) : Prop := str_mem (ch 0) s = false.

Lemma plain_host_nul h : plain_host h = true -> nul_free h.
Proof. intros [_ H]%andb_true_iff. by apply (str_all_mem host_char). Qed.
Lemma plain_path_nul p : plain_path p = true -> nul_free p.
Proof. intros [[_ H]%andb_true_iff _]%andb_true_iff. by apply (str_all_mem path_char). Qed.
Lemma plain_method_nul m : plain_method m = true -> nul_free m.
Proof. intros [_ H]%andb_true_iff. by apply (str_all_mem method_char). Qed.
Lemma plain_value_nul v : plain_value v = true -> nul_free v.
Proof. intros [_ H]%andb_true_iff. by apply (str_all_mem value_char). Qed.

(** The texts of a request that libcurl sends as they are. *)
Record sendable (ca serverHost method path contentType user pass : string) : Prop := {
  send_host : plain_host serverHost = true;
  send_path : plain_path path = true;
  send_method : plain_method method = true;
  send_type : plain_value contentType = true;
  send_rest : Forall nul_free [ca; user; pass];
  send_user : str_mem ":"%char user = false;
}.

(** The request that was asked for.  A GET has no body.  Without a body to send
    there is no header line, and a method other than GET gets libcurl's own
    content type. *)
Definition asked_for (ca serverHost method path body contentType user pass : string) : wire_request :=
  mkWire method (String.append "https://" (String.append serverHost path))
    (if str_eqb method "GET" then EmptyString else body)
    (if str_empty body then if str_eqb method "GET" then None else Some form else Some contentType)
    (if str_empty user then None else Some (user, pass)) ca 30.

Section Sent.
#[local] Set Default Proof Using "All".
Context (wire : easy -> list string -> wire_request) `{!Documented wire}.

Ltac nul_free_parts :=
  repeat match goal with H : Forall _ (_ :: _) |- _ => apply Forall_cons in H as [? H] end; unfold nul_free in *.
Ltac options_of :=
  unfold asked_options, credential_options, header_options, method_options;
  repeat match goal with
  | |- context [if ?b then _ else _] => destruct b
  | |- context [match ?h with Some _ => _ | None => _ end] => destruct h
  end; try reflexivity.

Section Fields.
Context (ca serverHost method path body contentType user pass : string) (headers : option nat).
Let e := asked_options ca serverHost method path body user pass headers.

Lemma asked_url : URL e = Some (c_str (String.append "https://" (String.append serverHost path))).
Proof using Type. unfold e. options_of. Qed.
Lemma asked_ca : CAINFO e = Some (c_str ca).
Proof using Type. unfold e. options_of. Qed.
Lemma asked_timeout : TIMEOUT e = 30.
Proof using Type. unfold e. options_of. Qed.
Lemma asked_userpwd : HTTPAUTH e = (if str_empty user then None else Some CURLAUTH_BASIC) /\
  USERPWD e = (if str_empty user then None else Some (c_str (String.append user (String.append ":" pass)))).
Proof using Type. unfold e. options_of; by destruct (str_empty user). Qed.
Lemma asked_method :
  HTTPGET e = str_eqb method "GET" /\ POST e = str_eqb method "POST" /\
  CUSTOMREQUEST e = (if str_eqb method "GET" || str_eqb method "POST" then None else Some (c_str method)) /\
  POSTFIELDS e = (if str_eqb method "GET" then None else Some body) /\
  (str_eqb method "GET" = false -> POSTFIELDSIZE e = Some (Z.of_nat (String.length body))).
Proof using Type.
  unfold e, asked_options, credential_options, header_options, method_options.
  assert (str_eqb method "GET" = true -> str_eqb method "POST" = false) as Hne
    by (unfold str_eqb; intros ->%bool_decide_eq_true_1; reflexivity).
  destruct (str_empty user), headers, (str_eqb method "GET"), (str_eqb method "POST"); try (by discriminate Hne); done.
Qed.
Lemma asked_header : HTTPHEADER e = headers.
Proof using Type. unfold e. by apply header_kept. Qed.
End Fields.

Lemma asked_options_sent ca serverHost method path body contentType user pass headers
    (Hh : is_Some headers <-> str_empty body = false) (Hs : sendable ca serverHost method path contentType user pass) :
  wire (asked_options ca serverHost method path body user pass headers) (header_lines body contentType) =
  asked_for ca serverHost method path body contentType user pass.
Proof.
  destruct Hs as [Hhost Hpath Hmethod Htype Hnul Huser].
  pose proof (plain_host_nul _ Hhost). pose proof (plain_path_nul _ Hpath). pose proof (plain_method_nul _ Hmethod).
  pose proof (plain_value_nul _ Htype). nul_free_parts.
  pose proof (asked_url ca serverHost method path body user pass headers) as Hurl.
  pose proof (asked_ca ca serverHost method path body user pass headers) as Hca.
  pose proof (asked_timeout ca serverHost method path body user pass headers) as Ht.
  pose proof (asked_userpwd ca serverHost method path body user pass headers) as (Hauth & Hpwd).
  pose proof (asked_method ca serverHost method path body user pass headers) as (Hget & Hpost & Hcustom & Hfields & Hsize).
  pose proof (asked_header ca serverHost method path body user pass headers) as Hhdr.
  set (e := asked_options _ _ _ _ _ _ _ _) in *. clearbody e. set (ls := header_lines body contentType).
  rewrite c_str_id in Hurl by (rewrite !str_mem_app; by repeat (apply orb_false_iff; split)).
  assert (w_url (wire e ls) = String.append "https://" (String.append serverHost path)) as E1 by by apply wire_url.
  assert (w_ca (wire e ls) = ca) as E2 by (erewrite wire_ca by exact Hca; by apply c_str_id).
  assert (w_timeout (wire e ls) = 30) as E3 by (by rewrite wire_timeout).
  assert (w_credentials (wire e ls) = if str_empty user then None else Some (user, pass)) as E4.
  { destruct (str_empty user); [by eapply wire_anonymous|]. eapply wire_basic; [exact Hhost|exact Hpath|done|done|exact Hpwd|].
    rewrite c_str_id; [by apply split_first_app|]. rewrite !str_mem_app. by repeat (apply orb_false_iff; split). }
  assert (w_method (wire e ls) = method /\ w_body (wire e ls) = if str_eqb method "GET" then EmptyString else body) as [E5 E6].
  { destruct (str_eqb method "GET") eqn:Eg.
    - unfold str_eqb in Eg. apply bool_decide_eq_true_1 in Eg as ->. by apply wire_get.
    - split.
      + destruct (str_eqb method "POST") eqn:Ep; cbn in Hcustom.
        * rewrite wire_post by done. unfold str_eqb in Ep. by apply bool_decide_eq_true_1 in Ep.
        * rewrite c_str_id in Hcustom by done. by apply wire_custom.
      + erewrite wire_body; [|done|exact Hfields|by apply Hsize|lia]. rewrite Nat2Z.id. apply substring_all. }
  assert (w_content_type (wire e ls) = if str_empty body then if str_eqb method "GET" then None else Some form else Some contentType) as E7.
  { unfold ls, header_lines. destruct (str_empty body) eqn:Eb; [|].
    { destruct (str_eqb method "GET") eqn:Eg; [|by apply wire_form; rewrite ?Hfields; eauto].
      apply wire_no_type; [done| |done]. unfold str_eqb in *. bdec. by subst. }
    rewrite c_str_id; [apply wire_line; [done|]; rewrite Hhdr; by apply Hh|]. rewrite str_mem_app. by apply orb_false_iff. }
  unfold asked_for. destruct (wire e ls). cbn in *. congruence.
Qed.

(** C30: What a request of RegistrationClient does, whatever fails in libcurl
    and whatever comes back: it releases the libcurl objects it made, also when
    it throws; it performs one transfer, or none when no handle could be made,
    which is an exception; a failed transfer is an exception that names the
    path, and an answered one gives the body put together from its pieces.
    When no call into libcurl failed, the server sees exactly the request that
    was asked for: method, https URL, body (a GET has none), the content type
    given when there is a body, and Basic credentials when there is a user,
    checked against the CA certificate whose path was resolved by the first
    request of the process.  With an empty body a method other than GET still
    sends a form, with libcurl's own content type.  This is for texts libcurl
    sends as they are ([sendable]): a host and a path without characters to
    escape and without dot segments, a plain method and content type, a user
    name without a colon. *)
Theorem request_sent_as_asked (curl_fault : nat -> bool) (fileExists : string -> bool)
    (serverHost method path body contentType user pass : string) (x : transfer) (s : curl) (Hf : fresh_heap (c_heap s)) :
  let '(o, s') := requestRaw curl_fault fileExists serverHost method path body contentType user pass x s in
  objects (c_heap s') = objects (c_heap s) /\ fresh_heap (c_heap s') /\
  ((o = Throw (StdError "curl_easy_init failed") /\ performed s' = performed s /\ ca_path s' = ca_path s) \/
   exists e ls st,
     o = match ended x with
         | inl error => Throw (StdError (String.append "HTTP request to " (String.append path (String.append " failed: " error))))
         | inr _ => Ok (mkHttpResponse st (String.concat EmptyString (pieces x)))
         end /\
     performed s' = performed s ++ [(e, ls)] /\ ca_path s' = Some (known_ca fileExists s) /\
     ((exists n, curl_fault n = true) \/
      (forall status, ended x = inr status -> st = status) /\
      (sendable (known_ca fileExists s) serverHost method path contentType user pass ->
       wire e ls = asked_for (known_ca fileExists s) serverHost method path body contentType user pass))).
Proof.
  pose proof (doRequest_spec curl_fault fileExists serverHost method path body contentType user pass x s Hf) as H. cbv zeta in H.
  unfold requestRaw. destruct (doRequest _ _ _ _ _ _ _ _ _ _ s) as [o s']. cbn [fst snd] in H.
  destruct (curl_fault (ffi_made (c_heap s))).
  - destruct H as (H1 & H2 & H3 & H4 & H5). split; [done|]. split; [done|]. by left.
  - destruct H as (H1 & H2 & H3 & e & ls & st & H4 & H5 & H6). cbn [fst snd] in *. split; [done|]. split; [done|]. right. exists e, ls, st.
    rewrite pieces_concat in H4. split; [done|]. split; [done|]. split; [done|].
    destruct H6 as [H6|(-> & Hst & headers & Hh & ->)]; [by left|right]. split; [done|]. intros. by apply asked_options_sent.
Qed.
End Sent.

(** ** Example: the finishing request of a linked device *)

(** libcurl as documented, for these options. *)
Definition curl_wire (e : easy) (ls : list string) : wire_request :=
  mkWire (match CUSTOMREQUEST e with Some m => m | None => if HTTPGET e then "GET" else "POST" end)
    (default EmptyString (URL e))
    (if HTTPGET e then EmptyString
     else match POSTFIELDS e, POSTFIELDSIZE e with
          | Some b, Some n => String.substring 0 (Z.to_nat n) b
          | Some b, None => c_str b
          | None, _ => EmptyString
          end)
    (match ls with l :: _ => Some (String.substring 14 (String.length l - 14) l) | [] => if HTTPGET e then None else (fun _ => form) <$> POSTFIELDS e end)
    (match USERPWD e with Some s => split_first ":"%char s | None => None end)
    (default EmptyString (CAINFO e)) (TIMEOUT e).

#[export] Instance curl_wire_documented : Documented curl_wire.
Proof.
  split; unfold curl_wire; cbn.
  - by intros e ls h p _ _ ->.
  - by intros e ls p ->.
  - done.
  - by intros e ls -> _ -> _.
  - by intros e ls -> _ ->.
  - by intros e ls m _ _ ->.
  - by intros e ls b n -> -> ->.
  - intros e v _ _. change (Some (String.substring 0 (String.length v - 0) v) = Some v). by rewrite Nat.sub_0_r, substring_all.
  - by intros e -> [b ->].
  - by intros e ->.
  - by intros e ls h p s user pass _ _ _ _ -> ->.
  - by intros e ls h p _ _ _ ->.
Qed.

Definition link_transfer : transfer := mkTransfer ["{'uuid':"; "1}"]%string (inr 200).
Definition no_request_yet : curl := mkCurl (mkHeap ∅ 0 0) None [].

Lemma request_sent_as_asked_witness :
  let '(o, s') := requestRaw never_fails (fun _ => false) "chat.signal.org" "PUT" "/v1/devices/link" "{}" "application/json" "aci" "pw"
    link_transfer no_request_yet in
  o = Ok (mkHttpResponse 200 "{'uuid':1}") /\ objects (c_heap s') = ∅ /\
  map (fun '(e, ls) => curl_wire e ls) (performed s') =
    [mkWire "PUT" "https://chat.signal.org/v1/devices/link" "{}" (Some "application/json") (Some ("aci", "pw")) "./certs/signal-root-ca.pem" 30]%string.
Proof.
  pose proof (request_sent_as_asked curl_wire never_fails (fun _ => false) "chat.signal.org" "PUT" "/v1/devices/link" "{}" "application/json"
    "aci" "pw" link_transfer no_request_yet ltac:(by intros h _)) as H.
  destruct (requestRaw _ _ _ _ _ _ _ _ _ _ _) as [o s'] eqn:E. destruct H as (H1 & _ & [(-> & _)|(e & ls & st & -> & H2 & _ & [[n H3]|[H3 H4]])]).
  - vm_compute in E. discriminate.
  - discriminate H3.
  - rewrite (H3 200 eq_refl), H2. split; [reflexivity|]. split; [exact H1|]. cbn [performed no_request_yet app map].
    rewrite H4; [reflexivity|]. split; try reflexivity. repeat (apply Forall_cons; split; [reflexivity|]). by apply Forall_nil.
Defined.
