(* ===== verification/AuthSocket.v ===== *)
(** The account's authenticated connection (src/signal/AuthSocket.cpp).

    libsignal-net is asynchronous: [doConnect] starts an attempt and waits, a
    worker thread runs the completion.  [Attempt] is that race, step by step,
    over the shared [ConnectState]; [Socket] is the object's state between
    attempts, with every entry point as an operation on it. *)

From S2P Require Import Prelude.
From stdpp Require Import sets gmap.

Open Scope Z_scope.

Definition kErrorConnectionInvalidated : Z := 172.
Definition kErrorConnectedElsewhere : Z := 173.
Definition kErrorDeviceDeregistered : Z := 171.
Definition kErrorWebSocketGeneric : Z := 146.

(** ** One connection attempt *)

Module Attempt.

(** What the completion is called with. *)
Inductive completion := Failure (code : Z) | Session (id : nat).

(** [doConnect] after the call that starts the attempt. *)
Inductive waiter :=
| Waiting                          (* cv.wait_for *)
| Woken                            (* predicate true, lock released *)
| Took (r : completion)            (* copied error/result, deleted state *)
| GaveUp.                          (* set abandoned, threw *)

(** The completion lambda. *)
Inductive callback :=
| Pending
| MustNotify                       (* stored the result, lock released *)
| MustCleanUp (r : completion)     (* saw abandoned, lock released *)
| Finished.

(** [frees] counts the deletes of the ConnectState; [bad_access] is set when
    a thread touches it after one; [destroyed] are the sessions the
    completion tore down. *)
Record state := mkState {
  w : waiter; cb : callback;
  done : bool; abandoned : bool; result : option completion;
  frees : nat; bad_access : bool; destroyed : list nat;
}.

Definition init : state := mkState Waiting Pending false false None 0 false [].

Definition touch (s : state) : bool := bad_access s || negb (Nat.eqb (frees s) 0).

Inductive step : state -> state -> Prop :=
(* lambda: lock, not abandoned: store and set done *)
| step_complete s r : cb s = Pending -> abandoned s = false ->
    step s (mkState (w s) MustNotify true (abandoned s) (Some r) (frees s) (touch s) (destroyed s))
(* lambda: lock, abandoned: keep the late result *)
| step_late s r : cb s = Pending -> abandoned s = true ->
    step s (mkState (w s) (MustCleanUp r) (done s) (abandoned s) (result s) (frees s) (touch s)
              (destroyed s))
(* lambda: st->cv.notify_all() *)
| step_notify s : cb s = MustNotify ->
    step s (mkState (w s) Finished (done s) (abandoned s) (result s) (frees s) (touch s) (destroyed s))
(* lambda: disconnectAndDestroyBestEffort, delete st *)
| step_clean_up s r : cb s = MustCleanUp r ->
    step s (mkState (w s) Finished (done s) (abandoned s) (result s) (S (frees s)) (touch s)
              (match r with Session id => id :: destroyed s | Failure _ => destroyed s end))
(* doConnect: wait_for returns true: notified, spurious wake-up or last check *)
| step_wake s : w s = Waiting -> done s = true ->
    step s (mkState Woken (cb s) (done s) (abandoned s) (result s) (frees s) (touch s) (destroyed s))
(* doConnect: kConnectTimeout elapsed *)
| step_timeout s : w s = Waiting -> done s = false ->
    step s (mkState GaveUp (cb s) (done s) true (result s) (frees s) (touch s) (destroyed s))
(* doConnect: read error and result, delete state *)
| step_take s r : w s = Woken -> result s = Some r ->
    step s (mkState (Took r) (cb s) (done s) (abandoned s) (result s) (S (frees s)) (touch s)
              (destroyed s)).

(** Who is responsible for the ConnectState and for the session, at each
    point of the two threads. *)
Definition inv (s : state) : Prop :=
  match w s, cb s with
  | Waiting, Pending => done s = false /\ abandoned s = false /\ result s = None /\ frees s = 0%nat /\ destroyed s = []
  | Waiting, (MustNotify | Finished) | Woken, (MustNotify | Finished) =>
      done s = true /\ abandoned s = false /\ is_Some (result s) /\ frees s = 0%nat /\ destroyed s = []
  | Took r, (MustNotify | Finished) =>
      done s = true /\ abandoned s = false /\ result s = Some r /\ frees s = 1%nat /\ destroyed s = []
  | GaveUp, (Pending | MustCleanUp _) =>
      done s = false /\ abandoned s = true /\ result s = None /\ frees s = 0%nat /\ destroyed s = []
  | GaveUp, Finished =>
      done s = false /\ abandoned s = true /\ result s = None /\ frees s = 1%nat
  | _, _ => False
  end.

Lemma attempt_init : inv init.
Proof. done. Qed.

Lemma attempt_step s s' : inv s -> step s s' -> inv s'.
Proof.
  unfold inv. intros Hi Hs. destruct Hs; destruct s as [w0 cb0 d a res f b l]; cbn in *; subst;
    try destruct w0; try destruct cb0; cbn in *; naive_solver.
Qed.

Lemma attempt_reachable s : rtc step init s -> inv s.
Proof. apply rtc_invariant; [apply attempt_step|apply attempt_init]. Qed.

(** In every reachable state of the race between [doConnect] and its
    completion, the shared ConnectState has been deleted at most once; when
    both are through, it has been deleted exactly once, and the result was
    either taken by [doConnect] (and then nothing was torn down behind its
    back) or the attempt was abandoned, its late session, if any, having been
    torn down by the completion: no attempt leaves a second live session. *)
Lemma connect_ownership (s : state) :
  rtc step init s ->
  (frees s <= 1)%nat /\
  (cb s = Finished -> (exists r, w s = Took r) \/ w s = GaveUp ->
     frees s = 1%nat /\
     ((exists r, w s = Took r /\ result s = Some r /\ destroyed s = []) \/
      (w s = GaveUp /\ result s = None))).
Proof.
  intros Hr. pose proof (attempt_reachable s Hr) as Hi. unfold inv in Hi.
  destruct (w s) as [| |r|] eqn:Ew, (cb s) as [| |r'|] eqn:Ecb; try done; (split; [lia|]);
    try done; naive_solver.
Qed.

(** The attempt that times out just before its session arrives. *)
Lemma late_run :
  rtc step init (mkState GaveUp Finished false true None 1 false [7%nat]).
Proof.
  eapply rtc_l; [by apply step_timeout|]. cbn.
  eapply rtc_l; [by apply (step_late _ (Session 7))|]. cbn.
  eapply rtc_l; [by eapply step_clean_up|]. apply rtc_refl.
Qed.

Lemma connect_ownership_witness :
  let s := mkState GaveUp Finished false true None 1 false [7%nat] in
  (frees s <= 1)%nat /\
  (cb s = Finished -> (exists r, w s = Took r) \/ w s = GaveUp ->
     frees s = 1%nat /\
     ((exists r, w s = Took r /\ result s = Some r /\ destroyed s = []) \/
      (w s = GaveUp /\ result s = None))).
Proof. intros s. apply (connect_ownership s). apply late_run. Defined.

(** The completion notifies the condition variable after it has released
    the lock, when [doConnect] may already have seen [done], read the result
    and deleted the state: an execution in which the completion touches the
    deleted ConnectState is reachable, with a successful connection. *)
Lemma notify_after_delete (id : nat) :
  exists s, rtc step init s /\ bad_access s = true /\ w s = Took (Session id) /\ frees s = 1%nat.
Proof.
  eexists. split; [|].
  - eapply rtc_l; [by apply (step_complete _ (Session id))|]. cbn.
    eapply rtc_l; [by apply step_wake|]. cbn.
    eapply rtc_l; [by apply (step_take _ (Session id))|]. cbn.
    eapply rtc_l; [by apply step_notify|]. cbn. apply rtc_refl.
  - done.
Qed.

End Attempt.

(** ** The object *)

Module Socket.

(** [chat] is the handle ([None]: raw == nullptr); [live] the connection
    handles not destroyed yet; [http_live] the request handles; [terminated]
    that a second keep-alive thread was assigned over a joinable one, which is
    std::terminate. *)
Record sock := mkSock {
  chat : option nat; connected : bool; deauthorized : bool;
  stopping : bool; keepAliveThread : bool;
  live : gset nat; http_live : nat; terminated : bool;
}.

Definition fresh_sock : sock := mkSock None false false false false ∅ 0 false.

Definition set_chat (c : option nat) (s : sock) : sock :=
  mkSock c (connected s) (deauthorized s) (stopping s) (keepAliveThread s) (live s) (http_live s) (terminated s).
Definition set_connected (b : bool) (s : sock) : sock :=
  mkSock (chat s) b (deauthorized s) (stopping s) (keepAliveThread s) (live s) (http_live s) (terminated s).
Definition set_deauthorized (b : bool) (s : sock) : sock :=
  mkSock (chat s) (connected s) b (stopping s) (keepAliveThread s) (live s) (http_live s) (terminated s).
Definition set_threads (stop keep : bool) (s : sock) : sock :=
  mkSock (chat s) (connected s) (deauthorized s) stop keep (live s) (http_live s) (terminated s).
Definition set_live (l : gset nat) (s : sock) : sock :=
  mkSock (chat s) (connected s) (deauthorized s) (stopping s) (keepAliveThread s) l (http_live s) (terminated s).
Definition set_http (n : nat) (s : sock) : sock :=
  mkSock (chat s) (connected s) (deauthorized s) (stopping s) (keepAliveThread s) (live s) n (terminated s).

Definition set_terminated (b : bool) (s : sock) : sock :=
  mkSock (chat s) (connected s) (deauthorized s) (stopping s) (keepAliveThread s) (live s) (http_live s) b.

Definition ffi_error {A} (code : Z) : Comp sock A :=
  throw_std (String.append "libsignal error " (to_string code)).

(** [disconnectAndDestroyBestEffort]: errors are dropped, the handle is gone. *)
Definition disconnectAndDestroyBestEffort (c : option nat) : Comp sock unit :=
  match c with
  | None => mret tt
  | Some id => modify (fun s => set_live (live s ∖ {[ id ]}) s)
  end.

(** How an attempt ends for [doConnect] (see [Attempt]); after a time-out a
    late session never reaches the object.  A session comes with the result
    of installing its listener. *)
Inductive attempt_result :=
| StartFailed (code : Z)
| TimedOut
| Refused (code : Z)
| Opened (id : nat) (listener_error : option Z).

Definition doConnect (r : attempt_result) : Comp sock unit :=
  modify (set_connected false) ;;
  c ← gets chat;
  disconnectAndDestroyBestEffort c ;;
  modify (set_chat None) ;;
  match r with
  | StartFailed code => ffi_error code
  | TimedOut => throw_std "timed out connecting to chat.signal.org"
  | Refused code =>
    when (bool_decide (code = kErrorDeviceDeregistered)) (modify (set_deauthorized true)) ;;
    ffi_error code
  | Opened id listener_error =>
    modify (fun s => set_chat (Some id) (set_live (live s ∪ {[ id ]}) s)) ;;
    match listener_error with
    | Some code => ffi_error code
    | None => modify (set_deauthorized false) ;; modify (set_connected true)
    end
  end.

(** The constructor's proxy setting: host and port given to libsignal,
    [None] to clear the proxy. *)
Definition applyProxyConfig (signalProxy : string) : outcome (option (string * Z)) :=
  if str_empty signalProxy then Ok None
  else match split_last ":"%char signalProxy with
       | None => Ok (Some (signalProxy, 443))
       | Some (host, suffix) => port ← stoi suffix; mret (Some (host, port))
       end.

(** [onConnectionInterrupted]: [err] is the code of the error, if any. *)
Definition onConnectionInterrupted (err : option Z) : Comp sock unit :=
  modify (set_connected false) ;;
  match err with
  | Some code =>
    when (bool_decide (code = kErrorConnectionInvalidated)) (modify (set_deauthorized true))
  | None => mret tt
  end.

Record Response := mkResponse { status : Z; body : Bytes }.

(** libsignal's part of one request: building it (the new call, and with a
    body the header call), sending it, and its completion. *)
Record exchange := mkExchange {
  new_error : option Z; header_error : option Z; send_call_error : option Z;
  completion : Z + option Response;   (* error code, or the response if there is one *)
}.

Definition destroy_http : Comp sock unit := modify (fun s => set_http (http_live s - 1) s).

Definition dropped (code : Z) : bool :=
  bool_decide (code = kErrorConnectionInvalidated) || bool_decide (code = kErrorConnectedElsewhere) ||
  bool_decide (code = kErrorWebSocketGeneric).

Definition check (e : option Z) : Comp sock unit :=
  match e with Some code => ffi_error code | None => mret tt end.

Definition doRequest (has_body : bool) (x : exchange) : Comp sock Response :=
  check (new_error x) ;;
  modify (fun s => set_http (S (http_live s)) s) ;;
  when has_body (check (header_error x)) ;;
  c ← gets chat;
  match c with
  | None => destroy_http ;; mret (mkResponse 0 [])
  | Some _ =>
    match send_call_error x with
    | Some code => destroy_http ;; ffi_error code
    | None =>
      destroy_http ;;
      match completion x with
      | inl code => if dropped code then mret (mkResponse 0 []) else ffi_error code
      | inr (Some r) => mret r
      | inr None => mret (mkResponse 0 [])
      end
    end
  end.

Definition sendKeepAlive (x : exchange) : Comp sock unit :=
  c ← gets connected;
  if negb (c : bool) then mret tt
  else catch_std (doRequest false x ;; mret tt) (fun _ => mret tt).

Definition connect (r : attempt_result) : Comp sock unit :=
  doConnect r ;;
  joinable ← gets keepAliveThread;
  when joinable (modify (set_terminated true)) ;;
  modify (fun s => set_threads (stopping s) true s).
Definition reconnect (r : attempt_result) : Comp sock unit := doConnect r.
Definition isConnected : Comp sock bool := gets connected.
Definition isDeauthorized : Comp sock bool := gets deauthorized.

(** [close]: joins the keep-alive thread, drops the connection. *)
Definition close : Comp sock unit :=
  was ← gets stopping;
  modify (fun s => set_threads true (keepAliveThread s) s) ;;
  if (was : bool) then mret tt else
  modify (fun s => set_threads true false s) ;;
  c ← gets chat;
  disconnectAndDestroyBestEffort c ;;
  modify (set_chat None) ;;
  modify (set_connected false).

(** The entry points, as they can be called in any order. *)
Inductive event :=
| Connect (r : attempt_result) | Reconnect (r : attempt_result)
| Interrupted (err : option Z)
| Request (has_body : bool) (x : exchange) | KeepAlive (x : exchange) | Close.

Definition handle (e : event) (s : sock) : sock :=
  match e with
  | Connect r => (connect r s).2
  | Reconnect r => (reconnect r s).2
  | Interrupted err => (onConnectionInterrupted err s).2
  | Request b x => (doRequest b x s).2
  | KeepAlive x => (sendKeepAlive x s).2
  | Close => (close s).2
  end.
Definition run (es : list event) (s : sock) : sock := foldl (fun s e => handle e s) s es.

(** ** The handle invariant *)

Definition owns (s : sock) : Prop :=
  live s = match chat s with Some id => {[ id ]} | None => ∅ end /\
  (connected s = true -> is_Some (chat s)).

(** Unfold every operation down to the state. *)
Ltac run_sock :=
  unfold handle, connect, reconnect, doConnect, doRequest, sendKeepAlive, close,
    onConnectionInterrupted, check, destroy_http, ffi_error, disconnectAndDestroyBestEffort,
    set_chat, set_connected, set_deauthorized, set_threads, set_terminated, set_live, set_http in *; exec.

Lemma doConnect_owns r s : owns s -> owns (doConnect r s).2.
Proof.
  destruct s as [c cn da st ka lv ht tm]. unfold owns. cbn. intros [-> _].
  destruct c as [id|], r as [code| |code|id' [code|]]; run_sock; try case_bool_decide; cbn;
    (split; [set_solver|done || eauto]).
Qed.

Lemma doRequest_frame b x s :
  let s' := (doRequest b x s).2 in
  chat s' = chat s /\ connected s' = connected s /\ live s' = live s /\
  deauthorized s' = deauthorized s /\ stopping s' = stopping s /\ keepAliveThread s' = keepAliveThread s.
Proof.
  destruct s as [c cn da st ka lv ht tm], x as [[n|] [h|] [sc|] [code|[r|]]], b, c as [id|];
    run_sock; try (destruct (dropped code)); cbn; done.
Qed.

Lemma sendKeepAlive_frame x s :
  let s' := (sendKeepAlive x s).2 in
  chat s' = chat s /\ connected s' = connected s /\ live s' = live s /\ deauthorized s' = deauthorized s.
Proof.
  unfold sendKeepAlive, gets, mbind, comp_bind. destruct (connected s) eqn:Ec; [|cbn; auto].
  cbn [negb]. unfold catch_std. destruct (doRequest_frame false x s) as (H1 & H2 & H3 & H4 & _).
  destruct (doRequest false x s) as [[r|[m| |]] s']; cbn in *; rewrite H1, H2, H3, H4, Ec; done.
Qed.

Lemma handle_owns e s : owns s -> owns (handle e s).
Proof.
  intros Ho. destruct e as [r|r|err|b x|x|]; cbn [handle].
  - unfold connect. pose proof (doConnect_owns r s Ho) as H.
    unfold gets, modify, mbind, comp_bind. destruct (doConnect r s) as [[[]|e] s']; [|exact H].
    by destruct (keepAliveThread s') eqn:E; cbn; rewrite ?E.
  - by apply doConnect_owns.
  - destruct s as [c cn da st ka lv ht tm]. unfold owns in *. cbn in *. destruct Ho as [Hl _].
    destruct err as [code|]; run_sock; [case_bool_decide|]; cbn; (split; [done|done]).
  - destruct (doRequest_frame b x s) as (H1 & H2 & H3 & _). unfold owns in *.
    by rewrite H1, H2, H3.
  - destruct (sendKeepAlive_frame x s) as (H1 & H2 & H3 & _). unfold owns in *.
    by rewrite H1, H2, H3.
  - destruct s as [c cn da st ka lv ht tm]. unfold owns in *. cbn in *. destruct Ho as [-> Hc].
    destruct st; [done|]. destruct c as [id|]; run_sock; (split; [set_solver|done]).
Qed.

Lemma run_owns es : owns (run es fresh_sock).
Proof.
  unfold run. assert (owns fresh_sock) as Hf by done. revert Hf. generalize fresh_sock.
  induction es as [|e es IH]; intros s0 H0; [done|]. cbn. apply IH. by apply handle_owns.
Qed.

(** C1: Through any sequence of connects, reconnects, interruptions, requests,
    keep-alives and closes, with any failure of libsignal, the object holds
    exactly the one connection its handle names (none leaks, none is destroyed
    twice), and isConnected implies that there is one; once closed there is
    none, and a request then answers status 0, as it does whenever there is no
    connection. *)
Theorem socket_owns_one_connection (es : list event) (b : bool) (x : exchange) :
  let s := run es fresh_sock in
  live s = match chat s with Some id => {[ id ]} | None => ∅ end /\
  (connected s = true -> is_Some (chat s)) /\
  (stopping s = false -> chat (handle Close s) = None /\ live (handle Close s) = ∅ /\
     connected (handle Close s) = false) /\
  (chat s = None -> new_error x = None -> (b = true -> header_error x = None) ->
     (doRequest b x s).1 = Ok (mkResponse 0 [])).
Proof.
  intros s. pose proof (run_owns es) as Ho. fold s in Ho.
  clearbody s. split; [apply Ho|]. split; [apply Ho|]. split.
  - intros Hs. pose proof (handle_owns Close s Ho) as [Hl _].
    assert (chat (handle Close s) = None /\ connected (handle Close s) = false) as [H1 H2].
    { destruct s as [[id|] cn da st ka lv ht tm]; cbn in Hs; subst; done. }
    rewrite H1 in Hl. done.
  - intros Hc Hn Hh. destruct s as [c cn da st ka lv ht tm], x as [[n|] h sc co]; cbn in Hc, Hn, Hh;
      subst; [done|]. destruct b; [|done]. by rewrite (Hh eq_refl).
Qed.

(** [isDeauthorized] after an event: set by a connection attempt refused
    with "device deregistered" and by an interruption with "connection
    invalidated", cleared by an attempt that succeeds, and left alone by
    everything else (time-outs, other errors, requests, close). *)
Lemma deauthorized_transitions (e : event) (s : sock) :
  deauthorized (handle e s) =
    match e with
    | Connect (Refused code) | Reconnect (Refused code) =>
        bool_decide (code = kErrorDeviceDeregistered) || deauthorized s
    | Interrupted (Some code) =>
        bool_decide (code = kErrorConnectionInvalidated) || deauthorized s
    | Connect (Opened _ None) | Reconnect (Opened _ None) => false
    | _ => deauthorized s
    end.
Proof.
  destruct e as [r|r|err|b x|x|]; cbn [handle].
  1-2: destruct s as [[c|] cn da st [] lv ht tm], r as [code| |code|id [code|]]; run_sock;
    try case_bool_decide; done.
  - destruct s as [c cn da st ka lv ht tm], err as [code|]; run_sock; try case_bool_decide; done.
  - apply doRequest_frame.
  - apply sendKeepAlive_frame.
  - by destruct s as [[c|] cn da [] ka lv ht tm].
Qed.

(** *** The keep-alive thread *)

Lemma doConnect_thread r s :
  keepAliveThread (doConnect r s).2 = keepAliveThread s /\ terminated (doConnect r s).2 = terminated s.
Proof. destruct s as [[c|] cn da st ka lv ht tm], r as [code| |code|id [code|]]; run_sock; try case_bool_decide; done. Qed.

(** Only a [connect] that succeeds while a keep-alive thread is there
    terminates the process. *)
Lemma terminated_only_by_connect (e : event) (s : sock) :
  terminated (handle e s) = terminated s || match e with Connect (Opened _ None) => keepAliveThread s | _ => false end.
Proof.
  destruct e as [r|r|err|b x|x|]; cbn [handle]; rewrite ?orb_false_r.
  - destruct s as [[c|] cn da st [] lv ht []], r as [code| |code|id [code|]]; run_sock; try case_bool_decide; done.
  - apply doConnect_thread.
  - destruct s as [c cn da st ka lv ht tm], err as [code|]; run_sock; try case_bool_decide; done.
  - destruct s as [[c|] cn da st ka lv ht tm], x as [[n|] [h|] [sc|] [code|[r|]]], b;
      run_sock; try (destruct (dropped code)); done.
  - destruct s as [[c|] [] da st ka lv ht tm], x as [[n|] h [sc|] [code|[r|]]];
      run_sock; try (destruct (dropped code)); done.
  - by destruct s as [[c|] cn da [] ka lv ht tm].
Qed.

Definition is_connect (e : event) : bool := match e with Connect _ => true | _ => false end.

Lemma thread_only_by_connect (e : event) (s : sock) :
  is_connect e = false -> keepAliveThread s = false -> keepAliveThread (handle e s) = false.
Proof.
  intros He Hk. destruct e as [r|r|err|b x|x|]; [done|..]; cbn [handle].
  - unfold reconnect. by rewrite (proj1 (doConnect_thread r s)).
  - destruct s as [c cn da st ka lv ht tm], err as [code|]; run_sock; try case_bool_decide; done.
  - by rewrite (proj2 (proj2 (proj2 (proj2 (proj2 (doRequest_frame b x s)))))).
  - destruct s as [[c|] [] da st ka lv ht tm], x as [[n|] h [sc|] [code|[r|]]];
      run_sock; try (destruct (dropped code)); done.
  - by destruct s as [[c|] cn da [] ka lv ht tm].
Qed.

(** Its callers connect an object once, so that never happens. *)
Lemma connected_once (es : list event) (s : sock) :
  (length (List.filter is_connect es) + (if keepAliveThread s then 1 else 0) <= 1)%nat -> terminated s = false ->
  terminated (run es s) = false.
Proof.
  revert s. induction es as [|e es IH]; intros s Hn Ht; [done|]. cbn [List.filter] in Hn. apply IH.
  - destruct (is_connect e) eqn:Ee; cbn [length] in Hn; [destruct (keepAliveThread (handle e s)); lia|].
    destruct (keepAliveThread s) eqn:Ek; [destruct (keepAliveThread (handle e s)); lia|].
    rewrite thread_only_by_connect by done. lia.
  - rewrite terminated_only_by_connect, Ht. destruct e as [[code| |code|id [code|]]|r|err|b x|x|]; try done.
    cbn in Hn. destruct (keepAliveThread s); [lia|done].
Qed.

Example second_connect : terminated (run [Connect (Opened 1 None); Connect (Opened 2 None)] fresh_sock) = true.
Proof. reflexivity. Qed.

End Socket.

Lemma applyProxy_std p : std_outcome (Socket.applyProxyConfig p).
Proof.
  unfold Socket.applyProxyConfig. destruct (str_empty p); [done|].
  destruct (split_last _ p) as [[h s]|]; [|done]. pose proof (std_stoi s) as H. unfold mbind, outcome_bind. by destruct (stoi s).
Qed.
