(* ===== verification/SocketLife.v ===== *)
(** The libsignal objects of an [AuthSocket] (src/signal/AuthSocket.cpp):
    constructor, proxy configuration, destructor, and the callback for a
    pushed message.

    [AuthSocket.Socket] models what the object does while it lives; here the
    handles it owns are entries of a table of live objects (Handles), and every
    libsignal call can fail. *)

From S2P Require Import Prelude Handles AuthSocket.

Open Scope Z_scope.

(** What libsignal keeps; a connection manager remembers the proxy and the
    censorship switch it was given. *)
Inductive object :=
| AsyncContext
| ConnectionManager (proxy : option (string * Z)) (censorship : bool)
| StringMap
| ProxyConfig (host : string) (port : Z)
| MessageAck.

Section Life.
Context (ffi_fault : nat -> bool).

Local Abbreviation checked := (checked ffi_fault).
Local Abbreviation acquire := (acquire ffi_fault).
Local Abbreviation release := (release ffi_fault).
Local Abbreviation release_quietly := (release_quietly ffi_fault).

Definition on_object (h : nat) (f : object -> object) : Comp (heap object) unit :=
  modify (fun s => mkHeap (alter f h (objects s)) (next_object s) (ffi_made s)).
Definition set_proxy (p : option (string * Z)) (o : object) : object :=
  match o with ConnectionManager _ c => ConnectionManager p c | _ => o end.
Definition set_censorship (c : bool) (o : object) : object :=
  match o with ConnectionManager p _ => ConnectionManager p c | _ => o end.

Definition makeConnectionManager : Comp (heap object) nat :=
  remoteConfig ← acquire "signal_bridged_string_map_new" StringMap;
  manager ← acquire "signal_connection_manager_new" (ConnectionManager None false);
  release "signal_bridged_string_map_destroy" remoteConfig ;;
  mret manager.

Definition applyProxyConfig (manager : nat) (signalProxy : string) (censorshipCircumvention : bool) : Comp (heap object) unit :=
  target ← of_outcome (Socket.applyProxyConfig signalProxy);
  match target with
  | None => checked "signal_connection_manager_clear_proxy" ;; on_object manager (set_proxy None)
  | Some (host, port) =>
    proxyConfig ← acquire "signal_connection_proxy_config_new" (ProxyConfig host port);
    (checked "signal_connection_manager_set_proxy" ;; on_object manager (set_proxy (Some (host, port)))) ;;
    release "signal_connection_proxy_config_destroy" proxyConfig
  end ;;
  checked "signal_connection_manager_set_censorship_circumvention_enabled" ;;
  on_object manager (set_censorship censorshipCircumvention).

(** [Impl]'s handles. *)
Record impl := mkImpl { asyncContext : nat; connectionManager : nat }.

(** [Impl()], before the object's own settings are there. *)
Definition new_Impl : Comp (heap object) impl :=
  context ← acquire "signal_tokio_async_context_new" AsyncContext;
  manager ← makeConnectionManager;
  applyProxyConfig manager "" false ;;
  mret (mkImpl context manager).

(** [AuthSocket::AuthSocket] *)
Definition new_AuthSocket (signalProxy : string) (censorshipCircumvention : bool) : Comp (heap object) impl :=
  i ← new_Impl;
  applyProxyConfig (connectionManager i) signalProxy censorshipCircumvention ;;
  mret i.

End Life.

(** The object: what it owns of libsignal, and its connection. *)
Record owner := mkOwner { o_heap : heap object; o_sock : Socket.sock }.
#[export] Instance owner_heap : Has (heap object) owner := { prj := o_heap; put := fun h o => mkOwner h (o_sock o) }.
#[export] Instance owner_sock : Has Socket.sock owner := { prj := o_sock; put := fun s o => mkOwner (o_heap o) s }.

(** [~Impl()] *)
Definition delete_Impl (ffi_fault : nat -> bool) (i : impl) : Comp owner unit :=
  lift (modify (Socket.set_threads true false)) ;;
  c ← lift (gets Socket.chat);
  lift (Socket.disconnectAndDestroyBestEffort c) ;;
  lift (modify (Socket.set_chat None)) ;;
  lift (release_quietly ffi_fault "signal_connection_manager_destroy" (connectionManager i)) ;;
  lift (release_quietly ffi_fault "signal_tokio_async_context_destroy" (asyncContext i)).

(** [AuthSocket::~AuthSocket] *)
Definition delete_AuthSocket (ffi_fault : nat -> bool) (i : impl) : Comp owner unit :=
  lift Socket.close ;; delete_Impl ffi_fault i.

(** [onReceivedIncomingMessage]: libsignal's ack object is used up and
    destroyed, then the message is handed on. *)
Record received := mkReceived { rc_heap : heap object; acked : nat; handed_on : list (string * string * Bytes) }.
#[export] Instance received_heap : Has (heap object) received := { prj := rc_heap; put := fun h r => mkReceived h (acked r) (handed_on r) }.

Definition onReceivedIncomingMessage (ffi_fault : nat -> bool) (envelope : Bytes) (ack : nat) : Comp received Z :=
  catch_std (lift (checked ffi_fault "signal_server_message_ack_send") ;;
             modify (fun r => mkReceived (rc_heap r) (S (acked r)) (handed_on r)))
            (fun _ => mret tt) ;;
  lift (release_quietly ffi_fault "signal_server_message_ack_destroy" ack) ;;
  modify (fun r => mkReceived (rc_heap r) (acked r) (handed_on r ++ [("PUT", "/api/v1/message", envelope)]%string)) ;;
  mret 0.

(** ** What the constructor leaves *)

Section lemmas.
Context (ffi_fault : nat -> bool).

(** The manager behind [h] has these settings, the other objects are [m]. *)
Definition manager_at (m : gmap nat object) (h : nat) (p : option (string * Z)) (c : bool) (s : heap object) : Prop :=
  fresh_heap s /\ m !! h = None /\ objects s = <[h := ConnectionManager p c]> m.

Local Abbreviation succeeds := (yields True).

Lemma checked_manager what m h p c : succeeds (manager_at m h p c) (checked ffi_fault what) (fun _ => manager_at m h p c).
Proof. intros s H. unfold checked. by destruct (ffi_fault _). Qed.

Lemma on_manager f p' c' m h p c : f (ConnectionManager p c) = ConnectionManager p' c' ->
  succeeds (manager_at m h p c) (on_object h f) (fun _ => manager_at m h p' c').
Proof.
  intros Hf s (Hfr & Hm & Ho). cbn. split_and!; [|done|by rewrite Ho, alter_insert_eq, Hf].
  intros n Hn. cbn in *. rewrite lookup_alter. case_decide; [subst n|]; by rewrite Hfr.
Qed.

(** An object made for one call and destroyed after it. *)
Lemma scoped_manager what1 what2 o (k : nat -> Comp (heap object) unit) m h p c p' c' :
  (forall m' n, m' !! h = None -> succeeds (manager_at m' h p c) (k n) (fun _ => manager_at m' h p' c')) ->
  succeeds (manager_at m h p c) (n ← acquire ffi_fault what1 o; k n ;; release ffi_fault what2 n) (fun _ => manager_at m h p' c').
Proof.
  intros Hk s (Hf & Hm & Ho). unfold acquire, checked, insert_object, mbind, comp_bind. cbn.
  destruct (ffi_fault (ffi_made s)); [done|]. cbn. set (n := next_object s).
  assert (objects s !! n = None) as Hn by (by apply Hf). rewrite Ho in Hn. apply lookup_insert_None in Hn as [Hmn Hne].
  assert (manager_at (<[n := o]> m) h p c (mkHeap (<[n := o]> (objects s)) (S n) (S (ffi_made s)))) as Hc.
  { split_and!; cbn; [|by rewrite lookup_insert_ne|by rewrite Ho, insert_insert_ne].
    intros j Hj. cbn in *. rewrite lookup_insert_ne by lia. apply Hf. fold n. lia. }
  specialize (Hk (<[n := o]> m) n ltac:(by rewrite lookup_insert_ne) _ Hc). destruct (k n _) as [[[]|e] s1]; [|done].
  destruct Hk as (Hf1 & _ & Ho1). unfold release, checked, delete_object, mbind, comp_bind. cbn.
  destruct (ffi_fault (ffi_made s1)); [done|]. cbn. split_and!; [|done|].
  - intros j Hj. cbn in *. apply lookup_delete_None. right. by apply Hf1.
  - cbn. by rewrite Ho1, delete_insert_ne, delete_insert_id.
Qed.

Lemma applyProxyConfig_sets m h p c signalProxy censorship :
  succeeds (manager_at m h p c) (applyProxyConfig ffi_fault h signalProxy censorship) (fun _ s =>
    exists t, Socket.applyProxyConfig signalProxy = Ok t /\ manager_at m h t censorship s).
Proof.
  unfold applyProxyConfig. destruct (Socket.applyProxyConfig signalProxy) as [t|e]; [|by intros s _].
  eapply yields_bind with (Q := fun t' s => t' = t /\ manager_at m h p c s); [by intros s H|]. intros t'.
  eapply yields_bind with (Q := fun _ s => manager_at m h t c s).
  - intros s [-> Hs]. revert s Hs. change (succeeds (manager_at m h p c) (match t with
      | None => checked ffi_fault "signal_connection_manager_clear_proxy" ;; on_object h (set_proxy None)
      | Some (host, port) => proxyConfig ← acquire ffi_fault "signal_connection_proxy_config_new" (ProxyConfig host port);
          (checked ffi_fault "signal_connection_manager_set_proxy" ;; on_object h (set_proxy (Some (host, port)))) ;;
          release ffi_fault "signal_connection_proxy_config_destroy" proxyConfig
      end) (fun _ => manager_at m h t c)). destruct t as [[host port]|].
    + apply scoped_manager. intros m' n _. eapply yields_bind; [apply checked_manager|intros ?; by apply on_manager].
    + eapply yields_bind; [apply checked_manager|intros ?; by apply on_manager].
  - intros ?. eapply yields_bind with (Q := fun _ s => manager_at m h t c s).
    + apply checked_manager.
    + intros ? s Hs. pose proof (on_manager (set_censorship censorship) t censorship m h t c eq_refl s Hs) as H.
      destruct (on_object _ _ s) as [[[]|] ?]; [by exists t|done].
Qed.

(** The async context, the settings libsignal has, and nothing else. *)
Definition built (m : gmap nat object) (i : impl) (t : option (string * Z)) (c : bool) (s : heap object) : Prop :=
  manager_at (<[asyncContext i := AsyncContext]> m) (connectionManager i) t c s /\ m !! asyncContext i = None.

Lemma makeConnectionManager_makes m a : succeeds (fun s => fresh_heap s /\ objects s = <[a := AsyncContext]> m /\ m !! a = None)
  (makeConnectionManager ffi_fault) (fun h s => built m (mkImpl a h) None false s).
Proof.
  intros s (Hf & Ho & Hm). unfold makeConnectionManager, acquire, release, checked, insert_object, delete_object, mbind, comp_bind. cbn.
  destruct (ffi_fault _); [done|]. cbn. destruct (ffi_fault _); [done|]. cbn. destruct (ffi_fault _); [done|]. cbn.
  set (n := next_object s) in *.
  assert (objects s !! n = None) as Hn by (by apply Hf). assert (objects s !! S n = None) as Hn2 by (apply Hf; lia).
  assert (delete n (<[S n := ConnectionManager None false]> (<[n := StringMap]> (objects s))) = <[S n := ConnectionManager None false]> (objects s)) as ->
    by (rewrite delete_insert_ne, delete_insert_id by (done || lia); done).
  split; [|done]. split_and!; cbn; [|by rewrite <- Ho|by rewrite Ho].
  intros j Hj. cbn in *. rewrite lookup_insert_ne by lia. apply Hf. fold n. lia.
Qed.

Lemma new_Impl_makes m : succeeds (fun s => fresh_heap s /\ objects s = m) (new_Impl ffi_fault) (fun i s => built m i None false s).
Proof.
  eapply yields_bind with (Q := fun a s => fresh_heap s /\ objects s = <[a := AsyncContext]> m /\ m !! a = None).
  - intros s [Hf <-]. unfold acquire, checked, insert_object, mbind, comp_bind. cbn. destruct (ffi_fault _); [done|]. cbn.
    split_and!; [|done|by apply Hf]. intros j Hj. cbn in *. rewrite lookup_insert_ne by lia. apply Hf. lia.
  - intros a. eapply yields_bind; [apply makeConnectionManager_makes|]. intros h.
    eapply yields_bind with (Q := fun _ s => built m (mkImpl a h) None false s); [|intros ?; by apply yields_ret].
    intros s [Hb Hm]. pose proof (applyProxyConfig_sets _ _ _ _ "" false s Hb) as H.
    destruct (applyProxyConfig _ _ _ _ s) as [[[]|] ?]; [|done]. by destruct H as (t & [= <-] & H).
Qed.

Lemma new_AuthSocket_makes m signalProxy censorship :
  succeeds (fun s => fresh_heap s /\ objects s = m) (new_AuthSocket ffi_fault signalProxy censorship) (fun i s =>
    exists t, Socket.applyProxyConfig signalProxy = Ok t /\ built m i t censorship s).
Proof.
  eapply yields_bind; [apply new_Impl_makes|]. intros i.
  eapply yields_bind with (Q := fun _ s => exists t, Socket.applyProxyConfig signalProxy = Ok t /\ built m i t censorship s);
    [|intros ?; by apply yields_ret].
  intros s [Hb Hm]. pose proof (applyProxyConfig_sets _ _ _ _ signalProxy censorship s Hb) as H.
  destruct (applyProxyConfig _ _ _ _ s) as [[[]|] ?]; [|done]. destruct H as (t & Ht & H). by exists t.
Qed.

(** *** Failures *)

(** What was there before is still there. *)
Definition keeps_objects (m : gmap nat object) (s : heap object) : Prop := fresh_heap s /\ m ⊆ objects s.

Lemma on_new m h f s : keeps_objects m s -> m !! h = None -> keeps_objects m (on_object h f s).2.
Proof.
  intros [Hf Hm] Hh. split.
  - intros n Hn. cbn in *. rewrite lookup_alter. case_decide; [subst n|]; by rewrite Hf.
  - cbn. apply map_subseteq_spec. intros i x Hi. rewrite lookup_alter_ne; [by eapply lookup_weaken|]. intros ->. congruence.
Qed.
Lemma checked_objects what m : preserves (keeps_objects m) (checked ffi_fault what).
Proof. intros s H. unfold checked. by destruct (ffi_fault _). Qed.
Lemma acquire_objects what o m : preserves (keeps_objects m) (acquire ffi_fault what o).
Proof.
  intros s H. split; [by apply acquire_fresh, H|]. destruct H as [Hf Hm]. unfold acquire, checked, insert_object, mbind, comp_bind.
  destruct (ffi_fault _); [done|]. cbn. etrans; [exact Hm|]. apply insert_subseteq. by apply Hf.
Qed.

(** A step that keeps the objects of [m]; its results satisfy [Q]. *)
Definition keeping {A} (m : gmap nat object) (f : Comp (heap object) A) (Q : A -> Prop) : Prop :=
  forall s, keeps_objects m s -> keeps_objects m (f s).2 /\ forall a, (f s).1 = Ok a -> Q a.

Lemma keeping_bind {A B} m (f : Comp (heap object) A) (k : A -> Comp (heap object) B) (Q : A -> Prop) (R : B -> Prop) :
  keeping m f Q -> (forall a, Q a -> keeping m (k a) R) -> keeping m (f ≫= k) R.
Proof.
  intros Hf Hk s Hs. destruct (Hf s Hs) as [H1 H2]. unfold mbind, comp_bind. destruct (f s) as [[a|e] s']; [|done].
  by apply (Hk a (H2 a eq_refl)).
Qed.
Lemma keeping_preserves {A} m (f : Comp (heap object) A) : preserves (keeps_objects m) f -> keeping m f (fun _ => True).
Proof. intros H s Hs. split; [by apply H|done]. Qed.
Lemma keeping_acquire what o m : keeping m (acquire ffi_fault what o) (fun h => m !! h = None).
Proof.
  intros s Hs. split; [by apply acquire_objects|]. destruct Hs as [Hf Hm]. unfold acquire, checked, insert_object, mbind, comp_bind.
  destruct (ffi_fault _); [done|]. intros a [= <-]. eapply lookup_weaken_None; [by apply Hf|exact Hm].
Qed.
Lemma keeping_release what h m : m !! h = None -> keeping m (release ffi_fault what h) (fun _ => True).
Proof.
  intros Hh. apply keeping_preserves. intros s Hs. split; [by apply release_fresh, Hs|]. destruct Hs as [Hf Hm].
  unfold release, checked, delete_object, mbind, comp_bind. destruct (ffi_fault _); [done|]. cbn.
  apply map_subseteq_spec. intros i x Hi. apply lookup_delete_Some. split; [congruence|by eapply lookup_weaken].
Qed.
Lemma keeping_checked what m : keeping m (checked ffi_fault what) (fun _ => True).
Proof. apply keeping_preserves, checked_objects. Qed.
Lemma keeping_on h f m : m !! h = None -> keeping m (on_object h f) (fun _ => True).
Proof. intros Hh. apply keeping_preserves. intros s Hs. by apply on_new. Qed.

Lemma keeping_proxy h signalProxy censorship m : m !! h = None -> keeping m (applyProxyConfig ffi_fault h signalProxy censorship) (fun _ => True).
Proof.
  intros Hh. unfold applyProxyConfig. eapply keeping_bind; [apply keeping_preserves, preserves_of_outcome|]. intros t _.
  eapply (keeping_bind _ _ _ (fun _ => True)).
  - destruct t as [[host port]|].
    + eapply keeping_bind; [apply keeping_acquire|]. intros n Hn. eapply (keeping_bind _ _ _ (fun _ => True)); [|intros _ _; by apply keeping_release].
      eapply keeping_bind; [apply keeping_checked|]. intros _ _. by apply keeping_on.
    + eapply keeping_bind; [apply keeping_checked|]. intros _ _. by apply keeping_on.
  - intros _ _. eapply keeping_bind; [apply keeping_checked|]. intros _ _. by apply keeping_on.
Qed.

Lemma keeping_new signalProxy censorship m : keeping m (new_AuthSocket ffi_fault signalProxy censorship) (fun _ => True).
Proof.
  unfold new_AuthSocket, new_Impl, makeConnectionManager.
  eapply (keeping_bind _ _ _ (fun i => m !! connectionManager i = None)).
  - eapply keeping_bind; [apply keeping_acquire|]. intros a _.
    eapply (keeping_bind _ _ _ (fun h => m !! h = None)).
    + eapply keeping_bind; [apply keeping_acquire|]. intros c Hc. eapply keeping_bind; [apply keeping_acquire|]. intros h Hh.
      eapply keeping_bind; [by apply keeping_release|]. intros _ _ s Hs. split; [done|]. by intros ? [= <-].
    + intros h Hh. eapply keeping_bind; [by apply keeping_proxy|]. intros _ _ s Hs. split; [done|]. by intros ? [= <-].
  - intros i Hi. eapply keeping_bind; [by apply keeping_proxy|]. intros _ _ s Hs. by split.
Qed.
End lemmas.

(** ** The life of a socket *)

Lemma release_quietly_eq (f : nat -> bool) what h (s : heap object) : release_quietly f what h s =
  (Ok tt, mkHeap (if f (ffi_made s) then objects s else delete h (objects s)) (next_object s) (S (ffi_made s))).
Proof. unfold release_quietly, release, catch_std, checked, delete_object, modify, mbind, comp_bind. by destruct (f _). Qed.

Lemma close_eq s : Socket.owns s -> exists s', Socket.close s = (Ok tt, s') /\ Socket.owns s'.
Proof.
  intros Ho. pose proof (Socket.handle_owns Socket.Close s Ho) as H. cbn [Socket.handle] in H.
  assert ((Socket.close s).1 = Ok tt) as E by (by destruct s as [[id|] cn da [|] ka lv ht]).
  destruct (Socket.close s) as [o s']. cbn in *. subst o. by exists s'.
Qed.

(** The destructor's effect, whether or not [close] did its work before. *)
Lemma delete_AuthSocket_eq (f : nat -> bool) i h s : Socket.owns s ->
  exists s', delete_AuthSocket f i (mkOwner h s) =
    (Ok tt, mkOwner (release_quietly f "signal_tokio_async_context_destroy" (asyncContext i)
                       (release_quietly f "signal_connection_manager_destroy" (connectionManager i) h).2).2 s') /\
    Socket.live s' = ∅ /\ Socket.chat s' = None /\ Socket.keepAliveThread s' = false.
Proof.
  intros Ho. destruct (close_eq s) as (s1 & Ec & Ho1); [done|]. destruct Ho1 as [Hl _].
  unfold delete_AuthSocket, delete_Impl, lift, mbind, comp_bind. cbn [prj put owner_sock o_sock o_heap]. rewrite Ec.
  destruct s1 as [[id|] cn da st ka lv ht]; cbn in Hl; subst lv; cbn; rewrite release_quietly_eq; cbn; rewrite release_quietly_eq; cbn;
    eexists; (split; [reflexivity|]); cbn; split_and!; try done; set_solver.
Qed.

Lemma new_raises ffi_fault signalProxy censorship s : std_outcome (new_AuthSocket ffi_fault signalProxy censorship s).1.
Proof.
  assert (raises_only is_std (new_AuthSocket ffi_fault signalProxy censorship)) as H.
  { assert (forall what, raises_only is_std (checked (O := object) ffi_fault what)) as Hc by (intros what s'; unfold checked; by destruct (ffi_fault _)).
    assert (forall what o, raises_only is_std (acquire (O := object) ffi_fault what o)) as Ha by (intros; by apply raises_bind).
    assert (forall what h, raises_only is_std (release (O := object) ffi_fault what h)) as Hr by (intros; by apply raises_bind).
    assert (forall h p c, raises_only is_std (applyProxyConfig ffi_fault h p c)) as Hp.
    { intros h p c. unfold applyProxyConfig. apply raises_bind; [|intros t; apply raises_bind; [|intros _; by apply raises_bind]].
      - apply raises_of_outcome. pose proof (applyProxy_std p) as Hs. by destruct (Socket.applyProxyConfig p) as [?|[]].
      - destruct t as [[host port]|]; [|by apply raises_bind]. apply raises_bind; [done|intros n]. apply raises_bind; [|done]. by apply raises_bind. }
    unfold new_AuthSocket, new_Impl, makeConnectionManager. repeat first [apply Hp | apply Ha | apply Hr | done | apply raises_bind; [|intros ?]]. }
  specialize (H s). by destruct (new_AuthSocket _ _ _ s) as [[?|[]] ?].
Qed.

(** C29: The life of an AuthSocket, with any failures of libsignal.  A
    constructor that returns has made exactly an async context and a connection
    manager, which has the account's proxy (host and port parsed from the
    setting) and censorship switch; one that throws throws a std::exception and
    leaves every older object alone.  Whatever happens to the socket in
    between, the destructor ends its connection and its keep-alive thread, and
    when destroying does not fail nothing of it is left. *)
Theorem socket_object_lifetime (ffi_fault later : nat -> bool) (signalProxy : string) (censorship : bool) (h0 : heap object)
    (es : list Socket.event) (Hf : fresh_heap h0) :
  match new_AuthSocket ffi_fault signalProxy censorship h0 with
  | (Throw e, h1) => is_std e /\ objects h0 ⊆ objects h1
  | (Ok i, h1) =>
    (exists t, Socket.applyProxyConfig signalProxy = Ok t /\
       objects h1 = <[connectionManager i := ConnectionManager t censorship]> (<[asyncContext i := AsyncContext]> (objects h0))) /\
    objects h0 !! connectionManager i = None /\ objects h0 !! asyncContext i = None /\
    let '(r, o) := delete_AuthSocket later i (mkOwner h1 (Socket.run es Socket.fresh_sock)) in
    r = Ok tt /\ Socket.live (o_sock o) = ∅ /\ Socket.chat (o_sock o) = None /\ Socket.keepAliveThread (o_sock o) = false /\
    ((forall n, later n = false) -> objects (o_heap o) = objects h0)
  end.
Proof.
  pose proof (new_AuthSocket_makes ffi_fault (objects h0) signalProxy censorship h0 (conj Hf eq_refl)) as H1.
  pose proof (keeping_new ffi_fault signalProxy censorship (objects h0) h0 (conj Hf (reflexivity _))) as [[_ H2] _].
  pose proof (new_raises ffi_fault signalProxy censorship h0) as H3.
  destruct (new_AuthSocket ffi_fault signalProxy censorship h0) as [[i|e] h1]; [|by destruct e].
  destruct H1 as (t & Ht & (_ & Hm & Ho) & Ha). apply lookup_insert_None in Hm as Hm'. split; [by exists t|]. split; [apply Hm'|]. split; [done|].
  destruct (delete_AuthSocket_eq later i h1 _ (Socket.run_owns es)) as (s' & -> & Hs). split; [done|]. split_and!; [apply Hs..|].
  intros Hlater. cbn [o_heap]. rewrite !release_quietly_eq. cbn. rewrite !Hlater, Ho.
  rewrite delete_insert_id by done. by apply delete_insert_id.
Qed.

(** A setting that cannot be parsed: the constructor throws, nobody runs the
    destructor, and the context and the manager stay. *)
Lemma bad_proxy_leaks signalProxy censorship e (h0 : heap object) : fresh_heap h0 -> Socket.applyProxyConfig signalProxy = Throw e ->
  let '(o, h1) := new_AuthSocket never_fails signalProxy censorship h0 in
  o = Throw e /\ exists context manager, context <> manager /\
    objects h1 = <[manager := ConnectionManager None false]> (<[context := AsyncContext]> (objects h0)) /\
    objects h0 !! context = None /\ objects h0 !! manager = None.
Proof.
  intros Hf He. pose proof (new_Impl_makes never_fails (objects h0) h0 (conj Hf eq_refl)) as H.
  unfold new_AuthSocket. assert (is_ok (new_Impl never_fails h0).1 = true) as Hok by reflexivity.
  destruct (new_Impl never_fails h0) as [[i|x] h1] eqn:Ei; [|done]. rewrite (bind_ok _ _ _ _ _ Ei).
  unfold applyProxyConfig. rewrite He. split; [done|]. destruct H as [(_ & Hm & Ho) Ha]. apply lookup_insert_None in Hm as [Hm Hne].
  by exists (asyncContext i), (connectionManager i).
Qed.

(** A pushed message is handed on once, also when it could not be acked. *)
Lemma push_handed_on ffi_fault envelope ack (r : received) :
  let '(o, r') := onReceivedIncomingMessage ffi_fault envelope ack r in
  o = Ok 0 /\ handed_on r' = handed_on r ++ [("PUT", "/api/v1/message", envelope)]%string /\
  acked r' = (if ffi_fault (ffi_made (rc_heap r)) then acked r else S (acked r)) /\
  objects (rc_heap r') = (if ffi_fault (S (ffi_made (rc_heap r))) then objects (rc_heap r) else delete ack (objects (rc_heap r))).
Proof.
  unfold onReceivedIncomingMessage, catch_std, lift, mbind, comp_bind. cbn.
  destruct (ffi_fault (ffi_made (rc_heap r))); cbn; rewrite release_quietly_eq; cbn; by split_and!.
Qed.

(** ** Example: an account behind a proxy *)

Definition empty_heap : heap object := mkHeap ∅ 0 0.

Lemma socket_object_lifetime_witness :
  exists i h1, new_AuthSocket never_fails "proxy.example:8443" true empty_heap = (Ok i, h1) /\
    objects h1 !! connectionManager i = Some (ConnectionManager (Some ("proxy.example"%string, 8443)) true) /\
    objects (o_heap (delete_AuthSocket never_fails i
      (mkOwner h1 (Socket.run [Socket.Connect (Socket.Opened 7 None); Socket.Interrupted None] Socket.fresh_sock))).2) = ∅.
Proof.
  pose proof (socket_object_lifetime never_fails never_fails "proxy.example:8443" true empty_heap
    [Socket.Connect (Socket.Opened 7 None); Socket.Interrupted None] (fun h _ => lookup_empty h)) as H.
  destruct (new_AuthSocket never_fails "proxy.example:8443" true empty_heap) as [[i|e] h1] eqn:E; [|vm_compute in E; discriminate].
  exists i, h1. split; [reflexivity|]. destruct H as ((t & Ht & Ho) & _ & _ & H). split.
  - rewrite Ho, lookup_insert_eq. vm_compute in Ht. injection Ht as <-. reflexivity.
  - destruct (delete_AuthSocket _ _ _) as [r o]. destruct H as (_ & _ & _ & _ & H). by apply H.
Defined.
