(* ===== verification/DispatchQueue.v ===== *)
(** The per-account work queue ([EnvelopeDispatchQueue] of
    src/daemon/main.cpp): one worker thread, any number of producers, and the
    shutdown that stops and joins the worker for a bounded time.

    Each critical section of the mutex is one step; a work item runs between
    two of them and ends normally or with any exception. *)

From S2P Require Import Prelude.

Open Scope Z_scope.

Section Queue.
Context {W : Type} (runs : W -> outcome unit).

(** The worker thread: about to enter the critical section of [run], running
    an item outside it, or returned. *)
Inductive worker_pc :=
| AtWait
| Working (work : W)
| Returned.

(** The thread in [stopAndJoin]. *)
Inductive stopper_pc :=
| NotStopping
| Joining
| Joined
| Abandoned.   (* kJoinTimeout elapsed *)

(** [pushed], [executed] and [at_stop] are history: what was pushed, what has
    run to its end, and what had been pushed when stopping was set. *)
Record queue_state := mkQueue {
  queue : list W; stopping : bool;
  worker : worker_pc; stopper : stopper_pc;
  pushed : list W; executed : list W; at_stop : list W;
}.

(** After [start]. *)
Definition started : queue_state := mkQueue [] false AtWait NotStopping [] [] [].

(** What the worker does next; [None]: it waits, or it is gone. *)
Definition run_step (s : queue_state) : option queue_state :=
  match worker s with
  | AtWait =>
    match queue s with
    | [] => if stopping s
            then Some (mkQueue [] true Returned (stopper s) (pushed s) (executed s) (at_stop s))
            else None
    | work :: q =>
      Some (mkQueue q (stopping s) (Working work) (stopper s) (pushed s) (executed s) (at_stop s))
    end
  | Working work =>
    (* work(), with its two catch clauses *)
    let after := mkQueue (queue s) (stopping s) AtWait (stopper s) (pushed s)
                   (executed s ++ [work]) (at_stop s) in
    match runs work with
    | Ok _ => Some after
    | Throw (StdError _) => Some after
    | Throw _ => Some after
    end
  | Returned => None
  end.

Inductive step : queue_state -> queue_state -> Prop :=
| step_push s work :
    step s (mkQueue (queue s ++ [work]) (stopping s) (worker s) (stopper s)
              (pushed s ++ [work]) (executed s) (at_stop s))
| step_worker s s' : run_step s = Some s' -> step s s'
| step_stop s : stopper s = NotStopping ->
    step s (mkQueue (queue s) true (worker s) Joining (pushed s) (executed s) (pushed s))
| step_joined s : stopper s = Joining -> worker s = Returned ->
    step s (mkQueue (queue s) (stopping s) (worker s) Joined (pushed s) (executed s) (at_stop s))
| step_abandon s : stopper s = Joining ->
    step s (mkQueue (queue s) (stopping s) (worker s) Abandoned (pushed s) (executed s) (at_stop s)).

(** ** Invariant *)

Definition in_hand (s : queue_state) : list W :=
  match worker s with Working work => [work] | _ => [] end.

Definition inv (s : queue_state) : Prop :=
  pushed s = executed s ++ in_hand s ++ queue s /\
  (stopping s = true <-> stopper s <> NotStopping) /\
  at_stop s `prefix_of` pushed s /\
  (worker s = Returned -> stopping s = true /\ at_stop s `prefix_of` executed s) /\
  (stopper s = Joined -> worker s = Returned).

Lemma run_step_spec s s' :
  run_step s = Some s' ->
  stopping s' = stopping s /\ stopper s' = stopper s /\ pushed s' = pushed s /\
  at_stop s' = at_stop s /\
  ((worker s = AtWait /\ queue s = [] /\ stopping s = true /\ queue s' = [] /\
      worker s' = Returned /\ executed s' = executed s) \/
   (exists work q, worker s = AtWait /\ queue s = work :: q /\ queue s' = q /\
      worker s' = Working work /\ executed s' = executed s) \/
   (exists work, worker s = Working work /\ worker s' = AtWait /\ queue s' = queue s /\
      executed s' = executed s ++ [work])).
Proof.
  destruct s as [q st wk sp pu ex at']. unfold run_step. cbn.
  destruct wk as [|work|]; [|destruct (runs work) as [[]|[m| |]]|done].
  - destruct q as [|work q]; [destruct st; [|done]|]; intros [= <-]; cbn; eauto 15.
  - intros [= <-]; cbn; eauto 15.
  - intros [= <-]; cbn; eauto 15.
  - intros [= <-]; cbn; eauto 15.
  - intros [= <-]; cbn; eauto 15.
Qed.

Lemma queue_inv_started : inv started.
Proof. unfold inv. cbn. repeat split; try done. Qed.

Lemma queue_inv_step s s' : inv s -> step s s' -> inv s'.
Proof.
  intros (Hp & Hst & Hat & Hret & Hj) Hs.
  destruct Hs as [s work|s s' Hrun|s Hn|s Hj' Hw|s Hj']; unfold inv; cbn.
  - split; [|split; [done|split; [|split; done]]].
    + unfold in_hand in *. cbn. rewrite Hp, <- !app_assoc. done.
    + by apply prefix_app_r.
  - apply run_step_spec in Hrun as (H1 & H2 & H3 & H4 & Hcase). rewrite H1, H2, H3, H4.
    unfold in_hand in *.
    destruct Hcase as [(Hw & Hq & Hs & Hq' & Hw' & He)|[(work & q & Hw & Hq & Hq' & Hw' & He)|
      (work & Hw & Hw' & Hq & He)]]; rewrite ?Hw', ?Hq', ?He, ?Hq; rewrite Hw in *; cbn in *.
    + rewrite Hq in Hp. cbn in Hp. split; [done|]. split; [done|]. split; [done|]. split; [|done].
      intros _. split; [done|]. rewrite Hp, app_nil_r in Hat. done.
    + rewrite Hq in Hp. cbn in Hp. repeat (split; [done|]).
      intros Hx. discriminate (Hj Hx).
    + split; [by rewrite Hp, <- app_assoc|]. repeat (split; [done|]).
      intros Hx. discriminate (Hj Hx).
  - assert (stopping s = false) as Hf.
    { destruct (stopping s) eqn:E; [|done]. exfalso. by apply (proj1 Hst). }
    split; [done|]. split; [done|]. split; [done|]. split; [|done].
    intros Hw. destruct (Hret Hw) as [Ht _]. congruence.
  - split; [done|]. split; [|split; [done|split; done]]. split; [done|].
    intros _. apply Hst. by rewrite Hj'.
  - split; [done|]. split; [|split; [done|split; done]]. split; [done|].
    intros _. apply Hst. by rewrite Hj'.
Qed.

Lemma queue_inv_reachable s : rtc step started s -> inv s.
Proof. apply rtc_invariant; [apply queue_inv_step|apply queue_inv_started]. Qed.

(** What is left for the worker. *)
Definition remaining (s : queue_state) : nat :=
  match worker s with
  | AtWait => 1 + 2 * length (queue s)
  | Working _ => 2 + 2 * length (queue s)
  | Returned => 0
  end.

(** The worker alone, for at most [n] steps. *)
Fixpoint drain (n : nat) (s : queue_state) : queue_state :=
  match n with
  | O => s
  | S n' => match run_step s with Some s' => drain n' s' | None => s end
  end.

Lemma drain_returns s : stopping s = true -> worker (drain (remaining s) s) = Returned.
Proof.
  remember (remaining s) as n eqn:Hn. revert s Hn.
  induction n as [|n IH]; intros s Hn Hs.
  - unfold remaining in Hn. cbn. destruct (worker s); [lia|lia|done].
  - cbn [drain]. destruct (run_step s) as [s'|] eqn:E.
    + apply run_step_spec in E as (H1 & _ & _ & _ & Hcase). 
      apply IH; [|congruence]. unfold remaining in *.
      destruct Hcase as [(Hw & Hq & _ & Hq' & Hw' & _)|[(work & q & Hw & Hq & Hq' & Hw' & _)|
        (work & Hw & Hw' & Hq & _)]]; rewrite Hw in Hn; rewrite Hw'.
      * rewrite Hq in Hn. cbn in Hn. lia.
      * rewrite Hq in Hn. rewrite Hq'. cbn in Hn. lia.
      * rewrite Hq. lia.
    + unfold run_step in E. unfold remaining in Hn.
      destruct (worker s) as [|work|] eqn:Ew; [|by destruct (runs work) as [[]|[m| |]]|done].
      rewrite Hs in E. by destruct (queue s).
Qed.

Lemma drain_reachable n s : rtc step s (drain n s).
Proof.
  revert s. induction n as [|n IH]; intros s; cbn [drain]; [apply rtc_refl|].
  destruct (run_step s) as [s'|] eqn:E; [|apply rtc_refl].
  eapply rtc_l; [by apply step_worker|apply IH].
Qed.

Lemma drain_stopping n s : stopping (drain n s) = stopping s /\ at_stop (drain n s) = at_stop s /\
  pushed (drain n s) = pushed s.
Proof.
  revert s. induction n as [|n IH]; intros s; cbn [drain]; [done|].
  destruct (run_step s) as [s'|] eqn:E; [|done].
  apply run_step_spec in E as (H1 & _ & H3 & H4 & _). destruct (IH s') as (-> & -> & ->). done.
Qed.
End Queue.

(** C17: In every reachable state, whatever the items do (return or throw any
    exception), the items that have run are the ones pushed first, each once
    and in the order of their pushes; and when [stopAndJoin] has joined the
    worker, everything that was pushed before it was called has run. *)
Theorem dispatch_fifo {W} (runs : W -> outcome unit) (s : queue_state (W := W)) :
  rtc (step runs) started s ->
  executed s `prefix_of` pushed s /\
  (stopper s = Joined -> at_stop s `prefix_of` executed s).
Proof.
  intros Hr. destruct (queue_inv_reachable runs s Hr) as (Hp & _ & _ & Hret & Hj). split.
  - rewrite Hp. by apply prefix_app_r.
  - intros Hx. by apply Hret, Hj.
Qed.

(** The second item throws something that is not a std::exception. *)
Definition sample_runs (n : nat) : outcome unit := if Nat.eqb n 2 then Throw ForeignError else Ok tt.

Lemma dispatch_run :
  rtc (step sample_runs) started
    (mkQueue [] true Returned Joined [1; 2; 3] [1; 2; 3] [1; 2; 3])%nat.
Proof.
  eapply rtc_l; [apply (step_push _ _ 1%nat)|]. cbn.
  eapply rtc_l; [by apply step_worker|]. cbn.
  eapply rtc_l; [apply (step_push _ _ 2%nat)|]. cbn.
  eapply rtc_l; [apply (step_push _ _ 3%nat)|]. cbn.
  eapply rtc_l; [by apply step_stop|]. cbn.
  do 6 (eapply rtc_l; [by apply step_worker|]; cbn).
  eapply rtc_l; [by apply step_joined|]. apply rtc_refl.
Qed.

Lemma dispatch_fifo_witness :
  let s := mkQueue [] true Returned Joined [1; 2; 3]%nat [1; 2; 3]%nat [1; 2; 3]%nat in
  executed s `prefix_of` pushed s /\ (stopper s = Joined -> at_stop s `prefix_of` executed s).
Proof. intros s. apply (dispatch_fifo sample_runs s). apply dispatch_run. Defined.

(** Once stopping is set the worker needs a bounded number of its own steps,
    twice the queue's length and two more at most, to run everything queued
    and return: if no item blocks and nothing more is pushed, [stopAndJoin]
    can join it with every item pushed so far executed. *)
Lemma dispatch_drains {W} (runs : W -> outcome unit) (s : queue_state (W := W)) :
  rtc (step runs) started s -> stopping s = true ->
  let s' := drain runs (2 + 2 * length (queue s)) s in
  rtc (step runs) s s' /\ worker s' = Returned /\
  (worker s <> Returned -> executed s' = pushed s).
Proof.
  intros Hr Hs. cbn zeta.
  assert (forall n m x, worker (drain runs n x) = Returned -> drain runs (n + m) x = drain runs n x) as Hmore.
  { induction n as [|n IH]; intros m x Hx.
    - cbn in Hx. destruct m as [|m]; [done|]. cbn. unfold run_step. by rewrite Hx.
    - cbn [drain Nat.add] in *. destruct (run_step runs x); [by apply IH|done]. }
  assert (worker (drain runs (2 + 2 * length (queue s)) s) = Returned) as Hret.
  { pose proof (drain_returns runs s Hs) as Hd.
    replace (2 + 2 * length (queue s))%nat with
      (remaining s + (2 + 2 * length (queue s) - remaining s))%nat
      by (unfold remaining; destruct (worker s); lia).
    by rewrite Hmore. }
  split; [apply drain_reachable|]. split; [done|]. intros Hne.
  assert (forall n x, queue (drain runs n x) = [] \/ worker (drain runs n x) <> Returned \/
    worker x = Returned) as Hempty.
  { induction n as [|n IH]; intros x; cbn [drain].
    - destruct (worker x); auto.
    - destruct (run_step runs x) as [x'|] eqn:E; [|destruct (worker x); auto].
      destruct (IH x') as [H|[H|H]]; [auto|auto|].
      apply run_step_spec in E as (_ & _ & _ & _ & Hcase).
      destruct Hcase as [(_ & _ & _ & Hq' & _ & _)|[(work & q & _ & _ & _ & Hw' & _)|
        (work & _ & Hw' & _)]]; [|congruence..].
      left. assert (forall m y, worker y = Returned -> drain runs m y = y) as Hstay.
      { intros [|m] y Hy; [done|]. cbn. unfold run_step. by rewrite Hy. }
      by rewrite Hstay. }
  destruct (Hempty (2 + 2 * length (queue s))%nat s) as [Hq|[H|H]]; [|done|done].
  assert (inv (drain runs (2 + 2 * length (queue s)) s)) as (Hp & _).
  { apply (queue_inv_reachable runs). etrans; [exact Hr|apply drain_reachable]. }
  destruct (drain_stopping runs (2 + 2 * length (queue s)) s) as (_ & _ & Hpu).
  unfold in_hand in Hp. rewrite Hret, Hq, !app_nil_r, Hpu in Hp. by symmetry.
Qed.

Lemma dispatch_pushed_and_stopped :
  rtc (step sample_runs) started (mkQueue [5; 2] true AtWait Joining [5; 2] [] [5; 2])%nat.
Proof.
  eapply rtc_l; [apply (step_push _ _ 5%nat)|]. cbn.
  eapply rtc_l; [apply (step_push _ _ 2%nat)|]. cbn.
  eapply rtc_l; [by apply step_stop|]. apply rtc_refl.
Qed.

Lemma dispatch_drains_witness :
  let s := mkQueue [5; 2]%nat true AtWait Joining [5; 2]%nat [] [5; 2]%nat in
  let s' := drain sample_runs (2 + 2 * length (queue s)) s in
  rtc (step sample_runs) s s' /\ worker s' = Returned /\
  (worker s <> Returned -> executed s' = pushed s).
Proof.
  intros s. apply (dispatch_drains sample_runs s); [apply dispatch_pushed_and_stopped|reflexivity].
Defined.
