(* ===== verification/ProtocolStores.v ===== *)
(** The callbacks libsignal calls back into (src/signal/ProtocolStores.cpp and
    the helpers of src/signal/FfiUtil.h).

    libsignal owns objects behind handles: a callback receives handles it must
    destroy, and hands out handles it created.  The state is the account's
    database connection and the table of live handles; an object is
    represented by what it serializes to.  The n-th call into libsignal fails
    when [ffi_fault n] says so (a deserialization, for instance, when the bytes
    in the database are not what libsignal wrote); a failing call has no effect.
    Using or destroying a handle that is not live is undefined behaviour of
    libsignal's: it leaves the mark [OMisused] in the table for good. *)

From S2P Require Import Prelude Storage.

Open Scope Z_scope.

Inductive object :=
| OAddress (name : string) (device : Z)
| OPublicKey (bytes : Bytes)
| OPrivateKey (bytes : Bytes)
| ORecord (bytes : Bytes)   (* session, pre-key, signed and Kyber pre-key records *)
| OMisused.                 (* the handle was destroyed twice, or used after it was destroyed *)

#[export] Instance object_eq_dec : EqDecision object.
Proof. solve_decision. Defined.

Record pstate := mkP {
  db_conn : conn;
  live : gmap nat object;
  next_handle : nat;
  ffi_calls : nat;
}.

#[export] Instance has_conn : Has conn pstate := {|
  prj := db_conn;
  put c s := mkP c (live s) (next_handle s) (ffi_calls s);
|}.
#[export] Instance has_conn_laws : HasLaws conn pstate.
Proof. by split; intros; try destruct w. Qed.

Definition kUint32Mask : Z := 2 ^ 32.

Section Callbacks.
Context (fault ffi_fault : nat -> bool) (acct identity_ : string).

(** ** FfiUtil.h *)

(** A call into libsignal followed by [checkError]. *)
Definition checkError (what : string) : Comp pstate unit :=
  n ← gets ffi_calls;
  modify (fun s => mkP (db_conn s) (live s) (next_handle s) (S (ffi_calls s))) ;;
  if ffi_fault n then throw_std what else mret tt.

Definition misuse (h : nat) : Comp pstate unit :=
  modify (fun s => mkP (db_conn s) (<[h := OMisused]> (live s)) (next_handle s) (ffi_calls s)).

Definition object_at (h : nat) : Comp pstate object :=
  o ← gets (fun s => live s !! h);
  match o with
  | Some OMisused | None => misuse h ;; throw ForeignError
  | Some x => mret x
  end.

Definition destroy (h : nat) : Comp pstate unit :=
  checkError "destroy" ;;
  o ← gets (fun s => live s !! h);
  match o with
  | Some OMisused | None => misuse h
  | Some _ => modify (fun s => mkP (db_conn s) (delete h (live s)) (next_handle s) (ffi_calls s))
  end.

Definition create (o : object) : Comp pstate nat :=
  checkError "deserialize" ;;
  h ← gets next_handle;
  modify (fun s => mkP (db_conn s) (<[h := o]> (live s)) (S h) (ffi_calls s)) ;;
  mret h.

Definition publicKeyDeserialize (data : Bytes) : Comp pstate nat := create (OPublicKey data).
Definition privateKeyDeserialize (data : Bytes) : Comp pstate nat := create (OPrivateKey data).

Definition bytes_of (o : object) : Bytes :=
  match o with OPublicKey b | OPrivateKey b | ORecord b => b | OAddress _ _ | OMisused => [] end.

Definition serialize (h : nat) : Comp pstate Bytes :=
  checkError "serialize" ;;
  o ← object_at h;
  mret (bytes_of o).

Definition publicKeySerializeAndDestroy (key : nat) : Comp pstate Bytes :=
  bytes ← serialize key;
  destroy key ;;
  mret bytes.

Definition addressKeyAndDestroy (address : nat) : Comp pstate string :=
  checkError "signal_address_get_name" ;;
  checkError "signal_address_get_device_id" ;;
  o ← object_at address;
  destroy address ;;
  match o with
  | OAddress name device => mret (String.append name (String "." (to_string device)))
  | _ => throw ForeignError
  end.

(** ** ProtocolStores.cpp *)

(** 0 and the outputs, or -1. *)
Definition guardCallback {A} (f : Comp pstate A) : Comp pstate (Z * option A) :=
  catch_all (a ← f; mret (0, Some a)) (fun _ => mret (-1, None)).

Definition serviceIdFromAddressKey (addressKey : string) : string :=
  match split_last "."%char addressKey with
  | None => addressKey
  | Some (p, _) => p
  end.

Definition load_session (address : nat) : Comp pstate (Z * option (list nat)) :=
  guardCallback (
    key ← addressKeyAndDestroy address;
    record ← lift (loadSession fault acct key);
    match record with
    | None => mret []
    | Some r => h ← create (ORecord r); mret [h]
    end).

Definition store_session (address record : nat) : Comp pstate (Z * option (list nat)) :=
  guardCallback (
    key ← addressKeyAndDestroy address;
    bytes ← serialize record;
    destroy record ;;
    lift (saveSession fault acct key bytes) ;;
    mret []).

Definition get_local_identity_key_pair : Comp pstate (Z * option (list nat)) :=
  guardCallback (
    keypair ← lift (loadIdentityKeypair fault acct identity_);
    match keypair with
    | None => throw_std "no identity keypair stored"
    | Some k =>
      first ← privateKeyDeserialize (private_key k);
      second ← publicKeyDeserialize (public_key k);
      mret [first; second]
    end).

Definition get_local_registration_id : Comp pstate (Z * option Z) :=
  guardCallback (
    a ← lift (loadAccount fault acct);
    mret ((if str_eqb identity_ "pni" then pni_registration_id a else registration_id a)
          mod kUint32Mask)).

Definition get_identity_key (address : nat) : Comp pstate (Z * option (list nat)) :=
  guardCallback (
    key ← addressKeyAndDestroy address;
    stored ← lift (loadRemoteIdentity fault acct (serviceIdFromAddressKey key));
    match stored with
    | Some b => h ← publicKeyDeserialize b; mret [h]
    | None => mret []
    end).

Definition save_identity_key (address publicKey : nat) : Comp pstate (Z * option Z) :=
  guardCallback (
    addressKey ← addressKeyAndDestroy address;
    let key := serviceIdFromAddressKey addressKey in
    newKeyBytes ← publicKeySerializeAndDestroy publicKey;
    existing ← lift (loadRemoteIdentity fault acct key);
    lift (saveRemoteIdentity fault acct key newKeyBytes) ;;
    mret (match existing with
          | Some e => if bool_decide (e = newKeyBytes) then 0 else 1
          | None => 0
          end)).

Definition is_trusted_identity (address publicKey : nat) : Comp pstate (Z * option bool) :=
  guardCallback (
    addressKey ← addressKeyAndDestroy address;
    let key := serviceIdFromAddressKey addressKey in
    candidate ← publicKeySerializeAndDestroy publicKey;
    existing ← lift (loadRemoteIdentity fault acct key);
    mret (match existing with
          | None => true
          | Some e => bool_decide (e = candidate)
          end)).

Definition load_pre_key : Comp pstate (Z * option (list nat)) := mret (-1, None).
Definition store_pre_key (record : nat) : Comp pstate (Z * option (list nat)) :=
  guardCallback (destroy record ;; mret []).
Definition remove_pre_key : Comp pstate (Z * option (list nat)) := mret (0, Some []).

Definition load_signed_pre_key (id : Z) : Comp pstate (Z * option (list nat)) :=
  guardCallback (
    stored ← lift (loadSignedPrekey fault acct identity_);
    match stored with
    | Some k => if bool_decide (spk_key_id k = id)
                then h ← create (ORecord (spk_record k)); mret [h]
                else throw_std "no signed prekey on file"
    | None => throw_std "no signed prekey on file"
    end).

Definition store_signed_pre_key (id : Z) (record : nat) : Comp pstate (Z * option (list nat)) :=
  guardCallback (
    bytes ← serialize record;
    destroy record ;;
    lift (saveSignedPrekey fault acct identity_ (mkSignedPrekey id bytes)) ;;
    mret []).

Definition load_kyber_pre_key (id : Z) : Comp pstate (Z * option (list nat)) :=
  guardCallback (
    stored ← lift (loadKyberPrekey fault acct identity_);
    match stored with
    | Some k => if bool_decide (kpk_key_id k = id)
                then h ← create (ORecord (kpk_record k)); mret [h]
                else throw_std "no kyber prekey on file"
    | None => throw_std "no kyber prekey on file"
    end).

Definition store_kyber_pre_key (id : Z) (record : nat) : Comp pstate (Z * option (list nat)) :=
  guardCallback (
    bytes ← serialize record;
    destroy record ;;
    lift (saveKyberPrekey fault acct identity_ (mkKyberPrekey id bytes)) ;;
    mret []).

Definition mark_kyber_pre_key_used (baseKey : nat) : Comp pstate (Z * option (list nat)) :=
  guardCallback (destroy baseKey ;; mret []).
End Callbacks.

(** ** All callbacks that move handles *)

Inductive callback :=
| LoadSession (address : nat)
| StoreSession (address record : nat)
| GetLocalIdentityKeyPair
| GetLocalRegistrationId
| GetIdentityKey (address : nat)
| SaveIdentityKey (address publicKey : nat)
| IsTrustedIdentity (address publicKey : nat)
| LoadPreKey
| StorePreKey (record : nat)
| RemovePreKey
| LoadSignedPreKey (id : Z)
| StoreSignedPreKey (id : Z) (record : nat)
| LoadKyberPreKey (id : Z)
| StoreKyberPreKey (id : Z) (record : nat)
| MarkKyberPreKeyUsed (baseKey : nat).

(** The handles a callback receives, and those it gives. *)
Definition args (cb : callback) : list nat :=
  match cb with
  | LoadSession a | GetIdentityKey a => [a]
  | StoreSession a x | SaveIdentityKey a x | IsTrustedIdentity a x => [a; x]
  | StorePreKey x | StoreSignedPreKey _ x | StoreKyberPreKey _ x | MarkKyberPreKeyUsed x => [x]
  | _ => []
  end.

Definition no_handles {A} (r : Comp pstate (Z * option A)) : Comp pstate (Z * option (list nat)) :=
  x ← r; mret (x.1, (fun _ => []) <$> x.2).

Definition run_callback (fault ffi_fault : nat -> bool) (acct identity_ : string) (cb : callback) :
    Comp pstate (Z * option (list nat)) :=
  match cb with
  | LoadSession a => load_session fault ffi_fault acct a
  | StoreSession a x => store_session fault ffi_fault acct a x
  | GetLocalIdentityKeyPair => get_local_identity_key_pair fault ffi_fault acct identity_
  | GetLocalRegistrationId => no_handles (get_local_registration_id fault acct identity_)
  | GetIdentityKey a => get_identity_key fault ffi_fault acct a
  | SaveIdentityKey a x => no_handles (save_identity_key fault ffi_fault acct a x)
  | IsTrustedIdentity a x => no_handles (is_trusted_identity fault ffi_fault acct a x)
  | LoadPreKey => load_pre_key
  | StorePreKey x => store_pre_key ffi_fault x
  | RemovePreKey => remove_pre_key
  | LoadSignedPreKey id => load_signed_pre_key fault ffi_fault acct identity_ id
  | StoreSignedPreKey id x => store_signed_pre_key fault ffi_fault acct identity_ id x
  | LoadKyberPreKey id => load_kyber_pre_key fault ffi_fault acct identity_ id
  | StoreKyberPreKey id x => store_kyber_pre_key fault ffi_fault acct identity_ id x
  | MarkKyberPreKeyUsed x => mark_kyber_pre_key_used ffi_fault x
  end.

(** How many calls into libsignal a callback makes to read and destroy the
    handles it was passed; what it builds for its answer comes after them. *)
Definition reading_calls (cb : callback) : nat :=
  match cb with
  | LoadSession _ | GetIdentityKey _ => 3
  | StoreSession _ _ | SaveIdentityKey _ _ | IsTrustedIdentity _ _ => 5
  | StoreSignedPreKey _ _ | StoreKyberPreKey _ _ => 2
  | StorePreKey _ | MarkKyberPreKeyUsed _ => 1
  | _ => 0
  end.

Definition usable (s : pstate) (h : nat) : Prop := exists o, live s !! h = Some o /\ o <> OMisused.

(** libsignal passes live, distinct handles, an address first where one is
    expected. *)
Definition well_called (cb : callback) (s : pstate) : Prop :=
  NoDup (args cb) /\ (forall h, h ∈ args cb -> usable s h) /\
  match cb with
  | LoadSession a | GetIdentityKey a | StoreSession a _ | SaveIdentityKey a _ | IsTrustedIdentity a _ =>
    exists n d, live s !! a = Some (OAddress n d)
  | _ => True
  end.

Definition fresh_above (s : pstate) : Prop := forall h, (next_handle s <= h)%nat -> live s !! h = None.

(** ** What each step does *)

Lemma object_at_ok c l n k h o :
  l !! h = Some o -> o <> OMisused -> object_at h (mkP c l n k) = (Ok o, mkP c l n k).
Proof. intros Hh Ho. unfold object_at, gets, mbind, comp_bind. cbn. rewrite Hh. by destruct o. Qed.

Section steps.
Context (ffi_fault : nat -> bool) (c : conn) (l : gmap nat object) (n k : nat).

Lemma checkError_eq what :
  checkError ffi_fault what (mkP c l n k) =
    ((if ffi_fault k then Throw (StdError what) else Ok tt), mkP c l n (S k)).
Proof. unfold checkError, gets, modify, mbind, comp_bind. cbn. by destruct (ffi_fault k). Qed.

Lemma destroy_eq h o :
  l !! h = Some o -> o <> OMisused ->
  destroy ffi_fault h (mkP c l n k) =
    if ffi_fault k then (Throw (StdError "destroy"), mkP c l n (S k)) else (Ok tt, mkP c (delete h l) n (S k)).
Proof.
  intros Hh Ho. unfold destroy, mbind at 1, comp_bind at 1. rewrite checkError_eq.
  destruct (ffi_fault k); [done|]. unfold gets, mbind, comp_bind. cbn. rewrite Hh. by destruct o.
Qed.

Lemma create_eq o :
  create ffi_fault o (mkP c l n k) =
    if ffi_fault k then (Throw (StdError "deserialize"), mkP c l n (S k))
    else (Ok n, mkP c (<[n := o]> l) (S n) (S k)).
Proof.
  unfold create, mbind at 1, comp_bind at 1. rewrite checkError_eq. by destruct (ffi_fault k).
Qed.

Lemma serialize_eq h o :
  l !! h = Some o -> o <> OMisused ->
  serialize ffi_fault h (mkP c l n k) =
    ((if ffi_fault k then Throw (StdError "serialize") else Ok (bytes_of o)), mkP c l n (S k)).
Proof.
  intros Hh Ho. unfold serialize, mbind at 1, comp_bind at 1. rewrite checkError_eq.
  destruct (ffi_fault k); [done|]. by rewrite (bind_ok _ _ _ _ _ (object_at_ok _ _ _ _ h o Hh Ho)).
Qed.

Lemma lift_bind {A B} (m : Comp conn A) (f : A -> Comp pstate B) :
  (lift m ≫= f) (mkP c l n k) =
    match m c with
    | (Ok a, c') => f a (mkP c' l n k)
    | (Throw e, c') => (Throw e, mkP c' l n k)
    end.
Proof. unfold lift, mbind, comp_bind. cbn. by destruct (m c) as [[a|e] c']. Qed.
End steps.

(** The steps that read and destroy an argument, whatever fails. *)
Section reading.
Context (ffi_fault : nat -> bool) (c : conn) (l : gmap nat object) (n k : nat).

Lemma serializeAndDestroy_eq h o :
  l !! h = Some o -> o <> OMisused ->
  publicKeySerializeAndDestroy ffi_fault h (mkP c l n k) =
    if ffi_fault k then (Throw (StdError "serialize"), mkP c l n (S k))
    else if ffi_fault (S k) then (Throw (StdError "destroy"), mkP c l n (S (S k)))
    else (Ok (bytes_of o), mkP c (delete h l) n (S (S k))).
Proof.
  intros Hh Ho. unfold publicKeySerializeAndDestroy, mbind at 1, comp_bind at 1.
  rewrite (serialize_eq _ _ _ _ _ _ _ Hh Ho). destruct (ffi_fault k); [done|].
  unfold mbind, comp_bind. rewrite (destroy_eq _ _ _ _ _ _ _ Hh Ho). by destruct (ffi_fault (S k)).
Qed.

Lemma addressKey_eq a nm d :
  l !! a = Some (OAddress nm d) ->
  addressKeyAndDestroy ffi_fault a (mkP c l n k) =
    if ffi_fault k then (Throw (StdError "signal_address_get_name"), mkP c l n (S k))
    else if ffi_fault (S k) then (Throw (StdError "signal_address_get_device_id"), mkP c l n (S (S k)))
    else if ffi_fault (S (S k)) then (Throw (StdError "destroy"), mkP c l n (S (S (S k))))
    else (Ok (String.append nm (String "." (to_string d))), mkP c (delete a l) n (S (S (S k)))).
Proof.
  intros Ha. unfold addressKeyAndDestroy. do 2 (unfold mbind at 1, comp_bind at 1; rewrite checkError_eq;
    match goal with |- context [ffi_fault ?i] => destruct (ffi_fault i); [done|] end).
  rewrite (bind_ok _ _ _ _ _ (object_at_ok _ _ _ _ _ _ Ha ltac:(done))).
  unfold mbind, comp_bind. rewrite (destroy_eq _ _ _ _ _ _ _ Ha) by done.
  by destruct (ffi_fault (S (S k))).
Qed.
End reading.

(** The same when libsignal does not fail. *)
Section steps_ok.
Context (c : conn) (l : gmap nat object) (n k : nat).

Lemma destroy_ok h o : l !! h = Some o -> o <> OMisused ->
  destroy no_fault h (mkP c l n k) = (Ok tt, mkP c (delete h l) n (S k)).
Proof. intros Hh Ho. by rewrite (destroy_eq _ _ _ _ _ _ _ Hh Ho). Qed.

Lemma create_ok o : create no_fault o (mkP c l n k) = (Ok n, mkP c (<[n := o]> l) (S n) (S k)).
Proof. done. Qed.

Lemma serialize_ok h o : l !! h = Some o -> o <> OMisused ->
  serialize no_fault h (mkP c l n k) = (Ok (bytes_of o), mkP c l n (S k)).
Proof. intros Hh Ho. by rewrite (serialize_eq _ _ _ _ _ _ _ Hh Ho). Qed.

Lemma serializeAndDestroy_ok h o : l !! h = Some o -> o <> OMisused ->
  publicKeySerializeAndDestroy no_fault h (mkP c l n k) =
    (Ok (bytes_of o), mkP c (delete h l) n (S (S k))).
Proof. intros Hh Ho. by rewrite (serializeAndDestroy_eq _ _ _ _ _ _ _ Hh Ho). Qed.

Lemma addressKey_ok a nm d : l !! a = Some (OAddress nm d) ->
  addressKeyAndDestroy no_fault a (mkP c l n k) =
    (Ok (String.append nm (String "." (to_string d))), mkP c (delete a l) n (S (S (S k)))).
Proof. intros Ha. by rewrite (addressKey_eq _ _ _ _ _ _ _ _ Ha). Qed.
End steps_ok.

Lemma guardCallback_eq {A} (f : Comp pstate A) s :
  guardCallback f s = match f s with
                      | (Ok a, s') => (Ok (0, Some a), s')
                      | (Throw e, s') => (Ok (-1, None), s')
                      end.
Proof. unfold guardCallback, catch_all, mbind, comp_bind. by destruct (f s) as [[a|e] s']. Qed.

Lemma no_handles_eq {A} (r : Comp pstate (Z * option A)) s :
  no_handles r s = match r s with
                   | (Ok x, s') => (Ok (x.1, (fun _ => []) <$> x.2), s')
                   | (Throw e, s') => (Throw e, s')
                   end.
Proof. unfold no_handles, mbind, comp_bind. by destruct (r s) as [[x|e] s']. Qed.

(** ** What a callback does with its handles *)

(** The outcome of a callback:
    - it answers, with 0 exactly when it gives an output;
    - each handle it was passed was destroyed once, or, if one of the calls
      that read and destroy them failed, is possibly still there as it was;
    - the handles it gives are its own, live and usable;
    - the handles libsignal had before and did not pass are as they were, and
      no handle was destroyed twice or used when it was gone;
    - when no call of libsignal's failed it leaves no handle of its own. *)
Definition consumed (ffi_fault : nat -> bool) (cb : callback) (s : pstate)
    (r : outcome (Z * option (list nat)) * pstate) : Prop :=
  exists code outs s', r = (Ok (code, outs), s') /\
    (code = 0 <-> is_Some outs) /\
    (forall h, h ∈ args cb -> live s' !! h = None \/
       live s' !! h = live s !! h /\
       exists i, (i < reading_calls cb)%nat /\ ffi_fault (ffi_calls s + i)%nat = true) /\
    (forall h, h ∈ default [] outs -> usable s' h /\ (next_handle s <= h)%nat) /\
    (forall h, h ∉ args cb -> (h < next_handle s)%nat -> live s' !! h = live s !! h) /\
    (forall h, live s' !! h = Some OMisused -> live s !! h = Some OMisused) /\
    ((forall i, (ffi_calls s <= i < ffi_calls s')%nat -> ffi_fault i = false) ->
     forall h, (next_handle s <= h)%nat -> h ∉ default [] outs -> live s' !! h = None).

(** Run a callback down to its outcome, splitting on what libsignal and the
    database say. *)
Ltac run_ffi ff :=
  repeat first
    [ rewrite no_handles_eq
    | rewrite guardCallback_eq
    | rewrite lift_bind
    | match goal with |- context [(_ ≫= _) (mkP _ _ _ _)] => unfold mbind at 1, comp_bind at 1 end;
      first [ erewrite addressKey_eq by eassumption
            | rewrite create_eq
            | erewrite serializeAndDestroy_eq by (rewrite ?lookup_delete_ne by congruence; eassumption)
            | erewrite serialize_eq by (rewrite ?lookup_delete_ne by congruence; eassumption)
            | erewrite destroy_eq by (rewrite ?lookup_delete_ne by congruence; eassumption) ]
    | match goal with
      | |- context [ff ?i] => destruct (ff i) eqn:?
      | |- context [match ?m ?c with (_, _) => _ end] =>
        lazymatch type of c with conn => destruct (m c) as [[?|?] ?] end
      | |- context [match ?o with Some _ => _ | None => _ end] => destruct o
      | |- context [if ?b then _ else _] => destruct b
      end; cbn ].

(** Look a handle up in the table a callback leaves. *)
Ltac lookups :=
  repeat first [ rewrite lookup_insert_eq | rewrite lookup_delete_eq
               | rewrite lookup_insert_ne by (congruence || lia)
               | rewrite lookup_delete_ne by (congruence || lia) ].

Section settle.
Context (ff : nat -> bool) (k i r : nat).

(** A failing call among the reading ones, by its number. *)
Lemma failed_reading j : ff j = true -> j = (k + i)%nat -> (i < r)%nat ->
  exists i, (i < r)%nat /\ ff (k + i)%nat = true.
Proof. intros H -> Hi. by exists i. Qed.
End settle.

Ltac settle_arg :=
  match goal with
  | |- _ \/ _ => first
    [ left; lookups; done
    | right; split; [lookups; done|];
      match goal with
      | H : ?ff ?j = true |- exists i, (i < ?r)%nat /\ ?ff (?k + i)%nat = true =>
        first [ apply (failed_reading ff k 0 r j H); lia | apply (failed_reading ff k 1 r j H); lia
              | apply (failed_reading ff k 2 r j H); lia | apply (failed_reading ff k 3 r j H); lia
              | apply (failed_reading ff k 4 r j H); lia ]
      end ]
  end.

Ltac settle_table Hfresh :=
  let h := fresh "h" in
  intros h; rewrite ?lookup_insert, ?lookup_delete, ?lookup_insert, ?lookup_delete;
  repeat case_decide; subst; try done; auto.

Ltac settle_handles Hfresh :=
  do 3 eexists; split; [reflexivity|]; cbn [live next_handle ffi_calls default args reading_calls];
  repeat setoid_rewrite elem_of_cons; repeat setoid_rewrite elem_of_nil; split_and!;
  [ first [by split; [|intros [? ?]] | split; [by eexists|done]]
  | let h := fresh "h" in let Hh := fresh "Hh" in
    intros h Hh; repeat match goal with H : _ \/ _ |- _ => destruct H end; subst; try done; settle_arg
  | let h := fresh "h" in let Hh := fresh "Hh" in
    intros h Hh; repeat match goal with H : _ \/ _ |- _ => destruct H end; subst; try done;
    (split; [eexists; cbn [live]; split; [lookups; reflexivity|done]|lia])
  | let h := fresh "h" in let Ha := fresh "Ha" in
    intros h Ha ?; rewrite ?lookup_insert, ?lookup_delete, ?lookup_insert, ?lookup_delete;
    repeat case_decide; subst; try done; exfalso; first [lia|tauto]
  | settle_table Hfresh
  | let h := fresh "h" in let Hno := fresh "Hno" in
    intros Hno h ? ?;
    first [ match goal with H : ?ff ?j = true |- _ => exfalso; rewrite (Hno j) in H by lia; done end
          | rewrite ?lookup_insert, ?lookup_delete, ?lookup_insert, ?lookup_delete;
            repeat case_decide; subst; try done; first [apply Hfresh; lia|exfalso; tauto] ] ].

(** C16: Whatever the database does (missing rows, failed calls) and whichever
    calls into libsignal fail (a record in the database that does not
    deserialize among them), every callback answers, with 0 exactly when it gives
    an output.  It destroys each handle it was passed exactly once, unless one of
    the calls that read and destroy these handles fails: then those not
    destroyed yet stay live for ever, and still none is destroyed twice or used
    after its end.  The handles it gives out are live and its own, all others it
    leaves alone; when no call of libsignal's fails it leaves no object of its
    own behind. *)
Theorem callbacks_consume_handles (fault ffi_fault : nat -> bool) (acct identity_ : string) (cb : callback)
    (s : pstate) :
  well_called cb s -> fresh_above s ->
  consumed ffi_fault cb s (run_callback fault ffi_fault acct identity_ cb s).
Proof.
  intros (Hnd & Hlive & Hty) Hfresh. destruct s as [c l n k].
  unfold fresh_above in Hfresh. cbn [live next_handle] in *.
  assert (forall h, h ∈ args cb -> (h < n)%nat) as Hlt.
  { intros h Hh. destruct (decide (h < n)%nat) as [|Hge]; [done|]. exfalso.
    destruct (Hlive h Hh) as (o & Ho & _). cbn in Ho. by rewrite (Hfresh h) in Ho by lia. }
  destruct cb as [a|a x| | |a|a x|a x| |x| |i|i x|i|i x|x]; cbn [args run_callback] in *; unfold consumed.
  all: try (destruct Hty as (nm & d & Ha)).
  all: try (destruct (Hlive x ltac:(rewrite ?elem_of_cons; tauto)) as (o & Hx & Ho); cbn [live] in Hx).
  all: try (assert (a <> x) as Hax by (apply NoDup_cons in Hnd as [Hni _]; set_solver)).
  all: try (pose proof (Hlt a ltac:(set_solver)) as Hla).
  all: try (pose proof (Hlt x ltac:(set_solver)) as Hlx).
  all: clear Hlive Hnd Hlt.
  all: unfold load_session, store_session, get_local_identity_key_pair,
    get_local_registration_id, get_identity_key, save_identity_key, is_trusted_identity, load_pre_key,
    store_pre_key, remove_pre_key, load_signed_pre_key, store_signed_pre_key, load_kyber_pre_key,
    store_kyber_pre_key, mark_kyber_pre_key_used, publicKeyDeserialize, privateKeyDeserialize.
  all: cbn [args live next_handle]; run_ffi ffi_fault; settle_handles Hfresh.
Qed.

(** A message from a known device arrives; the session record is stored. *)
Definition sample_state : pstate :=
  mkP two_accounts (<[0%nat := OAddress "u" 2]> (<[1%nat := ORecord [9]]> ∅)) 2 0.

Lemma callbacks_consume_handles_witness :
  consumed (Nat.eqb 3) (StoreSession 0 1) sample_state
    (run_callback (Nat.eqb 1) (Nat.eqb 3) "a" "aci" (StoreSession 0 1) sample_state).
Proof.
  apply (callbacks_consume_handles (Nat.eqb 1) (Nat.eqb 3) "a" "aci" (StoreSession 0 1) sample_state).
  - split; [by apply (bool_decide_eq_true_1 (NoDup [0%nat; 1%nat]))|]. split.
    + intros h [->|[->|[]%elem_of_nil]%elem_of_cons]%elem_of_cons; by eexists.
    + by exists "u"%string, 2.
  - intros h Hh. cbn in *. rewrite !lookup_insert_ne by lia. done.
Defined.

(** When a libsignal call fails the rest of the callback does not run, so the
    record it was passed is still alive. *)
Example store_session_leaks_on_failure :
  let s' := (store_session no_fault (Nat.eqb 3) "a" 0 1 sample_state).2 in
  live s' !! 1%nat = Some (ORecord [9]).
Proof. reflexivity. Qed.

(** A session row that libsignal cannot read: the callback fails, the address
    is destroyed all the same. *)
Example unreadable_session :
  let row := mkConn (set_session (insert ("a", "u.2")%string [1]) (cdb two_accounts)) None 0 in
  let '(r, s') := load_session no_fault (Nat.eqb 3) "a" 0 (mkP row (live sample_state) 2 0) in
  (r, live s' !! 0%nat) = (Ok (-1, None), None).
Proof. vm_compute. reflexivity. Qed.

(** A second destroy is on record. *)
Example double_destroy :
  (destroy no_fault 0 (destroy no_fault 0 sample_state).2).2.(live) !! 0%nat = Some OMisused.
Proof. reflexivity. Qed.

(** ** Trust on first use *)

(** The remote identity key stored for a service id. *)
Definition stored_key (acct sid : string) (s : pstate) : option Bytes :=
  remote_identity (cdb (db_conn s)) !! (acct, sid).

Lemma serviceId_of_key sid dev :
  0 <= dev -> serviceIdFromAddressKey (String.append sid (String "." (to_string dev))) = sid.
Proof.
  intros Hd. unfold serviceIdFromAddressKey.
  by rewrite split_last_app by (apply all_digits_no; [done|by apply to_string_all_digits]).
Qed.

(** Trust on first use, per service id and not per device: without
    failures, [is_trusted_identity] answers true exactly when no key is stored
    for the service id or the same one is; [save_identity_key] stores the key
    for the service id, answers 1 exactly when another key was stored before,
    and from then on exactly that key is trusted, from every device. *)
Lemma identity_trust_on_first_use (acct sid : string) (dev dev' : Z) (key key' : Bytes)
    (s : pstate) (a x : nat) :
  0 <= dev -> 0 <= dev' -> a <> x -> fk_ok acct (cdb (db_conn s)) = true ->
  live s !! a = Some (OAddress sid dev) -> live s !! x = Some (OPublicKey key) ->
  (exists s', is_trusted_identity no_fault no_fault acct a x s =
     (Ok (0, Some (match stored_key acct sid s with
                   | None => true | Some k => bool_decide (k = key) end)), s') /\
     stored_key acct sid s' = stored_key acct sid s) /\
  (exists s', save_identity_key no_fault no_fault acct a x s =
     (Ok (0, Some (match stored_key acct sid s with
                   | None => 0 | Some k => if bool_decide (k = key) then 0 else 1 end)), s') /\
     stored_key acct sid s' = Some key /\
     forall b y s2, db_conn s2 = db_conn s' -> b <> y ->
       live s2 !! b = Some (OAddress sid dev') -> live s2 !! y = Some (OPublicKey key') ->
       (is_trusted_identity no_fault no_fault acct b y s2).1 = Ok (0, Some (bool_decide (key = key')))).
Proof.
  intros Hd Hd' Hax Hfk Ha Hx. destruct s as [c l n k]. cbn [db_conn live] in *.
  assert (forall s2 b y dv kb, 0 <= dv -> b <> y ->
    live s2 !! b = Some (OAddress sid dv) -> live s2 !! y = Some (OPublicKey kb) ->
    exists s3, is_trusted_identity no_fault no_fault acct b y s2 =
      (Ok (0, Some (match stored_key acct sid s2 with
                    | None => true | Some k => bool_decide (k = kb) end)), s3) /\
      stored_key acct sid s3 = stored_key acct sid s2) as Htrust.
  { intros [c2 l2 n2 k2] b y dv kb Hdv Hby Hb Hy. cbn [live] in *. eexists.
    unfold is_trusted_identity. rewrite guardCallback_eq.
    erewrite bind_ok by (apply addressKey_ok; eassumption). rewrite serviceId_of_key by done.
    erewrite bind_ok by (apply (serializeAndDestroy_ok _ _ _ _ _ (OPublicKey kb)); [rewrite lookup_delete_ne by congruence; eassumption|done]).
    rewrite lift_bind. unfold loadRemoteIdentity. rewrite select_ok. cbn. split; reflexivity. }
  split; [by apply (Htrust _ a x dev key)|].
  unfold save_identity_key. rewrite guardCallback_eq.
  erewrite bind_ok by (apply addressKey_ok; eassumption). rewrite serviceId_of_key by done.
  erewrite bind_ok by (apply (serializeAndDestroy_ok _ _ _ _ _ (OPublicKey key)); [rewrite lookup_delete_ne by congruence; eassumption|done]).
  rewrite lift_bind. unfold loadRemoteIdentity, saveRemoteIdentity. rewrite select_ok.
  rewrite lift_bind. erewrite write_ok by (cbn [cdb]; by rewrite Hfk). cbn [bytes_of].
  eexists. split; [reflexivity|].
  match goal with |- stored_key _ _ ?s' = _ /\ _ => set (s1 := s') end.
  assert (stored_key acct sid s1 = Some key) as Hkey.
  { unfold stored_key, s1. cbn. apply lookup_insert_eq. }
  split; [done|]. intros b y s2 Hc Hby Hb Hy.
  destruct (Htrust s2 b y dev' key' Hd' Hby Hb Hy) as (s3 & -> & _). cbn [fst].
  unfold stored_key in *. by rewrite Hc, Hkey.
Qed.

(** An incoming identity key from device 2 of "u". *)
Definition key_state : pstate :=
  mkP two_accounts (<[0%nat := OAddress "u" 2]> (<[1%nat := OPublicKey [5]]> ∅)) 2 0.

Lemma identity_trust_on_first_use_witness :
  (exists s', is_trusted_identity no_fault no_fault "a" 0 1 key_state =
     (Ok (0, Some (match stored_key "a" "u" key_state with
                   | None => true | Some k => bool_decide (k = [5]) end)), s') /\
     stored_key "a" "u" s' = stored_key "a" "u" key_state) /\
  (exists s', save_identity_key no_fault no_fault "a" 0 1 key_state =
     (Ok (0, Some (match stored_key "a" "u" key_state with
                   | None => 0 | Some k => if bool_decide (k = [5]) then 0 else 1 end)), s') /\
     stored_key "a" "u" s' = Some [5] /\
     forall b y s2, db_conn s2 = db_conn s' -> b <> y ->
       live s2 !! b = Some (OAddress "u" 3) -> live s2 !! y = Some (OPublicKey [6]) ->
       (is_trusted_identity no_fault no_fault "a" b y s2).1 = Ok (0, Some (bool_decide ([5] = [6])))).
Proof.
  apply (identity_trust_on_first_use "a" "u" 2 3 [5] [6] key_state 0 1);
    [lia|lia|done|reflexivity|reflexivity|reflexivity].
Defined.

(** A failed read of the stored key is not told apart from "no key stored":
    when the SELECT's step fails, [is_trusted_identity] answers that any key
    is trusted, also one that differs from the stored key. *)
Lemma read_failure_trusts_any_key (acct sid : string) (dev : Z) (key stored : Bytes) (s : pstate)
    (a x : nat) :
  0 <= dev -> a <> x ->
  live s !! a = Some (OAddress sid dev) -> live s !! x = Some (OPublicKey key) ->
  stored_key acct sid s = Some stored -> stored <> key ->
  (is_trusted_identity (Nat.eqb (S (calls (db_conn s)))) no_fault acct a x s).1 = Ok (0, Some true) /\
  (is_trusted_identity no_fault no_fault acct a x s).1 = Ok (0, Some false).
Proof.
  intros Hd Hax Ha Hx Hst Hne. destruct s as [[d sv m] l n k]. unfold stored_key in Hst.
  cbn [db_conn live cdb calls] in *. unfold is_trusted_identity, loadRemoteIdentity.
  split; rewrite guardCallback_eq; erewrite bind_ok by (apply addressKey_ok; eassumption);
    rewrite serviceId_of_key by done;
    (erewrite bind_ok by (apply (serializeAndDestroy_ok _ _ _ _ _ (OPublicKey key));
       [rewrite lookup_delete_ne by congruence; eassumption|done])); rewrite lift_bind.
  - unfold select, prepare, sql_call, mbind, comp_bind. cbn [calls].
    rewrite (proj2 (Nat.eqb_neq (S m) m)) by lia. cbn [negb].
    unfold mret, comp_ret. cbn [calls]. rewrite Nat.eqb_refl. done.
  - rewrite select_ok. cbn. rewrite Hst. cbn. by rewrite bool_decide_eq_false_2.
Qed.

(** The same key arrives while another one, [4], is stored. *)
Definition changed_key_state : pstate :=
  mkP (mkConn (set_remote (insert ("a", "u")%string [4]) (cdb two_accounts)) None 0)
    (live key_state) 2 0.

Lemma read_failure_trusts_any_key_witness :
  (is_trusted_identity (Nat.eqb 1) no_fault "a" 0 1 changed_key_state).1 = Ok (0, Some true) /\
  (is_trusted_identity no_fault no_fault "a" 0 1 changed_key_state).1 = Ok (0, Some false).
Proof.
  apply (read_failure_trusts_any_key "a" "u" 2 [5] [4] changed_key_state 0 1);
    [lia|done|reflexivity|reflexivity|reflexivity|done].
Defined.
