(* ===== verification/CallSignaling.v ===== *)
(** Call signalling over the account's socket
    (src/daemon/CallSignaling.cpp, src/daemon/CallSignaling.h, and
    [encryptForDevice] of src/signal/Crypto.cpp).

    The sender's state is the account's database, its device-list cache, what
    the server will answer to the requests to come, and the requests made so
    far.  libsignal (sessions, encryption), protobuf and the JSON parser are
    parameters: the source only calls them. *)

From S2P Require Import Prelude Base64 Padding Storage.

Open Scope Z_scope.

(** ** JSON values, as nlohmann::json gives them *)

Inductive json :=
| JNull
| JBool (b : bool)
| JNum (z : Z)
| JStr (s : string)
| JArr (l : list json)
| JObj (fields : list (string * json)).

Fixpoint field (k : string) (fields : list (string * json)) : option json :=
  match fields with
  | [] => None
  | (k', v) :: rest => if str_eqb k k' then Some v else field k rest
  end.

(** [j.at(k)]: throws when there is no such member. *)
Definition at_ (j : json) (k : string) : outcome json :=
  match j with
  | JObj fields => match field k fields with
                   | Some v => Ok v
                   | None => Throw (StdError "json: key not found")
                   end
  | _ => Throw (StdError "json: cannot use at()")
  end.

(** [j.contains(k) && !j.at(k).is_null()] *)
Definition present (j : json) (k : string) : option json :=
  match j with
  | JObj fields => match field k fields with Some JNull => None | r => r end
  | _ => None
  end.

Definition get_string (j : json) : outcome string :=
  match j with JStr s => Ok s | _ => Throw (StdError "json: type must be string") end.
(** [get<uint32_t>()] and [get<int>()] convert the number. *)
Definition get_number (j : json) : outcome Z :=
  match j with
  | JNum z => Ok z
  | JBool b => Ok (if b then 1 else 0)
  | _ => Throw (StdError "json: type must be number")
  end.
Definition get_uint32 (j : json) : outcome Z := z ← get_number j; mret (u32 z).
Definition to_int (z : Z) : Z := let w := u32 z in if bool_decide (w < 2 ^ 31) then w else w - 2 ^ 32.
Definition get_int (j : json) : outcome Z := z ← get_number j; mret (to_int z).

Fixpoint each {A} (f : json -> outcome A) (l : list json) : outcome (list A) :=
  match l with
  | [] => Ok []
  | x :: l' => y ← f x; ys ← each f l'; mret (y :: ys)
  end.

(** Iterating over a value: the elements of an array, the values of an
    object, nothing for null; any other value stands for itself. *)
Definition elements (j : json) : list json :=
  match j with
  | JArr l => l
  | JObj fields => map snd fields
  | JNull => []
  | other => [other]
  end.

(** ** Messages *)

Record RemotePreKeyBundle := mkBundle {
  serviceId : string; deviceId : Z; registrationId : Z;
  preKey : option (Z * Bytes);
  signedPreKeyId : Z; signedPreKeyPublic : Bytes; signedPreKeySignature : Bytes;
  identityKey : Bytes;
  kyberPreKeyId : Z; kyberPreKeyPublic : Bytes; kyberPreKeySignature : Bytes;
}.

(** signalservice::CallMessage, the fields the source uses. *)
Record Hangup := mkHangup { hangup_id : Z; hangup_type : Z; hangup_device : Z }.
Record CallMessage := mkCall {
  offer : option (Z * bool * Bytes);          (* id, video, opaque *)
  answer : option (Z * Bytes);
  iceupdate : list (Z * Bytes);
  hangup : option Hangup;
  busy : option Z;
  destinationdeviceid : option Z;
}.
Definition empty_call : CallMessage := mkCall None None [] None None None.

(** signalservice::Content: which field is set. *)
Inductive Content :=
| CCall (m : CallMessage)
| CSyncKeysRequest
| CDecryptionError (dem : Bytes).

(** One entry of the "messages" array of PUT /v1/messages. *)
Record message := mkMessage { m_type : Z; m_device : Z; m_registration : Z; m_content : string }.

Record Response := mkResponse { status : Z; body : Bytes }.

Inductive request :=
| GetKeys (remote : string)
| PutMessages (destination : string) (messages : list message) (online : bool).

Record sender := mkSender {
  stores : conn;
  deviceListCache : gmap string (list Z * Z);
  answers : list (outcome Response);
  requests : list request;
}.

#[export] Instance has_stores : Has conn sender := {|
  prj := stores;
  put c s := mkSender c (deviceListCache s) (answers s) (requests s);
|}.
#[export] Instance has_stores_laws : HasLaws conn sender.
Proof. by split; intros; try destruct w. Qed.

Definition set_cache (c : gmap string (list Z * Z)) (s : sender) : sender :=
  mkSender (stores s) c (answers s) (requests s).

Definition kDeviceListCacheTtl : Z := 1800.

(** ** libsignal, protobuf and the JSON parser *)

Record libraries := mkLib {
  json_parse : Bytes -> outcome json;
  serialize : Content -> Bytes;
  (* signal_process_prekey_bundle, signal_encrypt_message, with the session
     store they read and write *)
  process_bundle : RemotePreKeyBundle -> Comp conn unit;
  encrypt_message : string -> Z -> Bytes -> Comp conn (Bytes * Z);   (* ciphertext, type *)
  session_registration_id : Bytes -> outcome Z;
  decryption_error_message : Bytes -> Z -> Z -> Z -> outcome Bytes;
}.

Section Sender.
Context (lib : libraries) (fault : nat -> bool) (acct : string).
Context (localServiceId : string) (localDeviceId : Z).


(** [socket.request]: the next answer of the server. *)
Definition request_ (r : request) : Comp sender Response := fun s =>
  match answers s with
  | [] => (Throw (StdError "request timed out"),
           mkSender (stores s) (deviceListCache s) [] (requests s ++ [r]))
  | a :: rest => (a, mkSender (stores s) (deviceListCache s) rest (requests s ++ [r]))
  end.

Definition b64 (j : json) (k : string) : outcome Bytes :=
  v ← at_ j k; s ← get_string v; mret (base64Decode s).

(** The loop body over body.at("devices"). *)
Definition parse_bundle (remote : string) (identity : Bytes) (device : json) :
    outcome RemotePreKeyBundle :=
  dev ← (at_ device "deviceId" ≫= get_uint32);
  reg ← (at_ device "registrationId" ≫= get_uint32);
  pre ← (match present device "preKey" with
         | Some p => i ← (at_ p "keyId" ≫= get_uint32); pub ← b64 p "publicKey"; mret (Some (i, pub))
         | None => mret None
         end);
  signed ← at_ device "signedPreKey";
  si ← (at_ signed "keyId" ≫= get_uint32);
  spub ← b64 signed "publicKey";
  ssig ← b64 signed "signature";
  pq ← at_ device "pqPreKey";
  ki ← (at_ pq "keyId" ≫= get_uint32);
  kpub ← b64 pq "publicKey";
  ksig ← b64 pq "signature";
  mret (mkBundle remote dev reg pre si spub ssig identity ki kpub ksig).

Definition establishSession (b : RemotePreKeyBundle) : Comp sender unit := lift (process_bundle lib b).

Definition fetchAndEstablishSessions (remote : string) : Comp sender (list Z) :=
  response ← request_ (GetKeys remote);
  if negb (bool_decide (status response = 200))
  then throw_std (String.append "GET /v2/keys -> " (to_string (status response))) else
  bundles ← of_outcome (
    j ← json_parse lib (body response);
    identity ← b64 j "identityKey";
    devices ← at_ j "devices";
    each (parse_bundle remote identity) (elements devices));
  map_each (fun b => establishSession b ;; mret (to_int (deviceId b))) bundles.

Definition putMessages (destination : string) (messages : list message) (online : bool) :
    Comp sender Response :=
  request_ (PutMessages destination messages online).

Definition remoteRegistrationIdFromSession (address : string) : Comp sender Z :=
  record ← lift (loadSession fault acct address);
  match record with
  | None => mret 0
  | Some r => of_outcome (session_registration_id lib r)
  end.

(** The cache lookup: an entry younger than the TTL. *)
Definition cache_hit (now : Z) (entry : option (list Z * Z)) : option (list Z) :=
  match entry with
  | Some (ids, t) => if bool_decide (now - t < kDeviceListCacheTtl) then Some ids else None
  | None => None
  end.

(** [now] is the steady clock in seconds. *)
Definition resolveDeviceList (now : Z) (remote : string) : Comp sender (list Z) :=
  cached ← gets (fun s => cache_hit now (deviceListCache s !! remote));
  match cached with
  | Some ids => mret ids
  | None =>
    ids ← fetchAndEstablishSessions remote;
    modify (fun s => set_cache (<[remote := (ids, now)]> (deviceListCache s)) s) ;;
    mret ids
  end.

(** SignalCiphertextMessageTypePreKey *)
Definition kCiphertextPreKey : Z := 3.

Definition encryptForDevice (remote : string) (device : Z) (plaintext : Bytes) :
    Comp sender (Bytes * Z) :=
  match padMessageBody plaintext with
  | Some padded => lift (encrypt_message lib remote (u32 device) padded)
  | None => throw_std "vector"
  end.

Definition address_of (destination : string) (device : Z) : string :=
  String.append destination (String "." (to_string device)).

Definition encrypt_one (destination : string) (plaintext : Bytes) (device : Z) :
    Comp sender message :=
  encrypted ← encryptForDevice destination device plaintext;
  let envelopeType := if bool_decide (encrypted.2 = kCiphertextPreKey) then 3 else 1 in
  reg ← remoteRegistrationIdFromSession (address_of destination device);
  mret (mkMessage envelopeType device reg (base64Encode encrypted.1)).

(** errorBody.value("extraDevices", std::vector<int>{}) *)
Definition extra_devices (j : json) : outcome (list Z) :=
  match j with
  | JObj fields => match field "extraDevices" fields with
                   | None => Ok []
                   | Some (JArr l) => each get_int l
                   | Some _ => Throw (StdError "json: type must be array")
                   end
  | _ => Throw (StdError "json: cannot use value()")
  end.

(** The messages whose device is not in the list. *)
Definition without (extra : list Z) (messages : list message) : list message :=
  filter (fun m => m_device m ∉ extra) messages.

(** The 409 branch: the response to go on with. *)
Definition retry_without_extra (destination : string) (messages : list message)
    (response : Response) : Comp sender Response :=
  catch_std (
    j ← of_outcome (json_parse lib (body response));
    extra ← of_outcome (extra_devices j);
    match extra with
    | [] => mret response
    | _ =>
      let retry := without extra messages in
      match retry with
      | [] => mret response
      | _ => putMessages destination retry true
      end
    end) (fun _ => mret response).

Definition sendContent (now : Z) (destination : string) (content : Content) :
    Comp sender (list Z) :=
  deviceIds ← resolveDeviceList now destination;
  match deviceIds with
  | [] => mret deviceIds
  | _ =>
    messages ← map_each (encrypt_one destination (serialize lib content)) deviceIds;
    response ← putMessages destination messages true;
    response ← (if bool_decide (status response = 409)
                then retry_without_extra destination messages response else mret response);
    when (negb (bool_decide (status response / 100 = 2)) &&
          (bool_decide (status response = 409) || bool_decide (status response = 410)))
      (modify (fun s => set_cache (delete destination (deviceListCache s)) s)) ;;
    mret deviceIds
  end.

Definition sendCallMessage (now : Z) (remote : string) (m : CallMessage) : Comp sender (list Z) :=
  sendContent now remote (CCall m).
Definition sendKeysRequest (now : Z) : Comp sender unit :=
  sendContent now localServiceId CSyncKeysRequest ;; mret tt.
Definition sendOffer (now : Z) (remote : string) (callId mediaType : Z) (opaque : Bytes) :
    Comp sender unit :=
  sendCallMessage now remote
    (mkCall (Some (callId, bool_decide (mediaType = 1), opaque)) None [] None None None) ;; mret tt.
Definition sendAnswer (now : Z) (remote : string) (callId : Z) (opaque : Bytes) : Comp sender unit :=
  sendCallMessage now remote (mkCall None (Some (callId, opaque)) [] None None None) ;; mret tt.
Definition sendIce (now : Z) (remote : string) (callId : Z) (receiver : option Z) (opaque : Bytes) :
    Comp sender unit :=
  sendCallMessage now remote (mkCall None None [(callId, opaque)] None None receiver) ;; mret tt.
Definition sendHangup (now : Z) (remote : string) (callId hangupType hangupDeviceId : Z) :
    Comp sender unit :=
  sendCallMessage now remote
    (mkCall None None [] (Some (mkHangup callId hangupType hangupDeviceId)) None None) ;; mret tt.

(** ** Replies to undecryptable envelopes *)

Definition kPlaintextContentEnvelopeType : Z := 8.

(** PlaintextContent: identifier byte, content, padding boundary. *)
Definition plaintext_content (contentBytes : Bytes) : Bytes := [0xC0] ++ contentBytes ++ [0x80].

Definition is_own_device (senderServiceId : string) (device : Z) : bool :=
  str_eqb senderServiceId localServiceId && bool_decide (u32 device = localDeviceId).

Definition reply_message (senderServiceId : string) (content : Bytes) (device : Z) :
    Comp sender message :=
  reg ← remoteRegistrationIdFromSession (address_of senderServiceId device);
  mret (mkMessage kPlaintextContentEnvelopeType device reg (base64Encode content)).

Definition sendDecryptionErrorReply (now : Z) (senderServiceId : string) (senderDeviceId : Z)
    (originalCiphertext : Bytes) (originalType originalTimestamp : Z) : Comp sender unit :=
  catch_std (
    dem ← of_outcome (decryption_error_message lib originalCiphertext originalType originalTimestamp
                       senderDeviceId);
    let content := plaintext_content (serialize lib (CDecryptionError dem)) in
    deviceIds ← resolveDeviceList now senderServiceId;
    messages ← map_each (reply_message senderServiceId content)
                 (filter (fun d => is_own_device senderServiceId d = false) deviceIds);
    putMessages senderServiceId messages false ;;
    mret tt) (fun _ => mret tt).
End Sender.

(** ** The receive side *)

Definition rawPublicKeyBytes (serialized : Bytes) : Bytes :=
  if bool_decide (length serialized = 33%nat) then drop 1 serialized else serialized.

(** Calls into RingRTC. *)
Inductive ringrtc_call :=
| ReceivedOffer (peer : string) (id dev local : Z) (opaque senderKey receiverKey : Bytes)
| ReceivedAnswer (peer : string) (id dev : Z) (opaque senderKey receiverKey : Bytes)
| ReceivedIce (peer : string) (id dev : Z) (opaque : Bytes)
| ReceivedHangup (peer : string) (id dev type device : Z)
| ReceivedBusy (peer : string) (id dev : Z).

(** The database, and the calls made into RingRTC so far. *)
Record receiver := mkReceiver { r_conn : conn; calls_made : list ringrtc_call }.

#[export] Instance has_receiver_conn : Has conn receiver := {|
  prj := r_conn; put c r := mkReceiver c (calls_made r) |}.
#[export] Instance has_receiver_conn_laws : HasLaws conn receiver.
Proof. by split; intros; try destruct w. Qed.

Section Receive.
Context (fault : nat -> bool) (acct identity : string).

(** The narrow-lock block of the offer and answer branches. *)
Definition call_identity_keys (peer : string) : Comp conn (Bytes * Bytes) :=
  stored ← loadRemoteIdentity fault acct peer;
  keypair ← loadIdentityKeypair fault acct identity;
  mret (match stored with Some k => rawPublicKeyBytes k | None => replicate 32 0 end,
        match keypair with Some k => rawPublicKeyBytes (public_key k) | None => replicate 32 0 end).

Definition ringrtc (c : ringrtc_call) : Comp receiver unit :=
  modify (fun r => mkReceiver (r_conn r) (calls_made r ++ [c])).

Definition handleCallMessage (peer : string) (dev local : Z) (m : CallMessage) :
    Comp receiver unit :=
  match offer m with
  | Some (id, _, opaque) =>
    keys ← lift (call_identity_keys peer);
    ringrtc (ReceivedOffer peer id dev local opaque keys.1 keys.2)
  | None => mret tt
  end ;;
  match answer m with
  | Some (id, opaque) =>
    keys ← lift (call_identity_keys peer);
    ringrtc (ReceivedAnswer peer id dev opaque keys.1 keys.2)
  | None => mret tt
  end ;;
  for_each (fun ice => ringrtc (ReceivedIce peer ice.1 dev ice.2)) (iceupdate m) ;;
  match hangup m with
  | Some h => ringrtc (ReceivedHangup peer (hangup_id h) dev (hangup_type h) (hangup_device h))
  | None => mret tt
  end ;;
  match busy m with
  | Some id => ringrtc (ReceivedBusy peer id dev)
  | None => mret tt
  end.
End Receive.

(** ** Frames: what only reads and writes the database *)

Definition net (s : sender) := (deviceListCache s, answers s, requests s).
Definition keeps_net {A} (m : Comp sender A) : Prop := forall s, net (m s).2 = net s.

Lemma keeps_net_ret {A} (a : A) : keeps_net (mret a).
Proof. by intros s. Qed.
Lemma keeps_net_throw {A} e : keeps_net (@throw sender A e).
Proof. by intros s. Qed.
Lemma keeps_net_of_result {A} (o : outcome A) : keeps_net (of_outcome o).
Proof. by intros s. Qed.
Lemma keeps_net_lift {A} (m : Comp conn A) : keeps_net (lift m).
Proof. intros s. unfold lift. by destruct (m (prj s)). Qed.
Lemma keeps_net_bind {A B} (m : Comp sender A) (f : A -> Comp sender B) :
  keeps_net m -> (forall a, keeps_net (f a)) -> keeps_net (m ≫= f).
Proof.
  intros Hm Hf s. unfold mbind, comp_bind. specialize (Hm s).
  destruct (m s) as [[a|e] s1]; [|done]. by rewrite (Hf a s1).
Qed.
Lemma keeps_net_map_each {A B} (f : A -> Comp sender B) l :
  (forall a, keeps_net (f a)) -> keeps_net (map_each f l).
Proof.
  intros Hf. induction l as [|x l IH]; [apply keeps_net_ret|]. cbn [map_each].
  apply keeps_net_bind; [done|]. intros b. apply keeps_net_bind; [done|]. intros bs.
  apply keeps_net_ret.
Qed.
#[export] Hint Resolve keeps_net_ret keeps_net_throw keeps_net_of_result keeps_net_lift
  keeps_net_map_each : signal.

Section sender_lemmas.
Context (lib : libraries) (fault : nat -> bool) (acct localId : string) (localDev : Z).

Lemma remoteRegistrationId_net address : keeps_net (remoteRegistrationIdFromSession lib fault acct address).
Proof.
  apply keeps_net_bind; [apply keeps_net_lift|]. intros [r|]; auto with signal.
Qed.

Lemma encrypt_one_net destination plaintext dev :
  keeps_net (encrypt_one lib fault acct destination plaintext dev).
Proof.
  unfold encrypt_one, encryptForDevice. apply keeps_net_bind.
  - destruct (padMessageBody plaintext); auto with signal. apply keeps_net_throw.
  - intros e. apply keeps_net_bind; [apply remoteRegistrationId_net|]. auto with signal.
Qed.

Lemma request_eq r s o s' :
  request_ r s = (o, s') ->
  deviceListCache s' = deviceListCache s /\ requests s' = requests s ++ [r] /\ stores s' = stores s.
Proof. unfold request_. destruct (answers s); intros [= <- <-]; done. Qed.

(** A fetch makes one request and does not touch the cache. *)
Lemma fetch_net remote s o s' :
  fetchAndEstablishSessions lib remote s = (o, s') ->
  deviceListCache s' = deviceListCache s /\ requests s' = requests s ++ [GetKeys remote].
Proof.
  unfold fetchAndEstablishSessions. unfold mbind at 1, comp_bind.
  destruct (request_ (GetKeys remote) s) as [[r|e] s1] eqn:E;
    destruct (request_eq _ _ _ _ E) as (Hc & Hr & _); [|by intros [= <- <-]].
  destruct (negb _); [by intros [= <- <-]|]. intros H.
  match type of H with ?m s1 = _ => assert (keeps_net m) as Hk end.
  { apply keeps_net_bind; [apply keeps_net_of_result|]. intros bundles.
    apply keeps_net_map_each. intros b. apply keeps_net_bind; [apply keeps_net_lift|].
    auto with signal. }
  specialize (Hk s1). rewrite H in Hk. cbn in Hk. unfold net in Hk. injection Hk as Hc' _ Hr'.
  by rewrite Hc', Hr', Hc, Hr.
Qed.

Lemma resolve_cases now remote s o s' :
  resolveDeviceList lib now remote s = (o, s') ->
  match cache_hit now (deviceListCache s !! remote) with
  | Some ids => o = Ok ids /\ s' = s
  | None =>
    requests s' = requests s ++ [GetKeys remote] /\
    match o with
    | Ok ids => deviceListCache s' = <[remote := (ids, now)]> (deviceListCache s)
    | Throw _ => deviceListCache s' = deviceListCache s
    end
  end.
Proof.
  unfold resolveDeviceList, gets. unfold mbind at 1, comp_bind.
  destruct (cache_hit now (deviceListCache s !! remote)) as [ids|]; [by intros [= <- <-]|].
  unfold mbind at 1, comp_bind. destruct (fetchAndEstablishSessions lib remote s) as [[ids|e] s1] eqn:E;
    destruct (fetch_net _ _ _ _ E) as (Hc & Hr); intros [= <- <-]; [|done].
  cbn. by rewrite Hc.
Qed.
End sender_lemmas.

(** The device list of a peer is fetched once and reused for 1800 seconds:
    a resolve with a younger entry makes no request and changes nothing;
    otherwise it makes exactly one GET /v2/keys, and if it succeeds every
    resolve in the next 1800 seconds, from any state with this cache, returns
    the same list without a request, and the other peers' entries are kept. *)
Lemma device_list_cached (lib : libraries) (now : Z) (remote : string) (s s' : sender)
    (o : outcome (list Z)) :
  resolveDeviceList lib now remote s = (o, s') ->
  match cache_hit now (deviceListCache s !! remote) with
  | Some ids => o = Ok ids /\ s' = s
  | None =>
    requests s' = requests s ++ [GetKeys remote] /\
    (forall peer, peer <> remote -> deviceListCache s' !! peer = deviceListCache s !! peer) /\
    match o with
    | Ok ids => forall later s2, deviceListCache s2 = deviceListCache s' ->
        now <= later < now + 1800 -> resolveDeviceList lib later remote s2 = (Ok ids, s2)
    | Throw _ => deviceListCache s' = deviceListCache s
    end
  end.
Proof.
  intros H. apply resolve_cases in H. destruct (cache_hit _ _) as [ids|]; [done|].
  destruct H as [Hr Hc]. split; [done|]. destruct o as [ids|e].
  - split; [intros peer Hp; by rewrite Hc, lookup_insert_ne|].
    intros later s2 Hs2 Hlater. unfold resolveDeviceList, gets, mbind, comp_bind.
    rewrite Hs2, Hc, lookup_insert_eq. cbn [cache_hit].
    by rewrite bool_decide_eq_true_2 by (unfold kDeviceListCacheTtl; lia).
  - split; [|done]. intros peer _. by rewrite Hc.
Qed.

(** A server and libraries that answer: one account with devices 1 and 2. *)
Definition sample_lib : libraries :=
  mkLib (fun b => match b with
                  | [1] => let pk := JObj [("keyId", JNum 1); ("publicKey", JStr "AA=="); ("signature", JStr "AA==")] in
                      Ok (JObj [("identityKey", JStr "AA==");
                        ("devices", JArr [
                           JObj [("deviceId", JNum 1); ("registrationId", JNum 9); ("signedPreKey", pk); ("pqPreKey", pk)];
                           JObj [("deviceId", JNum 2); ("registrationId", JNum 8); ("signedPreKey", pk); ("pqPreKey", pk)]])])
                  | [2] => Ok (JObj [("extraDevices", JArr [JNum 2])])
                  | _ => Throw (StdError "parse error")
                  end)%string
    (fun _ => [7]) (fun _ => mret tt) (fun _ _ b => mret (b, 2)) (fun _ => Ok 5)
    (fun _ _ _ _ => Ok [3]).

Definition sample_sender (l : list (outcome Response)) : sender := mkSender two_accounts ∅ l [].

Lemma device_list_cached_witness :
  exists s', resolveDeviceList sample_lib 10 "u" (sample_sender [Ok (mkResponse 200 [1])]) =
    (Ok [1; 2], s') /\
  match cache_hit 10 (deviceListCache (sample_sender []) !! "u"%string) with
  | Some ids => Ok [1; 2] = Ok ids /\ s' = sample_sender [Ok (mkResponse 200 [1])]
  | None =>
    requests s' = requests (sample_sender []) ++ [GetKeys "u"] /\
    (forall peer, peer <> "u"%string ->
       deviceListCache s' !! peer = deviceListCache (sample_sender []) !! peer) /\
    forall later s2, deviceListCache s2 = deviceListCache s' ->
      10 <= later < 10 + 1800 -> resolveDeviceList sample_lib later "u" s2 = (Ok [1; 2], s2)
  end.
Proof.
  eexists. split; [reflexivity|].
  apply (device_list_cached sample_lib 10 "u" (sample_sender [Ok (mkResponse 200 [1])]) _ (Ok [1; 2])).
  reflexivity.
Defined.

(** Answers are only taken, never made up. *)
Definition answered (A : list (outcome Response)) (s : sender) : Prop := answers s ⊆ A.

Lemma answered_request A r : preserves (answered A) (request_ r).
Proof.
  intros s Hs. unfold request_, answered in *. destruct (answers s) as [|a rest] eqn:E; cbn; set_solver.
Qed.

Lemma request_answer A r s a s' :
  answered A s -> request_ r s = (Ok a, s') -> Ok a ∈ A /\ answered A s'.
Proof.
  intros Hs H. pose proof (answered_request A r s Hs) as Hs'. rewrite H in Hs'. split; [|done].
  unfold request_, answered in *. destruct (answers s) as [|x rest]; [done|].
  injection H as -> _. set_solver.
Qed.

Lemma answered_resolve A lib now remote : preserves (answered A) (resolveDeviceList lib now remote).
Proof.
  assert (forall B (m : Comp conn B), preserves (answered A) (lift m)) as Hl.
  { intros B m s Hs. unfold lift. destruct (m _). exact Hs. }
  assert (forall B (o : outcome B), preserves (answered A) (of_outcome o)) as Ho by (by intros B o s Hs).
  unfold resolveDeviceList, fetchAndEstablishSessions, establishSession.
  keeps; auto using answered_request, preserves_modify.
Qed.

(** What the send leaves in the cache, by the final response. *)
Lemma cache_after destination r s s' :
  when (negb (bool_decide (status r / 100 = 2)) &&
        (bool_decide (status r = 409) || bool_decide (status r = 410)))
    (modify (fun s => set_cache (delete destination (deviceListCache s)) s)) s = (Ok tt, s') ->
  requests s' = requests s /\
  deviceListCache s' = if bool_decide (status r = 409 \/ status r = 410)
                       then delete destination (deviceListCache s) else deviceListCache s.
Proof.
  unfold when, modify, mret, comp_ret. intros H.
  destruct (bool_decide (status r = 409 \/ status r = 410)) eqn:E; bdec.
  - assert (negb (bool_decide (status r / 100 = 2)) &&
        (bool_decide (status r = 409) || bool_decide (status r = 410)) = true) as Hb.
    { destruct E as [-> | ->]; done. }
    rewrite Hb in H. by injection H as <-.
  - rewrite !(bool_decide_eq_false_2 (status r = _)), andb_false_r in H by tauto. by injection H as <-.
Qed.

(** What a resolve leaves: at most one fetch, and the other peers' lists. *)
Lemma resolve_any lib now destination s :
  let '(_, s1) := resolveDeviceList lib now destination s in
  (requests s1 = requests s \/ requests s1 = requests s ++ [GetKeys destination]) /\
  (forall peer, peer <> destination -> deviceListCache s1 !! peer = deviceListCache s !! peer) /\
  answered (answers s) s1.
Proof.
  assert (answered (answers s) s) as Ha by (unfold answered; set_solver).
  pose proof (answered_resolve (answers s) lib now destination s Ha) as H1.
  destruct (resolveDeviceList lib now destination s) as [o s1] eqn:Hres.
  apply resolve_cases in Hres. destruct (cache_hit _ _) as [ids0|] eqn:Eh.
  - destruct Hres as [_ ->]. split_and!; [by left|done|exact H1].
  - destruct Hres as [Hr Hc]. split_and!; [by right| |exact H1]. intros peer Hp.
    destruct o; rewrite Hc; [by rewrite lookup_insert_ne|done].
Qed.

(** *** The messages of a send *)

Section messages.
Context (lib : libraries) (fault : nat -> bool) (acct destination : string).

(** The messages for [ids], made from the padded plaintext one after the other
    on the database: each carries the ciphertext libsignal gave for its device,
    type 3 for a pre-key message and 1 for any other, the device, and the
    registration id of the session that the encryption left (0 if there is none). *)
Inductive encrypted (padded : Bytes) : conn -> list Z -> list message -> conn -> Prop :=
| encrypted_nil c : encrypted padded c [] [] c
| encrypted_cons c d ids ciphertext type c1 session_ reg c2 msgs c3 :
    encrypt_message lib destination (u32 d) padded c = (Ok (ciphertext, type), c1) ->
    loadSession fault acct (address_of destination d) c1 = (Ok session_, c2) ->
    match session_ with Some r => session_registration_id lib r = Ok reg | None => reg = 0 end ->
    encrypted padded c2 ids msgs c3 ->
    encrypted padded c (d :: ids)
      (mkMessage (if bool_decide (type = kCiphertextPreKey) then 3 else 1) d reg (base64Encode ciphertext) :: msgs) c3.

Lemma encrypted_devices padded c ids msgs c' : encrypted padded c ids msgs c' -> map m_device msgs = ids.
Proof. induction 1 as [|? ? ? ? ? ? ? ? ? ? ? _ _ _ _ IH]; [done|]. cbn. by rewrite IH. Qed.

Lemma encrypt_one_inv plaintext d s m s' :
  encrypt_one lib fault acct destination plaintext d s = (Ok m, s') ->
  exists padded ciphertext type c1 session_ reg, padMessageBody plaintext = Some padded /\
    encrypt_message lib destination (u32 d) padded (stores s) = (Ok (ciphertext, type), c1) /\
    loadSession fault acct (address_of destination d) c1 = (Ok session_, stores s') /\
    match session_ with Some r => session_registration_id lib r = Ok reg | None => reg = 0 end /\
    m = mkMessage (if bool_decide (type = kCiphertextPreKey) then 3 else 1) d reg (base64Encode ciphertext).
Proof.
  unfold encrypt_one, encryptForDevice. destruct (padMessageBody plaintext) as [padded|]; [|done].
  intros ([ct t] & s1 & H1 & (reg & s2 & H2 & [= <- <-])%bind_inv_ok)%bind_inv_ok. cbn [fst snd].
  unfold lift in H1. cbn in H1. destruct (encrypt_message _ _ _ _ _) as [r c1] eqn:E1. injection H1 as -> <-.
  apply bind_inv_ok in H2 as (r & s3 & H2 & H3). unfold lift in H2. cbn in H2.
  destruct (loadSession _ _ _ c1) as [r' c2] eqn:E2. injection H2 as -> <-.
  exists padded, ct, t, c1, r, reg. destruct r as [b|]; injection H3 as H3 <-; by rewrite ?E2.
Qed.

Lemma encrypted_messages plaintext d ids s msgs s' :
  map_each (encrypt_one lib fault acct destination plaintext) (d :: ids) s = (Ok msgs, s') ->
  exists padded, padMessageBody plaintext = Some padded /\ encrypted padded (stores s) (d :: ids) msgs (stores s').
Proof.
  revert d s msgs. induction ids as [|d2 ids IH]; intros d s msgs H; cbn [map_each] in H;
    apply bind_inv_ok in H as (m & s1 & H1 & H); apply bind_inv_ok in H as (ms & s2 & H2 & [= <- <-]);
    apply encrypt_one_inv in H1 as (padded & ct & t & c1 & r & reg & Hp & He & Hl & Hr & ->); exists padded; (split; [done|]).
  - injection H2 as <- <-. eapply encrypted_cons; [done..|apply encrypted_nil].
  - destruct (IH _ _ _ H2) as (padded2 & Hp2 & Henc). assert (padded2 = padded) as -> by congruence.
    by eapply encrypted_cons.
Qed.
End messages.

(** *** After the first PUT *)

Section after_put.
Context (lib : libraries) (destination : string) (msgs : list message) (A : list (outcome Response)).

(** The requests a send makes after its keys are there: the PUT, or also the
    retry its answer asks for. *)
Definition puts (first : option Response) (l : list request) : Prop :=
  l = [PutMessages destination msgs true] \/
  exists r extra, first = Some r /\ status r = 409 /\ (json_parse lib (body r) ≫= extra_devices) = Ok extra /\
    without extra msgs <> [] /\
    l = [PutMessages destination msgs true; PutMessages destination (without extra msgs) true].

(** The 409 branch, on every path. *)
Lemma retry_any r s o s' :
  answered A s -> Ok r ∈ A ->
  (if bool_decide (status r = 409) then retry_without_extra lib destination msgs r else mret r) s = (o, s') ->
  deviceListCache s' = deviceListCache s /\ stores s' = stores s /\
  exists l, requests s' = requests s ++ l /\ puts (Some r) (PutMessages destination msgs true :: l) /\
    match o with Ok final => Ok final ∈ A /\ (final = r \/ l <> []) | Throw _ => True end.
Proof.
  intros HA Hr H.
  assert (forall o', match o' with Ok f => f = r | Throw _ => True end -> (o', s) = (o, s') ->
    deviceListCache s' = deviceListCache s /\ stores s' = stores s /\
    exists l, requests s' = requests s ++ l /\ puts (Some r) (PutMessages destination msgs true :: l) /\
      match o with Ok final => Ok final ∈ A /\ (final = r \/ l <> []) | Throw _ => True end) as Hsame.
  { intros o' Ho [= <- <-]. do 2 (split; [done|]). exists []. rewrite app_nil_r. split_and!; [done|by left|].
    destruct o' as [f|e]; [subst f; by split; [|left]|done]. }
  revert H. case_bool_decide as E409; [|by apply (Hsame (Ok r))].
  unfold retry_without_extra, catch_std, of_outcome, mbind, comp_bind.
  destruct (json_parse lib (body r)) as [j|e] eqn:Ej; [|destruct e; first [by apply (Hsame (Ok r))|by apply (Hsame (Throw _))]].
  destruct (extra_devices j) as [extra|e] eqn:Ee; [|destruct e; first [by apply (Hsame (Ok r))|by apply (Hsame (Throw _))]].
  destruct extra as [|x extra]; [by apply (Hsame (Ok r))|].
  destruct (without (x :: extra) msgs) as [|m retry] eqn:Ef; [by apply (Hsame (Ok r))|].
  unfold putMessages. destruct (request_ (PutMessages destination (m :: retry) true) s) as [o1 s1] eqn:Eq.
  destruct (request_eq _ _ _ _ Eq) as (Hc & Hq & Hst).
  assert (match o1 with Ok f => Ok f ∈ A | Throw _ => True end) as Hin
    by (destruct o1; [by destruct (request_answer A _ _ _ _ HA Eq)|done]).
  assert (puts (Some r) [PutMessages destination msgs true; PutMessages destination (m :: retry) true]) as Hputs
    by (right; exists r, (x :: extra); rewrite Ej, Ef; by split_and!).
  intros H. assert (s' = s1) as -> by (destruct o1 as [r1|[w| |]]; by injection H).
  do 2 (split; [done|]). eexists. split_and!; [exact Hq|exact Hputs|].
  destruct o1 as [r1|[w| |]]; injection H as <-; try done; by split; [|right].
Qed.

(** The whole of it, from the first PUT to the end of the send. *)
Lemma put_any ids s o s' :
  answered A s ->
  (response ← putMessages destination msgs true;
   response ← (if bool_decide (status response = 409)
               then retry_without_extra lib destination msgs response else mret response);
   when (negb (bool_decide (status response / 100 = 2)) &&
         (bool_decide (status response = 409) || bool_decide (status response = 410)))
     (modify (fun s => set_cache (delete destination (deviceListCache s)) s)) ;;
   mret ids : Comp sender (list Z)) s = (o, s') ->
  stores s' = stores s /\
  exists l, requests s' = requests s ++ l /\
  match o with
  | Ok ids' => ids' = ids /\ exists first final, Ok first ∈ A /\ Ok final ∈ A /\ puts (Some first) l /\
      (final = first \/ l <> [PutMessages destination msgs true]) /\
      deviceListCache s' = if bool_decide (status final = 409 \/ status final = 410)
                           then delete destination (deviceListCache s) else deviceListCache s
  | Throw _ => (exists first, match first with Some r => Ok r ∈ A | None => True end /\ puts first l) /\
      deviceListCache s' = deviceListCache s
  end.
Proof.
  intros HA. unfold mbind at 1, comp_bind at 1, putMessages.
  destruct (request_ (PutMessages destination msgs true) s) as [[r|e] s1] eqn:Eq; destruct (request_eq _ _ _ _ Eq) as (Hc & Hq & Hst).
  2: { intros [= <- <-]. split; [done|]. eexists. split; [exact Hq|]. split; [exists None; by split; [|left]|done]. }
  destruct (request_answer A _ _ _ _ HA Eq) as [Hr HA1].
  unfold mbind at 1, comp_bind at 1. match goal with |- context [(if bool_decide (status r = 409) then _ else _) ?x] =>
    destruct ((if bool_decide (status r = 409) then retry_without_extra lib destination msgs r else mret r) x) as [o2 s2] eqn:E2 end.
  destruct (retry_any r s1 o2 s2 HA1 Hr E2) as (Hc2 & Hst2 & l & Hq2 & Hputs & Hfin).
  destruct o2 as [final|e].
  2: { intros [= <- <-]. split; [congruence|]. eexists. split; [rewrite Hq2, Hq, <- app_assoc; done|].
       split; [exists (Some r); by split|congruence]. }
  destruct Hfin as [Hin Hl]. unfold mbind, comp_bind. destruct (when _ _ s2) as [[u|e] s3] eqn:Ew; [|exfalso; revert Ew; unfold when; by destruct (_ && _)].
  destruct u. destruct (cache_after _ _ _ _ Ew) as [Hr3 Hc3].
  assert (stores s3 = stores s2) as Hst3 by (revert Ew; unfold when; destruct (_ && _); by intros [= <-]).
  intros [= <- <-]. split; [congruence|]. eexists. split; [rewrite Hr3, Hq2, Hq, <- app_assoc; done|]. split; [done|].
  exists r, final. split_and!; [done..| |rewrite Hc3, Hc2, Hc; done].
  destruct Hl as [->|Hl]; [by left|right]. by destruct l.
Qed.
End after_put.


(** The server calls device 2 extra; the retry goes to device 1 alone. *)
Definition retried_answers : list (outcome Response) :=
  [Ok (mkResponse 200 [1]); Ok (mkResponse 409 [2]); Ok (mkResponse 200 [])].

Example retried_send :
  let '(o, s') := sendContent sample_lib no_fault "a" 10 "u" CSyncKeysRequest (sample_sender retried_answers) in
  (o, map (fun r => match r with GetKeys _ => [] | PutMessages _ ms _ => map m_device ms end) (requests s')) =
  (Ok [1; 2], [[]; [1; 2]; [1]]).
Proof. vm_compute. reflexivity. Qed.


(** ** Replies to undecryptable envelopes never throw *)

(** libsignal errors are std::runtime_errors ([checkError]), and so are the
    JSON library's. *)
Class StdLibraries (lib : libraries) : Prop := {
  std_json : forall b, std_outcome (json_parse lib b);
  std_process : forall b c, std_outcome (process_bundle lib b c).1;
  std_registration : forall b, std_outcome (session_registration_id lib b);
  std_dem : forall b t ts d, std_outcome (decryption_error_message lib b t ts d);
}.

Definition std_answers (s : sender) : Prop := Forall std_outcome (answers s).

(** Only std::exceptions, with the answers to come still of that kind. *)
Definition std_only {A} (m : Comp sender A) : Prop :=
  forall s, std_answers s -> std_outcome (m s).1 /\ std_answers (m s).2.

Lemma std_only_ret {A} (a : A) : std_only (mret a).
Proof. by intros s Hs. Qed.
Lemma std_only_throw {A} w : std_only (@throw_std sender A w).
Proof. by intros s Hs. Qed.
Lemma std_only_of_result {A} (o : outcome A) : std_outcome o -> std_only (of_outcome o).
Proof. by intros Ho s Hs. Qed.
Lemma std_only_lift {A} (m : Comp conn A) : (forall c, std_outcome (m c).1) -> std_only (lift m).
Proof. intros Hm s Hs. unfold lift. specialize (Hm (prj s)). by destruct (m (prj s)). Qed.
Lemma std_only_bind {A B} (m : Comp sender A) (f : A -> Comp sender B) :
  std_only m -> (forall a, std_only (f a)) -> std_only (m ≫= f).
Proof.
  intros Hm Hf s Hs. unfold mbind, comp_bind. destruct (Hm s Hs) as [Ho Ha].
  destruct (m s) as [[a|e] s1]; [by apply Hf|done].
Qed.
Lemma std_only_map_each {A B} (f : A -> Comp sender B) l :
  (forall a, std_only (f a)) -> std_only (map_each f l).
Proof.
  intros Hf. induction l as [|x l IH]; [apply std_only_ret|]. cbn [map_each].
  apply std_only_bind; [done|]. intros b. apply std_only_bind; [done|]. intros bs. apply std_only_ret.
Qed.
Lemma std_only_request r : std_only (request_ r).
Proof.
  intros s Hs. unfold request_. unfold std_answers in *.
  destruct (answers s) as [|a rest]; cbn; [done|]. by apply Forall_cons in Hs as [? ?].
Qed.

Lemma std_bind {A B} (o : outcome A) (f : A -> outcome B) :
  std_outcome o -> (forall a, std_outcome (f a)) -> std_outcome (o ≫= f).
Proof. intros Ho Hf. by destruct o as [a|e]; [apply Hf|]. Qed.

Lemma std_at j k : std_outcome (at_ j k).
Proof. unfold at_. destruct j; try done. by destruct (field k fields). Qed.
Lemma std_get_number j : std_outcome (get_number j).
Proof. by destruct j. Qed.
Lemma std_get_uint32 j : std_outcome (get_uint32 j).
Proof. apply std_bind; [apply std_get_number|done]. Qed.
Lemma std_b64 j k : std_outcome (b64 j k).
Proof. apply std_bind; [apply std_at|]. intros v. by destruct v. Qed.
Lemma std_each {A} (f : json -> outcome A) l : (forall x, std_outcome (f x)) -> std_outcome (each f l).
Proof.
  intros Hf. induction l as [|x l IH]; [done|]. cbn [each]. apply std_bind; [done|].
  intros y. by apply std_bind.
Qed.
Lemma std_parse_bundle remote identity device : std_outcome (parse_bundle remote identity device).
Proof.
  unfold parse_bundle.
  repeat first
    [ apply std_bind; [solve [apply std_at | apply std_b64 | apply std_bind;
        [apply std_at|intros ?; apply std_get_uint32]]|intros ?]
    | done ].
  apply std_bind.
  - destruct (present device "preKey"); [|done].
    apply std_bind; [apply std_bind; [apply std_at|intros ?; apply std_get_uint32]|intros ?].
    apply std_bind; [apply std_b64|done].
  - intros pre.
    repeat first
      [ apply std_bind; [solve [apply std_at | apply std_b64 | apply std_bind;
          [apply std_at|intros ?; apply std_get_uint32]]|intros ?]
      | done ].
Qed.

Lemma std_load_session fault acct a c : std_outcome (loadSession fault acct a c).1.
Proof.
  unfold loadSession. destruct (select_cases fault (fun d => session d !! (acct, a)) c)
    as [n [[w ->]|[->| ->]]]; done.
Qed.

Section reply.
#[local] Set Default Proof Using "All".
Context (lib : libraries) `{!StdLibraries lib} (fault : nat -> bool) (acct : string).

Lemma std_only_registration address : std_only (remoteRegistrationIdFromSession lib fault acct address).
Proof.
  apply std_only_bind; [apply std_only_lift; intros c; apply std_load_session|].
  intros [r|]; [apply std_only_of_result, std_registration|apply std_only_ret].
Qed.

Lemma std_only_resolve now remote : std_only (resolveDeviceList lib now remote).
Proof.
  apply std_only_bind; [by intros s Hs|]. intros [ids|]; [apply std_only_ret|].
  apply std_only_bind; [|intros ids; apply std_only_bind; [by intros s Hs|intros _; apply std_only_ret]].
  apply std_only_bind; [apply std_only_request|]. intros r.
  destruct (negb _); [apply std_only_throw|].
  apply std_only_bind.
  - apply std_only_of_result. apply std_bind; [apply std_json|]. intros j.
    apply std_bind; [apply std_b64|]. intros i. apply std_bind; [apply std_at|]. intros l.
    apply std_each. intros d. apply std_parse_bundle.
  - intros bundles. apply std_only_map_each. intros b.
    apply std_only_bind; [apply std_only_lift; intros c; apply std_process|].
    intros _. apply std_only_ret.
Qed.

Lemma std_only_reply_message sid content d : std_only (reply_message lib fault acct sid content d).
Proof. apply std_only_bind; [apply std_only_registration|]. intros r. apply std_only_ret. Qed.
(** Building the reply's messages sends nothing; each is of type 8. *)
Lemma reply_messages_requests sid content devs s :
  requests (map_each (reply_message lib fault acct sid content) devs s).2 = requests s.
Proof.
  pose proof (keeps_net_map_each (reply_message lib fault acct sid content) devs) as Hk.
  assert (net (map_each (reply_message lib fault acct sid content) devs s).2 = net s) as Hn; [|by injection Hn].
  apply Hk. intros d. apply keeps_net_bind; [apply remoteRegistrationId_net|]. auto with signal.
Qed.
Lemma reply_messages_shape sid content devs s msgs s' :
  map_each (reply_message lib fault acct sid content) devs s = (Ok msgs, s') ->
  map m_device msgs = devs /\ Forall (fun m => m_type m = 8 /\ m_content m = base64Encode content) msgs.
Proof.
  assert (forall d x m x', reply_message lib fault acct sid content d x = (Ok m, x') ->
    m_device m = d /\ m_type m = 8 /\ m_content m = base64Encode content) as Hone.
  { intros d x m x' Hm. apply bind_inv_ok in Hm as (r & x1 & _ & Hm). by injection Hm as <- _. }
  revert s msgs s'. induction devs as [|d l IH]; intros x ms x' H; cbn [map_each] in H.
  - injection H as <- _. by split.
  - apply bind_inv_ok in H as (m & x1 & H1 & H). apply bind_inv_ok in H as (ms' & x2 & H2 & H). injection H as <- _.
    destruct (IH _ _ _ H2) as [<- IH']. destruct (Hone _ _ _ _ H1) as (<- & H3). split; [done|]. by apply Forall_cons.
Qed.
End reply.

(** [sendDecryptionErrorReply] always returns, whatever fails (the error
    message cannot be built, the key fetch or the PUT fails, the server
    refuses): it makes at most one key fetch and at most one PUT, and the PUT
    carries, for every device of the sender except this daemon's own when the
    sender is its own account, one unencrypted (type 8) message with the
    framed error message as content. *)
Lemma error_reply_never_throws (lib : libraries) `{!StdLibraries lib} (fault : nat -> bool)
    (acct localId : string) (localDev now : Z) (sid : string) (dev : Z) (ct : Bytes) (ty ts : Z)
    (s : sender) :
  std_answers s ->
  exists s' fetch put_,
    sendDecryptionErrorReply lib fault acct localId localDev now sid dev ct ty ts s = (Ok tt, s') /\
    requests s' = requests s ++ fetch ++ put_ /\ (fetch = [] \/ fetch = [GetKeys sid]) /\
    (put_ = [] \/ exists dem ids msgs, decryption_error_message lib ct ty ts dev = Ok dem /\
       put_ = [PutMessages sid msgs false] /\
       map m_device msgs = filter (fun d => is_own_device localId localDev sid d = false) ids /\
       Forall (fun m => m_type m = 8 /\
         m_content m = base64Encode ([0xC0] ++ serialize lib (CDecryptionError dem) ++ [0x80])) msgs).
Proof.
  intros Hs. unfold sendDecryptionErrorReply, catch_std.
  pose proof (std_dem ct ty ts dev) as Hdem. unfold of_outcome. unfold mbind at 1, comp_bind.
  destruct (decryption_error_message lib ct ty ts dev) as [dem|[w| |]] eqn:Ed; [|clear Hdem|done|done].
  2: { exists s, [], []. cbn. rewrite !app_nil_r. auto. }
  unfold mbind at 1, comp_bind.
  destruct (std_only_resolve lib fault acct now sid s Hs) as [Ho Ha].
  destruct (resolveDeviceList lib now sid s) as [[ids|[w| |]] s1] eqn:Er; [|clear Ho|done|done];
    apply resolve_cases in Er.
  2: { destruct (cache_hit _ _) as [ids|]; [by destruct Er|]. destruct Er as [Hr _].
       exists s1, [GetKeys sid], []. rewrite app_nil_r. auto. }
  assert (exists fetch, requests s1 = requests s ++ fetch /\ (fetch = [] \/ fetch = [GetKeys sid]))
    as (fetch & Hr1 & Hf).
  { destruct (cache_hit _ _) as [ids0|]; [destruct Er as [_ ->]; exists []; by rewrite app_nil_r; auto|].
    destruct Er as [Hr _]. eauto. }
  set (content := plaintext_content (serialize lib (CDecryptionError dem))).
  set (devs := filter (fun d => is_own_device localId localDev sid d = false) ids).
  unfold mbind at 1, comp_bind. cbn [fst snd] in Ho, Ha.
  pose proof (std_only_map_each (reply_message lib fault acct sid content) devs
    (fun d => std_only_reply_message lib fault acct sid content d) s1 Ha) as [Ho2 Ha2].
  pose proof (reply_messages_requests lib fault acct sid content devs s1) as Hr2.
  destruct (map_each _ devs s1) as [[msgs|[w| |]] s2] eqn:Em; [|clear Ho2|done|done]; cbn [fst snd] in *.
  2: { exists s2, fetch, []. rewrite app_nil_r, Hr2. auto. }
  unfold mbind at 1, comp_bind, putMessages.
  destruct (std_only_request (PutMessages sid msgs false) s2 Ha2) as [Ho3 _].
  destruct (request_ (PutMessages sid msgs false) s2) as [o s3] eqn:Ep.
  destruct (request_eq _ _ _ _ Ep) as (_ & Hr3 & _).
  exists s3, fetch, [PutMessages sid msgs false]. split; [by destruct o as [r|[w| |]]|].
  split; [rewrite Hr3, Hr2, Hr1, <- app_assoc; done|]. split; [done|]. right.
  destruct (reply_messages_shape _ _ _ _ _ _ _ _ _ Em) as [Hdev Hall]. exists dem, ids, msgs. split; [done|]. split; [done|]. split; [exact Hdev|exact Hall].
Qed.

#[export] Instance sample_lib_std : StdLibraries sample_lib.
Proof.
  split; try done. intros b. destruct b as [|x [|y b]]; try done; cbn;
    destruct x as [|[p|[p|p|]|]|p]; try done; by destruct p.
Qed.

Lemma error_reply_never_throws_witness :
  exists s' fetch put_,
    sendDecryptionErrorReply sample_lib no_fault "a" "u" 2 10 "u" 1 [1] 2 3
      (sample_sender [Ok (mkResponse 200 [1]); Throw (StdError "timeout")]) = (Ok tt, s') /\
    requests s' = [] ++ fetch ++ put_ /\ (fetch = [] \/ fetch = [GetKeys "u"]) /\
    (put_ = [] \/ exists dem ids msgs, Ok [3] = Ok dem /\
       put_ = [PutMessages "u" msgs false] /\
       map m_device msgs = filter (fun d => is_own_device "u" 2 "u" d = false) ids /\
       Forall (fun m => m_type m = 8 /\
         m_content m = base64Encode ([0xC0] ++ serialize sample_lib (CDecryptionError dem) ++ [0x80])) msgs).
Proof.
  apply (error_reply_never_throws sample_lib no_fault "a" "u" 2 10 "u" 1 [1] 2 3).
  repeat constructor.
Defined.
