(* ===== verification/Crypto.v ===== *)
(** Sessions, encryption and decryption over libsignal
    (src/signal/Crypto.cpp, [addressNew] and [resolveServiceId] of
    src/signal/FfiUtil.h).

    The state is that of ProtocolStores: the account's database, which
    libsignal reads and writes through the store callbacks, and the table of
    live handles.  What libsignal computes is a parameter; every call into it
    is followed by [checkError], as in the source. *)

From S2P Require Import Prelude Base64 Padding Storage ProtocolStores CallSignaling.

Open Scope Z_scope.

(** libsignal's operations, on what the objects behind the handles hold.
    Those that use the stores may change the database. *)
Record crypto_lib := mkCryptoLib {
  signal_decrypt_message : Bytes -> string * Z -> string * Z -> Comp conn Bytes;
  signal_decrypt_pre_key_message : Bytes -> string * Z -> string * Z -> Comp conn Bytes;
  signal_encrypt_message : Bytes -> string * Z -> string * Z -> Comp conn (Bytes * Z);
  signal_pre_key_bundle_new : Z -> RemotePreKeyBundle -> outcome Bytes;
  signal_process_prekey_bundle : Bytes -> string * Z -> string * Z -> Comp conn unit;
  sealed_session_cipher_decrypt_to_usmc : Bytes -> Comp conn Bytes;
  usmc_get_sender_cert : Bytes -> Bytes;
  usmc_get_msg_type : Bytes -> Z;
  usmc_get_contents : Bytes -> Bytes;
  sender_certificate_validate : Bytes -> list Bytes -> Z -> outcome bool;
  sender_certificate_get_sender_uuid : Bytes -> string;
  sender_certificate_get_device_id : Bytes -> Z;
  decryption_error_message_for_original : Bytes -> Z -> Z -> Z -> outcome Bytes;
}.

(** The production trust roots of sealed sender. *)
Definition kTrustRootsBase64 : list string :=
  ["BXu6QIKVz5MA8gstzfOgRQGqyLqOwNKHL6INkv3IHWMF";
   "BUkY0I+9+oPgDCn4+Ac6Iu813yvqkDr/ga8DzLxFxuk6"]%string.

Definition UINT32_MAX : Z := 2 ^ 32 - 1.

Section Crypto.
Context (lib : crypto_lib) (ffi_fault : nat -> bool).

(** A call into libsignal that uses the stores, and [checkError]. *)
Definition ffi {A} (what : string) (f : Comp conn A) : Comp pstate A :=
  checkError ffi_fault what ;; lift f.

(** One that gives a new object. *)
Definition create_from (what : string) (f : Comp conn Bytes) : Comp pstate nat :=
  bytes ← ffi what f;
  h ← gets next_handle;
  modify (fun s => mkP (db_conn s) (<[h := ORecord bytes]> (live s)) (S h) (ffi_calls s)) ;;
  mret h.

Definition addressNew (serviceId : string) (deviceId : Z) : Comp pstate nat :=
  create ffi_fault (OAddress serviceId deviceId).

(** What a handle passed as a constant pointer refers to. *)
Definition address_at (h : nat) : Comp pstate (string * Z) :=
  o ← object_at h;
  match o with OAddress n d => mret (n, d) | _ => throw ForeignError end.
Definition bytes_at (h : nat) : Comp pstate Bytes := o ← object_at h; mret (bytes_of o).

(** A call whose error is looked at later. *)
Definition attempt_ {A} (f : Comp pstate A) : Comp pstate (outcome A) := fun s =>
  let '(r, s') := f s in (Ok r, s').

Definition establishSession (localAddress : string * Z) (bundle : RemotePreKeyBundle) :
    Comp pstate unit :=
  identity ← publicKeyDeserialize ffi_fault (identityKey bundle);
  signed ← publicKeyDeserialize ffi_fault (signedPreKeyPublic bundle);
  pre ← match preKey bundle with
        | Some (id, public) => h ← publicKeyDeserialize ffi_fault public; mret (Some (id, h))
        | None => mret None
        end;
  kyber ← publicKeyDeserialize ffi_fault (kyberPreKeyPublic bundle);
  ik ← bytes_at identity; sk ← bytes_at signed; kk ← bytes_at kyber;
  pk ← match pre with
       | Some (id, h) => b ← bytes_at h; mret (Some (id, b))
       | None => mret None
       end;
  preKeyBundle ← create_from "signal_pre_key_bundle_new"
    (of_outcome (signal_pre_key_bundle_new lib (match pk with Some (id, _) => id | None => UINT32_MAX end)
       (mkBundle (serviceId bundle) (deviceId bundle) (registrationId bundle) pk
          (signedPreKeyId bundle) sk (signedPreKeySignature bundle) ik
          (kyberPreKeyId bundle) kk (kyberPreKeySignature bundle))));
  destroy ffi_fault identity ;;
  destroy ffi_fault signed ;;
  match pre with Some (_, h) => destroy ffi_fault h | None => mret tt end ;;
  destroy ffi_fault kyber ;;
  remote ← addressNew (serviceId bundle) (deviceId bundle);
  local ← addressNew localAddress.1 localAddress.2;
  b ← bytes_at preKeyBundle; r ← address_at remote; l ← address_at local;
  ffi "signal_process_prekey_bundle" (signal_process_prekey_bundle lib b r l) ;;
  destroy ffi_fault preKeyBundle ;;
  destroy ffi_fault remote ;;
  destroy ffi_fault local.

(** The ciphertext and its type. *)
Definition encryptForDevice (localAddress remoteAddress : string * Z) (plaintextContent : Bytes) :
    Comp pstate (Bytes * Z) :=
  padded ← match padMessageBody plaintextContent with
           | Some p => mret p
           | None => throw_std "vector"
           end;
  remote ← addressNew remoteAddress.1 remoteAddress.2;
  local ← addressNew localAddress.1 localAddress.2;
  r ← address_at remote; l ← address_at local;
  encrypted ← ffi "signal_encrypt_message" (signal_encrypt_message lib padded r l);
  ciphertext ← gets next_handle;
  modify (fun s => mkP (db_conn s) (<[ciphertext := ORecord encrypted.1]> (live s)) (S ciphertext)
                     (ffi_calls s)) ;;
  destroy ffi_fault remote ;;
  destroy ffi_fault local ;;
  checkError ffi_fault "signal_ciphertext_message_type" ;;
  bytes ← ProtocolStores.serialize ffi_fault ciphertext;
  destroy ffi_fault ciphertext ;;
  mret (bytes, encrypted.2).

Definition decryptCiphertext (localAddress remoteAddress : string * Z) (messageType : Z)
    (ciphertext : Bytes) : Comp pstate Bytes :=
  remote ← addressNew remoteAddress.1 remoteAddress.2;
  local ← addressNew localAddress.1 localAddress.2;
  message ← create ffi_fault (ORecord ciphertext);
  m ← bytes_at message; r ← address_at remote; l ← address_at local;
  buffer ← (if bool_decide (messageType = kCiphertextPreKey)
            then ffi "signal_decrypt_pre_key_message" (signal_decrypt_pre_key_message lib m r l)
            else ffi "signal_decrypt_message" (signal_decrypt_message lib m r l));
  destroy ffi_fault message ;;
  destroy ffi_fault remote ;;
  destroy ffi_fault local ;;
  mret (stripPaddingMessageBody buffer).

Definition trust_roots : list Bytes := map base64Decode kTrustRootsBase64.

(** The sender and the plaintext. *)
Definition decryptSealedSender (localAddress : string * Z) (sealed : Bytes) (serverTimestamp : Z) :
    Comp pstate (string * Z * Bytes) :=
  usmc ← create_from "signal_sealed_session_cipher_decrypt_to_usmc"
           (sealed_session_cipher_decrypt_to_usmc lib sealed);
  u ← bytes_at usmc;
  cert ← create_from "get_sender_cert" (mret (usmc_get_sender_cert lib u));
  keys ← map_each (publicKeyDeserialize ffi_fault) trust_roots;
  c ← bytes_at cert;
  roots ← map_each bytes_at keys;
  valid ← ffi "signal_sender_certificate_validate"
            (of_outcome (sender_certificate_validate lib c roots serverTimestamp));
  for_each (destroy ffi_fault) keys ;;
  if negb (valid : bool) then
    destroy ffi_fault cert ;;
    destroy ffi_fault usmc ;;
    throw_std "sealed sender: sender certificate failed trust root validation"
  else
  c ← bytes_at cert;
  checkError ffi_fault "get_sender_uuid" ;;
  checkError ffi_fault "get_device_id" ;;
  destroy ffi_fault cert ;;
  u ← bytes_at usmc;
  checkError ffi_fault "get_msg_type" ;;
  checkError ffi_fault "get_contents" ;;
  destroy ffi_fault usmc ;;
  let sender := (sender_certificate_get_sender_uuid lib c, sender_certificate_get_device_id lib c) in
  plaintext ← decryptCiphertext localAddress sender (usmc_get_msg_type lib u) (usmc_get_contents lib u);
  mret (sender, plaintext).

Definition buildDecryptionErrorMessage (originalCiphertext : Bytes) (originalType originalTimestamp : Z)
    (originalSenderDeviceId : Z) : Comp pstate Bytes :=
  dem ← create_from "signal_decryption_error_message_for_original_message"
          (of_outcome (decryption_error_message_for_original lib originalCiphertext originalType
                         originalTimestamp originalSenderDeviceId));
  serialized ← attempt_ (ProtocolStores.serialize ffi_fault dem);
  destroy ffi_fault dem ;;
  of_outcome serialized.
End Crypto.

(** ** Stepping through *)

Section steps.
Context (c : conn) (l : gmap nat object) (n k : nat).

Lemma ffi_eq {A} what (f : Comp conn A) :
  ffi no_fault what f (mkP c l n k) = let '(r, c') := f c in (r, mkP c' l n (S k)).
Proof.
  unfold ffi. rewrite (bind_ok _ _ _ tt (mkP c l n (S k))) by done. unfold lift. cbn. by destruct (f c).
Qed.

Lemma create_from_eq what (f : Comp conn Bytes) :
  create_from no_fault what f (mkP c l n k) =
  match f c with
  | (Ok b, c') => (Ok n, mkP c' (<[n := ORecord b]> l) (S n) (S k))
  | (Throw e, c') => (Throw e, mkP c' l n (S k))
  end.
Proof.
  unfold create_from. unfold mbind at 1, comp_bind at 1. rewrite ffi_eq. by destruct (f c) as [[b|e] c'].
Qed.

Lemma address_at_ok h nm d : l !! h = Some (OAddress nm d) ->
  address_at h (mkP c l n k) = (Ok (nm, d), mkP c l n k).
Proof. intros E. unfold address_at. by rewrite (bind_ok _ _ _ _ _ (object_at_ok _ _ _ _ _ _ E ltac:(done))). Qed.

Lemma bytes_at_ok h o : l !! h = Some o -> o <> OMisused ->
  bytes_at h (mkP c l n k) = (Ok (bytes_of o), mkP c l n k).
Proof. intros E Ho. unfold bytes_at. by rewrite (bind_ok _ _ _ _ _ (object_at_ok _ _ _ _ _ _ E Ho)). Qed.

Lemma two_keys_eq r1 r2 :
  map_each (publicKeyDeserialize no_fault) [r1; r2] (mkP c l n k) =
  (Ok [n; S n], mkP c (<[S n := OPublicKey r2]> (<[n := OPublicKey r1]> l)) (S (S n)) (S (S k))).
Proof. done. Qed.

Lemma two_bytes_eq h1 h2 o1 o2 : l !! h1 = Some o1 -> o1 <> OMisused -> l !! h2 = Some o2 -> o2 <> OMisused ->
  map_each bytes_at [h1; h2] (mkP c l n k) = (Ok [bytes_of o1; bytes_of o2], mkP c l n k).
Proof.
  intros E1 N1 E2 N2. cbn [map_each]. rewrite (bind_ok _ _ _ _ _ (bytes_at_ok _ _ E1 N1)).
  erewrite bind_ok; [|rewrite (bind_ok _ _ _ _ _ (bytes_at_ok _ _ E2 N2)); reflexivity]. done.
Qed.

Lemma two_destroyed_eq h1 h2 o1 o2 : l !! h1 = Some o1 -> o1 <> OMisused ->
  delete h1 l !! h2 = Some o2 -> o2 <> OMisused ->
  for_each (destroy no_fault) [h1; h2] (mkP c l n k) = (Ok tt, mkP c (delete h2 (delete h1 l)) n (S (S k))).
Proof.
  intros E1 N1 E2 N2. cbn [for_each]. rewrite (bind_ok _ _ _ _ _ (destroy_ok _ _ _ _ _ _ E1 N1)).
  by rewrite (bind_ok _ _ _ _ _ (destroy_ok _ _ _ _ _ _ E2 N2)).
Qed.

Lemma checkError_ok what : checkError no_fault what (mkP c l n k) = (Ok tt, mkP c l n (S k)).
Proof. done. Qed.
End steps.

(** Look a handle up among freshly inserted ones. *)
Ltac handle := repeat first [rewrite lookup_insert_eq; reflexivity
  | rewrite lookup_delete_ne by lia | rewrite lookup_insert_ne by lia].

(** Take one step of a handle computation whose calls do not fail. *)
Ltac step_ok :=
  erewrite bind_ok;
  [|lazymatch goal with
    | |- create _ _ _ = _ => apply create_ok
    | |- publicKeyDeserialize _ _ _ = _ => apply create_ok
    | |- destroy _ _ _ = _ => eapply destroy_ok; [handle|done]
    | |- checkError _ _ _ = _ => apply checkError_ok
    | |- address_at _ _ = _ => apply address_at_ok; handle
    | |- bytes_at _ _ = _ => eapply bytes_at_ok; [handle|done]
    | |- map_each (publicKeyDeserialize _) _ _ = _ => apply two_keys_eq
    | |- map_each bytes_at _ _ = _ => eapply two_bytes_eq; [handle|done|handle|done]
    | |- for_each (destroy _) _ _ = _ => eapply two_destroyed_eq; [handle|done|handle|done]
    end];
  cbv beta.

(** Destroying fresh handles gives the table back. *)
Ltac clear_handles :=
  repeat first [ rewrite delete_insert_eq | rewrite delete_insert_ne by lia
               | rewrite delete_id by (repeat rewrite lookup_delete_ne by lia;
                                       repeat rewrite lookup_insert_ne by lia; auto with lia) ];
  try reflexivity.

Section decrypt.
Context (lib : crypto_lib) (localAddress remoteAddress : string * Z) (messageType : Z) (ciphertext : Bytes).

(** libsignal's part of a decryption. *)
Definition decrypt_call : Comp conn Bytes :=
  if bool_decide (messageType = kCiphertextPreKey)
  then signal_decrypt_pre_key_message lib ciphertext remoteAddress localAddress
  else signal_decrypt_message lib ciphertext remoteAddress localAddress.

Lemma decrypt_eq c l n k :
  (forall h, (n <= h)%nat -> l !! h = None) ->
  decryptCiphertext lib no_fault localAddress remoteAddress messageType ciphertext (mkP c l n k) =
  match decrypt_call c with
  | (Ok buffer, c') => (Ok (stripPaddingMessageBody buffer), mkP c' l (3 + n)%nat (7 + k)%nat)
  | (Throw e, c') =>
    (Throw e, mkP c' (<[(2 + n)%nat := ORecord ciphertext]>
                     (<[(1 + n)%nat := OAddress localAddress.1 localAddress.2]>
                     (<[n := OAddress remoteAddress.1 remoteAddress.2]> l))) (3 + n)%nat (4 + k)%nat)
  end.
Proof.
  intros Hfresh. unfold decryptCiphertext, addressNew. do 3 step_ok.
  do 3 step_ok. rewrite <- !surjective_pairing.
  assert (forall s, (if bool_decide (messageType = kCiphertextPreKey)
     then ffi no_fault "signal_decrypt_pre_key_message"
            (signal_decrypt_pre_key_message lib (bytes_of (ORecord ciphertext)) remoteAddress localAddress)
     else ffi no_fault "signal_decrypt_message"
            (signal_decrypt_message lib (bytes_of (ORecord ciphertext)) remoteAddress localAddress)) s =
     ffi no_fault "" decrypt_call s) as Hcall by (intros s; unfold decrypt_call; by destruct (bool_decide _)).
  unfold mbind at 1, comp_bind at 1. rewrite Hcall, ffi_eq. destruct (decrypt_call c) as [[buffer|e] c']; [|done].
  do 3 step_ok. unfold mret, comp_ret. do 2 f_equal.
  clear_handles.
Qed.
End decrypt.

(** *** What a step that succeeded did, whatever failed before or after *)

Section inversion.
Context (ffi_fault : nat -> bool).

Lemma create_inv o s h s' :
  create ffi_fault o s = (Ok h, s') ->
  h = next_handle s /\ db_conn s' = db_conn s /\ live s' = <[h := o]> (live s) /\ next_handle s' = S h.
Proof.
  unfold create, checkError, gets, modify, throw_std, throw, mbind, comp_bind. cbn.
  destruct (ffi_fault _); cbn; [done|]. by intros [= <- <-].
Qed.

Lemma checkError_inv w s u s' :
  checkError ffi_fault w s = (Ok u, s') ->
  db_conn s' = db_conn s /\ live s' = live s /\ next_handle s' = next_handle s.
Proof.
  unfold checkError, gets, modify, throw_std, throw, mbind, comp_bind. cbn.
  destruct (ffi_fault _); cbn; [done|]. by intros [= <- <-].
Qed.

(** The table after a destroy. *)
Definition without (h : nat) (l : gmap nat object) : gmap nat object :=
  match l !! h with Some OMisused | None => <[h := OMisused]> l | Some _ => delete h l end.

Lemma lookup_without_ne h l x : x <> h -> without h l !! x = l !! x.
Proof.
  intros Hx. unfold without. destruct (l !! h) as [[]|];
    by rewrite ?lookup_delete_ne, ?lookup_insert_ne by congruence.
Qed.

Lemma destroy_inv h s u s' :
  destroy ffi_fault h s = (Ok u, s') ->
  db_conn s' = db_conn s /\ live s' = without h (live s) /\ next_handle s' = next_handle s.
Proof.
  unfold destroy. intros (v & s1 & H1 & H)%bind_inv_ok. apply checkError_inv in H1 as (E1 & E2 & E3).
  apply bind_inv_ok in H as (o & s2 & [= <- <-] & H). unfold without. rewrite <- E1, <- E2, <- E3.
  destruct (live s1 !! h) as [[]|]; injection H as _ <-; done.
Qed.

Lemma ffi_inv {A} w (f : Comp conn A) s a s' :
  ffi ffi_fault w f s = (Ok a, s') ->
  (f (db_conn s)) = (Ok a, db_conn s') /\ live s' = live s /\ next_handle s' = next_handle s.
Proof.
  unfold ffi. intros (v & s1 & H1 & H2)%bind_inv_ok. apply checkError_inv in H1 as (E1 & E2 & E3).
  unfold lift in H2. cbn in H2. rewrite E1 in H2. destruct (f (db_conn s)) as [r c'].
  injection H2 as -> <-. by rewrite <- E2, <- E3.
Qed.

Lemma create_from_inv w (f : Comp conn Bytes) s h s' :
  create_from ffi_fault w f s = (Ok h, s') ->
  h = next_handle s /\ next_handle s' = S h /\ exists b, f (db_conn s) = (Ok b, db_conn s') /\
    live s' = <[h := ORecord b]> (live s).
Proof.
  unfold create_from. intros (b & s1 & H1 & H2)%bind_inv_ok. apply ffi_inv in H1 as (E1 & E2 & E3).
  unfold gets, modify, mbind, comp_bind in H2. cbn in H2. injection H2 as <- <-. cbn.
  split; [done|]. split; [done|]. exists b. by rewrite <- E2.
Qed.

Lemma object_at_inv h s o s' :
  object_at h s = (Ok o, s') -> live s !! h = Some o /\ s' = s.
Proof.
  unfold object_at, gets, throw, mbind, comp_bind. cbn. destruct (live s !! h) as [[]|];
    first [done|by intros [= <- <-]].
Qed.

Lemma bytes_at_inv h s b s' :
  bytes_at h s = (Ok b, s') -> (exists o, live s !! h = Some o /\ b = bytes_of o) /\ s' = s.
Proof.
  unfold bytes_at. intros (o & s1 & [H1 ->]%object_at_inv & [= <- <-])%bind_inv_ok. eauto.
Qed.

Lemma address_at_inv h s a s' :
  address_at h s = (Ok a, s') ->
  (exists nm d, live s !! h = Some (OAddress nm d) /\ a = (nm, d)) /\ s' = s.
Proof.
  unfold address_at. intros (o & s1 & [H1 ->]%object_at_inv & H2)%bind_inv_ok.
  destruct o; try done. injection H2 as <- <-. eauto.
Qed.
End inversion.

(** Consume one equation of a computation that returned. *)
Ltac inv_step H :=
  first [ apply bind_inv_ok in H as (? & ? & ? & H) ].
Ltac inv_known :=
  repeat match goal with
  | H : addressNew _ _ _ _ = (Ok _, _) |- _ => apply create_inv in H as (-> & ? & ? & ?)
  | H : create _ _ _ = (Ok _, _) |- _ => apply create_inv in H as (-> & ? & ? & ?)
  | H : publicKeyDeserialize _ _ _ = (Ok _, _) |- _ => apply create_inv in H as (-> & ? & ? & ?)
  | H : checkError _ _ _ = (Ok _, _) |- _ => apply checkError_inv in H as (? & ? & ?)
  | H : destroy _ _ _ = (Ok _, _) |- _ => apply destroy_inv in H as (? & ? & ?)
  | H : ffi _ _ _ _ = (Ok _, _) |- _ => apply ffi_inv in H as (? & ? & ?)
  | H : create_from _ _ _ _ = (Ok _, _) |- _ => apply create_from_inv in H as (-> & ? & ? & ? & ?)
  | H : bytes_at _ _ = (Ok _, _) |- _ => apply bytes_at_inv in H as ((? & ? & ->) & ->)
  | H : address_at _ _ = (Ok _, _) |- _ => apply address_at_inv in H as ((? & ? & ? & ->) & ->)
  end.

(** Look the handles up in what the steps did to the table. *)
Ltac simplify_handles :=
  repeat match goal with
  | E : live ?a = _, H : context [live ?a] |- _ => rewrite E in H
  | E : next_handle ?a = _, H : context [next_handle ?a] |- _ => rewrite E in H
  | H : <[?i := _]> _ !! ?i = Some _ |- _ => rewrite lookup_insert_eq in H
  | H : <[?i := _]> _ !! ?j = Some _ |- _ => rewrite lookup_insert_ne in H by lia
  | H : without _ _ !! _ = Some _ |- _ => rewrite lookup_without_ne in H by lia
  | H : Some _ = Some _ |- _ => injection H as H
  | H : OAddress _ _ = OAddress _ _ |- _ => injection H as ? ?
  end; subst; cbn [bytes_of] in *.

Section sealed.
Context (lib : crypto_lib) (ffi_fault : nat -> bool) (localAddress : string * Z).

(** A decryption that returned was made by libsignal for that address. *)
Lemma decrypt_inv remote t ct s pt s' :
  decryptCiphertext lib ffi_fault localAddress remote t ct s = (Ok pt, s') ->
  exists buffer, decrypt_call lib localAddress remote t ct (db_conn s) = (Ok buffer, db_conn s') /\
    pt = stripPaddingMessageBody buffer.
Proof.
  unfold decryptCiphertext. intros H. do 10 inv_step H. injection H as <- <-. unfold decrypt_call.
  destruct remote as [rn rd], localAddress as [ln ld]. cbn [fst snd] in *.
  destruct (bool_decide (t = kCiphertextPreKey)); inv_known; simplify_handles;
    eexists; (split; [|done]); congruence.
Qed.

(** The loops over the two keys. *)
Lemma two_keys r1 r2 s keys s1 :
  map_each (publicKeyDeserialize ffi_fault) [r1; r2] s = (Ok keys, s1) ->
  keys = [next_handle s; S (next_handle s)] /\ db_conn s1 = db_conn s /\
  live s1 = <[S (next_handle s) := OPublicKey r2]> (<[next_handle s := OPublicKey r1]> (live s)) /\
  next_handle s1 = S (S (next_handle s)).
Proof.
  cbn [map_each]. intros H. inv_step H. inv_step H. inv_step H1. inv_step H1.
  injection H3 as <- <-. injection H1 as <- <-. injection H as <- <-. inv_known.
  repeat match goal with E : live _ = _ |- _ => rewrite E; clear E end.
  repeat match goal with E : next_handle _ = _ |- _ => rewrite E; clear E end.
  split_and!; congruence.
Qed.

Lemma two_bytes h1 h2 s bs s1 :
  map_each bytes_at [h1; h2] s = (Ok bs, s1) ->
  s1 = s /\ exists o1 o2, live s !! h1 = Some o1 /\ live s !! h2 = Some o2 /\
    bs = [bytes_of o1; bytes_of o2].
Proof.
  cbn [map_each]. intros H. inv_step H. inv_step H. inv_step H1. inv_step H1.
  injection H3 as <- <-. injection H1 as <- <-. injection H as <- <-. inv_known. eauto 8.
Qed.

Lemma two_destroyed h1 h2 s u s1 :
  for_each (destroy ffi_fault) [h1; h2] s = (Ok u, s1) ->
  db_conn s1 = db_conn s /\ live s1 = without h2 (without h1 (live s)) /\ next_handle s1 = next_handle s.
Proof.
  cbn [for_each]. intros H. inv_step H. inv_step H. injection H as _ <-. inv_known.
  split_and!; congruence.
Qed.

Lemma trust_roots_eq : exists r1 r2, trust_roots = [r1; r2].
Proof. by eexists _, _. Qed.

(** C11: what an accepted sealed-sender envelope shows, whichever of the calls
    into libsignal fail: its certificate was validated against exactly the two
    production trust roots at the server's timestamp, the sender it is
    attributed to is the one the certificate names, and the plaintext is what
    libsignal decrypted for that sender, without its padding. *)
Theorem sealed_sender_authenticated sealed ts s who pt s'
    (H : decryptSealedSender lib ffi_fault localAddress sealed ts s = (Ok (who, pt), s')) :
  exists usmc c1 c2 buffer,
    sealed_session_cipher_decrypt_to_usmc lib sealed (db_conn s) = (Ok usmc, c1) /\
    sender_certificate_validate lib (usmc_get_sender_cert lib usmc) trust_roots ts = Ok true /\
    who = (sender_certificate_get_sender_uuid lib (usmc_get_sender_cert lib usmc),
           sender_certificate_get_device_id lib (usmc_get_sender_cert lib usmc)) /\
    decrypt_call lib localAddress who (usmc_get_msg_type lib usmc) (usmc_get_contents lib usmc) c1 =
      (Ok buffer, c2) /\
    pt = stripPaddingMessageBody buffer.
Proof.
  revert H. unfold decryptSealedSender. destruct trust_roots_eq as (r1 & r2 & Er). rewrite Er.
  intros H. do 4 inv_step H. apply two_keys in H3 as (-> & Hk1 & Hk2 & Hk3).
  do 2 inv_step H. apply two_bytes in H4 as (-> & o1 & o2 & Ho1 & Ho2 & ->).
  do 2 inv_step H. apply two_destroyed in H5 as (Hd1 & Hd2 & Hd3).
  match goal with b : bool |- _ => destruct b end; cbn [negb] in H.
  2: { do 2 inv_step H. done. }
  do 9 inv_step H. injection H as <- <- <-.
  match goal with D : decryptCiphertext _ _ _ _ _ _ _ = _ |- _ => apply decrypt_inv in D as (buffer & D & ->) end.
  inv_known. simplify_handles.
  match goal with E : mret _ _ = (Ok _, _) |- _ => injection E as <- Ec end.
  match goal with E : of_outcome _ _ = (Ok _, _) |- _ => injection E as Ev Eo end.
  match goal with E : sealed_session_cipher_decrypt_to_usmc _ _ _ = (Ok ?u, ?c) |- _ =>
    exists u, c; eexists _, buffer; split; [exact E|] end.
  do 2 (split; [done|]). split; [|done].
  match goal with D : decrypt_call _ _ _ _ _ ?c = _ |- decrypt_call _ _ _ _ _ ?c' = _ =>
    replace c' with c by congruence; exact D end.
Qed.
End sealed.

(** Who destroys what, when the handle operations themselves do not fail:
    a decryption that libsignal completes leaves the handle table as it was;
    one that libsignal rejects (an ordinary event: a desynchronised session, a
    forged message) leaves its two addresses and its message behind for ever. *)
Lemma rejected_message_leaks_handles (lib : crypto_lib) (localAddress remote : string * Z) (t : Z)
    (ct : Bytes) (s : pstate) (Hs : fresh_above s) :
  let '(r, s') := decryptCiphertext lib no_fault localAddress remote t ct s in
  match (decrypt_call lib localAddress remote t ct (db_conn s)).1 with
  | Ok buffer => r = Ok (stripPaddingMessageBody buffer) /\ live s' = live s
  | Throw e => r = Throw e /\ size (live s') = (3 + size (live s))%nat
  end.
Proof.
  destruct s as [c l n k]. unfold fresh_above in Hs. cbn in Hs |- *.
  rewrite decrypt_eq by exact Hs. destruct (decrypt_call _ _ _ _ _ _) as [[buffer|e] c']; [done|].
  split; [done|]. cbn [live]. rewrite !map_size_insert.
  rewrite !lookup_insert_ne by lia. by rewrite !Hs by lia.
Qed.

(** What [encryptForDevice] does with its handles. *)
Lemma encrypt_eq lib localAddress remote plaintext padded c l n k :
  (forall h, (n <= h)%nat -> l !! h = None) -> padMessageBody plaintext = Some padded ->
  encryptForDevice lib no_fault localAddress remote plaintext (mkP c l n k) =
  match signal_encrypt_message lib padded remote localAddress c with
  | (Ok (ct, t), c') => (Ok (ct, t), mkP c' l (3 + n)%nat (8 + k)%nat)
  | (Throw e, c') =>
    (Throw e, mkP c' (<[(1 + n)%nat := OAddress localAddress.1 localAddress.2]>
                     (<[n := OAddress remote.1 remote.2]> l)) (2 + n)%nat (3 + k)%nat)
  end.
Proof.
  intros Hfresh Hpad. unfold encryptForDevice, addressNew. rewrite Hpad.
  erewrite bind_ok; [|reflexivity]. cbv beta. do 4 step_ok. rewrite <- !surjective_pairing.
  unfold mbind at 1, comp_bind at 1. rewrite ffi_eq.
  destruct (signal_encrypt_message _ _ _ _ _) as [[[ct t]|e] c']; [|done]. cbn [fst snd].
  erewrite bind_ok; [|reflexivity]. cbv beta. unfold modify. erewrite bind_ok; [|reflexivity]. cbv beta.
  cbn [db_conn live next_handle ffi_calls]. do 2 step_ok.
  erewrite bind_ok; [|reflexivity]. cbv beta. cbn [db_conn live next_handle ffi_calls].
  erewrite bind_ok; [|eapply serialize_ok; [handle|done]]. cbv beta. step_ok.
  unfold mret, comp_ret. do 2 f_equal. clear_handles.
Qed.

(** *** The interface the sender is built on *)

Section sender.
Context (lib : crypto_lib) (localAddress : string * Z).

Definition bundle_key_id (b : RemotePreKeyBundle) : Z :=
  match preKey b with Some (id, _) => id | None => UINT32_MAX end.

(** A session from a bundle, as the sender's parameter. *)
Definition process_bundle_of (b : RemotePreKeyBundle) : Comp conn unit :=
  match signal_pre_key_bundle_new lib (bundle_key_id b) b with
  | Ok bytes => signal_process_prekey_bundle lib bytes (serviceId b, deviceId b) localAddress
  | Throw e => throw e
  end.

Lemma establish_eq b c k :
  let '(r, p) := establishSession lib no_fault localAddress b (mkP c ∅ 0 k) in
  r = (process_bundle_of b c).1 /\ db_conn p = (process_bundle_of b c).2 /\
  (r = Ok tt -> live p = ∅).
Proof.
  unfold establishSession, publicKeyDeserialize, addressNew, process_bundle_of, bundle_key_id.
  destruct b as [sid dev reg [[id pub]|] si sk ssig ik ki kk ksig]; cbn [preKey identityKey signedPreKeyPublic
    kyberPreKeyPublic serviceId deviceId registrationId signedPreKeyId signedPreKeySignature kyberPreKeyId
    kyberPreKeySignature].
  - do 2 step_ok. erewrite bind_ok; [|erewrite bind_ok; [|apply create_ok]; reflexivity]. cbv beta.
    do 4 step_ok. erewrite bind_ok; [|erewrite bind_ok; [|eapply bytes_at_ok; [handle|done]]; reflexivity]. cbv beta.
    unfold mbind at 1, comp_bind at 1. rewrite create_from_eq.
    unfold of_outcome. cbn [bytes_of].
    destruct (signal_pre_key_bundle_new _ _ _) as [bytes|e]; [|done].
    do 6 step_ok. do 3 step_ok. cbn [fst snd bytes_of]. rewrite <- surjective_pairing.
    unfold mbind at 1, comp_bind at 1. rewrite ffi_eq.
    destruct (signal_process_prekey_bundle _ _ _ _ c) as [[[]|e] c'] eqn:E; rewrite ?E; [|done].
    do 2 step_ok. erewrite destroy_ok; [cbn|handle|done]. split_and!; [done..|]. intros _. clear_handles.
  - do 2 step_ok. erewrite bind_ok; [|reflexivity]. cbv beta. do 4 step_ok.
    erewrite bind_ok; [|reflexivity]. cbv beta.
    unfold mbind at 1, comp_bind at 1. rewrite create_from_eq.
    unfold of_outcome. cbn [bytes_of].
    destruct (signal_pre_key_bundle_new _ _ _) as [bytes|e]; [|done].
    do 2 step_ok. erewrite bind_ok; [|reflexivity]. cbv beta. do 3 step_ok. do 3 step_ok.
    cbn [fst snd bytes_of]. rewrite <- surjective_pairing.
    unfold mbind at 1, comp_bind at 1. rewrite ffi_eq.
    destruct (signal_process_prekey_bundle _ _ _ _ c) as [[[]|e] c'] eqn:E; rewrite ?E; [|done].
    do 2 step_ok. erewrite destroy_ok; [cbn|handle|done]. split_and!; [done..|]. intros _. clear_handles.
Qed.

Context (parse_json : Bytes -> outcome json) (content_bytes : Content -> Bytes).
Context (registration_id : Bytes -> outcome Z).

(** The libraries of the sender, from libsignal's operations. *)
Definition sender_libraries : libraries :=
  mkLib parse_json content_bytes process_bundle_of
    (fun remote device padded => signal_encrypt_message lib padded (remote, device) localAddress)
    registration_id (decryption_error_message_for_original lib).

(** What the sender assumes of its libraries is what Crypto.cpp does: for
    a sender over any database, establishing a session and encrypting for a
    device through the handle table give the same result and the same database
    as the operations the sender's theorems are about, and leave no handle
    behind when they succeed. *)
Lemma crypto_implements_sender (b : RemotePreKeyBundle) (remote : string) (device : Z)
    (plaintext : Bytes) (s : sender) :
  let start := mkP (stores s) ∅ 0 0 in
  (let '(r, s') := CallSignaling.establishSession sender_libraries b s in
   let '(r2, p) := establishSession lib no_fault localAddress b start in
   r = r2 /\ stores s' = db_conn p /\ (r2 = Ok tt -> live p = ∅)) /\
  (let '(r, s') := CallSignaling.encryptForDevice sender_libraries remote device plaintext s in
   let '(r2, p) := encryptForDevice lib no_fault localAddress (remote, u32 device) plaintext start in
   r = r2 /\ stores s' = db_conn p /\ (is_ok r2 = true -> live p = ∅)).
Proof.
  intros start. split.
  - unfold CallSignaling.establishSession, lift. cbn [process_bundle sender_libraries prj has_stores put].
    pose proof (establish_eq b (stores s) 0) as H. fold start in H.
    destruct (establishSession lib no_fault localAddress b start) as [r2 p].
    destruct H as (-> & Hp & Hl). destruct (process_bundle_of b (stores s)) as [r c']. by split_and!.
  - unfold CallSignaling.encryptForDevice. destruct (padMessageBody plaintext) as [padded|] eqn:E.
    + unfold start. rewrite (encrypt_eq _ _ _ _ padded) by done.
      unfold lift. cbn [encrypt_message sender_libraries prj has_stores put].
      destruct (signal_encrypt_message _ _ _ _ _) as [[[ct t]|e] c']; by split_and!.
    + unfold encryptForDevice. by rewrite E.
Qed.
End sender.

(** A message arrives as it was sent: if libsignal on the receiving side
    decrypts the ciphertext to what it was given on the sending side, then
    [decryptCiphertext] of what [encryptForDevice] produced is the content,
    of every length [size_t] can pad. *)
Lemma message_roundtrip (lib lib' : crypto_lib) (a b : string * Z) (plaintext ct : Bytes) (t : Z)
    (s s' r : pstate) (Hfit : fits_size_t plaintext) (Hs : fresh_above s) (Hr : fresh_above r)
    (Hsend : encryptForDevice lib no_fault a b plaintext s = (Ok (ct, t), s'))
    (Hlib : forall padded, signal_encrypt_message lib padded b a (db_conn s) = (Ok (ct, t), db_conn s') ->
       (decrypt_call lib' b a t ct (db_conn r)).1 = Ok padded) :
  (decryptCiphertext lib' no_fault b a t ct r).1 = Ok plaintext.
Proof.
  pose proof (pad_strip_roundtrip plaintext Hfit) as Hpad. destruct (padMessageBody plaintext) as [padded|] eqn:E; [|done].
  destruct s as [c l n k], r as [c2 l2 n2 k2]. cbn [db_conn] in *.
  rewrite (encrypt_eq _ _ _ _ padded) in Hsend by done.
  destruct (signal_encrypt_message lib padded b a c) as [[[ct' t']|e] c'] eqn:Ec; [|done].
  injection Hsend as -> -> <-. specialize (Hlib padded Ec).
  rewrite decrypt_eq by exact Hr. destruct (decrypt_call _ _ _ _ _ c2) as [[buffer|e] c3]; [|done].
  injection Hlib as ->. cbn. by injection Hpad as ->.
Qed.

(** ** Examples *)

(** A toy libsignal: a ciphertext is the padded text with a leading 7. *)
Definition toy_lib : crypto_lib :=
  let open (m : Bytes) (_ _ : string * Z) : Comp conn Bytes :=
    match m with 7 :: p => mret p | _ => throw_std "invalid message" end in
  mkCryptoLib open open (fun p _ _ => mret (7 :: p, 2)) (fun _ _ => Ok []) (fun _ _ _ => mret tt)
    (fun sealed => mret sealed) (fun u => take 2 u) (fun _ => 2) (fun u => drop 2 u)
    (fun cert roots ts => Ok (bool_decide (cert = [1; 2] /\ length roots = 2%nat /\ ts < 100)))
    (fun _ => "sender"%string) (fun _ => 4) (fun _ _ _ _ => Ok [9]).

Definition empty_table : pstate := mkP two_accounts ∅ 0 0.

Example trust_roots_are_keys : map (fun r => (length r, head r)) trust_roots = [(33%nat, Some 5); (33%nat, Some 5)].
Proof. vm_compute. reflexivity. Qed.

Lemma sealed_sender_authenticated_witness :
  exists s', decryptSealedSender toy_lib no_fault ("me"%string, 1) [1; 2; 7; 42; 0x80; 0] 5 empty_table =
    (Ok (("sender"%string, 4), [42]), s') /\
  exists usmc c1 c2 buffer,
    sealed_session_cipher_decrypt_to_usmc toy_lib [1; 2; 7; 42; 0x80; 0] two_accounts = (Ok usmc, c1) /\
    sender_certificate_validate toy_lib (usmc_get_sender_cert toy_lib usmc) trust_roots 5 = Ok true /\
    ("sender"%string, 4) = (sender_certificate_get_sender_uuid toy_lib (usmc_get_sender_cert toy_lib usmc),
           sender_certificate_get_device_id toy_lib (usmc_get_sender_cert toy_lib usmc)) /\
    decrypt_call toy_lib ("me"%string, 1) ("sender"%string, 4) (usmc_get_msg_type toy_lib usmc)
      (usmc_get_contents toy_lib usmc) c1 = (Ok buffer, c2) /\
    [42] = stripPaddingMessageBody buffer.
Proof.
  exists (decryptSealedSender toy_lib no_fault ("me"%string, 1) [1; 2; 7; 42; 0x80; 0] 5 empty_table).2.
  split; [vm_compute; reflexivity|].
  apply (sealed_sender_authenticated toy_lib no_fault ("me"%string, 1) _ 5 empty_table _ _
    (decryptSealedSender toy_lib no_fault ("me"%string, 1) [1; 2; 7; 42; 0x80; 0] 5 empty_table).2).
  vm_compute. reflexivity.
Defined.

Lemma rejected_message_leaks_handles_witness :
  let '(r, s') := decryptCiphertext toy_lib no_fault ("me"%string, 1) ("you"%string, 1) 2 [8] empty_table in
  match (decrypt_call toy_lib ("me"%string, 1) ("you"%string, 1) 2 [8] two_accounts).1 with
  | Ok buffer => r = Ok (stripPaddingMessageBody buffer) /\ live s' = ∅
  | Throw e => r = Throw e /\ size (live s') = (3 + size (∅ : gmap nat object))%nat
  end.
Proof. apply (rejected_message_leaks_handles toy_lib _ _ 2 [8] empty_table). by intros h _. Defined.

Lemma message_roundtrip_witness :
  exists ct t s', encryptForDevice toy_lib no_fault ("me"%string, 1) ("you"%string, 1) [1; 0x80] empty_table =
    (Ok (ct, t), s') /\
  (decryptCiphertext toy_lib no_fault ("you"%string, 1) ("me"%string, 1) t ct empty_table).1 = Ok [1; 0x80].
Proof.
  set (sent := encryptForDevice toy_lib no_fault ("me"%string, 1) ("you"%string, 1) [1; 0x80] empty_table).
  exists (7 :: replicate 0 0 ++ [1; 0x80; 0x80] ++ replicate 76 0), 2, sent.2.
  split; [vm_compute; reflexivity|].
  apply (message_roundtrip toy_lib toy_lib ("me"%string, 1) ("you"%string, 1) [1; 0x80] _ 2 empty_table sent.2
    empty_table).
  - vm_compute. reflexivity.
  - by intros h _.
  - by intros h _.
  - vm_compute. reflexivity.
  - intros padded H. injection H as ->. vm_compute. reflexivity.
Defined.
