(* ===== verification/PreKeys.v ===== *)
(** Prekeys: generating them (src/signal/PreKeys.cpp) and refreshing them and
    the account attributes at start-up (src/daemon/main.cpp, [refreshPrekeys]
    and [refreshAccountAttributes]).

    Key generation works on ProtocolStores' table of handles.  The keys
    libsignal draws are a function of how many calls came before, so that two
    draws can differ; what it computes from them is a parameter. *)

From S2P Require Import Prelude Base64 Storage ProtocolStores CallSignaling Crypto.

Open Scope Z_scope.

Record prekey_lib := mkPrekeyLib {
  privatekey_generate : nat -> Bytes;
  privatekey_get_public_key : Bytes -> Bytes;
  privatekey_sign : nat -> Bytes -> Bytes -> Bytes;
  signed_pre_key_record : Z -> Z -> Bytes -> Bytes -> Bytes -> Bytes;   (* id, time, public, private, signature *)
  kyber_key_pair_generate : nat -> Bytes;
  kyber_key_pair_get_public_key : Bytes -> Bytes;
  kyber_pre_key_record : Z -> Z -> Bytes -> Bytes -> Bytes;             (* id, time, pair, signature *)
}.

Record WirePreKey := mkWire { keyId : Z; publicKey : Bytes; signature : Bytes }.

Section Generate.
Context (lib : prekey_lib) (ffi_fault : nat -> bool).

(** signal_privatekey_sign with the identity key, which is destroyed. *)
Definition sign_with (identityPrivateKey message : Bytes) : Comp pstate Bytes :=
  identityKey ← privateKeyDeserialize ffi_fault identityPrivateKey;
  n ← gets ffi_calls;
  k ← bytes_at identityKey;
  checkError ffi_fault "signal_privatekey_sign" ;;
  destroy ffi_fault identityKey ;;
  mret (privatekey_sign lib n k message).

(** [nowMs] is the system clock. *)
Definition generateSignedPreKey (nowMs : Z) (identityPrivateKey : Bytes) (id : Z) :
    Comp pstate (WirePreKey * SignedPrekeyRecord) :=
  n ← gets ffi_calls;
  keyPair ← create ffi_fault (OPrivateKey (privatekey_generate lib n));
  priv ← bytes_at keyPair;
  public ← create ffi_fault (OPublicKey (privatekey_get_public_key lib priv));
  publicKeyBytes ← ProtocolStores.serialize ffi_fault public;
  signatureBytes ← sign_with identityPrivateKey publicKeyBytes;
  pub ← bytes_at public; priv ← bytes_at keyPair;
  record ← create ffi_fault (ORecord (signed_pre_key_record lib (u32 id) nowMs pub priv signatureBytes));
  recordBytes ← ProtocolStores.serialize ffi_fault record;
  destroy ffi_fault record ;;
  destroy ffi_fault public ;;
  destroy ffi_fault keyPair ;;
  mret (mkWire id publicKeyBytes signatureBytes, mkSignedPrekey id recordBytes).

Definition generateKyberPreKey (nowMs : Z) (identityPrivateKey : Bytes) (id : Z) :
    Comp pstate (WirePreKey * KyberPrekeyRecord) :=
  n ← gets ffi_calls;
  keyPair ← create ffi_fault (ORecord (kyber_key_pair_generate lib n));
  pair ← bytes_at keyPair;
  public ← create ffi_fault (OPublicKey (kyber_key_pair_get_public_key lib pair));
  publicKeyBytes ← ProtocolStores.serialize ffi_fault public;
  signatureBytes ← sign_with identityPrivateKey publicKeyBytes;
  pair ← bytes_at keyPair;
  record ← create ffi_fault (ORecord (kyber_pre_key_record lib (u32 id) nowMs pair signatureBytes));
  recordBytes ← ProtocolStores.serialize ffi_fault record;
  destroy ffi_fault record ;;
  destroy ffi_fault public ;;
  destroy ffi_fault keyPair ;;
  mret (mkWire id publicKeyBytes signatureBytes, mkKyberPrekey id recordBytes).
End Generate.

(** ** Uploading *)

(** A PUT request of the daemon. *)
Record upload := mkUpload { up_path : string; up_body : json }.

(** The handles and the database, what the server will answer, and the
    requests made. *)
Record uploader := mkUploader {
  up_stores : pstate;
  up_answers : list (outcome Response);
  uploads : list upload;
}.

#[export] Instance has_pstate : Has pstate uploader := {|
  prj := up_stores; put p u := mkUploader p (up_answers u) (uploads u) |}.
#[export] Instance has_pstate_laws : HasLaws pstate uploader.
Proof. by split; intros; try destruct w. Qed.
#[export] Instance has_up_conn : Has conn uploader := {|
  prj u := db_conn (up_stores u);
  put c u := mkUploader (put c (up_stores u)) (up_answers u) (uploads u) |}.
#[export] Instance has_up_conn_laws : HasLaws conn uploader.
Proof. split; intros; try done. by destruct w as [[]]. Qed.

Definition put_request (path : string) (body : json) : Comp uploader Response := fun u =>
  match up_answers u with
  | [] => (Throw (StdError "request timed out"), mkUploader (up_stores u) [] (uploads u ++ [mkUpload path body]))
  | a :: rest => (a, mkUploader (up_stores u) rest (uploads u ++ [mkUpload path body]))
  end.

Definition key_json (k : WirePreKey) : json :=
  JObj [("keyId"%string, JNum (keyId k)); ("publicKey"%string, JStr (base64Encode (publicKey k)));
        ("signature"%string, JStr (base64Encode (signature k)))].

(** The body of PUT /v2/keys: no one-time keys. *)
Definition keys_body (signed kyber : WirePreKey) : json :=
  JObj [("preKeys"%string, JArr []); ("signedPreKey"%string, key_json signed);
        ("pqLastResortPreKey"%string, key_json kyber); ("pqPreKeys"%string, JArr [])].

Definition keys_path (identity : string) : string := String.append "/v2/keys?identity=" identity.

Section Refresh.
Context (lib : prekey_lib) (ffi_fault fault : nat -> bool) (acct : string) (nowMs : Z).

(** The lambda refreshOne.  The answer's status is only logged. *)
Definition refreshOne (id : Z) (identity : string) (identityPrivateKey : Bytes) : Comp uploader unit :=
  signedPreKey ← lift (generateSignedPreKey lib ffi_fault nowMs identityPrivateKey id);
  kyberPreKey ← lift (generateKyberPreKey lib ffi_fault nowMs identityPrivateKey id);
  lift (saveSignedPrekey fault acct identity signedPreKey.2) ;;
  lift (saveKyberPrekey fault acct identity kyberPreKey.2) ;;
  put_request (keys_path identity) (keys_body signedPreKey.1 kyberPreKey.1) ;;
  mret tt.

(** [nowSec] is the system clock in seconds; the id stays below 0xfffffe. *)
Definition prekey_id (nowSec : Z) : Z := nowSec mod 0xfffffe.

Definition refreshPrekeys (nowSec : Z) : Comp uploader unit :=
  aciKeypair ← lift (loadIdentityKeypair fault acct "aci");
  pniKeypair ← lift (loadIdentityKeypair fault acct "pni");
  match aciKeypair with
  | Some k => refreshOne (prekey_id nowSec) "aci" (private_key k)
  | None => mret tt
  end ;;
  match pniKeypair with
  | Some k => refreshOne (prekey_id nowSec) "pni" (private_key k)
  | None => mret tt
  end.
End Refresh.

Definition capabilities : json :=
  JObj [("storage"%string, JBool false); ("versionedExpirationTimer"%string, JBool false);
        ("attachmentBackfill"%string, JBool false); ("spqr"%string, JBool true);
        ("usernameChangeSyncMessage"%string, JBool true)].

(** Only for an account registered by itself. *)
Definition refreshAccountAttributes (account : AccountRecord) : Comp uploader unit :=
  if negb (bool_decide (flow account = Some "standalone"%string)) then mret tt else
  put_request "/v1/accounts/attributes/"
    (JObj [("fetchesMessages"%string, JBool true); ("registrationId"%string, JNum (registration_id account));
           ("pniRegistrationId"%string, JNum (pni_registration_id account)); ("name"%string, JNull);
           ("capabilities"%string, capabilities); ("unrestrictedUnidentifiedAccess"%string, JBool true);
           ("discoverableByPhoneNumber"%string, JBool true)]) ;;
  mret tt.

(** ** Lemmas *)

Section generate.
Context (lib : prekey_lib) (nowMs : Z) (identity : Bytes) (id : Z).

Lemma sign_with_eq message c l n k :
  (forall h, (n <= h)%nat -> l !! h = None) ->
  sign_with lib no_fault identity message (mkP c l n k) =
  (Ok (privatekey_sign lib (S k) identity message), mkP c l (S n) (3 + k)%nat).
Proof.
  intros Hfresh. unfold sign_with, privateKeyDeserialize.
  rewrite (bind_ok _ _ _ _ _ (create_ok _ _ _ _ _)). cbv beta. unfold gets. erewrite bind_ok; [|reflexivity].
  cbv beta. do 3 step_ok. cbn. unfold mret, comp_ret. do 2 f_equal. clear_handles.
Qed.

(** What a generated key consists of. *)
Definition signed_pair (k : nat) : WirePreKey * SignedPrekeyRecord :=
  let priv := privatekey_generate lib k in
  let pub := privatekey_get_public_key lib priv in
  let sig := privatekey_sign lib (4 + k)%nat identity pub in
  (mkWire id pub sig, mkSignedPrekey id (signed_pre_key_record lib (u32 id) nowMs pub priv sig)).
Definition kyber_pair (k : nat) : WirePreKey * KyberPrekeyRecord :=
  let pair := kyber_key_pair_generate lib k in
  let pub := kyber_key_pair_get_public_key lib pair in
  let sig := privatekey_sign lib (4 + k)%nat identity pub in
  (mkWire id pub sig, mkKyberPrekey id (kyber_pre_key_record lib (u32 id) nowMs pair sig)).

Lemma serialize_step h o c l n k :
  l !! h = Some o -> o <> OMisused ->
  ProtocolStores.serialize no_fault h (mkP c l n k) = (Ok (bytes_of o), mkP c l n (S k)).
Proof. apply serialize_ok. Qed.

Lemma generate_signed_eq c l n k :
  (forall h, (n <= h)%nat -> l !! h = None) ->
  exists n' k', generateSignedPreKey lib no_fault nowMs identity id (mkP c l n k) =
    (Ok (signed_pair k), mkP c l n' k') /\ (n <= n')%nat.
Proof.
  intros Hfresh. unfold generateSignedPreKey. unfold gets at 1. erewrite bind_ok; [|reflexivity]. cbv beta.
  do 3 step_ok. erewrite bind_ok; [|eapply serialize_step; [handle|done]]. cbv beta.
  erewrite bind_ok; [|apply sign_with_eq].
  2: { intros h Hh. repeat rewrite lookup_insert_ne by lia. apply Hfresh. lia. }
  cbv beta. do 3 step_ok. erewrite bind_ok; [|eapply serialize_step; [handle|done]]. cbv beta. do 3 step_ok.
  exists (4 + n)%nat. eexists. split; [|lia]. unfold mret, comp_ret. cbn [ffi_calls].
  do 2 f_equal. clear_handles.
Qed.

Lemma generate_kyber_eq c l n k :
  (forall h, (n <= h)%nat -> l !! h = None) ->
  exists n' k', generateKyberPreKey lib no_fault nowMs identity id (mkP c l n k) =
    (Ok (kyber_pair k), mkP c l n' k') /\ (n <= n')%nat.
Proof.
  intros Hfresh. unfold generateKyberPreKey. unfold gets at 1. erewrite bind_ok; [|reflexivity]. cbv beta.
  do 3 step_ok. erewrite bind_ok; [|eapply serialize_step; [handle|done]]. cbv beta.
  erewrite bind_ok; [|apply sign_with_eq].
  2: { intros h Hh. repeat rewrite lookup_insert_ne by lia. apply Hfresh. lia. }
  cbv beta. do 2 step_ok. erewrite bind_ok; [|eapply serialize_step; [handle|done]]. cbv beta. do 3 step_ok.
  exists (4 + n)%nat. eexists. split; [|lia]. unfold mret, comp_ret. cbn [ffi_calls].
  do 2 f_equal. clear_handles.
Qed.
End generate.

(** A prekey as uploaded, and what is stored for it: the record libsignal made
    of the very public key and signature, under the same id, and a signature
    that the identity key [identity] made over that public key. *)
Definition signed_by (lib : prekey_lib) (identity : Bytes) (w : WirePreKey) : Prop :=
  exists n, signature w = privatekey_sign lib n identity (publicKey w).
Definition signed_matches (lib : prekey_lib) (identity : Bytes) (w : WirePreKey) (r : SignedPrekeyRecord) : Prop :=
  spk_key_id r = keyId w /\ signed_by lib identity w /\ exists t priv,
    publicKey w = privatekey_get_public_key lib priv /\
    spk_record r = signed_pre_key_record lib (u32 (keyId w)) t (publicKey w) priv (signature w).
Definition kyber_matches (lib : prekey_lib) (identity : Bytes) (w : WirePreKey) (r : KyberPrekeyRecord) : Prop :=
  kpk_key_id r = keyId w /\ signed_by lib identity w /\ exists t pair,
    publicKey w = kyber_key_pair_get_public_key lib pair /\
    kpk_record r = kyber_pre_key_record lib (u32 (keyId w)) t pair (signature w).

(** *** Generating, whichever libsignal calls fail *)

(** Look a handle up where some others were looked up before. *)
Ltac handle_in H := repeat first [ rewrite lookup_insert_eq; reflexivity
  | rewrite lookup_delete_ne by lia | rewrite lookup_insert_ne by lia | rewrite H by lia ].

Ltac stays_fresh := let H := fresh "Hf" in let h := fresh "h" in let Hh := fresh "Hh" in
  intros H h Hh; unfold fresh_above in *; cbn [live next_handle fst snd] in *;
  repeat first [rewrite lookup_delete_ne by lia | rewrite lookup_insert_ne by lia];
  match goal with K : _ -> forall h, _ |- _ => apply K; [exact H|lia] | _ => apply H; lia end.

(** Take one step of a handle computation; a failing one ends it. *)
Ltac any_step ff H finish :=
  unfold mbind at 1, comp_bind at 1;
  first [ rewrite create_eq | rewrite checkError_eq
        | erewrite serialize_eq; [|handle_in H|done] | erewrite destroy_eq; [|handle_in H|done]
        | erewrite bytes_at_ok; [|handle_in H|done] ];
  try match goal with |- context [ff ?i] => destruct (ff i); cbv beta iota; [finish|] end;
  cbv beta iota.

Section generate_any.
Context (lib : prekey_lib) (ff : nat -> bool) (nowMs : Z) (identity : Bytes) (id : Z).

(** The table keeps what was in it, and stays fresh if it was. *)
Definition grows (c : conn) (l : gmap nat object) (n : nat) (s : pstate) : Prop :=
  db_conn s = c /\ (n <= next_handle s)%nat /\
  ((forall h, (n <= h)%nat -> l !! h = None) -> fresh_above s) /\
  forall h, (h < n)%nat -> live s !! h = l !! h.

Lemma sign_with_cases message c l n k :
  let '(r, s') := sign_with lib ff identity message (mkP c l n k) in
  grows c l n s' /\ match r with Ok sig => exists j, sig = privatekey_sign lib j identity message | Throw _ => True end.
Proof.
  unfold sign_with, privateKeyDeserialize.
  any_step ff I ltac:(split; [split_and!; [done|cbn; lia|by intros H|done]|done]).
  unfold gets, mbind at 1, comp_bind at 1. cbv beta iota.
  assert (forall k', grows c l n (mkP c (<[n := OPrivateKey identity]> l) (S n) k')) as Hg.
  { intros k'. split_and!; [done|cbn; lia|stays_fresh|intros h Hh; cbn; by rewrite lookup_insert_ne by lia]. }
  any_step ff I ltac:(idtac). any_step ff I ltac:(done). any_step ff I ltac:(done).
  unfold mret, comp_ret. cbn [bytes_of]. split; [|by eexists].
  split_and!; [done|cbn; lia|stays_fresh|intros h Hh; cbn; by rewrite lookup_delete_ne, lookup_insert_ne by lia].
Qed.

(** What generating a prekey does to the table. *)
Definition generates {A} (c : conn) (l : gmap nat object) (n : nat) (Q : A -> Prop) (x : outcome A * pstate) : Prop :=
  let '(r, s) := x in
  db_conn s = c /\ ((forall h, (n <= h)%nat -> l !! h = None) -> fresh_above s) /\
  match r with Ok p => Q p | Throw _ => True end.

Lemma generateSigned_cases c l n k :
  generates c l n (fun p => keyId p.1 = id /\ signed_matches lib identity p.1 p.2)
    (generateSignedPreKey lib ff nowMs identity id (mkP c l n k)).
Proof.
  unfold generates, generateSignedPreKey. unfold gets, mbind at 1, comp_bind at 1. cbv beta iota.
  any_step ff I ltac:(by split_and!; [|stays_fresh|]). any_step ff I ltac:(idtac).
  any_step ff I ltac:(by split_and!; [|stays_fresh|]). any_step ff I ltac:(by split_and!; [|stays_fresh|]).
  cbn [bytes_of ffi_calls]. set (pub := privatekey_get_public_key lib _).
  match goal with |- context [mkP c ?t (S (S n)) ?j] => set (l1 := t);
    assert ((forall h, (n <= h)%nat -> l !! h = None) -> forall h, (S (S n) <= h)%nat -> l1 !! h = None) as H1
      by (subst l1; intros Hf h Hh; rewrite !lookup_insert_ne by lia; apply Hf; lia);
    pose proof (sign_with_cases pub c l1 (S (S n)) j) as H end.
  unfold mbind at 1, comp_bind at 1. destruct (sign_with _ _ _ _ _) as [[sig|e] [c2 l2 n2 k2]];
    [|destruct H as [(? & _ & H2 & _) _]; split_and!; [done|by intros Hf; apply H2, H1|done]].
  destruct H as [(Ec & Hn & H2 & Hkeep) (j & ->)]. unfold fresh_above in H2. cbn [db_conn live next_handle] in *.
  assert ((forall h, (n <= h)%nat -> l !! h = None) -> forall h, (n2 <= h)%nat -> l2 !! h = None) as H3
    by (intros Hf; apply H2, H1, Hf). clear H1 H2.
  subst c2 l1. any_step ff Hkeep ltac:(idtac). any_step ff Hkeep ltac:(idtac).
  do 5 any_step ff Hkeep ltac:(by split_and!; [|stays_fresh|]).
  unfold mret, comp_ret. cbn [fst snd bytes_of keyId publicKey signature].
  split_and!; [done|stays_fresh|done|]. split_and!; [done|by eexists|by eexists _, _].
Qed.

Lemma generateKyber_cases c l n k :
  generates c l n (fun p => keyId p.1 = id /\ kyber_matches lib identity p.1 p.2)
    (generateKyberPreKey lib ff nowMs identity id (mkP c l n k)).
Proof.
  unfold generates, generateKyberPreKey. unfold gets, mbind at 1, comp_bind at 1. cbv beta iota.
  any_step ff I ltac:(by split_and!; [|stays_fresh|]). any_step ff I ltac:(idtac).
  any_step ff I ltac:(by split_and!; [|stays_fresh|]). any_step ff I ltac:(by split_and!; [|stays_fresh|]).
  cbn [bytes_of ffi_calls]. set (pub := kyber_key_pair_get_public_key lib _).
  match goal with |- context [mkP c ?t (S (S n)) ?j] => set (l1 := t);
    assert ((forall h, (n <= h)%nat -> l !! h = None) -> forall h, (S (S n) <= h)%nat -> l1 !! h = None) as H1
      by (subst l1; intros Hf h Hh; rewrite !lookup_insert_ne by lia; apply Hf; lia);
    pose proof (sign_with_cases pub c l1 (S (S n)) j) as H end.
  unfold mbind at 1, comp_bind at 1. destruct (sign_with _ _ _ _ _) as [[sig|e] [c2 l2 n2 k2]];
    [|destruct H as [(? & _ & H2 & _) _]; split_and!; [done|by intros Hf; apply H2, H1|done]].
  destruct H as [(Ec & Hn & H2 & Hkeep) (j & ->)]. unfold fresh_above in H2. cbn [db_conn live next_handle] in *.
  assert ((forall h, (n <= h)%nat -> l !! h = None) -> forall h, (n2 <= h)%nat -> l2 !! h = None) as H3
    by (intros Hf; apply H2, H1, Hf). clear H1 H2.
  subst c2 l1. any_step ff Hkeep ltac:(idtac).
  do 5 any_step ff Hkeep ltac:(by split_and!; [|stays_fresh|]).
  unfold mret, comp_ret. cbn [fst snd bytes_of keyId publicKey signature].
  split_and!; [done|stays_fresh|done|]. split_and!; [done|by eexists|by eexists _, _].
Qed.

End generate_any.

(** The two rows of an identity. *)
Definition rows (acct identity : string) (u : uploader) : option SignedPrekeyRecord * option KyberPrekeyRecord :=
  (signed_prekey (cdb (prj u)) !! (acct, identity), kyber_prekey (cdb (prj u)) !! (acct, identity)).

(** An upload whose keys are in the database, signed by the identity key that is
    there. *)
Definition backed (lib : prekey_lib) (acct : string) (u : uploader) (up : upload) : Prop :=
  exists identity kp signed kyber rs rk,
    up = mkUpload (keys_path identity) (keys_body signed kyber) /\
    identity_keypair (cdb (prj u)) !! (acct, identity) = Some kp /\
    rows acct identity u = (Some rs, Some rk) /\
    signed_matches lib (private_key kp) signed rs /\ kyber_matches lib (private_key kp) kyber rk.

Section refresh.
Context (lib : prekey_lib) (ffi_fault fault : nat -> bool) (acct : string) (nowMs : Z).

(** What a refresh of [identity] changes of the database. *)
Definition only_rows_of (identity : string) (u u' : uploader) : Prop :=
  identity_keypair (cdb (prj u')) = identity_keypair (cdb (prj u)) /\
  forall other, other <> identity -> rows acct other u' = rows acct other u.

Lemma only_rows_refl identity u u' : cdb (prj u') = cdb (prj u) -> only_rows_of identity u u'.
Proof. intros E. unfold only_rows_of, rows. by rewrite E. Qed.

Lemma only_rows_trans identity u v w :
  only_rows_of identity u v -> only_rows_of identity v w -> only_rows_of identity u w.
Proof. intros [H1 H2] [H3 H4]. split; [congruence|]. intros other Ho. rewrite H4, H2; done. Qed.

(** The two rows of a refresh, whatever SQLite calls fail: both are written
    when it returns. *)
Lemma save_rows identity (rs : SignedPrekeyRecord) (rk : KyberPrekeyRecord) u :
  let '(r, u') := (lift (saveSignedPrekey fault acct identity rs) ;;
                   lift (saveKyberPrekey fault acct identity rk) : Comp uploader unit) u in
  live (up_stores u') = live (up_stores u) /\ next_handle (up_stores u') = next_handle (up_stores u) /\
  up_answers u' = up_answers u /\ uploads u' = uploads u /\ only_rows_of identity u u' /\
  (r = Ok tt -> rows acct identity u' = (Some rs, Some rk)).
Proof.
  destruct u as [[c l n k] a sent]. unfold saveSignedPrekey, saveKyberPrekey, lift, only_rows_of, rows.
  unfold mbind, comp_bind. cbn [prj has_up_conn up_stores db_conn].
  match goal with |- context [write fault ?w ?f c] =>
    destruct (write_cases fault w f c) as (m1 & [(w1 & ->)|(d1 & Hd1 & ->)]) end; cbn; [by split_and!|].
  destruct (identity_ok identity && fk_ok acct (cdb c)); [|done]. injection Hd1 as <-.
  match goal with |- context [write fault ?w ?f ?c1] =>
    destruct (write_cases fault w f c1) as (m2 & [(w2 & ->)|(d2 & Hd2 & ->)]) end; cbn.
  - split_and!; try done. intros other Ho. by rewrite lookup_insert_ne by congruence.
  - cbn in Hd2. destruct (identity_ok identity && fk_ok acct _); [|done]. injection Hd2 as <-. cbn.
    split_and!; try done; [intros other Ho; by rewrite !lookup_insert_ne by congruence|].
    intros _. by rewrite !lookup_insert_eq.
Qed.

(** Generating a prekey inside a refresh. *)
Lemma generate_step {A} (m : Comp pstate A) (Q : A -> Prop) u :
  (forall c l n k, generates c l n Q (m (mkP c l n k))) ->
  fresh_above (up_stores u) ->
  let '(r, u') := (lift m : Comp uploader A) u in
  fresh_above (up_stores u') /\ cdb (prj u') = cdb (prj u) /\ uploads u' = uploads u /\
  match r with Ok p => Q p | Throw _ => True end.
Proof.
  intros Hm Hf. destruct u as [[c l n k] a sent]. unfold lift. cbn [prj has_pstate up_stores].
  specialize (Hm c l n k). destruct (m (mkP c l n k)) as [r s']. destruct Hm as (Hc & Hf' & Hr).
  specialize (Hf' Hf). cbn in *. by rewrite Hc.
Qed.

(** refreshOne, on every path: it fails before the upload, or it uploads keys
    whose rows it has written. *)
Lemma refreshOne_cases id identity kp u :
  fresh_above (up_stores u) -> identity_keypair (cdb (prj u)) !! (acct, identity) = Some kp ->
  let '(_, u') := refreshOne lib ffi_fault fault acct nowMs id identity (private_key kp) u in
  fresh_above (up_stores u') /\ only_rows_of identity u u' /\
  (uploads u' = uploads u \/ exists up, uploads u' = uploads u ++ [up] /\ backed lib acct u' up /\
     up_path up = keys_path identity).
Proof.
  intros Hfresh Hkp. unfold refreshOne.
  pose proof (generate_step _ _ u (generateSigned_cases lib ffi_fault nowMs (private_key kp) id) Hfresh) as H1.
  unfold mbind at 1, comp_bind at 1. destruct (lift (generateSignedPreKey _ _ _ _ _) u) as [[sp|e] u1];
    destruct H1 as (Hf1 & Hd1 & Hu1 & Hsp); [|split_and!; [done|by apply only_rows_refl|by left]].
  pose proof (generate_step _ _ u1 (generateKyber_cases lib ffi_fault nowMs (private_key kp) id) Hf1) as H2.
  unfold mbind at 1, comp_bind at 1. destruct (lift (generateKyberPreKey _ _ _ _ _) u1) as [[kyp|e] u2];
    destruct H2 as (Hf2 & Hd2 & Hu2 & Hkyp); [|split_and!; [done|apply only_rows_refl; congruence|left; congruence]].
  pose proof (save_rows identity sp.2 kyp.2 u2) as H3. unfold mbind, comp_bind in H3 |- *.
  destruct (lift (saveSignedPrekey _ _ _ _) u2) as [[[]|e] u3].
  2: { destruct H3 as (Hl & Hn & _ & Hu & Ho & _). split_and!;
       [unfold fresh_above in *; by rewrite Hl, Hn|eapply only_rows_trans; [apply only_rows_refl|exact Ho]; congruence|
        left; congruence]. }
  destruct (lift (saveKyberPrekey _ _ _ _) u3) as [r4 u4].
  destruct H3 as (Hl & Hn & Ha & Hu & Ho2 & Hrows).
  assert (fresh_above (up_stores u4)) as Hf4 by (unfold fresh_above in *; by rewrite Hl, Hn).
  assert (only_rows_of identity u u4) as Ho by (eapply only_rows_trans; [apply only_rows_refl|exact Ho2]; congruence).
  destruct r4 as [[]|e]; [|split_and!; [done|done|left; congruence]].
  unfold put_request. set (sent := mkUpload _ _).
  assert (forall a', let u' := mkUploader (up_stores u4) a' (uploads u4 ++ [sent]) in
    fresh_above (up_stores u') /\ only_rows_of identity u u' /\
    (uploads u' = uploads u \/ exists up, uploads u' = uploads u ++ [up] /\ backed lib acct u' up /\
     up_path up = keys_path identity)) as Hend.
  { intros a' u'. split_and!; [done|done|]. right. exists sent. cbn. split; [congruence|]. split; [|done].
    exists identity, kp, sp.1, kyp.1, sp.2, kyp.2. split; [done|]. split; [exact (eq_trans (f_equal (lookup _) (proj1 Ho)) Hkp)|].
    split; [by apply Hrows|]. split; [apply Hsp|apply Hkyp]. }
  destruct (up_answers u4) as [|[x|e] rest]; apply Hend.
Qed.

(** Reading an identity key pair changes nothing the uploads depend on, and
    gives the row. *)
Lemma load_pair_frame identity u :
  let '(r, u') := (lift (loadIdentityKeypair fault acct identity) : Comp uploader _) u in
  cdb (prj u') = cdb (prj u) /\ live (up_stores u') = live (up_stores u) /\
  next_handle (up_stores u') = next_handle (up_stores u) /\ uploads u' = uploads u /\
  match r with Ok (Some k) => identity_keypair (cdb (prj u)) !! (acct, identity) = Some k | _ => True end.
Proof.
  unfold loadIdentityKeypair, lift.
  destruct (select_cases fault (fun d => identity_keypair d !! (acct, identity)) (prj u))
    as (n & [(w & ->)|[->| ->]]); cbn; split_and!; try done. by destruct (identity_keypair _ !! _).
Qed.

Lemma backed_rows identity u u' up :
  only_rows_of identity u u' ->
  up_path up <> keys_path identity -> backed lib acct u up -> backed lib acct u' up.
Proof.
  intros [Hk Hr] Hp (other & kp & signed & kyber & rs & rk & -> & Hkp & Hrows & H).
  exists other, kp, signed, kyber, rs, rk. split; [done|]. split; [by rewrite Hk|]. split; [|done].
  rewrite Hr; [done|]. intros ->. by apply Hp.
Qed.

(** The first refresh of the two. *)
Lemma first_refresh id (k1 : option IdentityKeypairRecord) v :
  fresh_above (up_stores v) -> uploads v = [] ->
  match k1 with Some k => identity_keypair (cdb (prj v)) !! (acct, "aci"%string) = Some k | None => True end ->
  let '(_, w) := (match k1 with
    | Some k => refreshOne lib ffi_fault fault acct nowMs id "aci" (private_key k)
    | None => mret tt end) v in
  fresh_above (up_stores w) /\ identity_keypair (cdb (prj w)) = identity_keypair (cdb (prj v)) /\
  Forall (fun up => backed lib acct w up /\ up_path up = keys_path "aci") (uploads w).
Proof.
  intros Hv Hvn Hk. destruct k1 as [k|]; [|cbv beta iota delta [mret comp_ret]; by rewrite Hvn].
  pose proof (refreshOne_cases id "aci" k v Hv Hk) as H.
  destruct (refreshOne _ _ _ _ _ _ _ _ v) as [r w]. destruct H as (Hf & [Hkw _] & [->|(up & -> & Hb)]); rewrite Hvn.
  - by split_and!.
  - split_and!; [done|done|]. by constructor.
Qed.

(** C15: at start-up every prekey that was uploaded is stored: whatever
    requests, database calls and libsignal calls (the generating and signing of
    the keys among them) fail, and wherever [refreshPrekeys] stops, each
    PUT /v2/keys it made carries, for its identity, the public halves of the
    very records that are in the database when it returns, under the same id,
    signed by the identity key that is in the database. *)
Theorem uploaded_prekeys_are_stored nowSec u (Hfresh : fresh_above (up_stores u)) (Hnone : uploads u = []) :
  let '(_, u') := refreshPrekeys lib ffi_fault fault acct nowMs nowSec u in
  Forall (backed lib acct u') (uploads u').
Proof.
  unfold refreshPrekeys. unfold mbind at 1, comp_bind at 1.
  pose proof (load_pair_frame "aci" u) as H. destruct (lift (loadIdentityKeypair fault acct "aci") u) as [[k1|e] u1];
    destruct H as (Hd1 & Hl1 & Hn1 & Hu1 & Hk1); [|by rewrite Hu1, Hnone].
  unfold mbind at 1, comp_bind at 1.
  pose proof (load_pair_frame "pni" u1) as H. destruct (lift (loadIdentityKeypair fault acct "pni") u1) as [[k2|e] v];
    destruct H as (Hd2 & Hl2 & Hn2 & Hu2 & Hk2); [|by rewrite Hu2, Hu1, Hnone].
  assert (fresh_above (up_stores v)) as Hv by (unfold fresh_above; rewrite Hl2, Hn2, Hl1, Hn1; exact Hfresh).
  pose proof (first_refresh (prekey_id nowSec) k1 v Hv ltac:(congruence) ltac:(destruct k1; [congruence|done])) as H.
  unfold mbind at 1, comp_bind at 1.
  match type of H with context [let '(_, _) := ?x in _] => destruct x as [r w] end. destruct H as (Hw & Hkw & Hall).
  assert (Forall (backed lib acct w) (uploads w)) as Hall' by (eapply Forall_impl; [exact Hall|by intros up [? _]]).
  destruct r as [[]|e]; [|done]. destruct k2 as [k|]; [|done].
  pose proof (refreshOne_cases (prekey_id nowSec) "pni" k w Hw ltac:(rewrite Hkw; congruence)) as H.
  destruct (refreshOne _ _ _ _ _ _ _ _ w) as [r x]. destruct H as (_ & Hrows & Hup).
  assert (Forall (backed lib acct x) (uploads w)) as Hold.
  { eapply Forall_impl; [exact Hall|]. intros up [H Hp]. eapply backed_rows; [exact Hrows|by rewrite Hp|exact H]. }
  destruct Hup as [->|(up & -> & Hb & _)]; [done|]. apply Forall_app. by split; [|constructor].
Qed.
End refresh.

(** Without failures of SQLite and libsignal, and with an answer of any
    status, a refresh replaces the rows of its identity. *)
Lemma refreshOne_ok lib acct nowMs id identity priv u r rest :
  fresh_above (up_stores u) -> is_Some (account (cdb (prj u)) !! acct) -> identity_ok identity = true ->
  up_answers u = Ok r :: rest ->
  exists u', refreshOne lib no_fault no_fault acct nowMs id identity priv u = (Ok tt, u') /\
    fresh_above (up_stores u') /\ up_answers u' = rest /\ account (cdb (prj u')) = account (cdb (prj u)) /\
    (forall other, other <> identity -> rows acct other u' = rows acct other u) /\
    exists rs rk, rows acct identity u' = (Some rs, Some rk) /\ spk_key_id rs = id.
Proof.
  destruct u as [[c l n k] answers sent]. intros Hfresh [a Ha] Hi Hans. unfold fresh_above in Hfresh. cbn in Hfresh, Ha, Hans.
  unfold refreshOne. unfold mbind at 1, comp_bind at 1. unfold lift at 1. cbn [prj has_pstate up_stores].
  destruct (generate_signed_eq lib nowMs priv id c l n k Hfresh) as (n1 & k1 & -> & Hn1).
  cbn [put has_pstate up_answers uploads]. unfold mbind at 1, comp_bind at 1. unfold lift at 1.
  cbn [prj has_pstate up_stores].
  destruct (generate_kyber_eq lib nowMs priv id c l n1 k1) as (n2 & k2 & -> & Hn2); [intros h Hh; apply Hfresh; lia|].
  cbn [put has_pstate up_answers uploads].
  set (sp := signed_pair lib nowMs priv id k). set (kp := kyber_pair lib nowMs priv id k1).
  assert (fk_ok acct (cdb c) = true) as Hfk by (unfold fk_ok; by rewrite Ha).
  unfold saveSignedPrekey, saveKyberPrekey. unfold mbind at 1, comp_bind at 1. unfold lift at 1.
  cbn [prj has_up_conn up_stores db_conn].
  rewrite (write_ok _ _ c (set_signed (insert (acct, identity) sp.2) (cdb c))) by (by rewrite Hi, Hfk).
  cbn [put has_up_conn has_conn up_answers uploads up_stores live next_handle ffi_calls].
  unfold mbind at 1, comp_bind at 1. unfold lift at 1. cbn [prj has_up_conn up_stores db_conn].
  rewrite (write_ok _ _ _ (set_kyber (insert (acct, identity) kp.2) (set_signed (insert (acct, identity) sp.2) (cdb c))))
    by (cbn [cdb]; unfold fk_ok in *; cbn [account set_signed]; by rewrite Hi, Hfk).
  cbn [put has_up_conn has_conn up_answers uploads up_stores live next_handle ffi_calls].
  unfold mbind, comp_bind, put_request. cbn [up_answers up_stores uploads]. rewrite Hans.
  eexists. split; [reflexivity|]. split_and!.
  - intros h Hh. cbn in Hh |- *. apply Hfresh. lia.
  - done.
  - done.
  - intros other Ho. unfold rows. cbn. by rewrite !lookup_insert_ne by congruence.
  - exists sp.2, kp.2. unfold rows. cbn. by rewrite !lookup_insert_eq.
Qed.

(** An upload the server refuses loses the old keys: with any answer at
    all to the two uploads (a rate limit, a server error), [refreshPrekeys]
    returns normally with the stored signed prekey replaced, and from then on
    libsignal's request for the one the server still advertises fails. *)
Lemma refused_upload_loses_old_prekey lib acct nowMs nowSec u aci pni old r1 r2 rest
    (Hfresh : fresh_above (up_stores u)) (Hacct : is_Some (account (cdb (prj u)) !! acct))
    (Haci : identity_keypair (cdb (prj u)) !! (acct, "aci"%string) = Some aci)
    (Hpni : identity_keypair (cdb (prj u)) !! (acct, "pni"%string) = Some pni)
    (Hold : signed_prekey (cdb (prj u)) !! (acct, "aci"%string) = Some old)
    (Hid : spk_key_id old <> prekey_id nowSec)
    (Hanswers : up_answers u = Ok r1 :: Ok r2 :: rest) :
  let '(r, u') := refreshPrekeys lib no_fault no_fault acct nowMs nowSec u in
  r = Ok tt /\
  (load_signed_pre_key no_fault no_fault acct "aci" (spk_key_id old) (up_stores u')).1 = Ok (-1, None).
Proof.
  unfold refreshPrekeys, loadIdentityKeypair. unfold mbind at 1, comp_bind at 1. unfold lift at 1.
  rewrite select_ok, Haci. unfold mbind at 1, comp_bind at 1. unfold lift at 1. rewrite select_ok.
  cbn [prj has_up_conn put has_conn up_stores db_conn cdb saved live next_handle ffi_calls up_answers uploads].
  change (cdb (db_conn (up_stores u))) with (cdb (prj u)). rewrite Hpni. set (v := mkUploader _ _ _).
  assert (fresh_above (up_stores v)) as Hv by (intros h Hh; apply Hfresh; exact Hh).
  destruct (refreshOne_ok lib acct nowMs (prekey_id nowSec) "aci" (private_key aci) v r1 (Ok r2 :: rest) Hv Hacct
    eq_refl Hanswers) as (w & E & Hw & Hans & Hacc & _ & rs & rk & Hrows & Hrs).
  rewrite (bind_ok _ _ _ _ _ E).
  destruct (refreshOne_ok lib acct nowMs (prekey_id nowSec) "pni" (private_key pni) w r2 rest Hw)
    as (x & Ex & _ & _ & _ & Hother & _); [by rewrite Hacc|done|done|].
  rewrite Ex. split; [done|]. specialize (Hother "aci"%string ltac:(done)). rewrite Hrows in Hother.
  unfold load_signed_pre_key, loadSignedPrekey, guardCallback, catch_all. unfold mbind at 1, comp_bind at 1.
  unfold mbind at 1, comp_bind at 1. unfold lift at 1. rewrite select_ok.
  injection Hother as Hs _. cbn in Hs. cbn [prj has_conn]. rewrite Hs.
  rewrite bool_decide_eq_false_2 by congruence. done.
Qed.

(** ** Examples *)

Definition toy_prekeys : prekey_lib :=
  mkPrekeyLib (fun n => [Z.of_nat n]) (fun k => 5 :: k) (fun _ k m => k ++ m)
    (fun id t pub priv sig => id :: priv ++ sig) (fun n => [Z.of_nat n; 0]) (fun k => 8 :: k)
    (fun id t pair sig => id :: pair ++ sig).

Definition linked_account : uploader :=
  mkUploader (mkP (mkConn (mkDb (<["a" := column_defaults]> ∅)
      (<[("a", "pni") := mkKeypair [2] [22]]> (<[("a", "aci") := mkKeypair [1] [11]]> ∅))
      (<[("a", "aci") := mkSignedPrekey 41 [9]]> ∅) ∅ ∅ ∅ ∅ [] 0) None 0) ∅ 0 0)
    [Ok (mkResponse 429 []); Ok (mkResponse 500 [])] [].

Lemma uploaded_prekeys_are_stored_witness :
  let '(_, u') := refreshPrekeys toy_prekeys (fun n => bool_decide (n = 60)%nat) (fun n => bool_decide (n = 9)%nat)
    "a" 1000 16777300 linked_account in
  Forall (backed toy_prekeys "a" u') (uploads u').
Proof.
  apply (uploaded_prekeys_are_stored toy_prekeys (fun n => bool_decide (n = 60)%nat) (fun n => bool_decide (n = 9)%nat)
    "a" 1000 16777300 linked_account).
  - by intros h _.
  - reflexivity.
Defined.

(** When no call fails there are two uploads; a signature that fails after the
    first leaves one. *)
Example two_uploads :
  (length (uploads (refreshPrekeys toy_prekeys no_fault no_fault "a" 1000 16777300 linked_account).2),
   length (uploads (refreshPrekeys toy_prekeys (fun n => bool_decide (n = 30)%nat) no_fault "a" 1000 16777300
     linked_account).2)) = (2, 1)%nat.
Proof. vm_compute. reflexivity. Qed.

Lemma refused_upload_loses_old_prekey_witness :
  let '(r, u') := refreshPrekeys toy_prekeys no_fault no_fault "a" 1000 16777300 linked_account in
  r = Ok tt /\
  (load_signed_pre_key no_fault no_fault "a" "aci" 41 (up_stores u')).1 = Ok (-1, None).
Proof.
  apply (refused_upload_loses_old_prekey toy_prekeys "a" 1000 16777300 linked_account (mkKeypair [1] [11])
    (mkKeypair [2] [22]) (mkSignedPrekey 41 [9]) (mkResponse 429 []) (mkResponse 500 []) []).
  - by intros h _.
  - by eexists.
  - reflexivity.
  - reflexivity.
  - reflexivity.
  - vm_compute. discriminate.
  - reflexivity.
Defined.
