(* ===== verification/LinkCiphers.v ===== *)
(** The two ciphers of linking a device: the primary's provisioning message
    (src/gendb/ProvisioningCipher.cpp) and the encrypted device name
    (src/gendb/DeviceNameCipher.cpp), with [generateKeyPair] of
    src/signal/FfiUtil.h.

    The computations of libsignal and OpenSSL are parameters; what the source
    does with their inputs and outputs, and the handles it makes, are here.
    The other side of each cipher is written as a reference. *)

From S2P Require Import Prelude Base64 Storage ProtocolStores CallSignaling Crypto PreKeys.

Open Scope Z_scope.

Record KeyPair := mkKeyPair { kp_privateKey : Bytes; kp_publicKey : Bytes }.
Record DeviceName := mkDeviceName { ephemeralpublic : Bytes; syntheticiv : Bytes; name_ciphertext : Bytes }.

Record cipher_lib := mkCipherLib {
  privatekey_agree : Bytes -> Bytes -> Bytes;                         (* our private, their public *)
  hkdf64 : Bytes -> Bytes -> Bytes;                                   (* ikm, info: 64 bytes *)
  cipher_hmac : Bytes -> Bytes -> option Bytes;
  EVP_aes_256_cbc_open : Bytes -> Bytes -> Bytes -> option Bytes;     (* key, iv, ciphertext *)
  EVP_aes_256_ctr : Bytes -> Bytes -> Bytes -> option Bytes;          (* key, iv, plaintext *)
  serialize_name : DeviceName -> Bytes;
}.

Definition text_bytes (s : string) : Bytes :=
  map (fun c => Z.of_nat (nat_of_ascii c)) (String.list_ascii_of_string s).

Definition kIvLength : nat := 16.
Definition kMacLength : nat := 32.
Definition kInfo : Bytes := text_bytes "TextSecure Provisioning Message".

Section Ciphers.
Context (keys : prekey_lib) (lib : cipher_lib) (ffi_fault : nat -> bool).

Definition generateKeyPair : Comp pstate KeyPair :=
  n ← gets ffi_calls;
  priv ← create ffi_fault (OPrivateKey (privatekey_generate keys n));
  privBytes ← ProtocolStores.serialize ffi_fault priv;
  pub ← create ffi_fault (OPublicKey (privatekey_get_public_key keys privBytes));
  pubBytes ← publicKeySerializeAndDestroy ffi_fault pub;
  destroy ffi_fault priv ;;
  mret (mkKeyPair privBytes pubBytes).

(** signal_privatekey_agree on two keys deserialized for it, which are then
    destroyed. *)
Definition agree_with (privateKey publicKey : Bytes) : Comp pstate Bytes :=
  ourKey ← privateKeyDeserialize ffi_fault privateKey;
  theirKey ← publicKeyDeserialize ffi_fault publicKey;
  a ← bytes_at ourKey;
  b ← bytes_at theirKey;
  checkError ffi_fault "signal_privatekey_agree" ;;
  destroy ffi_fault theirKey ;;
  destroy ffi_fault ourKey ;;
  mret (privatekey_agree lib a b).

Definition cipher_hmacSha256 (key data : Bytes) : outcome Bytes :=
  match cipher_hmac lib key data with Some out => Ok out | None => Throw (StdError "HMAC-SHA256 failed") end.

Definition aes256CbcDecrypt (key iv ciphertext : Bytes) : outcome Bytes :=
  match EVP_aes_256_cbc_open lib key iv ciphertext with
  | Some plaintext => Ok plaintext
  | None => Throw (StdError "Provisioning cipher: AES-256-CBC decrypt failed (bad key/iv/padding)")
  end.

Definition decryptProvisionEnvelope (ourPrivateKey envelopePublicKey envelopeBody : Bytes) : Comp pstate Bytes :=
  let size := length envelopeBody in
  if bool_decide (size <= 1 + kIvLength + kMacLength)%nat
  then throw_std "Provisioning envelope body too short" else
  let version := nth 0 envelopeBody 0 in
  if negb (bool_decide (version = 1))
  then throw_std (String.append "Provisioning cipher version mismatch: expected 1, got " (to_string version)) else
  let iv := take kIvLength (drop 1 envelopeBody) in
  let theirMac := drop (size - kMacLength) envelopeBody in
  let macInput := take (size - kMacLength) envelopeBody in
  let ciphertext := drop (1 + kIvLength) (take (size - kMacLength) envelopeBody) in
  sharedSecret ← agree_with ourPrivateKey envelopePublicKey;
  checkError ffi_fault "signal_hkdf_derive" ;;
  let derived := hkdf64 lib sharedSecret kInfo in
  let cipherKey := take 32 derived in
  let macKey := drop 32 derived in
  ourMac ← of_outcome (cipher_hmacSha256 macKey macInput);
  if negb (bool_decide (ourMac = theirMac)) then throw_std "Provisioning cipher MAC mismatch" else
  of_outcome (aes256CbcDecrypt cipherKey iv ciphertext).

Definition aes256CtrEncrypt (key iv plaintext : Bytes) : outcome Bytes :=
  match EVP_aes_256_ctr lib key iv plaintext with
  | Some ciphertext => Ok ciphertext
  | None => Throw (StdError "DeviceName cipher: AES-256-CTR encrypt failed")
  end.

Definition encryptDeviceName (plaintextDeviceName : string) (aciIdentityPrivateKey : Bytes) : Comp pstate string :=
  let plaintext := text_bytes plaintextDeviceName in
  ephemeral ← generateKeyPair;
  masterSecret ← agree_with aciIdentityPrivateKey (kp_publicKey ephemeral);
  key1 ← of_outcome (cipher_hmacSha256 masterSecret (text_bytes "auth"));
  syntheticIvFull ← of_outcome (cipher_hmacSha256 key1 plaintext);
  let syntheticIv := take 16 syntheticIvFull in
  key2 ← of_outcome (cipher_hmacSha256 masterSecret (text_bytes "cipher"));
  cipherKey ← of_outcome (cipher_hmacSha256 key2 syntheticIv);
  ciphertext ← of_outcome (aes256CtrEncrypt cipherKey (repeat 0 16) plaintext);
  mret (base64Encode (serialize_name lib (mkDeviceName (kp_publicKey ephemeral) syntheticIv ciphertext))).
End Ciphers.

(** ** The other side *)

(** The primary's encryption of a provisioning message, to a public key. *)
Definition encryptProvision (lib : cipher_lib) (cbc : Bytes -> Bytes -> Bytes -> Bytes)
    (privateKey theirPublic iv plaintext : Bytes) : option Bytes :=
  let derived := hkdf64 lib (privatekey_agree lib privateKey theirPublic) kInfo in
  let macInput := 1 :: iv ++ cbc (take 32 derived) iv plaintext in
  (macInput ++.) <$> cipher_hmac lib (drop 32 derived) macInput.

(** What a client with the account's identity key does to show the name. *)
Definition decryptDeviceName (lib : cipher_lib) (ctr_open : Bytes -> Bytes -> Bytes -> Bytes)
    (parse_name : Bytes -> option DeviceName) (aciIdentityPrivateKey : Bytes) (text : string) : option Bytes :=
  d ← parse_name (base64Decode text);
  let masterSecret := privatekey_agree lib aciIdentityPrivateKey (ephemeralpublic d) in
  key2 ← cipher_hmac lib masterSecret (text_bytes "cipher");
  cipherKey ← cipher_hmac lib key2 (syntheticiv d);
  let plaintext := ctr_open cipherKey (repeat 0 16) (name_ciphertext d) in
  key1 ← cipher_hmac lib masterSecret (text_bytes "auth");
  iv ← cipher_hmac lib key1 plaintext;
  if bool_decide (take 16 iv = syntheticiv d) then Some plaintext else None.

(** ** Lemmas *)

Section link_lemmas.
Context (keys : prekey_lib) (lib : cipher_lib).

Lemma agree_ok priv pub c l n k :
  (forall h, (n <= h)%nat -> l !! h = None) ->
  agree_with lib no_fault priv pub (mkP c l n k) = (Ok (privatekey_agree lib priv pub), mkP c l (2 + n) (5 + k)).
Proof.
  intros Hfresh. unfold agree_with, privateKeyDeserialize.
  rewrite (bind_ok _ _ _ _ _ (create_ok _ _ _ _ _)). cbv beta. do 6 step_ok.
  cbn. unfold mret, comp_ret. do 2 f_equal. clear_handles.
Qed.

(** The keys drawn at call [k]. *)
Definition pair_at (k : nat) : KeyPair :=
  mkKeyPair (privatekey_generate keys k) (privatekey_get_public_key keys (privatekey_generate keys k)).

Lemma generateKeyPair_ok c l n k :
  (forall h, (n <= h)%nat -> l !! h = None) ->
  generateKeyPair keys no_fault (mkP c l n k) = (Ok (pair_at k), mkP c l (2 + n) (6 + k)).
Proof.
  intros Hfresh. unfold generateKeyPair. unfold gets at 1. erewrite bind_ok; [|reflexivity]. cbv beta.
  step_ok. erewrite bind_ok; [|eapply serialize_step; [handle|done]]. cbv beta. cbn [bytes_of]. step_ok.
  erewrite bind_ok; [|eapply serializeAndDestroy_ok; [handle|done]]. cbv beta. step_ok. cbn.
  unfold mret, comp_ret. do 2 f_equal. clear_handles.
Qed.

(** Whatever fails: a pair that is returned is one, its public key libsignal's
    for the private one. *)
Lemma generateKeyPair_real ff s p s' :
  generateKeyPair keys ff s = (Ok p, s') ->
  kp_publicKey p = privatekey_get_public_key keys (kp_privateKey p).
Proof.
  destruct s as [c l n k]. unfold generateKeyPair, gets. unfold mbind at 1, comp_bind at 1. cbv beta iota.
  do 3 any_step ff I ltac:(done). unfold mbind at 1, comp_bind at 1.
  erewrite serializeAndDestroy_eq; [|handle|done].
  do 2 match goal with |- context [ff ?i] => destruct (ff i); [done|] end. cbv beta iota.
  any_step ff I ltac:(done). by intros [= <- _].
Qed.

(** Without failures of libsignal's own. *)
Lemma agree_inv f priv pub s a s' : agree_with lib f priv pub s = (Ok a, s') -> a = privatekey_agree lib priv pub.
Proof.
  unfold agree_with. intros H. repeat inv_step H. injection H as <- _.
  unfold privateKeyDeserialize in *. inv_known. simplify_handles. done.
Qed.
End link_lemmas.

(** A body of version 1 whose last 32 bytes are the HMAC, under the key derived
    from the agreement with the sender's public key, of everything before them,
    and whose AES-CBC part opens to [p]. *)
Definition authentic (lib : cipher_lib) (ours senderKey envelopeBody p : Bytes) : Prop :=
  let derived := hkdf64 lib (privatekey_agree lib ours senderKey) kInfo in
  exists iv ciphertext mac, envelopeBody = 1 :: iv ++ ciphertext ++ mac /\
    length iv = kIvLength /\ length mac = kMacLength /\ ciphertext <> [] /\
    cipher_hmac lib (drop 32 derived) (1 :: iv ++ ciphertext) = Some mac /\
    EVP_aes_256_cbc_open lib (take 32 derived) iv ciphertext = Some p.

(** Whatever libsignal calls fail, only an authentic body is decrypted. *)
Lemma decrypted_authentic lib f ours senderKey envelopeBody s p s' :
  decryptProvisionEnvelope lib f ours senderKey envelopeBody s = (Ok p, s') ->
  authentic lib ours senderKey envelopeBody p.
Proof.
  intros H. unfold authentic. unfold decryptProvisionEnvelope in H. case_bool_decide as Hlen; [done|]. case_bool_decide as Hv; [|done].
  cbn [negb] in H. apply bind_inv_ok in H as (shared & s1 & Hagree & H). apply agree_inv in Hagree as ->.
  apply bind_inv_ok in H as (u & s2 & _ & H). apply bind_inv_ok in H as (mac & s3 & Hmac & H).
  destruct envelopeBody as [|v rest]; [done|]. cbn [nth] in Hv. subst v.
  set (m := (length rest - kMacLength)%nat).
  assert (length (1%Z :: rest) - kMacLength = S m)%nat as Em by (cbn [length] in *; unfold m; lia).
  rewrite !Em in *. change (1 + kIvLength)%nat with (S kIvLength) in *. cbn [take drop] in *. cbn [length] in Hlen.
  case_bool_decide as Heq; [|done]. cbn [negb] in H. injection H as H _. injection Hmac as Hmac _.
  cbn zeta. exists (take kIvLength rest), (drop kIvLength (take m rest)), (drop m rest).
  assert (take kIvLength rest ++ drop kIvLength (take m rest) = take m rest) as Eapp.
  { rewrite <- (take_drop kIvLength (take m rest)) at 2. rewrite take_take. f_equal. f_equal. lia. }
  rewrite app_assoc, Eapp, take_drop. split_and!; try done.
  - rewrite length_take. lia.
  - rewrite length_drop. lia.
  - intros E. apply (f_equal length) in E. rewrite length_drop, length_take in E. cbn in E. lia.
  - unfold cipher_hmacSha256 in Hmac. destruct (cipher_hmac _ _ _) in Hmac |- *; [|done]. congruence.
  - unfold aes256CbcDecrypt in H. destruct (EVP_aes_256_cbc_open _ _ _ _) in H |- *; [|done]. congruence.
Qed.

(** What AES-CBC and X25519 promise. *)
Record cipher_laws (lib : cipher_lib) (cbc : Bytes -> Bytes -> Bytes -> Bytes)
    (public_of : Bytes -> Bytes) : Prop := {
  agree_sym : forall a b, privatekey_agree lib a (public_of b) = privatekey_agree lib b (public_of a);
  cbc_open : forall k iv p, EVP_aes_256_cbc_open lib k iv (cbc k iv p) = Some p;
  cbc_nonempty : forall k iv p, cbc k iv p <> [];
  hmac_length : forall k d m, cipher_hmac lib k d = Some m -> length m = kMacLength;
}.

(** What the primary encrypts for a key is decrypted with it; no handle stays. *)
Lemma provision_roundtrip lib cbc public_of ours theirs iv p envelopeBody c l n k :
  cipher_laws lib cbc public_of -> length iv = kIvLength ->
  (forall h, (n <= h)%nat -> l !! h = None) ->
  encryptProvision lib cbc theirs (public_of ours) iv p = Some envelopeBody ->
  exists n' k', decryptProvisionEnvelope lib no_fault ours (public_of theirs) envelopeBody (mkP c l n k) =
    (Ok p, mkP c l n' k') /\ (n <= n')%nat.
Proof.
  intros L Hiv Hfresh He. unfold encryptProvision in He. rewrite (agree_sym _ _ _ L theirs ours) in He.
  set (derived := hkdf64 lib (privatekey_agree lib ours (public_of theirs)) kInfo) in *.
  set (ct := cbc (take 32 derived) iv p) in *.
  destruct (cipher_hmac lib (drop 32 derived) (1 :: iv ++ ct)) as [mac|] eqn:Hmac; [|done].
  injection He as <-. pose proof (hmac_length _ _ _ L _ _ _ Hmac) as Hm.
  assert (0 < length ct)%nat as Hct.
  { pose proof (cbc_nonempty _ _ _ L (take 32 derived) iv p). fold ct in H. by destruct ct; cbn; [|lia]. }
  unfold decryptProvisionEnvelope. cbn [app length]. rewrite !length_app.
  rewrite bool_decide_eq_false_2 by lia. cbn [nth]. rewrite bool_decide_eq_true_2 by done. cbn [negb].
  replace (S (length iv + length ct + length mac) - kMacLength)%nat with (S (length (iv ++ ct)))
    by (rewrite length_app; lia).
  cbn [take drop]. change (1 + kIvLength)%nat with (S kIvLength). cbn [drop].
  rewrite drop_app_length, take_app_length, drop_0, <- !app_assoc, take_app_length' by done.
  rewrite drop_app_length' by done.
  rewrite (bind_ok _ _ _ _ _ (agree_ok _ _ _ _ _ _ _ Hfresh)). cbv beta. step_ok. fold derived.
  unfold cipher_hmacSha256. rewrite Hmac. erewrite bind_ok; [|reflexivity]. cbv beta.
  rewrite bool_decide_eq_true_2 by done. cbn [negb]. unfold aes256CbcDecrypt, ct.
  rewrite (cbc_open _ _ _ L). eexists _, _. split; [reflexivity|lia].
Qed.

(** The name a device is linked under can be read with the account's
    identity key: with the laws of the ciphers, the text [encryptDeviceName]
    gives decrypts, with that key and nothing else, to the name, and passes
    the reader's check of the synthetic IV; no libsignal object stays behind. *)
Lemma device_name_readable keys lib ctr_open parse_name public_of name priv c l n k text s'
    (Hagree : forall a b, privatekey_agree lib a (public_of b) = privatekey_agree lib b (public_of a))
    (Hpub : forall p, privatekey_get_public_key keys p = public_of p)
    (Hctr : forall key iv p ct, EVP_aes_256_ctr lib key iv p = Some ct -> ctr_open key iv ct = p)
    (Hparse : forall d, parse_name (serialize_name lib d) = Some d)
    (Hbytes : forall d, Forall is_byte (serialize_name lib d))
    (Hfresh : forall h, (n <= h)%nat -> l !! h = None)
    (H : encryptDeviceName keys lib no_fault name priv (mkP c l n k) = (Ok text, s')) :
  decryptDeviceName lib ctr_open parse_name priv text = Some (text_bytes name) /\ live s' = l /\ db_conn s' = c.
Proof.
  unfold encryptDeviceName in H. rewrite (bind_ok _ _ _ _ _ (generateKeyPair_ok _ _ _ _ _ Hfresh)) in H. cbv beta in H.
  rewrite (bind_ok _ _ _ _ _ (agree_ok _ _ _ _ _ (2 + n) _ ltac:(intros h Hh; apply Hfresh; lia))) in H. cbv beta in H.
  unfold cipher_hmacSha256, aes256CtrEncrypt in H. cbn [kp_publicKey pair_at] in H.
  set (pub := privatekey_get_public_key keys _) in *. set (shared := privatekey_agree lib priv pub) in *.
  destruct (cipher_hmac lib shared (text_bytes "auth")) as [key1|] eqn:E1; [|done].
  erewrite bind_ok in H; [|reflexivity]. cbv beta in H.
  destruct (cipher_hmac lib key1 (text_bytes name)) as [full|] eqn:E2; [|done].
  erewrite bind_ok in H; [|reflexivity]. cbv beta in H.
  destruct (cipher_hmac lib shared (text_bytes "cipher")) as [key2|] eqn:E3; [|done].
  erewrite bind_ok in H; [|reflexivity]. cbv beta in H.
  destruct (cipher_hmac lib key2 (take 16 full)) as [cipherKey|] eqn:E4; [|done].
  erewrite bind_ok in H; [|reflexivity]. cbv beta in H.
  destruct (EVP_aes_256_ctr lib cipherKey (repeat 0 16) (text_bytes name)) as [ct|] eqn:E5; [|done].
  erewrite bind_ok in H; [|reflexivity]. cbv beta in H. injection H as <- <-.
  split; [|done]. unfold decryptDeviceName. rewrite (proj1 (base64_roundtrip _ (Hbytes _))). rewrite Hparse.
  cbn [mbind option_bind ephemeralpublic syntheticiv name_ciphertext]. fold shared.
  rewrite E3. cbn [mbind option_bind]. rewrite E4. cbn [mbind option_bind]. rewrite E1. cbn [mbind option_bind].
  rewrite (Hctr _ _ _ _ E5), E2. cbn [mbind option_bind]. by rewrite bool_decide_eq_true_2.
Qed.

(** ** Examples *)

(** Ciphers that mark what they do: agreement is the sum of two one-byte
    keys, CBC prefixes its key, CTR is the identity. *)
Definition toy_ciphers : cipher_lib := mkCipherLib
  (fun a b => [nth 0 a 0 + nth 0 b 0]) (fun ikm info => ikm ++ repeat 7 63)
  (fun key data => Some (take 32 (data ++ key ++ repeat 0 32)))
  (fun key iv ct => match ct with x :: p => if bool_decide (nth 0 key 0 = x) then Some p else None | [] => None end)
  (fun key iv p => Some p)
  (fun d => map (fun z => z mod 256) (ephemeralpublic d ++ syntheticiv d ++ name_ciphertext d)).

Definition some_envelope : Bytes := 1 :: repeat 5 16 ++ [3; 8; 9] ++ 1 :: repeat 5 16 ++ [3; 8; 9] ++ repeat 7 12.

Example authentic_envelope :
  (decryptProvisionEnvelope toy_ciphers no_fault [1] [2] some_envelope (mkP (mkConn empty_db None 0) ∅ 0 0)).1 = Ok [8; 9].
Proof. vm_compute. reflexivity. Qed.

(** A serialization of any three byte strings, as bits. *)
Fixpoint bits (p : positive) : Bytes :=
  match p with xH => [] | xO p => 0 :: bits p | xI p => 1 :: bits p end.
Definition unbits (l : Bytes) : positive := foldr (fun b p => if bool_decide (b = 0) then xO p else xI p) xH l.
Lemma unbits_bits p : unbits (bits p) = p.
Proof.
  induction p as [p IH|p IH|]; [change (xI (unbits (bits p)) = xI p)|change (xO (unbits (bits p)) = xO p)|done];
    by rewrite IH.
Qed.
Lemma bits_bytes p : Forall is_byte (bits p).
Proof. induction p; constructor; try done; unfold is_byte; lia. Qed.

Definition bit_ciphers : cipher_lib := mkCipherLib
  (privatekey_agree toy_ciphers) (hkdf64 toy_ciphers) (cipher_hmac toy_ciphers) (EVP_aes_256_cbc_open toy_ciphers)
  (fun key iv p => Some (reverse p))
  (fun d => bits (encode (ephemeralpublic d, syntheticiv d, name_ciphertext d))).
Definition bit_parse (l : Bytes) : option DeviceName :=
  '(a, b, c) ← decode (unbits l); Some (mkDeviceName a b c).
Definition plain_keys : prekey_lib := mkPrekeyLib (fun n => [Z.of_nat n]) (fun k => k) (fun _ k m => k ++ m)
  (fun id t pub priv sig => id :: priv ++ sig) (fun n => [Z.of_nat n; 0]) (fun k => k) (fun id t pair sig => id :: pair ++ sig).

Lemma device_name_readable_witness :
  let r := encryptDeviceName plain_keys bit_ciphers no_fault "s2s" [9] (mkP (mkConn empty_db None 0) ∅ 0 0) in
  let text := match r.1 with Ok t => t | Throw _ => EmptyString end in
  decryptDeviceName bit_ciphers (fun _ _ ct => reverse ct) bit_parse [9] text = Some [115; 50; 115] /\
  live r.2 = ∅ /\ db_conn r.2 = mkConn empty_db None 0.
Proof.
  intros r text. apply (device_name_readable plain_keys bit_ciphers (fun _ _ ct => reverse ct) bit_parse (fun p => p)
    "s2s" [9] (mkConn empty_db None 0) ∅ 0 0 text r.2).
  - intros a b. cbn. f_equal. apply Z.add_comm.
  - reflexivity.
  - intros key iv p ct [= <-]. apply reverse_involutive.
  - intros [a b c]. unfold bit_parse, bit_ciphers. cbn [serialize_name ephemeralpublic syntheticiv name_ciphertext].
    rewrite unbits_bits, decode_encode. reflexivity.
  - intros d. apply bits_bytes.
  - intros h _. reflexivity.
  - vm_compute. reflexivity.
Defined.
