(* ===== verification/Png.v ===== *)
(** The PNG container src/gendb/ProvisioningClient.cpp writes for itself: CRC-32
    by table, big-endian numbers, chunks, and a zlib stream of stored
    (uncompressed) blocks; with a reader of each, the CRC's bit-by-bit. *)

From S2P Require Import Prelude Base64.

Open Scope Z_scope.

(** ** crc32Of *)

Definition crc_step (c : Z) : Z :=
  if Z.odd c then Z.lxor 0xEDB88320 (Z.shiftr c 1) else Z.shiftr c 1.

(** [table[n]], as its static initialisation leaves it. *)
Definition table : list Z := map (fun n => Nat.iter 8 crc_step (Z.of_nat n)) (seq 0 256).

Definition crc_byte (crc b : Z) : Z :=
  Z.lxor (nth (Z.to_nat (Z.land (Z.lxor crc b) 0xFF)) table 0) (Z.shiftr crc 8).
Definition crc32Of (data : Bytes) : Z := Z.lxor (foldl crc_byte 0xFFFFFFFF data) 0xFFFFFFFF.

(** The checksum's definition: eight single-bit steps for every byte. *)
Definition crc32_bitwise (data : Bytes) : Z :=
  Z.lxor (foldl (fun crc b => Nat.iter 8 crc_step (Z.lxor crc b)) 0xFFFFFFFF data) 0xFFFFFFFF.

(** ** Numbers and chunks *)

Definition putBE32 (v : Z) : Bytes := [u8 (Z.shiftr v 24); u8 (Z.shiftr v 16); u8 (Z.shiftr v 8); u8 v].

Definition writePngChunk (type data : Bytes) : Bytes :=
  putBE32 (u32 (Z.of_nat (length data))) ++ (type ++ data) ++ putBE32 (crc32Of (type ++ data)).

(** ** zlibStoreUncompressed *)

Definition u16 (z : Z) : Z := wrap 16 z.

Definition block_header (isLast : bool) (chunkLen : nat) : Bytes :=
  let len := u16 (Z.of_nat chunkLen) in
  let nlen := u16 (Z.lnot len) in
  [if isLast then 1 else 0; u8 len; u8 (Z.shiftr len 8); u8 nlen; u8 (Z.shiftr nlen 8)].

(** The do-while loop, on what is left of the data. *)
Fixpoint store_blocks (fuel : nat) (data : Bytes) : Bytes :=
  match fuel with
  | O => []
  | S fuel' =>
    let chunkLen := Z.to_nat (Z.min 65535 (Z.of_nat (length data))) in
    let isLast := bool_decide (length data <= chunkLen)%nat in
    block_header isLast chunkLen ++ take chunkLen data ++
    (if isLast then [] else store_blocks fuel' (drop chunkLen data))
  end.

Definition adler (data : Bytes) : Z * Z :=
  foldl (fun '(a, b) byte => let a := (a + byte) mod 65521 in (a, (b + a) mod 65521)) (1, 0) data.

Definition zlibStoreUncompressed (data : Bytes) : Bytes :=
  let '(a, b) := adler data in
  [0x78; 0x01] ++ store_blocks (S (length data)) data ++ putBE32 (Z.lor (Z.shiftl b 16) a).

(** ** Readers *)

Definition get_be32 (l : Bytes) : option (Z * Bytes) :=
  match l with
  | a :: b :: c :: d :: rest => Some (((a * 256 + b) * 256 + c) * 256 + d, rest)
  | _ => None
  end.

Definition split_at (n : nat) (l : Bytes) : option (Bytes * Bytes) :=
  if bool_decide (n <= length l)%nat then Some (take n l, drop n l) else None.

(** The data of a chunk of that type, its CRC checked, and the rest. *)
Definition read_chunk (type l : Bytes) : option (Bytes * Bytes) :=
  '(len, l) ← get_be32 l;
  '(t, l) ← split_at 4 l;
  '(data, l) ← split_at (Z.to_nat len) l;
  '(crc, l) ← get_be32 l;
  if bool_decide (t = type) && bool_decide (crc = crc32_bitwise (t ++ data)) then Some (data, l) else None.

(** Stored blocks up to the last one: their content, and the rest. *)
Fixpoint read_blocks (fuel : nat) (l : Bytes) : option (Bytes * Bytes) :=
  match fuel, l with
  | S fuel', final :: lo :: hi :: nlo :: nhi :: l =>
    let len := hi * 256 + lo in
    if negb (bool_decide (nhi * 256 + nlo = 65535 - len)) then None else
    '(chunk, l) ← split_at (Z.to_nat len) l;
    if bool_decide (final = 1) then Some (chunk, l)
    else if bool_decide (final = 0) then '(more, l) ← read_blocks fuel' l; Some (chunk ++ more, l) else None
  | _, _ => None
  end.

Definition inflate (l : Bytes) : option Bytes :=
  match l with
  | 0x78 :: 0x01 :: l =>
    '(data, l) ← read_blocks (length l) l;
    '(sum, l) ← get_be32 l;
    let '(a, b) := adler data in
    if bool_decide (l = []) && bool_decide (sum = b * 65536 + a) then Some data else None
  | _ => None
  end.

(** ** Lemmas *)

(** *** The CRC *)

Lemma crc_step_spec c i : 0 <= i ->
  Z.testbit (crc_step c) i = xorb (Z.testbit c 0 && Z.testbit 0xEDB88320 i) (Z.testbit c (i + 1)).
Proof.
  intros Hi. unfold crc_step. rewrite <- Z.bit0_odd.
  destruct (Z.testbit c 0); rewrite ?Z.lxor_spec, Z.shiftr_spec by done; by destruct (Z.testbit 0xEDB88320 i).
Qed.

(** A step is linear. *)
Lemma crc_step_lxor a b : crc_step (Z.lxor a b) = Z.lxor (crc_step a) (crc_step b).
Proof.
  apply Z.bits_inj'. intros i Hi. rewrite Z.lxor_spec, !crc_step_spec, !Z.lxor_spec by done.
  destruct (Z.testbit a 0), (Z.testbit b 0), (Z.testbit 0xEDB88320 i), (Z.testbit a (i + 1)),
    (Z.testbit b (i + 1)); done.
Qed.
Lemma crc_steps_lxor n a b :
  Nat.iter n crc_step (Z.lxor a b) = Z.lxor (Nat.iter n crc_step a) (Nat.iter n crc_step b).
Proof. induction n as [|n IH]; [done|]. by rewrite !Nat.iter_succ, IH, crc_step_lxor. Qed.

(** A step on an even number halves it. *)
Lemma crc_steps_shiftl n a : Nat.iter n crc_step (Z.shiftl a (Z.of_nat n)) = a.
Proof.
  revert a. induction n as [|n IH]; intros a; [apply Z.shiftl_0_r|].
  rewrite Nat.iter_succ_r. rewrite <- (IH a) at 2. f_equal. unfold crc_step.
  rewrite <- Z.bit0_odd, Z.shiftl_spec_low by lia. rewrite Z.shiftr_shiftl_l by lia. f_equal. lia.
Qed.

Lemma table_entry v : 0 <= v < 256 -> nth (Z.to_nat v) table 0 = Nat.iter 8 crc_step v.
Proof.
  intros Hv. unfold table. rewrite (nth_indep _ 0 (Nat.iter 8 crc_step (Z.of_nat 0)))
    by (rewrite length_map, length_seq; lia).
  rewrite (map_nth (fun n => Nat.iter 8 crc_step (Z.of_nat n))), seq_nth by lia. f_equal. lia.
Qed.

(** A number is its low byte and the rest. *)
Lemma low_byte c : c = Z.lxor (Z.land c 0xFF) (Z.shiftl (Z.shiftr c 8) 8).
Proof.
  apply Z.bits_inj'. intros i Hi. rewrite Z.lxor_spec, Z.land_spec. change 0xFF with (Z.ones 8).
  destruct (Z.lt_ge_cases i 8).
  - rewrite Z.ones_spec_low, Z.shiftl_spec_low by lia. by rewrite andb_true_r, xorb_false_r.
  - rewrite Z.ones_spec_high, Z.shiftl_spec, Z.shiftr_spec by lia. rewrite andb_false_r. cbn. f_equal. lia.
Qed.

Lemma crc_byte_steps crc b : 0 <= b < 256 -> crc_byte crc b = Nat.iter 8 crc_step (Z.lxor crc b).
Proof.
  intros Hb. unfold crc_byte. rewrite table_entry.
  2: { change 0xFF with (Z.ones 8). rewrite Z.land_ones by lia. apply Z.mod_pos_bound. lia. }
  rewrite (low_byte (Z.lxor crc b)) at 2. rewrite crc_steps_lxor.
  rewrite (crc_steps_shiftl 8). f_equal.
  rewrite Z.shiftr_lxor. assert (Z.shiftr b 8 = 0) as ->; [|by rewrite Z.lxor_0_r].
  rewrite Z.shiftr_div_pow2 by lia. apply Z.div_small. done.
Qed.

(** The table-driven checksum is the bit-by-bit one. *)
Lemma crc32_table data : Forall is_byte data -> crc32Of data = crc32_bitwise data.
Proof.
  intros H. unfold crc32Of, crc32_bitwise. f_equal. generalize 0xFFFFFFFF. induction H as [|b data Hb _ IH]; [done|].
  intros crc. cbn [foldl]. by rewrite crc_byte_steps, IH.
Qed.

Lemma below_pow2 n x : 0 <= n -> 0 <= x -> (forall i, n <= i -> Z.testbit x i = false) -> x < 2 ^ n.
Proof.
  intros Hn Hx H. assert (x mod 2 ^ n = x) as <-; [|apply Z.mod_pos_bound; lia].
  apply Z.bits_inj'. intros i Hi. destruct (Z.lt_ge_cases i n).
  - by rewrite Z.mod_pow2_bits_low.
  - by rewrite Z.mod_pow2_bits_high, H.
Qed.
Lemma high_bits n x i : 0 <= x < 2 ^ n -> 0 <= n <= i -> Z.testbit x i = false.
Proof.
  intros Hx Hi. rewrite <- (Z.mod_small x (2 ^ n)) by done. apply Z.mod_pow2_bits_high. lia.
Qed.
Lemma lxor_below n a b : 0 <= n -> 0 <= a < 2 ^ n -> 0 <= b < 2 ^ n -> 0 <= Z.lxor a b < 2 ^ n.
Proof.
  intros Hn Ha Hb. assert (0 <= Z.lxor a b) by (apply Z.lxor_nonneg; lia). split; [done|].
  apply below_pow2; [done..|]. intros i Hi. by rewrite Z.lxor_spec, !(high_bits n) by lia.
Qed.

Lemma crc_step_below c : 0 <= c < 2 ^ 32 -> 0 <= crc_step c < 2 ^ 32.
Proof.
  intros Hc. assert (0 <= Z.shiftr c 1 < 2 ^ 32).
  { rewrite Z.shiftr_div_pow2 by lia. change (2 ^ 1) with 2. split; [apply Z.div_pos; lia|].
    apply Z.div_lt_upper_bound; lia. }
  unfold crc_step. destruct (Z.odd c); [apply lxor_below; lia|done].
Qed.
Lemma crc32_below data : Forall is_byte data -> 0 <= crc32_bitwise data < 2 ^ 32.
Proof.
  intros H. unfold crc32_bitwise. apply lxor_below; [lia| |lia].
  assert (0 <= 0xFFFFFFFF < 2 ^ 32) as Hc by lia. revert Hc. generalize 0xFFFFFFFF.
  induction H as [|b data Hb _ IH]; [done|]. intros crc Hcrc. cbn [foldl]. apply IH.
  assert (0 <= Z.lxor crc b < 2 ^ 32) as Hx by (apply lxor_below; unfold is_byte in Hb; lia).
  revert Hx. generalize (Z.lxor crc b). intros x Hx.
  cbn [Nat.iter]. do 8 apply crc_step_below. done.
Qed.

(** *** Numbers *)

Lemma get_put_be32 v rest : 0 <= v < 2 ^ 32 -> get_be32 (putBE32 v ++ rest) = Some (v, rest).
Proof.
  intros Hv. unfold putBE32, get_be32, u8, wrap. cbn [app]. do 2 f_equal.
  rewrite !Z.shiftr_div_pow2 by lia. change (2 ^ 24) with 16777216. change (2 ^ 16) with 65536. change (2 ^ 8) with 256.
  change (2 ^ 32) with 4294967296 in Hv.
  pose proof (Z.div_mod v 256). pose proof (Z.div_mod (v / 256) 256). pose proof (Z.div_mod (v / 256 / 256) 256).
  rewrite !Z.div_div in * by lia. change (256 * 256) with 65536 in *. change (65536 * 256) with 16777216 in *.
  assert (v / 16777216 < 256) by (apply Z.div_lt_upper_bound; lia).
  assert (0 <= v / 16777216) by (apply Z.div_pos; lia).
  rewrite (Z.mod_small (v / 16777216)) by lia. lia.
Qed.

Lemma putBE32_bytes v : Forall is_byte (putBE32 v).
Proof. unfold putBE32. repeat (apply Forall_cons; split; [apply Z.mod_pos_bound; lia|]). constructor. Qed.

Lemma split_at_app n (a b : Bytes) : length a = n -> split_at n (a ++ b) = Some (a, b).
Proof.
  intros <-. unfold split_at. rewrite bool_decide_eq_true_2 by (rewrite length_app; lia).
  by rewrite take_app_length, drop_app_length.
Qed.

(** A chunk is read back. *)
Lemma read_written type data rest :
  length type = 4%nat -> Forall is_byte type -> Forall is_byte data -> Z.of_nat (length data) < 2 ^ 32 ->
  read_chunk type (writePngChunk type data ++ rest) = Some (data, rest).
Proof.
  intros Ht Hbt Hbd Hlen. unfold writePngChunk, read_chunk, u32, wrap. rewrite Z.mod_small by lia.
  rewrite <- !app_assoc, get_put_be32 by lia. cbn [mbind option_bind].
  rewrite split_at_app by done. cbn [mbind option_bind]. rewrite Nat2Z.id, split_at_app by done. cbn [mbind option_bind].
  rewrite crc32_table by (by apply Forall_app). rewrite get_put_be32 by (apply crc32_below; by apply Forall_app).
  cbn [mbind option_bind]. by rewrite !bool_decide_eq_true_2.
Qed.

(** *** The zlib stream *)

Lemma read_header (final : bool) n rest :
  Z.of_nat n <= 65535 ->
  exists lo hi nlo nhi, block_header final n = [if final then 1 else 0; lo; hi; nlo; nhi] /\
    hi * 256 + lo = Z.of_nat n /\ nhi * 256 + nlo = 65535 - Z.of_nat n /\ Forall is_byte (block_header final n) /\
    block_header final n ++ rest = (if final then 1 else 0) :: lo :: hi :: nlo :: nhi :: rest.
Proof.
  intros Hn. unfold block_header, u16, u8, wrap. change (2 ^ 16) with 65536. change (2 ^ 8) with 256.
  assert (Z.of_nat n mod 65536 = Z.of_nat n) as -> by (apply Z.mod_small; lia).
  assert (Z.lnot (Z.of_nat n) mod 65536 = 65535 - Z.of_nat n) as ->.
  { unfold Z.lnot. symmetry. apply (Z.mod_unique _ _ (-1)); lia. }
  eexists _, _, _, _. split; [reflexivity|]. rewrite !Z.shiftr_div_pow2 by lia. change (2 ^ 8) with 256.
  pose proof (Z.div_mod (Z.of_nat n) 256). pose proof (Z.div_mod (65535 - Z.of_nat n) 256).
  assert (0 <= Z.of_nat n / 256 < 256) by (split; [apply Z.div_pos; lia|apply Z.div_lt_upper_bound; lia]).
  assert (0 <= (65535 - Z.of_nat n) / 256 < 256) by (split; [apply Z.div_pos; lia|apply Z.div_lt_upper_bound; lia]).
  rewrite (Z.mod_small (_ / 256)), (Z.mod_small ((65535 - _) / 256)) by lia. split_and!; try lia; [|done].
  repeat (apply Forall_cons; split; [first [apply Z.mod_pos_bound; lia|unfold is_byte; destruct final; lia]|]).
  constructor.
Qed.

Lemma read_stored fuel fuel' data rest :
  (length data < fuel)%nat -> (length data < fuel')%nat ->
  read_blocks fuel' (store_blocks fuel data ++ rest) = Some (data, rest).
Proof.
  revert fuel' data. induction fuel as [|fuel IH]; intros fuel' data Hf Hf'; [lia|].
  cbn [store_blocks]. set (n := Z.to_nat (Z.min 65535 (Z.of_nat (length data)))). assert (Z.of_nat n <= 65535) as Hn by lia.
  assert (length (take n data) = n) as Hlen by (rewrite length_take; lia).
  set (last := bool_decide _). rewrite <- !app_assoc.
  destruct (read_header last n (take n data ++ (if last then [] else store_blocks fuel (drop n data)) ++ rest) Hn)
    as (lo & hi & nlo & nhi & _ & E1 & E2 & _ & ->).
  destruct fuel' as [|fuel']; [lia|]. cbn [read_blocks]. rewrite E1, E2, bool_decide_eq_true_2 by done. cbn [negb].
  rewrite Nat2Z.id, split_at_app by done. cbn [mbind option_bind]. 
  destruct last eqn:Hlast.
  - apply bool_decide_eq_true_1 in Hlast. rewrite bool_decide_eq_true_2 by done. by rewrite take_ge by lia.
  - apply bool_decide_eq_false_1 in Hlast. rewrite bool_decide_eq_false_2, bool_decide_eq_true_2 by done.
    rewrite IH by (rewrite length_drop; lia). cbn [mbind option_bind]. by rewrite take_drop.
Qed.

Lemma adler_below data : Forall is_byte data -> 0 <= (adler data).1 < 65521 /\ 0 <= (adler data).2 < 65521.
Proof.
  intros _. unfold adler.
  assert (0 <= (1, 0).1 < 65521 /\ 0 <= (1, 0).2 < 65521) as H by (cbn; lia). revert H. generalize (1, 0).
  induction data as [|x data IH]; intros [a b] H; [done|]. cbn [foldl]. apply IH. cbn [fst snd].
  split; apply Z.mod_pos_bound; lia.
Qed.

Lemma store_blocks_length fuel data : (length data < fuel)%nat -> (length data < length (store_blocks fuel data))%nat.
Proof.
  revert data. induction fuel as [|fuel IH]; intros data Hf; [lia|]. cbn [store_blocks].
  set (n := Z.to_nat (Z.min 65535 (Z.of_nat (length data)))). rewrite !length_app, length_take. cbn [block_header length].
  case_bool_decide; [cbn [length]; lia|].
  pose proof (IH (drop n data)) as H'. rewrite length_drop in H'. lia.
Qed.

(** The stream is inflated to the data, its checksum agreeing. *)
Lemma inflate_stored data : Forall is_byte data -> inflate (zlibStoreUncompressed data) = Some data.
Proof.
  intros Hb. unfold zlibStoreUncompressed. destruct (adler_below data Hb) as [Ha Hbb].
  destruct (adler data) as [a b] eqn:E. cbn [fst snd] in *. cbn [app inflate].
  rewrite read_stored; [|lia|rewrite length_app; pose proof (store_blocks_length (S (length data)) data); lia].
  cbn [mbind option_bind]. rewrite lor_shiftl_add by lia. rewrite <- (app_nil_r (putBE32 _)), get_put_be32 by lia.
  cbn [mbind option_bind]. rewrite E. by rewrite !bool_decide_eq_true_2.
Qed.

Lemma zlib_bytes data : Forall is_byte data -> Forall is_byte (zlibStoreUncompressed data).
Proof.
  intros Hb. unfold zlibStoreUncompressed. destruct (adler data) as [a b].
  apply Forall_app. split; [by repeat constructor; unfold is_byte; lia|]. apply Forall_app. split; [|apply putBE32_bytes].
  generalize (S (length data)). intros fuel. revert data Hb. induction fuel as [|fuel IH]; intros data Hb; [constructor|].
  cbn [store_blocks]. set (n := Z.to_nat (Z.min _ _)). set (last := bool_decide _).
  destruct (read_header last n [] ltac:(lia)) as (? & ? & ? & ? & _ & _ & _ & Hh & _).
  apply Forall_app. split; [done|]. apply Forall_app. split; [by apply Forall_take|].
  destruct last; [constructor|]. apply IH. by apply Forall_drop.
Qed.

Lemma zlib_length data : (length (zlibStoreUncompressed data) <= 11 + 6 * length data)%nat.
Proof.
  unfold zlibStoreUncompressed. destruct (adler data) as [a b]. rewrite !length_app. cbn [length putBE32].
  assert (forall fuel d, length (store_blocks fuel d) <= 5 + 6 * length d)%nat as H.
  { intros fuel. induction fuel as [|fuel IH]; intros d; [cbn; lia|]. cbn [store_blocks].
    set (n := Z.to_nat (Z.min _ _)). rewrite !length_app, length_take. cbn [block_header length].
    case_bool_decide; [cbn [length]; lia|]. pose proof (IH (drop n d)) as H'. rewrite length_drop in H'. lia. }
  specialize (H (S (length data)) data). lia.
Qed.
