(* ===== verification/QrLink.v ===== *)
(** Showing the link of a new device (src/gendb/ProvisioningClient.cpp): the
    sgnl:// URL, the QR code in the terminal and as a PNG file.

    libqrencode's encoder is a parameter; a code is its modules.  The readers
    say what a phone gets to see: of the URL, of the terminal's lines and of
    the image. *)

From S2P Require Import Prelude Base64 LinkCiphers Png.

Open Scope Z_scope.

(** ** The URL *)

(** [while (!s.empty() && s.back() == c) s.pop_back();] *)
Fixpoint pop_trailing (c : ascii) (s : string) : string :=
  match s with
  | EmptyString => EmptyString
  | String a s' =>
    match pop_trailing c s' with
    | EmptyString => if bool_decide (a = c) then EmptyString else String a EmptyString
    | t => String a t
    end
  end.

Definition base64NoPadding (data : Bytes) : string := pop_trailing "=" (base64Encode data).

Definition isalnum (c : ascii) : bool :=
  let n := Z.of_nat (nat_of_ascii c) in
  bool_decide (48 <= n <= 57) || bool_decide (65 <= n <= 90) || bool_decide (97 <= n <= 122).
Definition unreserved (c : ascii) : bool :=
  isalnum c || bool_decide (c = "-"%char) || bool_decide (c = "_"%char) || bool_decide (c = "."%char) ||
  bool_decide (c = "~"%char).
Definition upper_hex (n : Z) : ascii := str_nth "0123456789ABCDEF" (Z.to_nat n).

Fixpoint urlEncode (s : string) : string :=
  match s with
  | EmptyString => EmptyString
  | String c s' =>
    if unreserved c then String c (urlEncode s')
    else let n := Z.of_nat (nat_of_ascii c) in
         String "%" (String (upper_hex (Z.shiftr n 4)) (String (upper_hex (Z.land n 0xF)) (urlEncode s')))
  end.

Definition link_url (address : string) (publicKey : Bytes) : string :=
  String.append "sgnl://linkdevice?uuid=" (String.append (urlEncode address)
    (String.append "&pub_key=" (urlEncode (base64NoPadding publicKey)))).

(** ** The code *)

Record QRcode := mkQR { qr_width : nat; qr_data : Bytes }.

(** A dark module; everything outside the code is light. *)
Definition dark (qr : QRcode) (x y : Z) : bool :=
  let width := Z.of_nat (qr_width qr) in
  if bool_decide (x < 0) || bool_decide (y < 0) || bool_decide (width <= x) || bool_decide (width <= y) then false
  else Z.odd (nth (Z.to_nat (y * width + x)) (qr_data qr) 0).

Inductive glyph := Full | Upper | Lower | Blank.
Inductive printed := Sgr (code : string) | Line (l : list glyph).

Definition glyph_of (top bottom : bool) : glyph :=
  match top, bottom with
  | true, true => Full | true, false => Upper | false, true => Lower | false, false => Blank
  end.

(** The loops over y, in steps of 2, and x, both from -6. *)
Definition qr_lines (qr : QRcode) : list (list glyph) :=
  map (fun r => let y := 2 * Z.of_nat r - 6 in
    map (fun c => let x := Z.of_nat c - 6 in glyph_of (dark qr x y) (dark qr x (y + 1))) (seq 0 (qr_width qr + 12)))
    (seq 0 ((qr_width qr + 13) / 2)).
Definition printQrAscii (qr : QRcode) : list printed :=
  Sgr "30;107" :: map Line (qr_lines qr) ++ [Sgr "0"].

Definition kQuietModules : nat := 4.
Definition image_size (qr : QRcode) (scale : nat) : nat := ((qr_width qr + kQuietModules * 2) * scale)%nat.
Definition row_bytes (size : nat) : nat := ((size + 7) / 8)%nat.

Definition dark_pixel (qr : QRcode) (scale x y : nat) : bool :=
  dark qr (Z.of_nat (x / scale) - Z.of_nat kQuietModules) (Z.of_nat (y / scale) - Z.of_nat kQuietModules).

(** row[x / 8] &= ~(0x80 >> (x % 8)) *)
Definition clear_bit (row : Bytes) (x : nat) : Bytes :=
  alter (fun b => Z.land b (u8 (Z.lnot (Z.shiftr 0x80 (Z.of_nat (x mod 8)))))) (x / 8)%nat row.
Definition png_row (qr : QRcode) (scale y : nat) : Bytes :=
  let size := image_size qr scale in
  foldl (fun row x => if dark_pixel qr scale x y then clear_bit row x else row) (repeat 0xFF (row_bytes size))
    (seq 0 size).
Definition raw_image (qr : QRcode) (scale : nat) : Bytes :=
  concat (map (fun y => 0 :: png_row qr scale y) (seq 0 (image_size qr scale))).

Definition png_signature : Bytes := [0x89; 0x50; 0x4E; 0x47; 0x0D; 0x0A; 0x1A; 0x0A].
Definition IHDR : Bytes := [73; 72; 68; 82].
Definition IDAT : Bytes := [73; 68; 65; 84].
Definition IEND : Bytes := [73; 69; 78; 68].

(** The bytes [writeQrPng] puts in the file. *)
Definition qr_png (qr : QRcode) (scale : nat) : Bytes :=
  let size := u32 (Z.of_nat (image_size qr scale)) in
  png_signature ++
  writePngChunk IHDR (putBE32 size ++ putBE32 size ++ [1; 0; 0; 0; 0]) ++
  writePngChunk IDAT (zlibStoreUncompressed (raw_image qr scale)) ++
  writePngChunk IEND [].

(** What [renderQr] prints and writes: [encode] is libqrencode's, and the file
    can be opened or not. *)
Definition renderQr (encode : string -> option QRcode) (can_open : bool) (text : string) :
    list printed * option Bytes :=
  match encode text with
  | None => ([], None)
  | Some qr => (printQrAscii qr, if can_open then Some (qr_png qr 8) else None)
  end.

(** ** Readers *)

Definition hex_of (c : ascii) : option Z :=
  let n := Z.of_nat (nat_of_ascii c) in
  if bool_decide (48 <= n <= 57) then Some (n - 48)
  else if bool_decide (65 <= n <= 70) then Some (n - 55) else None.
Fixpoint urlDecode (s : string) : option string :=
  match s with
  | EmptyString => Some EmptyString
  | String c s' =>
    if bool_decide (c = "%"%char) then
      match s' with
      | String a (String b s'') =>
        h ← hex_of a; l ← hex_of b; String (ch (Z.to_nat (16 * h + l))) <$> urlDecode s''
      | _ => None
      end
    else String c <$> urlDecode s'
  end.

Fixpoint strip_prefix (p s : string) : option string :=
  match p, s with
  | EmptyString, _ => Some s
  | String a p', String b s' => if bool_decide (a = b) then strip_prefix p' s' else None
  | _, _ => None
  end.
(** The address and the public key of a link. *)
Definition parse_link (url : string) : option (string * Bytes) :=
  s ← strip_prefix "sgnl://linkdevice?uuid=" url;
  '(uuid, s) ← split_first "&" s;
  key ← strip_prefix "pub_key=" s;
  uuid ← urlDecode uuid;
  key ← urlDecode key;
  Some (uuid, base64Decode key).

(** The module at (x, y) of the printed lines. *)
Definition shown (lines : list (list glyph)) (x y : Z) : option bool :=
  line ← lines !! Z.to_nat ((y + 6) / 2);
  g ← line !! Z.to_nat (x + 6);
  Some (match g with Full => true | Upper => Z.even y | Lower => Z.odd y | Blank => false end).

Fixpoint scanlines (n width : nat) (raw : Bytes) : option (list Bytes) :=
  match n with
  | O => if bool_decide (raw = []) then Some [] else None
  | S n' =>
    '(line, raw) ← split_at (S width) raw;
    match line with
    | 0 :: row => (row ::.) <$> scanlines n' width raw
    | _ => None
    end
  end.

(** A 1-bit grayscale image without interlacing: its sides and its rows. *)
Definition read_png (l : Bytes) : option (nat * nat * list Bytes) :=
  '(sig, l) ← split_at 8 l;
  '(ihdr, l) ← read_chunk IHDR l;
  '(width, ihdr) ← get_be32 ihdr;
  '(height, ihdr) ← get_be32 ihdr;
  '(idat, l) ← read_chunk IDAT l;
  '(iend, l) ← read_chunk IEND l;
  raw ← inflate idat;
  rows ← scanlines (Z.to_nat height) (row_bytes (Z.to_nat width)) raw;
  if bool_decide (sig = png_signature) && bool_decide (ihdr = [1; 0; 0; 0; 0]) &&
     bool_decide (iend = []) && bool_decide (l = [])
  then Some (Z.to_nat width, Z.to_nat height, rows) else None.

(** A bit that is 0 is black. *)
Definition black (rows : list Bytes) (x y : nat) : bool :=
  negb (Z.testbit (nth (x / 8) (nth y rows []) 0) (Z.of_nat (7 - x mod 8))).

(** ** Lemmas: the URL *)

(** A property of all characters, by evaluation. *)
Lemma all_ascii (p : ascii -> bool) : forallb (fun n => p (ascii_of_nat n)) (seq 0 256) = true -> forall c, p c = true.
Proof.
  intros H c. rewrite forallb_forall in H. specialize (H (nat_of_ascii c)). rewrite ascii_nat_embedding in H.
  apply H, in_seq. pose proof (nat_ascii_bounded c). lia.
Qed.

Definition escaped (c : ascii) : string :=
  let n := Z.of_nat (nat_of_ascii c) in
  String (upper_hex (Z.shiftr n 4)) (String (upper_hex (Z.land n 0xF)) EmptyString).

(** What makes the encoding of a character readable. *)
Definition readable_char (c : ascii) : bool :=
  let n := Z.of_nat (nat_of_ascii c) in
  if unreserved c then negb (bool_decide (c = "%"%char)) && negb (bool_decide (c = "&"%char))
  else bool_decide (hex_of (upper_hex (Z.shiftr n 4)) = Some (Z.shiftr n 4)) &&
       bool_decide (hex_of (upper_hex (Z.land n 0xF)) = Some (Z.land n 0xF)) &&
       bool_decide (ch (Z.to_nat (16 * Z.shiftr n 4 + Z.land n 0xF)) = c) &&
       negb (str_mem "&" (escaped c)).
Lemma all_readable c : readable_char c = true.
Proof. apply all_ascii. vm_compute. reflexivity. Qed.

Lemma urlEncode_char c :
  let n := Z.of_nat (nat_of_ascii c) in
  if unreserved c then c <> "%"%char /\ c <> "&"%char
  else hex_of (upper_hex (Z.shiftr n 4)) = Some (Z.shiftr n 4) /\
       hex_of (upper_hex (Z.land n 0xF)) = Some (Z.land n 0xF) /\
       ch (Z.to_nat (16 * Z.shiftr n 4 + Z.land n 0xF)) = c /\ str_mem "&" (escaped c) = false.
Proof.
  pose proof (all_readable c) as H. unfold readable_char in H. cbv zeta in *. destruct (unreserved c);
    repeat (apply andb_true_iff in H as [H ?]); bdec; repeat split; try done.
Qed.

Lemma urlDecode_encode s : urlDecode (urlEncode s) = Some s.
Proof.
  induction s as [|c s IH]; [done|]. cbn [urlEncode]. pose proof (urlEncode_char c) as H.
  destruct (unreserved c).
  - destruct H as [H _]. cbn [urlDecode]. rewrite bool_decide_eq_false_2 by done. by rewrite IH.
  - destruct H as (H1 & H2 & H3 & _). cbn zeta. cbn [urlDecode]. rewrite bool_decide_eq_true_2 by done.
    rewrite H1, H2, IH. cbn [mbind option_bind fmap option_fmap option_map]. by rewrite H3.
Qed.

Lemma urlEncode_no_amp s : str_mem "&" (urlEncode s) = false.
Proof.
  induction s as [|c s IH]; [done|]. cbn [urlEncode]. pose proof (urlEncode_char c) as H.
  destruct (unreserved c); cbn zeta; cbn [str_mem].
  - rewrite bool_decide_eq_false_2; [done|]. by destruct H.
  - destruct H as (_ & _ & _ & H). unfold escaped in H. cbn [str_mem] in H. rewrite bool_decide_eq_false_2 by done.
    cbn [orb]. apply orb_false_iff in H as [-> H]. cbn [orb]. apply orb_false_iff in H as [-> _]. done.
Qed.

Lemma strip_prefix_app p s : strip_prefix p (String.append p s) = Some s.
Proof. induction p as [|a p IH]; [by destruct s|]. rewrite str_app_cons. cbn [strip_prefix]. by rewrite bool_decide_eq_true_2. Qed.

(** Without its padding the text decodes the same. *)
Lemma decode_loop_unpadded s : forall buffer n, decode_loop buffer n (pop_trailing "=" s) = decode_loop buffer n s.
Proof.
  induction s as [|c s IH]; intros buffer n; [done|]. cbn [pop_trailing].
  assert (forall b m, decode_loop b m s = decode_loop b m (pop_trailing "=" s)) as IH' by (intros; by rewrite IH).
  destruct (pop_trailing "=" s) as [|a t] eqn:E.
  - case_bool_decide as Hc.
    + subst c. done.
    + cbn [decode_loop]. unfold is_pad. rewrite bool_decide_eq_false_2 by done. cbn zeta. by rewrite !IH'.
  - cbn [decode_loop]. destruct (is_pad c); [done|]. cbn zeta. fold (decode_loop). by rewrite !IH'.
Qed.

Lemma base64NoPadding_decode data : Forall is_byte data -> base64Decode (base64NoPadding data) = data.
Proof.
  intros H. unfold base64NoPadding, base64Decode. rewrite decode_loop_unpadded. apply (base64_roundtrip data H).
Qed.

(** Whoever reads the link gets back the address, whatever characters it has,
    and the bytes of the key. *)
Lemma parse_link_url address publicKey : Forall is_byte publicKey ->
  parse_link (link_url address publicKey) = Some (address, publicKey).
Proof.
  intros H. unfold parse_link, link_url. rewrite strip_prefix_app. cbn [mbind option_bind].
  change (String.append "&pub_key=" ?s) with (String "&" (String.append "pub_key=" s)).
  rewrite split_first_app by apply urlEncode_no_amp. cbn [mbind option_bind].
  rewrite strip_prefix_app. cbn [mbind option_bind]. rewrite !urlDecode_encode. cbn [mbind option_bind].
  by rewrite base64NoPadding_decode.
Qed.

(** ** Lemmas: the image *)

Definition pixel_mask (k : nat) : Z := u8 (Z.lnot (Z.shiftr 0x80 (Z.of_nat k))).

Lemma pixel_mask_bit k j : (k < 8)%nat -> (j < 8)%nat ->
  Z.testbit (pixel_mask k) (Z.of_nat (7 - j)) = negb (bool_decide (j = k)).
Proof.
  intros Hk Hj.
  assert (forallb (fun k => forallb (fun j => eqb (Z.testbit (pixel_mask k) (Z.of_nat (7 - j))) (negb (bool_decide (j = k))))
    (seq 0 8)) (seq 0 8) = true) as H by (vm_compute; reflexivity).
  rewrite forallb_forall in H. specialize (H k ltac:(apply in_seq; lia)). rewrite forallb_forall in H.
  apply eqb_prop, (H j). apply in_seq. lia.
Qed.

Definition white (row : Bytes) (x : nat) : bool := Z.testbit (nth (x / 8) row 0) (Z.of_nat (7 - x mod 8)).

Lemma nth_alter (f : Z -> Z) (l : Bytes) i j d :
  (i < length l)%nat -> nth j (alter f i l) d = if decide (i = j) then f (nth j l d) else nth j l d.
Proof.
  intros Hi. rewrite !nth_lookup. destruct (decide (i = j)) as [->|Hn].
  - rewrite list_lookup_alter_eq. destruct (lookup_lt_is_Some_2 l j Hi) as [v ->]. done.
  - by rewrite list_lookup_alter_ne.
Qed.

Lemma white_clear row x x' :
  (x < length row * 8)%nat -> white (clear_bit row x) x' = white row x' && negb (bool_decide (x' = x)).
Proof.
  intros Hx. unfold white, clear_bit. rewrite nth_alter by (apply Nat.Div0.div_lt_upper_bound; lia).
  assert (x mod 8 < 8 /\ x' mod 8 < 8)%nat as [H1 H2] by (split; apply Nat.mod_upper_bound; lia).
  destruct (decide (x / 8 = x' / 8)%nat) as [E|E].
  - rewrite Z.land_spec. f_equal. fold (pixel_mask (x mod 8)). rewrite pixel_mask_bit by done. f_equal.
    apply bool_decide_ext. pose proof (Nat.div_mod_eq x 8). pose proof (Nat.div_mod_eq x' 8). lia.
  - rewrite bool_decide_eq_false_2; [by rewrite andb_true_r|]. intros ->. done.
Qed.

Lemma clear_row qr scale y xs row x :
  Forall (fun x => (x < length row * 8)%nat) xs ->
  let row' := foldl (fun row x => if dark_pixel qr scale x y then clear_bit row x else row) row xs in
  length row' = length row /\ white row' x = white row x && negb (bool_decide (x ∈ xs) && dark_pixel qr scale x y).
Proof.
  revert row. induction xs as [|a xs IH]; intros row Hxs; cbn [foldl]; cbn zeta.
  - split; [done|]. rewrite bool_decide_eq_false_2 by apply not_elem_of_nil. by rewrite andb_true_r.
  - apply Forall_cons in Hxs as [Ha Hxs]. set (row1 := if dark_pixel qr scale a y then _ else _).
    assert (length row1 = length row) as Hl by (unfold row1, clear_bit; case_match; [apply length_alter|done]).
    destruct (IH row1) as [IH1 IH2]; [by rewrite Hl|]. rewrite IH1, IH2, Hl. split; [done|].
    assert (white row1 x = white row x && negb (bool_decide (x = a) && dark_pixel qr scale x y)) as ->.
    { unfold row1. destruct (decide (x = a)) as [->|Hxa].
      - rewrite bool_decide_eq_true_2 by done. destruct (dark_pixel qr scale a y); [|by rewrite andb_true_r].
        rewrite white_clear by done. by rewrite bool_decide_eq_true_2.
      - rewrite bool_decide_eq_false_2 by done. rewrite andb_true_r.
        destruct (dark_pixel qr scale a y); [|done]. rewrite white_clear by done.
        by rewrite bool_decide_eq_false_2, andb_true_r. }
    rewrite <- andb_assoc. f_equal. destruct (decide (x = a)) as [->|Hxa].
    + rewrite !(bool_decide_eq_true_2 (_ = _)), (bool_decide_eq_true_2 (a ∈ a :: xs)) by (done || constructor).
      by destruct (dark_pixel qr scale a y), (bool_decide (a ∈ xs)).
    + rewrite (bool_decide_eq_false_2 (x = a)) by done. cbn [negb andb]. f_equal. f_equal.
      apply bool_decide_ext. rewrite elem_of_cons. tauto.
Qed.

Lemma row_bytes_enough size : (size <= row_bytes size * 8)%nat.
Proof. unfold row_bytes. pose proof (Nat.div_mod_eq (size + 7) 8). pose proof (Nat.mod_upper_bound (size + 7) 8). lia. Qed.

Lemma white_start n x : (x < n * 8)%nat -> white (repeat 0xFF n) x = true.
Proof.
  intros Hx. unfold white. rewrite nth_repeat_lt by (apply Nat.Div0.div_lt_upper_bound; lia).
  assert (x mod 8 < 8)%nat as H by (apply Nat.mod_upper_bound; lia).
  revert H. generalize (x mod 8)%nat. intros k Hk.
  do 8 (destruct k as [|k]; [reflexivity|]). lia.
Qed.

Lemma png_row_spec qr scale y x :
  let size := image_size qr scale in
  length (png_row qr scale y) = row_bytes size /\
  ((x < size)%nat -> white (png_row qr scale y) x = negb (dark_pixel qr scale x y)).
Proof.
  intros size. unfold png_row. fold size.
  destruct (clear_row qr scale y (seq 0 size) (repeat 0xFF (row_bytes size)) x) as [H1 H2].
  { apply Forall_forall. intros a Ha. apply list_elem_of_In, in_seq in Ha. rewrite repeat_length.
    pose proof (row_bytes_enough size). lia. }
  rewrite H1, H2, repeat_length. split; [done|]. intros Hx. pose proof (row_bytes_enough size).
  rewrite white_start, bool_decide_eq_true_2 by (try lia; apply list_elem_of_In, in_seq; lia). done.
Qed.

Lemma land_byte a b : is_byte a -> is_byte b -> is_byte (Z.land a b).
Proof.
  unfold is_byte. intros Ha Hb. assert (0 <= Z.land a b) by (apply Z.land_nonneg; lia). split; [done|].
  apply (below_pow2 8); [lia|done|]. intros i Hi. rewrite Z.land_spec, (high_bits 8 a) by (try done; lia). done.
Qed.
Lemma png_row_bytes qr scale y : Forall is_byte (png_row qr scale y).
Proof.
  unfold png_row. set (xs := seq 0 _). assert (Forall is_byte (repeat 0xFF (row_bytes (image_size qr scale)))) as H
    by (apply Forall_forall; intros b Hb; apply list_elem_of_In, repeat_spec in Hb as ->; unfold is_byte; lia).
  revert H. generalize (repeat 0xFF (row_bytes (image_size qr scale))).
  induction xs as [|x xs IH]; intros row H; [done|]. cbn [foldl]. apply IH. case_match; [|done].
  unfold clear_bit. apply Forall_alter; [done|]. intros b _ Hb. apply land_byte; [done|apply Z.mod_pos_bound; lia].
Qed.

Lemma raw_image_spec qr scale ys :
  let width := row_bytes (image_size qr scale) in
  let raw := concat (map (fun y => 0 :: png_row qr scale y) ys) in
  scanlines (length ys) width raw = Some (map (png_row qr scale) ys) /\ Forall is_byte raw /\
  length raw = (length ys * S width)%nat.
Proof.
  induction ys as [|y ys [IH1 [IH2 IH3]]]; [by repeat split; constructor|]. cbn zeta in *. cbn [map concat length scanlines].
  destruct (png_row_spec qr scale y 0) as [Hl _]. split_and!.
  - rewrite split_at_app by (cbn [length]; by rewrite Hl). cbn [mbind option_bind]. by rewrite IH1.
  - apply Forall_app. split; [|done]. constructor; [unfold is_byte; lia|apply png_row_bytes].
  - rewrite length_app, IH3. cbn [length]. rewrite Hl. lia.
Qed.

(** An image file of these rows is read back. *)
Definition png_file (size : nat) (raw : Bytes) : Bytes :=
  png_signature ++
  writePngChunk IHDR (putBE32 (Z.of_nat size) ++ putBE32 (Z.of_nat size) ++ [1; 0; 0; 0; 0]) ++
  writePngChunk IDAT (zlibStoreUncompressed raw) ++ writePngChunk IEND [].

Lemma tag_bytes : Forall is_byte IHDR /\ Forall is_byte IDAT /\ Forall is_byte IEND /\ Forall is_byte [1; 0; 0; 0; 0].
Proof. split_and!; repeat (apply Forall_cons; split; [unfold is_byte; lia|]); apply Forall_nil_2. Qed.

Lemma read_png_file size raw rows :
  Z.of_nat size <= 16384 -> Forall is_byte raw -> length raw = (size * S (row_bytes size))%nat ->
  scanlines size (row_bytes size) raw = Some rows -> read_png (png_file size raw) = Some (size, size, rows).
Proof.
  intros Hsize Hbytes Hlen Hscan. destruct tag_bytes as (H1 & H2 & H3 & H4).
  assert (Z.of_nat (length (zlibStoreUncompressed raw)) < 2 ^ 32) as Hz.
  { pose proof (zlib_length raw). rewrite Hlen in *.
    assert (row_bytes size <= S size)%nat by (unfold row_bytes; apply Nat.Div0.div_le_upper_bound; lia).
    assert (Z.of_nat (size * S (row_bytes size)) <= 16384 * 16386) by nia. lia. }
  pose proof (zlib_bytes raw Hbytes) as Hzb. pose proof (inflate_stored raw Hbytes) as Hi.
  set (n := Z.of_nat size) in *. set (hdr := putBE32 n ++ putBE32 n ++ [1; 0; 0; 0; 0]).
  assert (get_be32 hdr = Some (n, putBE32 n ++ [1; 0; 0; 0; 0])) as F1 by (apply get_put_be32; lia).
  assert (get_be32 (putBE32 n ++ [1; 0; 0; 0; 0]) = Some (n, [1; 0; 0; 0; 0])) as F2 by (apply get_put_be32; lia).
  assert (Forall is_byte hdr) as H5.
  { apply Forall_app; split; [apply putBE32_bytes|]. apply Forall_app; split; [apply putBE32_bytes|done]. }
  assert (forall rest, read_chunk IHDR (writePngChunk IHDR hdr ++ rest) = Some (hdr, rest)) as F3
    by (intros rest; by apply read_written).
  assert (forall rest, read_chunk IDAT (writePngChunk IDAT (zlibStoreUncompressed raw) ++ rest) =
    Some (zlibStoreUncompressed raw, rest)) as F4 by (intros rest; by apply read_written).
  assert (read_chunk IEND (writePngChunk IEND []) = Some ([], [])) as F5.
  { rewrite <- (app_nil_r (writePngChunk IEND [])). by apply read_written. }
  assert (split_at 8 (png_file size raw) = Some (png_signature, drop 8 (png_file size raw))) as F0 by done.
  assert (Z.to_nat n = size) as Hn by apply Nat2Z.id.
  assert (drop 8 (png_file size raw) = writePngChunk IHDR hdr ++
    writePngChunk IDAT (zlibStoreUncompressed raw) ++ writePngChunk IEND []) as F6 by done.
  unfold read_png. rewrite F0, F6. clear F0 F6 H1 H2 H3 H4 H5 Hz Hzb.
  revert F1 F2 F3 F4 F5 Hi Hscan Hn. clearbody n hdr.
  generalize get_be32 read_chunk inflate scanlines (writePngChunk IHDR hdr) (writePngChunk IEND [])
    (writePngChunk IDAT (zlibStoreUncompressed raw)) (zlibStoreUncompressed raw).
  intros get rc infl scan c1 c3 c2 z F1 F2 F3 F4 F5 Hi Hscan Hn.
  cbn [mbind option_bind]. rewrite F3. cbn [mbind option_bind]. rewrite F1. cbn [mbind option_bind].
  rewrite F2. cbn [mbind option_bind]. rewrite F4. cbn [mbind option_bind]. rewrite F5. cbn [mbind option_bind].
  rewrite Hi. cbn [mbind option_bind]. rewrite Hn, Hscan. cbn [mbind option_bind].
  by rewrite !bool_decide_eq_true_2.
Qed.

(** ** The picture is the code *)

(** What the phone's camera sees is the code: in the terminal's lines every
    position from the first to the last printed one shows the module it stands
    for, dark or light, the six-module quiet zone included; and the PNG file is
    well formed (signature, chunk checksums, zlib stream, sides) and its pixel
    (x, y) is black exactly when the module under it is dark. *)
Lemma qr_pictures_show_code qr scale
    (Hscale : (0 < scale)%nat) (Hsize : Z.of_nat (image_size qr scale) <= 16384) :
  (forall x y, -6 <= x < Z.of_nat (qr_width qr) + 6 -> -6 <= y < Z.of_nat (qr_width qr) + 6 ->
    shown (qr_lines qr) x y = Some (dark qr x y)) /\
  exists rows, read_png (qr_png qr scale) = Some (image_size qr scale, image_size qr scale, rows) /\
    forall x y, (x < image_size qr scale)%nat -> (y < image_size qr scale)%nat ->
      black rows x y = dark_pixel qr scale x y.
Proof.
  split.
  - intros x y Hx Hy. unfold shown, qr_lines. set (r := Z.to_nat ((y + 6) / 2)).
    assert (Z.of_nat r = (y + 6) / 2) as Hr by (unfold r; rewrite Z2Nat.id; [done|apply Z.div_pos; lia]).
    pose proof (Z.div_mod (y + 6) 2 ltac:(done)) as Hdm. pose proof (Z.mod_pos_bound (y + 6) 2 ltac:(done)) as Hmb.
    rewrite list_lookup_fmap, lookup_seq_lt.
    2: { pose proof (Nat.div_mod_eq (qr_width qr + 13) 2). pose proof (Nat.mod_upper_bound (qr_width qr + 13) 2). lia. }
    cbn [fmap option_fmap option_map mbind option_bind]. rewrite list_lookup_fmap, lookup_seq_lt by lia.
    cbn [fmap option_fmap option_map mbind option_bind]. rewrite !Nat.add_0_l.
    replace (Z.of_nat (Z.to_nat (x + 6)) - 6) with x by lia.
    assert (Z.even y = Z.even (y + 6)) as He by (rewrite Z.even_add; by destruct (Z.even y)).
    assert (Z.odd y = negb (Z.even y)) as Ho by apply Zeven.Zodd_even_bool. rewrite Ho, He.
    f_equal. rewrite Hr, Zeven_mod. destruct (Z.eqb_spec ((y + 6) mod 2) 0) as [E|E].
    + replace (2 * ((y + 6) / 2) - 6) with y by lia. by destruct (dark qr x y), (dark qr x (y + 1)).
    + replace (2 * ((y + 6) / 2) - 6) with (y - 1) by lia. replace (y - 1 + 1) with y by lia.
      by destruct (dark qr x y), (dark qr x (y - 1)).
  - set (size := image_size qr scale) in *.
    destruct (raw_image_spec qr scale (seq 0 size)) as (Hscan & Hbytes & Hlen). rewrite length_seq in Hscan, Hlen.
    fold size in Hscan, Hlen. change (concat _) with (raw_image qr scale) in Hscan, Hbytes, Hlen.
    exists (map (png_row qr scale) (seq 0 size)). split.
    + rewrite <- (read_png_file size (raw_image qr scale)) by done. unfold qr_png, png_file. fold size.
      unfold u32, wrap. by rewrite Z.mod_small by lia.
    + intros x y Hx Hy. unfold black.
      assert (nth y (map (png_row qr scale) (seq 0 size)) [] = png_row qr scale y) as ->.
      { rewrite (nth_indep _ [] (png_row qr scale 0)) by (rewrite length_map, length_seq; lia).
        by rewrite map_nth, seq_nth by lia. }
      change (Z.testbit _ _) with (white (png_row qr scale y) x).
      destruct (png_row_spec qr scale y x) as [_ ->]; [by rewrite negb_involutive|done].
Qed.

Definition tiny_code : QRcode := mkQR 2 [1; 0; 2; 3].

Lemma qr_pictures_show_code_witness :
  shown (qr_lines tiny_code) 1 1 = Some true /\ shown (qr_lines tiny_code) 1 0 = Some false /\
  exists rows, read_png (qr_png tiny_code 3) = Some (30%nat, 30%nat, rows) /\
    black rows 15 15 = true /\ black rows 14 15 = false.
Proof.
  destruct (qr_pictures_show_code tiny_code 3) as [H1 (rows & H2 & H3)]; [lia|vm_compute; discriminate|].
  split; [rewrite H1 by (cbn; lia); reflexivity|]. split; [rewrite H1 by (cbn; lia); reflexivity|].
  exists rows. split; [exact H2|]. split.
  - rewrite H3 by (cbn; lia). reflexivity.
  - rewrite H3 by (cbn; lia). reflexivity.
Defined.

(** The same by evaluation. *)
Example tiny_picture :
  match read_png (qr_png tiny_code 3) with
  | Some (w, h, rows) => w = 30%nat /\ h = 30%nat /\ black rows 15 15 = true /\ black rows 14 15 = false
  | None => False
  end.
Proof. vm_compute. repeat split. Qed.
