(* ===== verification/Provisioning.v ===== *)
(** Linking as a new device (src/gendb/ProvisioningClient.cpp): the connection
    to the provisioning service, its listener, and the wait for the primary's
    message.

    The listener's callbacks run on libsignal's threads, each under the result
    mutex; here they are delivered one after the other, at the times given,
    while the caller waits for its two conditions.  When a condition has come
    true, or the deadline has passed, any number of further callbacks may run
    before the caller wakes. *)

From S2P Require Import Prelude Base64 Storage ProtocolStores CallSignaling Crypto PreKeys LinkCiphers QrLink Handles.

Open Scope Z_scope.

Record ProvisionMessageResult := mkProvisioned {
  p_e164 : string; p_aci : string; p_pni : string;
  aciIdentityKeyPublic : Bytes; aciIdentityKeyPrivate : Bytes;
  pniIdentityKeyPublic : Bytes; pniIdentityKeyPrivate : Bytes;
  provisioningCode : string;
  profileKey : option Bytes; accountEntropyPool : option string; mediaRootBackupKey : option Bytes;
}.

(** The protobuf messages: an envelope's public key and body, and the fields
    of a provisioning message ([None] for an optional one that is absent). *)
Record provision_parser := mkProvisionParser {
  parse_envelope : Bytes -> option (Bytes * Bytes);
  parse_message : Bytes -> option ProvisionMessageResult;
}.

Inductive pobject := PRuntime | PRemoteConfig | PManager | PChat.

(** ProvisioningClient::Impl, with the libsignal objects of the process, those
    of the network, and the URLs it printed. *)
Record client := mkClient {
  c_keys : pstate;
  c_net : heap pobject;
  runtime : nat; manager : nat;
  ourKeyPair : KeyPair;
  chat : option nat;
  gotAddress : bool;
  result : option ProvisionMessageResult;
  failure : option string;
  printed_urls : list string;
}.

#[export] Instance has_client_keys : Has pstate client := {|
  prj := c_keys;
  put k c := mkClient k (c_net c) (runtime c) (manager c) (ourKeyPair c) (chat c) (gotAddress c) (result c) (failure c)
    (printed_urls c) |}.
#[export] Instance has_client_net : Has (heap pobject) client := {|
  prj := c_net;
  put n c := mkClient (c_keys c) n (runtime c) (manager c) (ourKeyPair c) (chat c) (gotAddress c) (result c) (failure c)
    (printed_urls c) |}.
#[export] Instance has_client_keys_laws : HasLaws pstate client.
Proof. by split; intros; try destruct w. Qed.

Definition set_chat_c (o : option nat) (c : client) : client :=
  mkClient (c_keys c) (c_net c) (runtime c) (manager c) (ourKeyPair c) o (gotAddress c) (result c) (failure c) (printed_urls c).
Definition set_gotAddress (c : client) : client :=
  mkClient (c_keys c) (c_net c) (runtime c) (manager c) (ourKeyPair c) (chat c) true (result c) (failure c) (printed_urls c).
Definition set_result (r : ProvisionMessageResult) (c : client) : client :=
  mkClient (c_keys c) (c_net c) (runtime c) (manager c) (ourKeyPair c) (chat c) (gotAddress c) (Some r) (failure c)
    (printed_urls c).
Definition set_failure (w : string) (c : client) : client :=
  mkClient (c_keys c) (c_net c) (runtime c) (manager c) (ourKeyPair c) (chat c) (gotAddress c) (result c) (Some w)
    (printed_urls c).
Definition add_url (u : string) (c : client) : client :=
  mkClient (c_keys c) (c_net c) (runtime c) (manager c) (ourKeyPair c) (chat c) (gotAddress c) (result c) (failure c)
    (printed_urls c ++ [u]).

Section Client.
Context (keys : prekey_lib) (lib : cipher_lib) (parser : provision_parser).
Context (ffi_fault net_fault : nat -> bool).

(** makeConnectionManager *)
Definition makeConnectionManager : Comp (heap pobject) nat :=
  remoteConfig ← acquire net_fault "signal_bridged_string_map_new" PRemoteConfig;
  manager ← acquire net_fault "signal_connection_manager_new" PManager;
  release net_fault "signal_bridged_string_map_destroy" remoteConfig ;;
  mret manager.

(** Impl's constructor, as the two states it works on. *)
Definition Impl (s : pstate * heap pobject) : outcome client * (pstate * heap pobject) :=
  let construct : Comp (heap pobject) (nat * nat) :=
    runtime ← acquire net_fault "signal_tokio_async_context_new" PRuntime;
    manager ← makeConnectionManager;
    mret (runtime, manager) in
  match construct s.2 with
  | (Ok (r, m), n) =>
    match generateKeyPair keys ffi_fault s.1 with
    | (Ok kp, k) => (Ok (mkClient k n r m kp None false None None []), (k, n))
    | (Throw e, k) => (Throw e, (k, n))
    end
  | (Throw e, n) => (Throw e, (s.1, n))
  end.

(** ~Impl: whatever fails is freed and forgotten. *)
Definition Impl_destroy : Comp client unit :=
  c ← get;
  match chat c with
  | Some h => lift (release_quietly net_fault "signal_provisioning_chat_connection_destroy" h)
  | None => mret tt
  end ;;
  lift (release_quietly net_fault "signal_connection_manager_destroy" (manager c)) ;;
  lift (release_quietly net_fault "signal_tokio_async_context_destroy" (runtime c)).

(** *** The listener *)

Definition printLinkUrl (address : string) : Comp client unit :=
  k ← gets ourKeyPair;
  modify (add_url (link_url address (kp_publicKey k))).

(** Every pushed message is acknowledged; a failure is freed and forgotten. *)
Definition send_ack : Comp client unit :=
  lift (catch_std (checked net_fault "signal_server_message_ack_send") (fun _ => mret tt)) ;;
  lift (catch_std (checked net_fault "signal_server_message_ack_destroy") (fun _ => mret tt)).

Definition onReceivedAddress (address : string) : Comp client unit :=
  send_ack ;;
  modify set_gotAddress ;;
  printLinkUrl address.

Definition onReceivedEnvelope (envelopeBytes : Bytes) : Comp client unit :=
  send_ack ;;
  catch_std (
    k ← gets ourKeyPair;
    pe ← of_outcome (match parse_envelope parser envelopeBytes with
                     | Some pe => Ok pe | None => Throw (StdError "bad ProvisionEnvelope") end);
    plaintext ← lift (decryptProvisionEnvelope lib ffi_fault (kp_privateKey k) pe.1 pe.2);
    r ← of_outcome (match parse_message parser plaintext with
                    | Some r => Ok r | None => Throw (StdError "bad ProvisionMessage") end);
    modify (set_result r))
  (fun what => modify (set_failure what)).

Definition onConnectionInterrupted : Comp client unit :=
  c ← get;
  match result c, failure c with
  | None, None => modify (set_failure "socket closed before linking completed")
  | _, _ => mret tt
  end.

Inductive event := Address (address : string) | Envelope (bytes : Bytes) | Interrupted.

Definition deliver (e : event) : Comp client unit :=
  match e with
  | Address a => onReceivedAddress a
  | Envelope b => onReceivedEnvelope b
  | Interrupted => onConnectionInterrupted
  end.

(** *** The wait *)

Definition has {A} (o : option A) : bool := match o with Some _ => true | None => false end.
Definition address_seen (c : client) : bool := gotAddress c || has (result c) || has (failure c).
Definition finished (c : client) : bool := has (result c) || has (failure c).

(** [resultCv.wait_until(lock, deadline, pred)]: what comes up to the deadline
    is delivered until the condition holds; [late] more callbacks run before
    the caller does, which looks at the condition again when it timed out. *)
Fixpoint wait_until (deadline : Z) (pred : client -> bool) (late : nat) (events : list (Z * event)) :
    Comp client (bool * list (Z * event)) :=
  p ← gets pred;
  if (p : bool) then
    for_each (fun te => deliver te.2) (take late events) ;;
    mret (true, drop late events)
  else match events with
       | (t, e) :: rest =>
         if bool_decide (t <= deadline) then deliver e ;; wait_until deadline pred late rest
         else
           for_each (fun te => deliver te.2) (take late events) ;;
           q ← gets pred;
           mret (q, drop late events)
       | [] => mret (false, [])
       end.

(** How the connection attempt ends: its start fails, no completion within 15
    seconds, an error, or a connection. *)
Inductive attempt := StartFails (what : string) | NoAnswer | Refused (what : string) | Opened.

Definition fail_if (c : client) : outcome unit :=
  match failure c with Some w => Throw (StdError w) | None => Ok tt end.

(** Times are in milliseconds from the opening. *)
Definition waitForProvisionMessage (a : attempt) (late1 late2 : nat) (events : list (Z * event)) :
    Comp client ProvisionMessageResult :=
  match a with
  | StartFails w | Refused w => throw_std w
  | NoAnswer => throw_std "timed out connecting to provisioning websocket"
  | Opened =>
    h ← lift (insert_object PChat);
    modify (set_chat_c (Some h)) ;;
    lift (checked net_fault "signal_provisioning_chat_connection_init_listener") ;;
    r ← wait_until 10000 address_seen late1 events;
    (if negb r.1 then throw_std "no address received within 10s" else mret tt) ;;
    c ← get;
    of_outcome (fail_if c) ;;
    r2 ← wait_until 90000 finished late2 r.2;
    (if negb r2.1 then throw_std "lifespan expired with no completed link (90s)" else mret tt) ;;
    c ← get;
    of_outcome (fail_if c) ;;
    match result c with
    | Some x => mret x
    | None => throw ForeignError
    end
  end.
End Client.

(** ** Lemmas *)

(** The message an envelope carries for the holder of a private key. *)
Definition carries (lib : cipher_lib) (parser : provision_parser) (privateKey bytes : Bytes) (m : ProvisionMessageResult) : Prop :=
  exists senderKey envelopeBody p, parse_envelope parser bytes = Some (senderKey, envelopeBody) /\
    authentic lib privateKey senderKey envelopeBody p /\ parse_message parser p = Some m.

(** The acknowledgement never fails and touches nothing of the client. *)
Definition acked (c : client) : client :=
  put (mkHeap (objects (c_net c)) (next_object (c_net c)) (S (S (ffi_made (c_net c))))) c.
Lemma send_ack_eq net_fault c : send_ack net_fault c = (Ok tt, acked c).
Proof.
  destruct c as [k [o n m] r mg kp ch g res f u]. unfold send_ack, lift, catch_std, checked, mbind, comp_bind. cbn.
  destruct (net_fault m); cbn; destruct (net_fault (S m)); reflexivity.
Qed.

Section client_lemmas.
Context (lib : cipher_lib) (parser : provision_parser) (ffi_fault net_fault : nat -> bool).

Lemma envelope_cases b c :
  let '(_, c') := onReceivedEnvelope lib parser ffi_fault net_fault b c in
  ourKeyPair c' = ourKeyPair c /\
  (result c' = result c \/ exists m, carries lib parser (kp_privateKey (ourKeyPair c)) b m /\ result c' = Some m).
Proof.
  unfold onReceivedEnvelope. rewrite (bind_ok _ _ _ _ _ (send_ack_eq net_fault c)).
  change (kp_privateKey (ourKeyPair c)) with (kp_privateKey (ourKeyPair (acked c))).
  change (ourKeyPair c) with (ourKeyPair (acked c)). change (result c) with (result (acked c)).
  generalize (acked c) as c0. clear c. intros c. unfold catch_std, gets. unfold mbind at 1, comp_bind at 1.
  unfold mbind at 1, comp_bind at 1. unfold of_outcome at 1.
  destruct (parse_envelope parser b) as [[senderKey envelopeBody]|] eqn:Ep; [|split; [done|by left]].
  unfold mbind at 1, comp_bind at 1. unfold lift. cbn [prj has_client_keys fst snd].
  destruct (decryptProvisionEnvelope lib ffi_fault (kp_privateKey (ourKeyPair c)) senderKey envelopeBody (c_keys c))
    as [[p|[w| |]] k'] eqn:Ed; try (split; [done|by left]).
  unfold mbind, comp_bind, of_outcome. destruct (parse_message parser p) as [m|] eqn:Em; [|split; [done|by left]].
  split; [done|]. right. exists m. split; [|done]. exists senderKey, envelopeBody, p. split; [done|]. split; [|done].
  by eapply decrypted_authentic.
Qed.

(** Every result is what an envelope of the list carries. *)
Definition sound_result (priv : Bytes) (bs : list Bytes) (c : client) : Prop :=
  kp_privateKey (ourKeyPair c) = priv /\ forall m, result c = Some m -> exists b, b ∈ bs /\ carries lib parser priv b m.

Definition envelopes (events : list (Z * event)) : list Bytes :=
  omap (fun te => match te.2 with Envelope b => Some b | _ => None end) events.

Lemma deliver_sound priv bs e :
  (forall b, e = Envelope b -> b ∈ bs) -> preserves (sound_result priv bs) (deliver lib parser ffi_fault net_fault e).
Proof.
  intros He c [Hk Hr]. destruct e as [a|b|]; cbn [deliver].
  - unfold onReceivedAddress. by rewrite (bind_ok _ _ _ _ _ (send_ack_eq net_fault c)).
  - pose proof (envelope_cases b c) as H. destruct (onReceivedEnvelope lib parser ffi_fault net_fault b c) as [r c'].
    destruct H as [Hk' H]. cbn [snd]. split; [by rewrite Hk'|]. intros m Hm.
    destruct H as [H|(m' & Hc & H)]; rewrite H in Hm; [by apply Hr|]. injection Hm as <-.
    exists b. split; [by apply He|]. by rewrite <- Hk.
  - unfold onConnectionInterrupted, get, mbind, comp_bind. cbn.
    destruct (result c) as [m|] eqn:E; [split; [done|]; intros m' Hm; apply Hr; by rewrite <- E|].
    destruct (failure c); (split; [done|]; intros m' Hm; cbn in Hm; congruence).
Qed.

Lemma envelope_in te events b : te ∈ events -> te.2 = Envelope b -> b ∈ envelopes events.
Proof. intros Hin Hb. apply list_elem_of_omap. exists te. by rewrite Hb. Qed.

Lemma take_in n (l : list (Z * event)) x : x ∈ take n l -> x ∈ l.
Proof. intros H. rewrite <- (take_drop n l). apply elem_of_app. by left. Qed.
Lemma drop_in n (l : list (Z * event)) x : x ∈ drop n l -> x ∈ l.
Proof. intros H. rewrite <- (take_drop n l). apply elem_of_app. by right. Qed.

Lemma wait_sound priv all deadline pred late events :
  (forall te, te ∈ events -> te ∈ all) ->
  preserves (sound_result priv (envelopes all)) (wait_until lib parser ffi_fault net_fault deadline pred late events) /\
  forall c r c', wait_until lib parser ffi_fault net_fault deadline pred late events c = (Ok r, c') -> forall te, te ∈ r.2 -> te ∈ all.
Proof.
  induction events as [|[t e] events IH]; intros Hsub.
  - split.
    + cbn [wait_until]. apply preserves_bind; [apply preserves_gets|]. intros p.
      destruct p; [rewrite take_nil, drop_nil; cbn [for_each]; keeps|keeps].
    + intros c r c'. cbn [wait_until]. unfold gets, mbind, comp_bind. rewrite take_nil, drop_nil.
      destruct (pred c); cbn; intros [= <- <-] te Hin; by apply elem_of_nil in Hin.
  - destruct IH as [IH1 IH2]; [intros te Hte; apply Hsub; by right|].
    assert (forall te b, te ∈ (t, e) :: events -> te.2 = Envelope b -> b ∈ envelopes all) as Hin
      by (intros te b Hte; apply envelope_in, Hsub, Hte).
    split.
    + assert (preserves (sound_result priv (envelopes all)) (for_each (fun te => deliver lib parser ffi_fault net_fault te.2)
        (take late ((t, e) :: events)))) as Hlate.
      { apply for_each_in. intros te Hte. apply deliver_sound. intros b Hb. apply (Hin te); [|done]. by apply (take_in late). }
      cbn [wait_until]. apply preserves_bind; [apply preserves_gets|]. intros p. destruct p.
      * apply preserves_bind; [exact Hlate|intros _; apply preserves_ret].
      * case_bool_decide.
        2: { apply preserves_bind; [exact Hlate|]. intros _. apply preserves_bind; [apply preserves_gets|]. intros q. apply preserves_ret. }
        apply preserves_bind; [|intros _; exact IH1].
        apply deliver_sound. intros b Hb. apply (Hin (t, e)); [by left|done].
    + intros c r c'. cbn [wait_until]. unfold gets. unfold mbind at 1, comp_bind at 1. destruct (pred c).
      * intros (u & c1 & _ & E)%bind_inv_ok. injection E as <- <-. intros te Hte. apply Hsub. by apply (drop_in late).
      * case_bool_decide.
        2: { intros (u & c1 & _ & E)%bind_inv_ok. unfold gets in E. injection E as <- <-. intros te Hte. apply Hsub.
             by apply (drop_in late). }
        intros (u & c1 & _ & E)%bind_inv_ok. exact (IH2 c1 r c' E).
Qed.
End client_lemmas.

Lemma bind_keeps {S A B} (I : S -> Prop) (f : Comp S A) (k : A -> Comp S B) s b s' :
  (f ≫= k) s = (Ok b, s') -> preserves I f -> I s ->
  exists a s1, I s1 /\ f s = (Ok a, s1) /\ k a s1 = (Ok b, s').
Proof.
  intros (a & s1 & E & H)%bind_inv_ok Hf Hs. exists a, s1. split_and!; try done. specialize (Hf s Hs). by rewrite E in Hf.
Qed.

(** What [waitForProvisionMessage] keeps while it runs. *)
Lemma lift_net_sound lib parser priv bs {A} (m : Comp (heap pobject) A) :
  preserves (sound_result lib parser priv bs) (lift m).
Proof. intros c H. unfold lift. by destruct (m (prj c)). Qed.

(** C19: the account that is linked is the one of the phone that scanned this
    device's code: whatever fails and whatever else arrives, in any order and
    at any time, a message the wait returns came in one of the envelopes
    received, of version 1 and authenticated and encrypted, under a key agreed
    with this device's own private key, by whoever sent it. *)
Theorem linked_message_authentic lib parser ffi_fault net_fault a late1 late2 events c m c'
    (Hnew : result c = None)
    (H : waitForProvisionMessage lib parser ffi_fault net_fault a late1 late2 events c = (Ok m, c')) :
  exists b, b ∈ envelopes events /\ carries lib parser (kp_privateKey (ourKeyPair c)) b m.
Proof.
  set (priv := kp_privateKey (ourKeyPair c)).
  assert (sound_result lib parser priv (envelopes events) c) as Hc by (split; [done|]; intros m'; by rewrite Hnew).
  destruct a; try done. cbn [waitForProvisionMessage] in H.
  eapply (bind_keeps (sound_result lib parser priv (envelopes events))) in H as (h & c1 & I1 & E1 & H); [|apply lift_net_sound|exact Hc].
  apply bind_inv_ok in H as (u & c2 & E2 & H). injection E2 as _ <-.
  eapply (bind_keeps (sound_result lib parser priv (envelopes events))) in H as (u2 & c3 & I3 & E3 & H); [|apply lift_net_sound|exact I1].
  destruct (wait_sound lib parser ffi_fault net_fault priv events 10000 address_seen late1 events ltac:(done)) as [W1 W2].
  eapply (bind_keeps (sound_result lib parser priv (envelopes events))) in H as (r & c4 & I4 & E4 & H); [|exact W1|exact I3].
  apply bind_inv_ok in H as (u3 & c5 & E5 & H). destruct (negb r.1); [done|]. injection E5 as _ <-.
  apply bind_inv_ok in H as (c5 & c5' & E5 & H). injection E5 as <- <-.
  apply bind_inv_ok in H as (u4 & c6 & E6 & H). injection E6 as _ <-.
  destruct (wait_sound lib parser ffi_fault net_fault priv events 90000 finished late2 r.2 (W2 _ _ _ E4)) as [W3 _].
  eapply (bind_keeps (sound_result lib parser priv (envelopes events))) in H as (r2 & c6 & I6 & E6 & H); [|exact W3|exact I4].
  apply bind_inv_ok in H as (u5 & c7 & E7 & H). destruct (negb r2.1); [done|]. injection E7 as _ <-.
  apply bind_inv_ok in H as (c7 & c7' & E7 & H). injection E7 as <- <-.
  apply bind_inv_ok in H as (u6 & c8 & E8 & H). injection E8 as _ <-.
  destruct (result c6) as [m'|] eqn:Em; [|done]. injection H as <- _. by apply I6.
Qed.

(** ** The whole exchange *)

Section exchange.
Context (lib : cipher_lib) (parser : provision_parser) (m : ProvisionMessageResult).

(** Linked: the result is there and nothing failed. *)
Definition linked (c : client) : Prop := result c = Some m /\ failure c = None.

Definition not_envelope (te : Z * event) : Prop := match te.2 with Envelope _ => False | _ => True end.

(** Once linked, only another envelope can change that. *)
Lemma linked_deliver c te : linked c -> not_envelope te ->
  exists c', deliver lib parser no_fault no_fault te.2 c = (Ok tt, c') /\ linked c'.
Proof.
  intros [Hr Hf] Hn. destruct te as [t [a|b|]]; [|done|]; cbn [deliver snd].
  - by eexists.
  - unfold onConnectionInterrupted, get, mbind, comp_bind. rewrite Hr. exists c. by split.
Qed.

(** One callback before the condition holds. *)
Lemma wait_step deadline pred late t e events c c1 :
  pred c = false -> t <= deadline -> deliver lib parser no_fault no_fault e c = (Ok tt, c1) ->
  wait_until lib parser no_fault no_fault deadline pred late ((t, e) :: events) c =
  wait_until lib parser no_fault no_fault deadline pred late events c1.
Proof.
  intros Hp Ht Hd. cbn [wait_until]. unfold gets at 1. rewrite (bind_ok _ _ c (pred c) c) by done. rewrite Hp.
  rewrite bool_decide_eq_true_2 by done. by rewrite (bind_ok _ _ _ _ _ Hd).
Qed.

Lemma linked_late events c : linked c -> Forall not_envelope events ->
  exists c', for_each (fun te => deliver lib parser no_fault no_fault te.2) events c = (Ok tt, c') /\ linked c'.
Proof.
  intros Hc He. revert c Hc. induction He as [|te events Hte _ IH]; intros c Hc; [by exists c|].
  destruct (linked_deliver c te Hc Hte) as (c1 & E & Hc1). destruct (IH c1 Hc1) as (c2 & E2 & Hc2).
  exists c2. cbn [for_each]. by rewrite (bind_ok _ _ _ _ _ E).
Qed.

Lemma wait_linked deadline pred late events c :
  linked c -> (forall c, linked c -> pred c = true) -> Forall not_envelope events ->
  exists c', wait_until lib parser no_fault no_fault deadline pred late events c = (Ok (true, drop late events), c') /\ linked c'.
Proof.
  intros Hc Hp He. assert (Forall not_envelope (take late events)) as Ht by (by apply Forall_take).
  destruct (linked_late (take late events) c Hc Ht) as (c' & E & Hc'). exists c'. split; [|done].
  destruct events as [|te events]; cbn [wait_until]; unfold gets; unfold mbind at 1, comp_bind at 1; rewrite (Hp c Hc).
  - by rewrite (bind_ok _ _ _ _ _ E).
  - by rewrite (bind_ok _ _ _ _ _ E).
Qed.
End exchange.

(** The primary: it reads the link and answers to the key in it. *)
Definition primary_answer (lib : cipher_lib) (cbc : Bytes -> Bytes -> Bytes -> Bytes) (public_of : Bytes -> Bytes)
    (url : string) (theirs iv plaintext : Bytes) : option (string * (Bytes * Bytes)) :=
  '(address, publicKey) ← parse_link url;
  envelopeBody ← encryptProvision lib cbc theirs publicKey iv plaintext;
  Some (address, (public_of theirs, envelopeBody)).

(** An envelope of the primary's is decrypted. *)
Lemma envelope_linked lib cbc public_of parser m bytes theirs iv plaintext envelopeBody c :
  cipher_laws lib cbc public_of -> length iv = kIvLength -> fresh_above (c_keys c) ->
  encryptProvision lib cbc theirs (public_of (kp_privateKey (ourKeyPair c))) iv plaintext = Some envelopeBody ->
  parse_envelope parser bytes = Some (public_of theirs, envelopeBody) -> parse_message parser plaintext = Some m ->
  failure c = None ->
  exists c', deliver lib parser no_fault no_fault (Envelope bytes) c = (Ok tt, c') /\ linked m c'.
Proof.
  intros L Hiv Hfresh He Hp Hm Hf. cbn [deliver]. unfold onReceivedEnvelope.
  rewrite (bind_ok _ _ _ _ _ (send_ack_eq no_fault c)). revert Hfresh He Hf.
  change (c_keys c) with (c_keys (acked c)). change (ourKeyPair c) with (ourKeyPair (acked c)).
  change (failure c) with (failure (acked c)). generalize (acked c) as c0. clear c. intros c Hfresh He Hf.
  unfold catch_std, gets.
  unfold mbind at 1, comp_bind at 1. unfold mbind at 1, comp_bind at 1. unfold of_outcome at 1. rewrite Hp.
  unfold mbind at 1, comp_bind at 1. unfold lift. cbn [prj has_client_keys fst snd].
  destruct (c_keys c) as [cn l n k] eqn:Ek.
  destruct (provision_roundtrip lib cbc public_of (kp_privateKey (ourKeyPair c)) theirs iv plaintext envelopeBody cn l n k
    L Hiv Hfresh He) as (n' & k' & -> & _).
  unfold mbind, comp_bind, of_outcome. rewrite Hm. eexists. split; [reflexivity|]. by split.
Qed.

(** C38: scanning the code links the device: when the address arrives within
    ten seconds and the primary that read this very link answers within ninety,
    the wait returns exactly the message it sent, with its keys, code and
    secrets, however late the caller wakes and whatever addresses or
    interruptions come after the answer. *)
Theorem scanned_link_completes lib cbc public_of parser c t1 t2 address theirs iv plaintext bytes m envelope rest late1 late2
    (Hlaws : cipher_laws lib cbc public_of) (Hiv : length iv = kIvLength)
    (Hpub : kp_publicKey (ourKeyPair c) = public_of (kp_privateKey (ourKeyPair c)))
    (Hbytes : Forall is_byte (kp_publicKey (ourKeyPair c)))
    (Hfresh : fresh_above (c_keys c)) (Hnew : gotAddress c = false /\ result c = None /\ failure c = None)
    (Hanswer : primary_answer lib cbc public_of (link_url address (kp_publicKey (ourKeyPair c))) theirs iv plaintext =
               Some (address, envelope))
    (Henvelope : parse_envelope parser bytes = Some envelope) (Hmessage : parse_message parser plaintext = Some m)
    (Htimes : t1 <= 10000 /\ t2 <= 90000) (Hrest : Forall not_envelope rest) :
  (waitForProvisionMessage lib parser no_fault no_fault Opened late1 late2
     ((t1, Address address) :: (t2, Envelope bytes) :: rest) c).1 = Ok m.
Proof.
  destruct Hnew as (Hg & Hr & Hf). destruct Htimes as [Ht1 Ht2]. unfold primary_answer in Hanswer.
  rewrite parse_link_url in Hanswer by done. cbn [mbind option_bind] in Hanswer.
  destruct (encryptProvision lib cbc theirs (kp_publicKey (ourKeyPair c)) iv plaintext) as [envelopeBody|] eqn:Ee; [|done].
  injection Hanswer as <-. rewrite Hpub in Ee.
  unfold waitForProvisionMessage. erewrite bind_ok; [|reflexivity]. cbv beta.
  erewrite bind_ok; [|reflexivity]. cbv beta. erewrite bind_ok; [|reflexivity]. cbv beta.
  match goal with |- context [(wait_until _ _ _ _ _ _ _ _ ≫= _) ?x] => set (c0 := x) end.
  set (c1 := add_url (link_url address (kp_publicKey (ourKeyPair c))) (set_gotAddress (acked c0))).
  assert (wait_until lib parser no_fault no_fault 10000 address_seen late1 ((t1, Address address) :: (t2, Envelope bytes) :: rest) c0 =
    wait_until lib parser no_fault no_fault 10000 address_seen late1 ((t2, Envelope bytes) :: rest) c1) as E0.
  { apply wait_step; [|done|done]. unfold c0, address_seen. cbn. by rewrite Hg, Hr, Hf. }
  destruct (envelope_linked lib cbc public_of parser m bytes theirs iv plaintext envelopeBody c1) as (c2 & E2 & Hc2); try done.
  assert (forall c, linked m c -> finished c = true) as Hfin by (intros x [Hx _]; unfold finished; by rewrite Hx).
  assert (exists c', (wait_until lib parser no_fault no_fault 10000 address_seen late1 ((t2, Envelope bytes) :: rest) c1 =
      (Ok (true, drop late1 ((t2, Envelope bytes) :: rest)), c') /\
      (linked m c' /\ Forall not_envelope (drop late1 ((t2, Envelope bytes) :: rest)) \/ c' = c1 /\ late1 = 0%nat))) as (c3 & E3 & H3).
  { cbn [wait_until]. unfold gets. unfold mbind at 1, comp_bind at 1. change (address_seen c1) with true. cbn iota.
    destruct late1 as [|late1]; [by exists c1; split; [|right]|]. cbn [take drop for_each snd].
    destruct (linked_late lib parser m (take late1 rest) c2 Hc2) as (c3 & E3 & Hc3); [by apply Forall_take|].
    exists c3. erewrite bind_ok; [|rewrite (bind_ok _ _ _ _ _ E2); exact E3]. split; [done|]. left. split; [done|by apply Forall_drop]. }
  rewrite <- E0 in E3. rewrite (bind_ok _ _ _ _ _ E3). cbv beta. cbn [fst snd negb]. erewrite bind_ok; [|reflexivity]. cbv beta.
  erewrite bind_ok; [|reflexivity]. cbv beta.
  assert (fail_if c3 = Ok tt) as Hf3 by (unfold fail_if; destruct H3 as [[[_ ->] _]|[-> _]]; [done|cbn; by rewrite Hf]).
  rewrite Hf3. erewrite bind_ok; [|reflexivity]. cbv beta.
  assert (exists c4 r, wait_until lib parser no_fault no_fault 90000 finished late2 (drop late1 ((t2, Envelope bytes) :: rest)) c3 =
    (Ok (true, r), c4) /\ linked m c4) as (c4 & r & E4 & H4).
  { destruct H3 as [[Hl Hq]|[-> ->]].
    - destruct (wait_linked lib parser m 90000 finished late2 _ c3 Hl Hfin Hq) as (c4 & E4 & Hc4). by exists c4, (drop late2 (drop late1 ((t2, Envelope bytes) :: rest))).
    - destruct (wait_linked lib parser m 90000 finished late2 rest c2 Hc2 Hfin Hrest) as (c4 & E4 & Hc4).
      exists c4, (drop late2 rest). split; [|done]. cbn [drop]. rewrite <- E4. apply wait_step; [|done|done].
      unfold c1, finished. cbn. by rewrite Hr, Hf. }
  rewrite (bind_ok _ _ _ _ _ E4). cbv beta. cbn [fst snd negb]. erewrite bind_ok; [|reflexivity]. cbv beta.
  erewrite bind_ok; [|reflexivity]. cbv beta. destruct H4 as [Hr4 Hf4]. assert (fail_if c4 = Ok tt) as -> by (unfold fail_if; by rewrite Hf4).
  erewrite bind_ok; [|reflexivity]. cbv beta. by rewrite Hr4.
Qed.

(** ** Examples *)

Definition toy_cbc (key iv p : Bytes) : Bytes := nth 0 key 0 :: p.
Lemma toy_laws : cipher_laws toy_ciphers toy_cbc (fun p => p).
Proof.
  split.
  - intros a b. cbn. f_equal. apply Z.add_comm.
  - intros k iv p. cbn. by rewrite bool_decide_eq_true_2.
  - done.
  - intros k d x. cbn. intros [= <-]. rewrite length_take, !length_app. cbn [length repeat]. unfold kMacLength. lia.
Qed.

Definition toy_parser : provision_parser := mkProvisionParser
  (fun b => match b with x :: rest => Some ([x], rest) | [] => None end)
  (fun p => Some (mkProvisioned "+49" "aci" "pni" [1] p [2] [3] "code" None (Some "pool"%string) None)).

Definition linking : client :=
  mkClient (mkP (mkConn empty_db None 0) ∅ 0 0) (mkHeap ∅ 2 0) 0 1 (mkKeyPair [4] [4]) None false None None [].

Definition toy_body : Bytes := default [] (encryptProvision toy_ciphers toy_cbc [7] [4] (repeat 0 16) [9; 9]).

Lemma scanned_link_completes_witness :
  (waitForProvisionMessage toy_ciphers toy_parser no_fault no_fault Opened 1 3
     [(200, Address "addr"); (61000, Envelope (7 :: toy_body)); (61001, Interrupted)] linking).1 =
  Ok (mkProvisioned "+49" "aci" "pni" [1] [9; 9] [2] [3] "code" None (Some "pool"%string) None).
Proof.
  apply (scanned_link_completes toy_ciphers toy_cbc (fun p => p) toy_parser linking 200 61000 "addr" [7] (repeat 0 16) [9; 9]
    (7 :: toy_body) _ ([7], toy_body) [(61001, Interrupted)] 1 3).
  - exact toy_laws.
  - reflexivity.
  - reflexivity.
  - repeat (apply Forall_cons; split; [unfold is_byte; lia|]). apply Forall_nil_2.
  - intros h _. reflexivity.
  - split; [reflexivity|]. split; reflexivity.
  - vm_compute. reflexivity.
  - reflexivity.
  - reflexivity.
  - split; lia.
  - repeat (apply Forall_cons; split; [exact I|]). apply Forall_nil_2.
Defined.

Lemma linked_message_authentic_witness :
  exists b, b ∈ [7 :: toy_body] /\ carries toy_ciphers toy_parser [4] b
    (mkProvisioned "+49" "aci" "pni" [1] [9; 9] [2] [3] "code" None (Some "pool"%string) None).
Proof.
  set (r := waitForProvisionMessage toy_ciphers toy_parser no_fault no_fault Opened 0 0
     [(200, Address "addr"); (61000, Envelope (7 :: toy_body))] linking).
  apply (linked_message_authentic toy_ciphers toy_parser no_fault no_fault Opened 0 0
     [(200, Address "addr"); (61000, Envelope (7 :: toy_body))] linking _ r.2).
  - reflexivity.
  - vm_compute. reflexivity.
Defined.
