(* ===== verification/Registration.v ===== *)
(** The registration service (src/gendb/RegistrationServiceClient.cpp).

    The service's answers are parameters: what each asynchronous call
    completes with, and what the session shows, given the calls made so far.
    The objects the client makes, the request it builds and the calls it makes
    are the model's. *)

From S2P Require Import Prelude Storage Crypto PreKeys LinkCiphers Handles Png.

Open Scope Z_scope.

(** ** Data *)

Record RegistrationSessionState := mkSession { allowedToRequestCode : bool; requestedInformation : list string }.

(** A public prekey as libsignal is given it. *)
Record public_pre_key := mkPublicPreKey { pk_id : Z; pk_bytes : Bytes; pk_signature : Bytes }.

Record register_request := mkRequest {
  rq_password : option string; rq_skip_transfer : bool;
  rq_aci_identity : option Bytes; rq_pni_identity : option Bytes;
  rq_aci_signed : option public_pre_key; rq_pni_signed : option public_pre_key;
  rq_aci_kyber : option public_pre_key; rq_pni_kyber : option public_pre_key;
}.
Definition empty_request : register_request := mkRequest None false None None None None None None.

Record account_attributes := mkAttributes {
  at_recovery_password : Bytes; at_registration_id : Z; at_pni_registration_id : Z; at_registration_lock : option string;
  at_unidentified_access_key : Bytes; at_unrestricted : bool; at_capabilities : string * list nat; at_discoverable : bool;
}.

Inductive robject :=
| RRuntime | RRemoteConfig | RManager | RService | RSession
| RPublicKey (bytes : Bytes) | RKyberKey (bytes : Bytes)
| RRequest (r : register_request) | RAttributes (a : account_attributes)
| RResponse (aci pni : string).

(** A call that went to the service. *)
Inductive reg_call :=
| CreateSession (e164 : string) | ResumeSession (sessionId e164 : string)
| SubmitCaptcha (token : string) | RequestCode (transport client : string) | SubmitCode (code : string)
| RegisterAccount (r : register_request) (a : account_attributes).

Record reg_server := mkServer {
  replies : list reg_call -> outcome unit;                 (* to the last call *)
  registered_as : list reg_call -> outcome (string * string);
  session_allowed : list reg_call -> bool;
  session_requested : list reg_call -> Bytes;
  session_verified : list reg_call -> bool;
  session_id : list reg_call -> string;
}.

Record registrar := mkRegistrar {
  r_heap : heap robject; r_runtime : nat; r_manager : nat; r_service : option nat; r_calls : list reg_call }.

#[export] Instance has_r_heap : Has (heap robject) registrar := {|
  prj := r_heap; put h r := mkRegistrar h (r_runtime r) (r_manager r) (r_service r) (r_calls r) |}.

Definition set_service (h : nat) (r : registrar) : registrar :=
  mkRegistrar (r_heap r) (r_runtime r) (r_manager r) (Some h) (r_calls r).
Definition log_call (c : reg_call) (r : registrar) : registrar :=
  mkRegistrar (r_heap r) (r_runtime r) (r_manager r) (r_service r) (r_calls r ++ [c]).

(** ** Helpers *)

Definition challengeOptionName (discriminant : Z) : string :=
  if bool_decide (discriminant = 0) then "pushChallenge"
  else if bool_decide (discriminant = 1) then "captcha" else "unknown".

(** BorrowedBytestrings: the items one after the other, and their lengths. *)
Definition makeBytestrings (items : list string) : string * list nat :=
  foldl (fun '(concatenated, lengths) s => (String.append concatenated s, lengths ++ [String.length s])) (EmptyString, []) items.

Section Client.
Context (server : reg_server) (ffi_fault : nat -> bool).

Definition makeConnectionManager : Comp (heap robject) nat :=
  remoteConfig ← acquire ffi_fault "signal_bridged_string_map_new" RRemoteConfig;
  manager ← acquire ffi_fault "signal_connection_manager_new" RManager;
  release ffi_fault "signal_bridged_string_map_destroy" remoteConfig ;;
  mret manager.

(** Impl's constructor and destructor. *)
Definition construct : Comp (heap robject) (nat * nat) :=
  runtime ← acquire ffi_fault "signal_tokio_async_context_new" RRuntime;
  manager ← makeConnectionManager;
  mret (runtime, manager).
Definition destruct_ : Comp registrar unit :=
  s ← get;
  match r_service s with
  | Some h => lift (release_quietly ffi_fault "signal_registration_service_destroy" h)
  | None => mret tt
  end ;;
  lift (release_quietly ffi_fault "signal_connection_manager_destroy" (r_manager s)) ;;
  lift (release_quietly ffi_fault "signal_tokio_async_context_destroy" (r_runtime s)).

(** An asynchronous call: started, sent, and waited for. *)
Definition call {A} (what : string) (c : reg_call) (reply : list reg_call -> outcome A) : Comp registrar A :=
  lift (checked ffi_fault what) ;;
  modify (log_call c) ;;
  l ← gets r_calls;
  of_outcome (reply l).

Definition runCreateOrResume (what : string) (c : reg_call) : Comp registrar unit :=
  call what c (replies server) ;;
  h ← lift (insert_object RService);
  modify (set_service h).
Definition runBoolCall (what : string) (c : reg_call) : Comp registrar unit := call what c (replies server).

Definition currentSessionState : Comp registrar RegistrationSessionState :=
  session ← lift (acquire ffi_fault "signal_registration_service_registration_session" RSession);
  lift (checked ffi_fault "get_allowed_to_request_code") ;;
  lift (checked ffi_fault "get_requested_information") ;;
  l ← gets r_calls;
  lift (release ffi_fault "signal_registration_session_destroy" session) ;;
  mret (mkSession (session_allowed server l) (map challengeOptionName (session_requested server l))).

Definition sessionId : Comp registrar string :=
  lift (checked ffi_fault "signal_registration_service_session_id") ;;
  gets (fun s => session_id server (r_calls s)).

Definition createSession (e164 : string) : Comp registrar RegistrationSessionState :=
  runCreateOrResume "create_session" (CreateSession e164) ;; currentSessionState.
Definition resumeSession (id e164 : string) : Comp registrar RegistrationSessionState :=
  runCreateOrResume "resume_session" (ResumeSession id e164) ;; currentSessionState.
Definition submitCaptcha (token : string) : Comp registrar RegistrationSessionState :=
  runBoolCall "submit_captcha" (SubmitCaptcha token) ;; currentSessionState.
Definition requestVerificationCode (transport : string) : Comp registrar RegistrationSessionState :=
  runBoolCall "request_verification_code" (RequestCode transport "signal2sip") ;; currentSessionState.

(** A rejection is not final: the session says whether it is verified. *)
Definition submitVerificationCode (code : string) : Comp registrar bool :=
  catch_std (runBoolCall "submit_verification_code" (SubmitCode code)) (fun _ => mret tt) ;;
  session ← lift (acquire ffi_fault "signal_registration_service_registration_session" RSession);
  lift (checked ffi_fault "get_verified") ;;
  verified ← gets (fun s => session_verified server (r_calls s));
  lift (release ffi_fault "signal_registration_session_destroy" session) ;;
  mret verified.

(** *** registerAccount *)

Definition update_request (h : nat) (f : register_request -> register_request) : Comp (heap robject) unit :=
  modify (fun s => mkHeap (alter (fun o => match o with RRequest r => RRequest (f r) | _ => o end) h (objects s))
                     (next_object s) (ffi_made s)).
(** A setter of the request. *)
Definition set_request (what : string) (h : nat) (f : register_request -> register_request) : Comp (heap robject) unit :=
  checked ffi_fault what ;; update_request h f.

Definition set_aci_identity (k : Bytes) (r : register_request) : register_request :=
  mkRequest (rq_password r) (rq_skip_transfer r) (Some k) (rq_pni_identity r) (rq_aci_signed r) (rq_pni_signed r)
    (rq_aci_kyber r) (rq_pni_kyber r).
Definition set_pni_identity (k : Bytes) (r : register_request) : register_request :=
  mkRequest (rq_password r) (rq_skip_transfer r) (rq_aci_identity r) (Some k) (rq_aci_signed r) (rq_pni_signed r)
    (rq_aci_kyber r) (rq_pni_kyber r).
Definition set_signed_key (pni : bool) (k : public_pre_key) (r : register_request) : register_request :=
  mkRequest (rq_password r) (rq_skip_transfer r) (rq_aci_identity r) (rq_pni_identity r)
    (if pni then rq_aci_signed r else Some k) (if pni then Some k else rq_pni_signed r) (rq_aci_kyber r) (rq_pni_kyber r).
Definition set_kyber_key (pni : bool) (k : public_pre_key) (r : register_request) : register_request :=
  mkRequest (rq_password r) (rq_skip_transfer r) (rq_aci_identity r) (rq_pni_identity r) (rq_aci_signed r) (rq_pni_signed r)
    (if pni then rq_aci_kyber r else Some k) (if pni then Some k else rq_pni_kyber r).

Definition public_of_wire (k : WirePreKey) : public_pre_key := mkPublicPreKey (u32 (keyId k)) (publicKey k) (signature k).

Definition setSignedPreKey (request : nat) (pni : bool) (k : WirePreKey) : Comp (heap robject) unit :=
  pub ← acquire ffi_fault "signal_publickey_deserialize" (RPublicKey (publicKey k));
  set_request "set_identity_signed_pre_key" request (set_signed_key pni (public_of_wire k)) ;;
  release ffi_fault "signal_publickey_destroy" pub.
Definition setKyberPreKey (request : nat) (pni : bool) (k : WirePreKey) : Comp (heap robject) unit :=
  pub ← acquire ffi_fault "signal_kyber_public_key_deserialize" (RKyberKey (publicKey k));
  set_request "set_identity_pq_last_resort_pre_key" request (set_kyber_key pni (public_of_wire k)) ;;
  release ffi_fault "signal_kyber_public_key_destroy" pub.

(** Both identities: the two public keys live until both are set. *)
Definition set_identities (request : nat) (aciKey pniKey : Bytes) : Comp (heap robject) unit :=
  aciPublicKey ← acquire ffi_fault "signal_publickey_deserialize" (RPublicKey aciKey);
  pniPublicKey ← acquire ffi_fault "signal_publickey_deserialize" (RPublicKey pniKey);
  set_request "set_identity_public_key" request (set_aci_identity aciKey) ;;
  set_request "set_identity_public_key" request (set_pni_identity pniKey) ;;
  release ffi_fault "signal_publickey_destroy" aciPublicKey ;;
  release ffi_fault "signal_publickey_destroy" pniPublicKey.

(** The four prekeys of a new account, as generated. *)
Record GeneratedPrekeys := mkGenerated {
  aciSignedPreKey : WirePreKey * SignedPrekeyRecord; pniSignedPreKey : WirePreKey * SignedPrekeyRecord;
  aciKyberPreKey : WirePreKey * KyberPrekeyRecord; pniKyberPreKey : WirePreKey * KyberPrekeyRecord;
}.

Definition build_request (accountPassword : string) (aciIdentity pniIdentity : KeyPair) (prekeys : GeneratedPrekeys) :
    Comp (heap robject) nat :=
  request ← acquire ffi_fault "signal_register_account_request_create" (RRequest empty_request);
  set_request "set_account_password" request (fun r =>
    mkRequest (Some accountPassword) (rq_skip_transfer r) (rq_aci_identity r) (rq_pni_identity r) (rq_aci_signed r)
      (rq_pni_signed r) (rq_aci_kyber r) (rq_pni_kyber r)) ;;
  set_request "set_skip_device_transfer" request (fun r =>
    mkRequest (rq_password r) true (rq_aci_identity r) (rq_pni_identity r) (rq_aci_signed r) (rq_pni_signed r)
      (rq_aci_kyber r) (rq_pni_kyber r)) ;;
  set_identities request (kp_publicKey aciIdentity) (kp_publicKey pniIdentity) ;;
  setSignedPreKey request false (aciSignedPreKey prekeys).1 ;;
  setSignedPreKey request true (pniSignedPreKey prekeys).1 ;;
  setKyberPreKey request false (aciKyberPreKey prekeys).1 ;;
  setKyberPreKey request true (pniKyberPreKey prekeys).1 ;;
  mret request.

Definition attributes_for (registrationId pniRegistrationId : Z) : account_attributes :=
  mkAttributes [] (u16 registrationId) (u16 pniRegistrationId) None (repeat 0 16) true
    (makeBytestrings ["spqr"; "usernameChangeSyncMessage"]) true.

(** What the request object holds when it is sent. *)
Definition request_at (h : nat) : Comp (heap robject) register_request :=
  gets (fun s => match objects s !! h with Some (RRequest r) => r | _ => empty_request end).

Definition destroy_both (request attributes : nat) : Comp registrar unit :=
  lift (release ffi_fault "signal_register_account_request_destroy" request) ;;
  lift (release ffi_fault "signal_registration_account_attributes_destroy" attributes).

(** The response, whose identities are those of the new account. *)
Definition read_response (ids : string * string) : Comp registrar (string * string) :=
  response ← lift (insert_object (RResponse ids.1 ids.2));
  lift (checked ffi_fault "get_identity aci") ;;
  lift (checked ffi_fault "signal_service_id_service_id_string") ;;
  lift (checked ffi_fault "get_identity pni") ;;
  lift (checked ffi_fault "signal_service_id_service_id_string") ;;
  lift (release ffi_fault "signal_register_account_response_destroy" response) ;;
  mret ids.

Definition registerAccount (accountPassword : string) (registrationId pniRegistrationId : Z)
    (aciIdentity pniIdentity : KeyPair) (prekeys : GeneratedPrekeys) : Comp registrar (string * string) :=
  request ← lift (build_request accountPassword aciIdentity pniIdentity prekeys);
  attributes ← lift (acquire ffi_fault "signal_registration_account_attributes_create"
                       (RAttributes (attributes_for registrationId pniRegistrationId)));
  catch_std (lift (checked ffi_fault "signal_registration_service_register_account"))
    (fun w => destroy_both request attributes ;; throw_std w) ;;
  r ← lift (request_at request);
  modify (log_call (RegisterAccount r (attributes_for registrationId pniRegistrationId))) ;;
  l ← gets r_calls;
  destroy_both request attributes ;;
  ids ← of_outcome (registered_as server l);
  read_response ids.
End Client.

(** ** Lemmas *)

(** What the service must be given: registering panics inside libsignal when
    one of the six keys is missing. *)
Definition full_request (accountPassword : string) (aciIdentity pniIdentity : KeyPair) (prekeys : GeneratedPrekeys) :
    register_request :=
  mkRequest (Some accountPassword) true (Some (kp_publicKey aciIdentity)) (Some (kp_publicKey pniIdentity))
    (Some (public_of_wire (aciSignedPreKey prekeys).1)) (Some (public_of_wire (pniSignedPreKey prekeys).1))
    (Some (public_of_wire (aciKyberPreKey prekeys).1)) (Some (public_of_wire (pniKyberPreKey prekeys).1)).

(** The request [r] is behind handle [q], the other objects are [m]. *)
Definition at_req (m : gmap nat robject) (q : nat) (r : register_request) (s : heap robject) : Prop :=
  objects s = <[q := RRequest r]> m /\ m !! q = None /\ fresh_heap s.

Section request.
Context (ffi_fault : nat -> bool).
Notation F := (exists n, ffi_fault n = true).

Lemma checked_yields what m q r :
  yields F (at_req m q r) (checked ffi_fault what) (fun _ => at_req m q r).
Proof. intros s Hs. unfold checked. destruct (ffi_fault (ffi_made s)) eqn:E; [by eexists|done]. Qed.

Lemma update_yields f m q r :
  yields F (at_req m q r) (update_request q f) (fun _ => at_req m q (f r)).
Proof.
  intros [o n k] (Ho & Hm & Hf). cbn in *. unfold at_req. cbn. subst o.
  rewrite alter_insert_eq. split_and!; [done|done|]. intros h Hh. specialize (Hf h Hh). cbn in *.
  destruct (decide (q = h)) as [->|Hne]; [by rewrite lookup_insert_eq in Hf|by rewrite lookup_insert_ne in Hf |- *].
Qed.

Lemma set_request_yields what f m q r :
  yields F (at_req m q r) (set_request ffi_fault what q f) (fun _ => at_req m q (f r)).
Proof. eapply yields_bind; [apply checked_yields|intros ?; apply update_yields]. Qed.

Lemma acquire_yields what o m q r :
  yields F (at_req m q r) (acquire ffi_fault what o)
    (fun h s => at_req (<[h := o]> m) q r s /\ m !! h = None /\ h <> q).
Proof.
  eapply yields_bind; [apply checked_yields|intros ?]. intros [obj n k] (Ho & Hm & Hf). cbn in *. subst obj.
  pose proof (Hf n (le_n n)) as Hn. cbn in Hn. apply lookup_insert_None in Hn as [Hn Hne].
  unfold at_req. cbn. split_and!; [by rewrite insert_insert_ne|by rewrite lookup_insert_ne| |done|done].
  intros h Hh. cbn in *. rewrite lookup_insert_ne by lia. apply Hf. cbn. lia.
Qed.

Lemma release_yields what h m q r : h <> q ->
  yields F (at_req m q r) (release ffi_fault what h) (fun _ => at_req (delete h m) q r).
Proof.
  intros Hne. eapply yields_bind; [apply checked_yields|intros ?]. intros [obj n k] (Ho & Hm & Hf). cbn in *. subst obj.
  unfold at_req. cbn. split_and!; [by rewrite delete_insert_ne|by rewrite lookup_delete_ne|].
  intros x Hx. cbn. apply lookup_delete_None. right. by apply Hf.
Qed.

(** A key that lives only while the request's field is set from it. *)
Lemma scoped_yields what1 o what2 f what3 m q r :
  yields F (at_req m q r)
    (h ← acquire ffi_fault what1 o; set_request ffi_fault what2 q f ;; release ffi_fault what3 h)
    (fun _ => at_req m q (f r)).
Proof.
  eapply yields_bind; [apply acquire_yields|intros h]. intros s (Hs & Hm & Hne).
  refine (yields_bind F (at_req (<[h := o]> m) q r) _ (fun _ => at_req (<[h := o]> m) q (f r)) _ _ _ _ s Hs);
    [apply set_request_yields|intros ?].
  eapply yields_weaken; [by apply release_yields|done|]. intros ? s' H'. cbn in H'.
  by rewrite delete_insert_id in H'.
Qed.
End request.

Lemma foldl_bytestrings items c l :
  foldl (fun '(concatenated, lengths) s => (String.append concatenated s, lengths ++ [String.length s])) (c, l) items =
  (String.append c (foldr String.append EmptyString items), l ++ map String.length items).
Proof.
  revert c l. induction items as [|s items IH]; intros c l; cbn; [by rewrite str_app_nil_r, app_nil_r|].
  by rewrite IH, str_app_assoc, <- app_assoc.
Qed.

(** ** Registering *)

Section register.
Context (server : reg_server) (ffi_fault : nat -> bool).
Context (accountPassword : string) (registrationId pniRegistrationId : Z) (aciIdentity pniIdentity : KeyPair)
  (prekeys : GeneratedPrekeys).
Notation F := (exists n, ffi_fault n = true).
Notation full := (full_request accountPassword aciIdentity pniIdentity prekeys).
Notation attributes := (attributes_for registrationId pniRegistrationId).

Lemma set_identities_yields m q r k1 k2 :
  yields F (at_req m q r) (set_identities ffi_fault q k1 k2)
    (fun _ => at_req m q (set_pni_identity k2 (set_aci_identity k1 r))).
Proof.
  eapply yields_bind; [apply acquire_yields|intros a s (Hs & Ha & Hne)]. revert s Hs.
  eapply yields_bind; [apply acquire_yields|intros p s (Hs & Hp & Hne')]. revert s Hs.
  apply lookup_insert_None in Hp as [Hp Hap].
  eapply yields_bind; [apply set_request_yields|intros ?]. eapply yields_bind; [apply set_request_yields|intros ?].
  eapply yields_bind; [by apply release_yields|intros ?].
  eapply yields_weaken; [by apply release_yields|done|]. intros ? s H. cbn in H.
  rewrite delete_insert_ne, !delete_insert_eq, !delete_id in H; try done. by rewrite lookup_delete_ne.
Qed.

Lemma create_request_yields m :
  yields F (fun s => objects s = m /\ fresh_heap s)
    (acquire ffi_fault "signal_register_account_request_create" (RRequest empty_request))
    (fun q => at_req m q empty_request).
Proof.
  intros [obj n k] [Ho Hf]. cbn in Ho. subst obj. unfold acquire, mbind, comp_bind, checked, insert_object. cbn.
  destruct (ffi_fault k) eqn:E; [by eexists|]. split_and!; [done|by apply Hf; cbn|]. intros h Hh. cbn in *.
  rewrite lookup_insert_ne by lia. apply Hf. cbn. lia.
Qed.

Lemma build_request_yields m :
  yields F (fun s => objects s = m /\ fresh_heap s)
    (build_request ffi_fault accountPassword aciIdentity pniIdentity prekeys) (fun q => at_req m q full).
Proof.
  eapply yields_bind; [apply create_request_yields|intros q].
  eapply yields_bind; [apply set_request_yields|intros ?]. eapply yields_bind; [apply set_request_yields|intros ?].
  eapply yields_bind; [apply set_identities_yields|intros ?].
  do 4 (eapply yields_bind; [apply scoped_yields|intros ?]). by apply yields_ret.
Qed.

(** What follows the call keeps the log. *)
Lemma lift_log {A} (f : Comp (heap robject) A) l : preserves (fun s => r_calls s = l) (lift f : Comp registrar A).
Proof. intros s Hs. unfold lift. by destruct (f (prj s)). Qed.
Lemma destroy_both_log q a l : preserves (fun s => r_calls s = l) (destroy_both ffi_fault q a).
Proof. apply preserves_bind; [apply lift_log|intros ?; apply lift_log]. Qed.
Lemma read_response_log ids l : preserves (fun s => r_calls s = l) (read_response ffi_fault ids).
Proof.
  apply preserves_bind; [apply lift_log|intros h]. do 5 (apply preserves_bind; [apply lift_log|intros ?]). apply preserves_ret.
Qed.

Lemma read_response_returns ids s ids' s' : read_response ffi_fault ids s = (Ok ids', s') -> ids' = ids.
Proof. intros H. do 6 (apply bind_inv_ok in H as (? & ? & _ & H)). by injection H as <- _. Qed.

Lemma finish_spec q a l s :
  r_calls s = l ->
  let '(o, s') := (destroy_both ffi_fault q a ;; ids ← of_outcome (registered_as server l); read_response ffi_fault ids) s in
  r_calls s' = l /\ forall ids, o = Ok ids -> registered_as server l = Ok ids.
Proof.
  intros Hl. pose proof (destroy_both_log q a l s Hl) as H1.
  destruct (destroy_both ffi_fault q a s) as [[[]|e] s1] eqn:E1; [|by rewrite (bind_throw _ _ _ _ _ E1)].
  rewrite (bind_ok _ _ _ _ _ E1). cbn [snd] in H1. unfold of_outcome, mbind, comp_bind.
  destruct (registered_as server l) as [ids|e]; [|done]. pose proof (read_response_log ids l s1 H1) as H2.
  destruct (read_response ffi_fault ids s1) as [o s2] eqn:E2. split; [done|]. intros ids' ->. f_equal. symmetry.
  by eapply read_response_returns.
Qed.
End register.

(** Without failures the tail leaves the objects there were before the
    request. *)
Lemma finish_ok server m q a r at_ l s :
  q <> a -> m !! q = None -> m !! a = None -> r_calls s = l ->
  objects (r_heap s) = <[q := RRequest r]> (<[a := RAttributes at_]> m) -> fresh_heap (r_heap s) ->
  let '(o, s') := (destroy_both never_fails q a ;; ids ← of_outcome (registered_as server l); read_response never_fails ids) s in
  o = registered_as server l /\ objects (r_heap s') = m.
Proof.
  intros Hne Hq Ha Hl Ho Hf. destruct s as [[obj n k] rt mg sv cl]. cbn in Ho, Hl. subst obj cl.
  assert (delete a (delete q (<[q:=RRequest r]> (<[a:=RAttributes at_]> m))) = m) as Hd.
  { rewrite delete_insert_eq, delete_insert_ne, delete_insert_eq by done. by rewrite (delete_id m q), (delete_id m a). }
  erewrite bind_ok by (unfold destroy_both, lift, release, checked, delete_object, modify, mbind, comp_bind; cbn; reflexivity).
  unfold of_outcome, mbind at 1, comp_bind at 1. cbv beta. cbn. rewrite Hd.
  destruct (registered_as server l) as [[x y]|e]; [|done].
  change (Ok (x, y) = Ok (x, y) /\ delete n (<[n := RResponse x y]> m) = m). split; [done|]. apply delete_insert_id. pose proof (Hf n (le_n n)) as Hn. cbn in Hn.
  apply lookup_insert_None in Hn as [Hn _]. by apply lookup_insert_None in Hn as [Hn _].
Qed.

(** What [registerAccount] does, whatever fails. *)
Lemma registerAccount_spec server ffi_fault accountPassword registrationId pniRegistrationId aciIdentity pniIdentity
    prekeys s (Hfresh : fresh_heap (r_heap s)) :
  let sent := r_calls s ++ [RegisterAccount (full_request accountPassword aciIdentity pniIdentity prekeys)
                              (attributes_for registrationId pniRegistrationId)] in
  let '(o, s') := registerAccount server ffi_fault accountPassword registrationId pniRegistrationId aciIdentity pniIdentity
                    prekeys s in
  (r_calls s' = r_calls s \/ r_calls s' = sent) /\
  (forall ids, o = Ok ids -> r_calls s' = sent /\ registered_as server sent = Ok ids) /\
  (ffi_fault = never_fails -> o = registered_as server sent /\ r_calls s' = sent /\ objects (r_heap s') = objects (r_heap s)).
Proof.
  intros sent. assert (forall e s1, (exists n, ffi_fault n = true) -> r_calls s1 = r_calls s ->
    (r_calls s1 = r_calls s \/ r_calls s1 = sent) /\
    (forall ids, Throw e = Ok ids -> r_calls s1 = sent /\ registered_as server sent = Ok ids) /\
    (ffi_fault = never_fails -> Throw e = registered_as server sent /\ r_calls s1 = sent /\
       objects (r_heap s1) = objects (r_heap s))) as Hearly.
  { intros e s1 [n Hn] Hc. split_and!; [by left|done|by intros ->]. }
  unfold registerAccount. unfold mbind at 1, comp_bind at 1, lift at 1. cbn [prj has_r_heap].
  pose proof (build_request_yields ffi_fault accountPassword aciIdentity pniIdentity prekeys (objects (r_heap s))
    (r_heap s) (conj eq_refl Hfresh)) as Hb.
  destruct (build_request _ _ _ _ _ (r_heap s)) as [[q|e] h1]; [|by apply Hearly].
  unfold mbind at 1, comp_bind at 1, lift at 1. cbn [prj put has_r_heap r_heap].
  pose proof (acquire_yields ffi_fault "signal_registration_account_attributes_create"
    (RAttributes (attributes_for registrationId pniRegistrationId)) _ _ _ h1 Hb) as Ha.
  destruct (acquire _ _ _ h1) as [[a|e] h2]; [|by apply Hearly]. destruct Ha as ((Ho & Hq & Hf2) & Ha & Hne).
  unfold mbind at 1, comp_bind at 1, catch_std, lift at 1, checked at 1. cbn [prj put has_r_heap r_heap].
  destruct (ffi_fault (ffi_made h2)) eqn:Ef.
  { match goal with |- context [(destroy_both ?f ?q ?a ;; _) ?x] =>
      pose proof (destroy_both_log f q a (r_calls s) x eq_refl) as Hd; destruct (destroy_both f q a x) as [[u|e] s1] eqn:Ed end.
    - rewrite (bind_ok _ _ _ _ _ Ed). apply Hearly; [by eexists|done].
    - rewrite (bind_throw _ _ _ _ _ Ed). apply Hearly; [by eexists|done]. }
  erewrite bind_ok; [|unfold lift, request_at, gets; cbn; rewrite Ho, lookup_insert_eq; reflexivity]. cbv beta.
  erewrite bind_ok; [|reflexivity]. cbv beta. erewrite bind_ok; [|reflexivity]. cbv beta.
  match goal with |- context [(destroy_both _ _ _ ≫= _) ?x] => set (s1 := x) end. change (r_calls (log_call _ _)) with sent.
  assert (r_calls s1 = sent) as Hl by reflexivity.
  pose proof (finish_spec server ffi_fault q a sent s1 Hl) as H1.
  pose proof (fun E : ffi_fault = never_fails => finish_ok server (objects (r_heap s)) q a _ _ sent s1 ltac:(done) ltac:(by apply lookup_insert_None in Hq as [Hq _])
    Ha Hl ltac:(reflexivity) ltac:(intros x Hx; cbn; rewrite <- Ho; by apply Hf2)) as H2.
  destruct ((destroy_both ffi_fault q a ;; _) s1) as [o s'] eqn:E. destruct H1 as [Hs1 Hs2].
  split_and!; [by right|by intros ids ->; split; [|apply Hs2]|].
  intros ->. rewrite E in H2. by destruct (H2 eq_refl).
Qed.

(** C35: registering sends the service one complete request or none: whatever
    libsignal call fails, the only call [registerAccount] makes is
    register_account, with the password, the device-transfer flag, both
    identity keys and all four prekeys just generated, and it returns the
    service's answer to that very call; when no call fails it does make it, its
    result is the service's, rejection included, and it leaves no object
    behind. *)
Theorem registration_is_complete server ffi_fault accountPassword registrationId pniRegistrationId aciIdentity pniIdentity
    prekeys s (Hfresh : fresh_heap (r_heap s)) :
  let sent := r_calls s ++ [RegisterAccount (full_request accountPassword aciIdentity pniIdentity prekeys)
                              (attributes_for registrationId pniRegistrationId)] in
  let '(o, s') := registerAccount server ffi_fault accountPassword registrationId pniRegistrationId aciIdentity pniIdentity
                    prekeys s in
  (r_calls s' = r_calls s \/ r_calls s' = sent) /\
  (forall ids, o = Ok ids -> r_calls s' = sent /\ registered_as server sent = Ok ids) /\
  (ffi_fault = never_fails -> o = registered_as server sent /\ r_calls s' = sent /\ objects (r_heap s') = objects (r_heap s)).
Proof. exact (registerAccount_spec server ffi_fault accountPassword registrationId pniRegistrationId aciIdentity pniIdentity prekeys s Hfresh). Qed.

(** The server takes any registration that is complete. *)
Definition complete_server : reg_server :=
  mkServer (fun _ => Ok tt) (fun l => match last l with Some (RegisterAccount r _) =>
      match rq_aci_identity r, rq_pni_kyber r with Some _, Some _ => Ok ("aci", "pni") | _, _ => Throw (StdError "panic") end
    | _ => Throw (StdError "unknown") end) (fun _ => true) (fun _ => []) (fun _ => true) (fun _ => "id"%string).
Definition sample_prekeys : GeneratedPrekeys :=
  let k := (mkWire 1 [1] [2], mkSignedPrekey 1 [3]) in let y := (mkWire 1 [4] [5], mkKyberPrekey 1 [6]) in mkGenerated k k y y.
Definition new_registrar : registrar := mkRegistrar (mkHeap ∅ 0 0) 0 1 None [].

Lemma registration_is_complete_witness :
  let sent := [RegisterAccount (full_request "pw" (mkKeyPair [1] [2]) (mkKeyPair [3] [4]) sample_prekeys) (attributes_for 7 8)] in
  let '(o, s') := registerAccount complete_server never_fails "pw" 7 8 (mkKeyPair [1] [2]) (mkKeyPair [3] [4]) sample_prekeys
                    new_registrar in
  (r_calls s' = [] \/ r_calls s' = sent) /\
  (forall ids, o = Ok ids -> r_calls s' = sent /\ registered_as complete_server sent = Ok ids) /\
  (never_fails = never_fails ->
     o = registered_as complete_server sent /\ r_calls s' = sent /\ objects (r_heap s') = objects (r_heap new_registrar)).
Proof.
  exact (registration_is_complete complete_server never_fails "pw" 7 8 (mkKeyPair [1] [2]) (mkKeyPair [3] [4]) sample_prekeys
    new_registrar (fun h _ => eq_refl)).
Defined.

Example complete_server_takes_it :
  (registerAccount complete_server never_fails "pw" 7 8 (mkKeyPair [1] [2]) (mkKeyPair [3] [4]) sample_prekeys new_registrar).1 =
  Ok ("aci"%string, "pni"%string).
Proof. vm_compute. reflexivity. Qed.
