(* ===== verification/AccountFinisher.v ===== *)
(** The last step of creating an account (src/gendb/AccountFinisher.cpp):
    registration ids, the account's first prekeys, and the rows that are
    saved once the server has confirmed the account. *)

From S2P Require Import Prelude Storage ProtocolStores CallSignaling Crypto PreKeys LinkCiphers Registration.

Open Scope Z_scope.

(** The random choices of a run, by the number made before. *)
Record draws := mkDraws {
  draw_id : nat -> Z;                          (* std::uniform_int_distribution(1, 16383) *)
  draw_bytes : nat -> nat -> option Bytes;     (* RAND_bytes: None when it does not return 1 *)
}.

Record FinishedAccount := mkFinished {
  f_e164 : string; f_aci : string; f_pni : string; f_password : string;
  f_deviceId : Z; f_registrationId : Z; f_pniRegistrationId : Z;
  f_aciIdentity : KeyPair; f_pniIdentity : KeyPair; f_prekeys : GeneratedPrekeys;
  f_flow : string;
  f_accountEntropyPool : option string; f_mediaRootBackupKey : option Bytes; f_profileKey : option Bytes;
}.

Section Finish.
Context (lib : prekey_lib) (ffi_fault : nat -> bool) (nowMs : Z).

Definition generatePrekeys (aciPrivateKey pniPrivateKey : Bytes) (id : Z) : Comp pstate GeneratedPrekeys :=
  aciSigned ← generateSignedPreKey lib ffi_fault nowMs aciPrivateKey id;
  pniSigned ← generateSignedPreKey lib ffi_fault nowMs pniPrivateKey id;
  aciKyber ← generateKyberPreKey lib ffi_fault nowMs aciPrivateKey id;
  pniKyber ← generateKyberPreKey lib ffi_fault nowMs pniPrivateKey id;
  mret (mkGenerated aciSigned pniSigned aciKyber pniKyber).
End Finish.

(** The row of a finished account, [now] in seconds; the fields the record
    leaves alone have their initial values. *)
Definition finished_record (now : Z) (a : FinishedAccount) : AccountRecord :=
  let standalone := str_eqb (f_flow a) "standalone" in
  mkAccount (f_e164 a) (f_aci a) (f_pni a) (f_password a) (f_deviceId a) (f_registrationId a) (f_pniRegistrationId a)
    (Some (f_flow a)) (f_accountEntropyPool a) (f_mediaRootBackupKey a) (f_profileKey a)
    (if standalone then Some now else None) (if standalone then None else Some now) None
    "" "" "" "" "" "" "disabled" "udp" "" false "" "" false true 0.

Definition keypair_of (k : KeyPair) : IdentityKeypairRecord := mkKeypair (kp_privateKey k) (kp_publicKey k).

Section Save.
Context (fault : nat -> bool) (acct : string) (now : Z).

Definition saveFinishedAccount (a : FinishedAccount) : Comp conn unit :=
  saveAccount fault acct (finished_record now a) ;;
  saveIdentityKeypair fault acct "aci" (keypair_of (f_aciIdentity a)) ;;
  saveIdentityKeypair fault acct "pni" (keypair_of (f_pniIdentity a)) ;;
  saveSignedPrekey fault acct "aci" (aciSignedPreKey (f_prekeys a)).2 ;;
  saveSignedPrekey fault acct "pni" (pniSignedPreKey (f_prekeys a)).2 ;;
  saveKyberPrekey fault acct "aci" (aciKyberPreKey (f_prekeys a)).2 ;;
  saveKyberPrekey fault acct "pni" (pniKyberPreKey (f_prekeys a)).2.
End Save.

(** ** Lemmas *)

(** Each prekey's wire part belongs to its record, and is signed by its own
    identity's key. *)
Definition prekeys_match (lib : prekey_lib) (aciPrivateKey pniPrivateKey : Bytes) (p : GeneratedPrekeys) : Prop :=
  signed_matches lib aciPrivateKey (aciSignedPreKey p).1 (aciSignedPreKey p).2 /\
  signed_matches lib pniPrivateKey (pniSignedPreKey p).1 (pniSignedPreKey p).2 /\
  kyber_matches lib aciPrivateKey (aciKyberPreKey p).1 (aciKyberPreKey p).2 /\
  kyber_matches lib pniPrivateKey (pniKyberPreKey p).1 (pniKyberPreKey p).2.

Lemma generates_inv {A} (m : Comp pstate A) (Q : A -> Prop) s a s' :
  (forall c l n k, generates c l n Q (m (mkP c l n k))) -> m s = (Ok a, s') -> Q a.
Proof. intros H E. destruct s as [c l n k]. specialize (H c l n k). rewrite E in H. apply H. Qed.

(** Whatever libsignal calls fail, prekeys that are returned match. *)
Lemma generatePrekeys_match lib ff nowMs aciPrivateKey pniPrivateKey id s p s' :
  generatePrekeys lib ff nowMs aciPrivateKey pniPrivateKey id s = (Ok p, s') ->
  prekeys_match lib aciPrivateKey pniPrivateKey p.
Proof.
  unfold generatePrekeys. intros H. do 4 (apply bind_inv_ok in H as (? & ? & ? & H)). injection H as <- _.
  repeat match goal with
  | E : generateSignedPreKey _ _ _ _ _ _ = _ |- _ => apply (generates_inv _ _ _ _ _ (generateSigned_cases _ _ _ _ _)) in E as [_ E]
  | E : generateKyberPreKey _ _ _ _ _ _ = _ |- _ => apply (generates_inv _ _ _ _ _ (generateKyber_cases _ _ _ _ _)) in E as [_ E]
  end. by split_and!.
Qed.

(** The seven rows. *)
Definition finished_db (acct : string) (now : Z) (a : FinishedAccount) (d : db) : db :=
  mkDb (<[acct := take_identity (finished_record now a) (default column_defaults (account d !! acct))]> (account d))
    (<[(acct, "pni"%string) := keypair_of (f_pniIdentity a)]> (<[(acct, "aci"%string) := keypair_of (f_aciIdentity a)]> (identity_keypair d)))
    (<[(acct, "pni"%string) := (pniSignedPreKey (f_prekeys a)).2]> (<[(acct, "aci"%string) := (aciSignedPreKey (f_prekeys a)).2]> (signed_prekey d)))
    (<[(acct, "pni"%string) := (pniKyberPreKey (f_prekeys a)).2]> (<[(acct, "aci"%string) := (aciKyberPreKey (f_prekeys a)).2]> (kyber_prekey d)))
    (session d) (remote_identity d) (resolved_contact d) (synced_contact d) (synced_seq d).

Section save_lemmas.
Context (fault : nat -> bool) (acct : string).

(** A write to a child row of an account that is there, before the rest of a
    save. *)
Definition has_row (c : conn) : Prop := is_Some (account (cdb c) !! acct).

(** What a save may leave: everything, or, if it throws, at least the row. *)
Definition saves (m : Comp conn unit) (g : db -> db) : Prop :=
  forall c, has_row c ->
  match m c with
  | (Ok _, c') => cdb c' = g (cdb c) /\ saved c' = saved c /\ has_row c'
  | (Throw e, c') => is_std e /\ has_row c' /\ saved c' = saved c
  end.

Lemma saves_write what g h :
  (forall d, is_Some (account d !! acct) -> g d = Some (h d) /\ account (h d) = account d) ->
  saves (write fault what g) h.
Proof.
  intros Hg c Hc. destruct (Hg _ Hc) as [E Ha]. destruct (write_cases fault what g c) as [n [[w ->]|(d' & Hd & ->)]]; [done|].
  rewrite E in Hd. injection Hd as <-. split_and!; [done|done|]. unfold has_row. cbn. by rewrite Ha.
Qed.

Lemma saves_bind m g (k : unit -> Comp conn unit) h : saves m g -> (forall u, saves (k u) h) -> saves (m ≫= k) (fun d => h (g d)).
Proof.
  intros Hm Hk c Hc. specialize (Hm c Hc). unfold mbind, comp_bind. destruct (m c) as [[u|e] c1]; [|done].
  destruct Hm as (Hd & Hs & Hr). specialize (Hk u c1 Hr). destruct (k u c1) as [[u'|e] c2]; [by rewrite Hd, Hs in Hk|].
  by rewrite Hs in Hk.
Qed.

Lemma fk_ok_has d : is_Some (account d !! acct) -> fk_ok acct d = true.
Proof. apply bool_decide_eq_true_2. Qed.

Lemma saves_keypair i k : identity_ok i = true ->
  saves (saveIdentityKeypair fault acct i k) (set_keypair (insert (acct, i) k)).
Proof. intros Hi. apply saves_write. intros d Hd. by rewrite Hi, (fk_ok_has d Hd). Qed.
Lemma saves_signed i k : identity_ok i = true ->
  saves (saveSignedPrekey fault acct i k) (set_signed (insert (acct, i) k)).
Proof. intros Hi. apply saves_write. intros d Hd. by rewrite Hi, (fk_ok_has d Hd). Qed.
Lemma saves_kyber i k : identity_ok i = true ->
  saves (saveKyberPrekey fault acct i k) (set_kyber (insert (acct, i) k)).
Proof. intros Hi. apply saves_write. intros d Hd. by rewrite Hi, (fk_ok_has d Hd). Qed.

Lemma saveFinished_cases now a c :
  match saveFinishedAccount fault acct now a c with
  | (Ok _, c') => cdb c' = finished_db acct now a (cdb c) /\ saved c' = saved c
  | (Throw e, c') => is_std e /\ saved c' = saved c /\ (cdb c' = cdb c \/ has_row c')
  end.
Proof.
  unfold saveFinishedAccount, saveAccount. unfold mbind at 1, comp_bind at 1.
  match goal with |- context [write fault ?w ?u c] => destruct (write_cases fault w u c) as [n [[x ->]|(d' & Hd & ->)]] end;
    [split_and!; [done|done|by left]|].
  injection Hd as <-.
  match goal with |- context [mkConn ?d ?s ?n] => set (c1 := mkConn d s n) end.
  assert (has_row c1) as Hr by (unfold has_row, c1; cbn; rewrite lookup_insert_eq; by eexists).
  pose proof (saves_bind _ _ _ _ (saves_keypair "aci" (keypair_of (f_aciIdentity a)) eq_refl) (fun _ =>
    saves_bind _ _ _ _ (saves_keypair "pni" (keypair_of (f_pniIdentity a)) eq_refl) (fun _ =>
    saves_bind _ _ _ _ (saves_signed "aci" (aciSignedPreKey (f_prekeys a)).2 eq_refl) (fun _ =>
    saves_bind _ _ _ _ (saves_signed "pni" (pniSignedPreKey (f_prekeys a)).2 eq_refl) (fun _ =>
    saves_bind _ _ _ _ (saves_kyber "aci" (aciKyberPreKey (f_prekeys a)).2 eq_refl) (fun _ =>
    saves_kyber "pni" (pniKyberPreKey (f_prekeys a)).2 eq_refl))))) c1 Hr) as H.
  match type of H with context [match ?x with _ => _ end] => destruct x as [[u|e] c2] end.
  - by destruct H as (-> & -> & _).
  - destruct H as (He & Hr2 & Hs). split_and!; [done|done|by right].
Qed.
End save_lemmas.
