(* ===== verification/GendbConfig.v ===== *)
(** What signal2sip-gendb's commands do without an account at hand
    (src/gendb/main.cpp): cleaning a captcha token, completing the [global]
    section of the config file on a first run, the editable fields of an
    account's configuration, and the command line. *)

From S2P Require Import Prelude Base64 Storage Config LinkCiphers QrLink Registration AccountFinisher.

Open Scope Z_scope.

(** ** Strings *)

Definition dirName (path : string) : string :=
  match split_last "/"%char path with None => "."%string | Some (d, _) => d end.

Definition quote2 : ascii := ch 34.
Definition quote1 : ascii := ch 39.

(** [token.rfind(prefix, 0) == 0] and what follows the prefix. *)
Definition drop_prefix (p s : string) : string := default s (strip_prefix p s).

Definition unquote (token : string) : string :=
  let both q := bool_decide (first_char token = Some q) && bool_decide (last_char token = Some q) in
  if bool_decide (2 <= String.length token)%nat && (both quote2 || both quote1) then inner token else token.

Definition captcha_prefix : string := "signalcaptcha://".

Definition cleanCaptchaToken (token : string) : string :=
  pop_trailing "/" (drop_prefix captcha_prefix (trim (unquote (trim token)))).

(** ** The config file *)

Definition newline : ascii := ch 10.
Definition nl : string := String newline EmptyString.

(** [while (std::getline(f, line))] *)
Fixpoint getlines (s : string) : list string :=
  match s with
  | EmptyString => []
  | String c s' =>
    if bool_decide (c = newline) then EmptyString :: getlines s'
    else match getlines s' with [] => [String c EmptyString] | l :: ls => String c l :: ls end
  end.

Definition kDefaultDbPath : string := "/var/lib/signal2sip/signal2sip.db".

(** The config file's text, and how many random draws were made. *)
Record boot := mkBoot { config_text : option string; b_draws : nat }.
Definition boot_values (b : boot) : string * string := loadGlobalConfigLenient (getlines <$> config_text b).

Section Bootstrap.
(** The file system: which paths exist, and whether the config file can be
    opened for appending. *)
Context (d : draws) (exists_ : string -> bool) (can_append : bool).

Definition randomBytes (n : nat) : Comp boot Bytes := fun b =>
  (match draw_bytes d (b_draws b) n with Some l => Ok l | None => Throw (StdError "RAND_bytes failed") end,
   mkBoot (config_text b) (S (b_draws b))).

Definition append (text : string) : Comp boot unit :=
  modify (fun b => mkBoot (Some (String.append (default EmptyString (config_text b)) text)) (b_draws b)).

(** The stream is flushed when an exception leaves, too. *)
Definition bootstrapGlobalConfigIfNeeded : Comp boot unit :=
  existing ← gets boot_values;
  let dbPathMissing := str_empty existing.1 in
  let dbKeyMissing := str_empty existing.2 in
  if negb dbPathMissing && negb dbKeyMissing then mret tt else
  let dbPath := if dbPathMissing then kDefaultDbPath else existing.1 in
  if dbKeyMissing && exists_ dbPath then throw_std "[global] db_key is missing but the database already exists" else
  if negb can_append then throw_std "cannot write to config file" else
  append (String.append nl (String.append "[global]" nl)) ;;
  when dbPathMissing (append (String.append "db_path=" (String.append dbPath nl))) ;;
  when dbKeyMissing (
    key ← randomBytes 32;
    append (String.append "db_key=" (String.append (base64NoPadding key) nl))).
End Bootstrap.

(** ** The editable fields *)

Record ConfigField := mkField {
  field_name : string;
  field_get : AccountRecord -> string;
  field_set : AccountRecord -> string -> outcome AccountRecord;
}.

(** The record with its editable columns replaced. *)
Definition with_config (a : AccountRecord) (url host extension pw destination did srtp transport ca : string) (insecure : bool)
    (target proxy : string) (circumvention : bool) : AccountRecord :=
  mkAccount (e164 a) (aci a) (pni a) (password a) (device_id a) (registration_id a) (pni_registration_id a) (flow a)
    (account_entropy_pool a) (media_root_backup_key a) (profile_key a) (registered_at a) (linked_at a) (prekeys_refreshed_at a)
    url host extension pw destination did srtp transport ca insecure target proxy circumvention (enabled a) (config_version a).

Definition yes_no (b : bool) : string := if b then "yes" else "no".
Definition truthy (v : string) : bool := one_of v ["yes"; "true"; "1"].

Definition configFields : list ConfigField := [
  mkField "server_url" server_url (fun a v => Ok (with_config a v (sip_host a) (sip_extension a) (sip_password a)
    (sip_bridge_destination a) (sip_bridge_did a) (sip_srtp a) (sip_transport a) (sip_tls_ca_file a) (sip_tls_insecure a)
    (outgoing_call_target a) (signal_proxy a) (signal_censorship_circumvention a)));
  mkField "sip_host" sip_host (fun a v => Ok (with_config a (server_url a) v (sip_extension a) (sip_password a)
    (sip_bridge_destination a) (sip_bridge_did a) (sip_srtp a) (sip_transport a) (sip_tls_ca_file a) (sip_tls_insecure a)
    (outgoing_call_target a) (signal_proxy a) (signal_censorship_circumvention a)));
  mkField "sip_extension" sip_extension (fun a v => Ok (with_config a (server_url a) (sip_host a) v (sip_password a)
    (sip_bridge_destination a) (sip_bridge_did a) (sip_srtp a) (sip_transport a) (sip_tls_ca_file a) (sip_tls_insecure a)
    (outgoing_call_target a) (signal_proxy a) (signal_censorship_circumvention a)));
  mkField "sip_password" sip_password (fun a v => Ok (with_config a (server_url a) (sip_host a) (sip_extension a) v
    (sip_bridge_destination a) (sip_bridge_did a) (sip_srtp a) (sip_transport a) (sip_tls_ca_file a) (sip_tls_insecure a)
    (outgoing_call_target a) (signal_proxy a) (signal_censorship_circumvention a)));
  mkField "sip_bridge_destination" sip_bridge_destination (fun a v => Ok (with_config a (server_url a) (sip_host a)
    (sip_extension a) (sip_password a) v (sip_bridge_did a) (sip_srtp a) (sip_transport a) (sip_tls_ca_file a)
    (sip_tls_insecure a) (outgoing_call_target a) (signal_proxy a) (signal_censorship_circumvention a)));
  mkField "sip_bridge_did" sip_bridge_did (fun a v => Ok (with_config a (server_url a) (sip_host a) (sip_extension a)
    (sip_password a) (sip_bridge_destination a) v (sip_srtp a) (sip_transport a) (sip_tls_ca_file a) (sip_tls_insecure a)
    (outgoing_call_target a) (signal_proxy a) (signal_censorship_circumvention a)));
  mkField "sip_srtp" sip_srtp (fun a v =>
    if negb (one_of v ["disabled"; "optional"; "mandatory"])
    then Throw (StdError "sip_srtp must be disabled/optional/mandatory") else
    Ok (with_config a (server_url a) (sip_host a) (sip_extension a) (sip_password a)
    (sip_bridge_destination a) (sip_bridge_did a) v (sip_transport a) (sip_tls_ca_file a) (sip_tls_insecure a)
    (outgoing_call_target a) (signal_proxy a) (signal_censorship_circumvention a)));
  mkField "sip_transport" sip_transport (fun a v =>
    if negb (one_of v ["udp"; "tls"]) then Throw (StdError "sip_transport must be udp/tls") else
    Ok (with_config a (server_url a) (sip_host a) (sip_extension a) (sip_password a)
    (sip_bridge_destination a) (sip_bridge_did a) (sip_srtp a) v (sip_tls_ca_file a) (sip_tls_insecure a)
    (outgoing_call_target a) (signal_proxy a) (signal_censorship_circumvention a)));
  mkField "sip_tls_ca_file" sip_tls_ca_file (fun a v => Ok (with_config a (server_url a) (sip_host a) (sip_extension a)
    (sip_password a) (sip_bridge_destination a) (sip_bridge_did a) (sip_srtp a) (sip_transport a) v (sip_tls_insecure a)
    (outgoing_call_target a) (signal_proxy a) (signal_censorship_circumvention a)));
  mkField "sip_tls_insecure" (fun a => yes_no (sip_tls_insecure a)) (fun a v => Ok (with_config a (server_url a) (sip_host a)
    (sip_extension a) (sip_password a) (sip_bridge_destination a) (sip_bridge_did a) (sip_srtp a) (sip_transport a)
    (sip_tls_ca_file a) (truthy v) (outgoing_call_target a) (signal_proxy a) (signal_censorship_circumvention a)));
  mkField "outgoing_call_target" outgoing_call_target (fun a v => Ok (with_config a (server_url a) (sip_host a)
    (sip_extension a) (sip_password a) (sip_bridge_destination a) (sip_bridge_did a) (sip_srtp a) (sip_transport a)
    (sip_tls_ca_file a) (sip_tls_insecure a) v (signal_proxy a) (signal_censorship_circumvention a)));
  mkField "signal_proxy" signal_proxy (fun a v => Ok (with_config a (server_url a) (sip_host a) (sip_extension a)
    (sip_password a) (sip_bridge_destination a) (sip_bridge_did a) (sip_srtp a) (sip_transport a) (sip_tls_ca_file a)
    (sip_tls_insecure a) (outgoing_call_target a) v (signal_censorship_circumvention a)));
  mkField "signal_censorship_circumvention" (fun a => yes_no (signal_censorship_circumvention a)) (fun a v =>
    Ok (with_config a (server_url a) (sip_host a) (sip_extension a) (sip_password a) (sip_bridge_destination a)
    (sip_bridge_did a) (sip_srtp a) (sip_transport a) (sip_tls_ca_file a) (sip_tls_insecure a) (outgoing_call_target a)
    (signal_proxy a) (truthy v)))
].

Definition findConfigField (name : string) : outcome ConfigField :=
  match find (fun f => str_eqb (field_name f) name) configFields with
  | Some f => Ok f
  | None => Throw (StdError "unknown config field")
  end.

(** ** The command line *)

Record ParsedArgs := mkArgs {
  accountName : string; command : string; positional : list string; arg_e164 : string; configPath : string }.

(** The loop over argv: [rest], the last --e164 and the last --config; an
    option that is the last argument is an argument like the others. *)
Fixpoint scan_args (argv rest : list string) (e c : string) : list string * string * string :=
  match argv with
  | [] => (rest, e, c)
  | [arg] => (rest ++ [arg], e, c)
  | arg :: (v :: argv') as tail =>
    if str_eqb arg "--e164" then scan_args argv' rest v c
    else if str_eqb arg "--config" then scan_args argv' rest e v
    else scan_args tail (rest ++ [arg]) e c
  end.

Definition parseArgs (argv : list string) : outcome ParsedArgs :=
  let '(rest, e, c) := scan_args argv [] EmptyString EmptyString in
  match rest with
  | [one] => if str_eqb one "list" then Ok (mkArgs EmptyString "list" [] e c)
             else Throw (StdError "missing <account-name> <command>")
  | account :: cmd :: args => Ok (mkArgs account cmd args e c)
  | [] => Throw (StdError "missing <account-name> <command>")
  end.

(** ** Lemmas: strings *)

Definition blanks (s : string) : Prop := str_all is_blank s = true.

(** A text with a character that is not blank at each end. *)
Definition tight (s : string) : Prop :=
  (forall c, first_char s = Some c -> is_blank c = false) /\ (forall c, last_char s = Some c -> is_blank c = false).

Lemma trim_left_blanks w s : blanks w -> trim_left (String.append w s) = trim_left s.
Proof.
  unfold blanks. induction w as [|c w IH]; [done|]. cbn [str_all]. intros [Hc Hw]%andb_true_iff.
  rewrite str_app_cons. cbn [trim_left]. rewrite Hc. by apply IH.
Qed.

Lemma trim_right_blanks w : blanks w -> trim_right w = EmptyString.
Proof.
  unfold blanks. induction w as [|c w IH]; [done|]. cbn [str_all]. intros [Hc Hw]%andb_true_iff.
  cbn [trim_right]. by rewrite IH, Hc.
Qed.

Lemma last_char_cons c s : s <> EmptyString -> last_char (String c s) = last_char s.
Proof. by destruct s. Qed.

Lemma trim_right_tight s w : (forall c, last_char s = Some c -> is_blank c = false) -> blanks w ->
  trim_right (String.append s w) = s.
Proof.
  intros Hl Hw. induction s as [|c s IH]; [by apply trim_right_blanks|]. rewrite str_app_cons. cbn [trim_right].
  destruct s as [|c' s].
  - rewrite str_app_nil_l, trim_right_blanks by done. by rewrite (Hl c eq_refl).
  - rewrite IH; [done|]. intros c0 Hc0. by apply Hl.
Qed.

Lemma trim_tight w1 s w2 : tight s -> blanks w1 -> blanks w2 ->
  trim (String.append w1 (String.append s w2)) = s.
Proof.
  intros [Hf Hl] H1 H2. unfold trim. rewrite trim_left_blanks by done. destruct s as [|c s].
  - rewrite str_app_nil_l. replace (trim_left w2) with EmptyString; [done|].
    clear Hf Hl. symmetry. rewrite <- (str_app_nil_r w2). rewrite trim_left_blanks; done.
  - rewrite str_app_cons. cbn [trim_left]. rewrite (Hf c eq_refl). rewrite <- str_app_cons. by apply trim_right_tight.
Qed.

Lemma trim_id s : tight s -> trim s = s.
Proof. intros H. pose proof (trim_tight EmptyString s EmptyString H eq_refl eq_refl) as E. by rewrite str_app_nil_l, str_app_nil_r in E. Qed.

Lemma last_char_app s c : last_char (String.append s (String c EmptyString)) = Some c.
Proof. induction s as [|a s IH]; [done|]. rewrite str_app_cons, last_char_cons; [done|]. by destruct s. Qed.

Lemma last_char_app_ne s t : t <> EmptyString -> last_char (String.append s t) = last_char t.
Proof.
  intros Ht. induction s as [|a s IH]; [done|]. rewrite str_app_cons, last_char_cons; [done|]. destruct s; [by rewrite str_app_nil_l|done].
Qed.

Lemma substring_app_mid s t : String.substring 0 (String.length s) (String.append s t) = s.
Proof. induction s as [|a s IH]; [by destruct t|]. rewrite str_app_cons. cbn [String.length String.substring]. by rewrite IH. Qed.

Lemma length_app_str s t : String.length (String.append s t) = (String.length s + String.length t)%nat.
Proof. induction s as [|a s IH]; [done|]. rewrite str_app_cons. cbn [String.length]. by rewrite IH. Qed.

Lemma inner_quoted q s : inner (String q (String.append s (String q EmptyString))) = s.
Proof.
  unfold inner. cbn [String.length String.substring]. rewrite length_app_str. cbn [String.length].
  replace (S (String.length s + 1) - 2)%nat with (String.length s) by lia. apply substring_app_mid.
Qed.

(** ** Cleaning a captcha token *)

(** What a token is: no blank at its ends, not in quotes, without the scheme,
    not ending in a slash. *)
Definition bare_token (t : string) : Prop :=
  t <> EmptyString /\ tight t /\ strip_prefix "signalcaptcha:" t = None /\ last_char t <> Some "/"%char /\
  first_char t <> Some quote2 /\ first_char t <> Some quote1.

Fixpoint slashes_of (n : nat) : string := match n with O => EmptyString | S n => String "/" (slashes_of n) end.

(** How a pasted token comes: as the URL or not, with slashes. *)
Definition pasted (as_url : bool) (slashes : nat) (t : string) : string :=
  String.append (if as_url then captcha_prefix else EmptyString)
    (String.append t (slashes_of slashes)).
(** In quotes or not. *)
Definition quoted (q : option ascii) (s : string) : string :=
  match q with Some c => String c (String.append s (String c EmptyString)) | None => s end.

Lemma pop_slashes t n : (forall c, last_char t = Some c -> c <> "/"%char) ->
  pop_trailing "/" (String.append t (slashes_of n)) = t.
Proof.
  assert (pop_trailing "/" (slashes_of n) = EmptyString) as Hn
    by (induction n as [|n IH]; [done|]; cbn [slashes_of pop_trailing]; by rewrite IH).
  intros Ht. induction t as [|c t IH]; [done|]. rewrite str_app_cons. cbn [pop_trailing]. destruct t as [|c' t].
  - rewrite str_app_nil_l, Hn. by rewrite bool_decide_eq_false_2 by (by apply Ht).
  - rewrite IH; [done|]. intros c0 H0. by apply Ht.
Qed.

Lemma last_slashes n : n <> O -> last_char (slashes_of n) = Some "/"%char.
Proof. induction n as [|[|n] IH]; [done|done|]. intros _. cbn [slashes_of] in *. rewrite last_char_cons by done. by apply IH. Qed.

Lemma pasted_tight u n t : bare_token t ->
  tight (pasted u n t) /\ pasted u n t <> EmptyString /\
  first_char (pasted u n t) <> Some quote2 /\ first_char (pasted u n t) <> Some quote1.
Proof.
  intros (Ht & [Hf Hl] & _ & _ & H2 & H1). unfold pasted.
  assert (first_char (String.append (if u then captcha_prefix else EmptyString) (String.append t (slashes_of n))) =
    if u then Some "s"%char else first_char t) as E.
  { destruct u; [done|]. rewrite str_app_nil_l. by destruct t. }
  split_and!.
  - split.
    + intros c. rewrite E. destruct u; [by intros [= <-]|apply Hf].
    + intros c. rewrite last_char_app_ne by (by destruct t).
      destruct n as [|n]; [rewrite str_app_nil_r; apply Hl|]. rewrite last_char_app_ne by done.
      rewrite last_slashes by done. by intros [= <-].
  - destruct u; [done|]. rewrite str_app_nil_l. by destruct t.
  - rewrite E. by destruct u.
  - rewrite E. by destruct u.
Qed.

Lemma unquote_plain s : first_char s <> Some quote2 -> first_char s <> Some quote1 -> unquote s = s.
Proof.
  intros H2 H1. unfold unquote. rewrite !(bool_decide_eq_false_2 (first_char s = _)) by done. by rewrite andb_false_r.
Qed.
Lemma unquote_quoted q s : q = quote2 \/ q = quote1 -> unquote (quoted (Some q) s) = s.
Proof.
  intros Hq. unfold unquote, quoted.
  assert (last_char (String q (String.append s (String q EmptyString))) = Some q) as Hl
    by (rewrite last_char_cons; [apply last_char_app|by destruct s]).
  rewrite bool_decide_eq_true_2 by (cbn [String.length]; rewrite length_app_str; cbn [String.length]; lia).
  rewrite Hl. cbn [first_char]. destruct Hq as [->| ->]; cbn; apply inner_quoted.
Qed.

Lemma blanks_app s t : blanks s -> blanks t -> blanks (String.append s t).
Proof. unfold blanks. intros H1 H2. by rewrite str_all_app, H1, H2. Qed.

Lemma strip_prefix_slashes p r t n : str_mem "/" p = false -> strip_prefix p t = None ->
  strip_prefix (String.append p r) (String.append t (slashes_of n)) = None.
Proof.
  revert t. induction p as [|c p IH]; intros t; [by destruct t|]. cbn [str_mem]. intros [Hc Hp]%orb_false_iff H.
  rewrite str_app_cons. destruct t as [|c' t].
  - rewrite str_app_nil_l. destruct n as [|n]; [done|]. cbn [slashes_of strip_prefix]. by rewrite Hc.
  - rewrite str_app_cons. cbn [strip_prefix] in *. case_bool_decide; [|done]. by apply IH.
Qed.

(** The token a user pastes is understood however it was copied: with or
    without the signalcaptcha:// scheme, any number of slashes after it, with
    quotes of either kind around it or none, and blanks around the quotes and
    inside them, [cleanCaptchaToken] returns the token itself. *)
Lemma captcha_token_recovered w1 w2 w3 w4 q as_url slashes t
    (Ht : bare_token t) (Hq : q = None \/ q = Some quote2 \/ q = Some quote1)
    (Hw : blanks w1 /\ blanks w2 /\ blanks w3 /\ blanks w4) :
  cleanCaptchaToken (String.append w1 (String.append
    (quoted q (String.append w2 (String.append (pasted as_url slashes t) w3))) w4)) = t.
Proof.
  destruct Hw as (H1 & H2 & H3 & H4). destruct (pasted_tight as_url slashes t Ht) as (Hp & Hne & Hn2 & Hn1).
  assert (trim (unquote (trim (String.append w1 (String.append
    (quoted q (String.append w2 (String.append (pasted as_url slashes t) w3))) w4)))) = pasted as_url slashes t) as E.
  { destruct Hq as [->|Hq].
    - cbn [quoted]. rewrite <- (str_app_assoc w1), !str_app_assoc, <- (str_app_assoc w1 w2).
      rewrite trim_tight; [|done|by apply blanks_app|by apply blanks_app]. by rewrite unquote_plain, trim_id.
    - assert (exists c, q = Some c /\ (c = quote2 \/ c = quote1)) as (c & -> & Hc)
        by (destruct Hq as [->| ->]; eexists; (split; [done|]); tauto).
      rewrite trim_tight; [|split|done|done].
      + rewrite unquote_quoted by done. by apply trim_tight.
      + cbn. intros x [= <-]. by destruct Hc as [->| ->].
      + intros x. cbn [quoted]. rewrite last_char_cons by (by destruct w2, (pasted as_url slashes t)).
        rewrite last_char_app. intros [= <-]. by destruct Hc as [->| ->]. }
  unfold cleanCaptchaToken. rewrite E. unfold pasted, drop_prefix. destruct Ht as (Hne' & _ & Hpre & Hlast & _).
  assert (pop_trailing "/" (String.append t (slashes_of slashes)) = t) as Epop
    by (apply pop_slashes; intros c Hc ->; by apply Hlast).
  destruct as_url.
  - by rewrite strip_prefix_app.
  - rewrite str_app_nil_l. change captcha_prefix with (String.append "signalcaptcha:" "//").
    by rewrite strip_prefix_slashes.
Qed.

Lemma captcha_token_recovered_witness :
  cleanCaptchaToken (String.append " " (String.append
    (quoted (Some quote2) (String.append "" (String.append (pasted true 1 "signal-hcaptcha.5fad97ac") nl))) nl)) =
  "signal-hcaptcha.5fad97ac"%string.
Proof.
  apply (captcha_token_recovered " " "" nl nl (Some quote2) true 1 "signal-hcaptcha.5fad97ac").
  - unfold bare_token. split; [discriminate|]. split; [split; intros c; vm_compute; intros [= <-]; reflexivity|].
    split; [reflexivity|]. split; [discriminate|]. split; discriminate.
  - right. left. reflexivity.
  - repeat split; reflexivity.
Defined.

(** ** The config file *)

Lemma getlines_app c t : exists pad, (pad = [] \/ pad = [EmptyString]) /\
  getlines (String.append c (String newline t)) = getlines c ++ pad ++ getlines t.
Proof.
  induction c as [|a c (pad & Hpad & IH)].
  - exists [EmptyString]. split; [by right|]. rewrite str_app_nil_l. cbn [getlines]. by rewrite bool_decide_eq_true_2.
  - rewrite str_app_cons. cbn [getlines]. rewrite IH. case_bool_decide; [by exists pad|].
    destruct (getlines c) as [|l ls] eqn:E; [|by exists pad].
    destruct c as [|a' c]; [|cbn [getlines] in E; case_bool_decide; [done|by destruct (getlines c)]].
    exists []. split; [by left|]. rewrite str_app_nil_l in IH. cbn [getlines] in IH. rewrite bool_decide_eq_true_2 in IH by done.
    cbn [app] in *. destruct Hpad as [->| ->]; cbn [app] in *; [|done].
    exfalso. apply (f_equal length) in IH. cbn in IH. lia.
Qed.

Definition text_of (lines : list string) : string := foldr (fun l s => String.append l (String newline s)) EmptyString lines.

Definition no_newline (s : string) : Prop := str_mem newline s = false.

Lemma getlines_text lines : Forall no_newline lines -> getlines (text_of lines) = lines.
Proof.
  induction 1 as [|l lines Hl _ IH]; [done|]. unfold text_of. cbn [foldr]. fold (text_of lines).
  unfold no_newline in Hl. induction l as [|c l IHl].
  - rewrite str_app_nil_l. cbn [getlines]. rewrite bool_decide_eq_true_2 by done. by rewrite IH.
  - cbn [str_mem] in Hl. apply orb_false_iff in Hl as [Hc Hl]. rewrite str_app_cons. cbn [getlines].
    rewrite Hc. by rewrite IHl.
Qed.

(** The reader's state after a text. *)
Definition read_text (t : string) : string * IniMap := foldl parse_line (EmptyString, ∅) (getlines t).
Definition ini_of (b : boot) : IniMap := (read_text (default EmptyString (config_text b))).2.

Lemma boot_values_eq b : boot_values b = (getOr (ini_of b) "global" "db_path" "", getOr (ini_of b) "global" "db_key" "").
Proof. unfold boot_values, ini_of, read_text. by destruct (config_text b). Qed.

Lemma read_appended c lines : Forall no_newline lines ->
  read_text (String.append c (String newline (text_of lines))) = foldl parse_line (read_text c) lines.
Proof.
  intros H. unfold read_text. destruct (getlines_app c (text_of lines)) as (pad & Hpad & ->).
  rewrite getlines_text by done. rewrite !foldl_app. destruct (foldl parse_line (EmptyString, ∅) (getlines c)) as [sec m].
  by destruct Hpad as [->| ->].
Qed.

Definition set_value (section key v : string) (m : IniMap) : IniMap :=
  <[section := <[key := v]> (default ∅ (m !! section))]> m.

Lemma getOr_set m section key v section' key' fallback :
  getOr (set_value section key v m) section' key' fallback =
  if bool_decide (section' = section /\ key' = key) then (if str_empty v then fallback else v)
  else getOr m section' key' fallback.
Proof.
  unfold getOr, set_value, IniMap in *. destruct (decide (section = section')) as [<-|Hs].
  - rewrite lookup_insert_eq. destruct (decide (key = key')) as [<-|Hk].
    + rewrite lookup_insert_eq. by rewrite bool_decide_eq_true_2.
    + rewrite lookup_insert_ne by done. rewrite bool_decide_eq_false_2 by (intros [_ E]; congruence).
      destruct (m !! section) as [sec|]; cbn [default]; [done|]. by rewrite lookup_empty.
  - rewrite lookup_insert_ne by done. rewrite bool_decide_eq_false_2 by (intros [E _]; congruence). done.
Qed.

(** *** The generated key *)

Definition inked (s : string) : Prop := str_all (fun c => negb (is_blank c)) s = true.

Lemma str_nth_all p s n : p Ascii.zero = true -> str_all p s = true -> p (str_nth s n) = true.
Proof.
  intros H0. revert n. induction s as [|c s IH]; [done|]. cbn [str_all]. intros n [Hc Hs]%andb_true_iff.
  destruct n as [|n]; [done|]. by apply IH.
Qed.

Lemma base64_inked data : inked (base64Encode data).
Proof.
  assert (forall n k, negb (is_blank (sextet n k)) = true) as H
    by (intros n k; apply (str_nth_all (fun c => negb (is_blank c))); reflexivity).
  unfold inked. induction data as [| |a b|a b c data IH] using list_ind3; cbn [base64Encode]; cbn zeta; cbn [str_all];
    rewrite ?H; [done|done|done|]. by rewrite IH.
Qed.

Lemma pop_trailing_all p c s : str_all p s = true -> str_all p (pop_trailing c s) = true.
Proof.
  induction s as [|a s IH]; [done|]. cbn [str_all pop_trailing]. intros [Ha Hs]%andb_true_iff. specialize (IH Hs).
  destruct (pop_trailing c s) as [|a' t]; [case_bool_decide; [done|]; cbn [str_all]; by rewrite Ha|].
  cbn [str_all] in *. by rewrite Ha.
Qed.

Lemma base64NoPadding_inked data : inked (base64NoPadding data).
Proof. apply pop_trailing_all, base64_inked. Qed.

Lemma base64NoPadding_nonempty a data : base64NoPadding (a :: data) <> EmptyString.
Proof.
  assert (exists n s, base64Encode (a :: data) = String (sextet n 18) s) as (n & s & E)
    by (destruct data as [|b [|c data]]; cbn [base64Encode]; cbn zeta; by eexists _, _).
  unfold base64NoPadding. rewrite E. cbn [pop_trailing]. destruct (pop_trailing "=" s); [|done].
  rewrite bool_decide_eq_false_2; [done|]. rewrite sextet_arith by lia. pose proof (sextet_lt n 18) as H.
  apply kAlphabet_not_pad in H. unfold is_pad in H. by apply bool_decide_eq_false_1 in H.
Qed.

Lemma inked_last s c : inked s -> last_char s = Some c -> is_blank c = false.
Proof.
  unfold inked. induction s as [|a s IH]; [done|]. cbn [str_all]. intros [Ha Hs]%andb_true_iff.
  destruct s as [|a' s]; [intros [= <-]; by apply negb_true_iff|rewrite last_char_cons by done; by apply IH].
Qed.
Lemma inked_tight s : inked s -> tight s.
Proof.
  intros H. split; [|intros c; by apply inked_last]. intros c Hc. destruct s as [|a s]; [done|]. injection Hc as <-.
  unfold inked in H. cbn [str_all] in H. apply andb_true_iff in H as [H _]. by apply negb_true_iff.
Qed.
Lemma inked_no_newline s : inked s -> no_newline s.
Proof.
  unfold inked, no_newline. induction s as [|a s IH]; [done|]. cbn [str_all str_mem]. intros [Ha Hs]%andb_true_iff.
  rewrite IH by done. rewrite bool_decide_eq_false_2; [done|]. by intros ->.
Qed.

(** *** The lines that are written *)

Lemma parse_global st : parse_line st "[global]" = ("global"%string, st.2).
Proof. by destruct st. Qed.
Lemma parse_default_path m :
  parse_line ("global"%string, m) (String.append "db_path=" kDefaultDbPath) = ("global"%string, set_value "global" "db_path" kDefaultDbPath m).
Proof. reflexivity. Qed.

Lemma parse_key m k : inked k -> k <> EmptyString ->
  parse_line ("global"%string, m) (String.append "db_key=" k) = ("global"%string, set_value "global" "db_key" k m).
Proof.
  intros Hk Hne. unfold parse_line.
  assert (trim (String.append "db_key=" k) = String.append "db_key=" k) as ->.
  { apply trim_id, inked_tight. unfold inked. rewrite str_all_app. by rewrite Hk. }
  change (first_char (String.append "db_key=" k)) with (Some "d"%char). cbn iota beta.
  rewrite !bool_decide_eq_false_2 by done. cbn [orb andb].
  change (String.append "db_key=" k) with (String.append "db_key" (String "=" k)). rewrite split_first_app by done.
  rewrite (trim_id k) by (by apply inked_tight). reflexivity.
Qed.

(** The lines of the first run: the key is there when it was drawn. *)
Definition boot_lines (path_missing : bool) (key : option string) : list string :=
  "[global]"%string :: (if path_missing then [String.append "db_path=" kDefaultDbPath] else []) ++
  match key with Some k => [String.append "db_key=" k] | None => [] end.

Lemma boot_lines_ini st pm key : (forall k, key = Some k -> inked k /\ k <> EmptyString) ->
  Forall no_newline (boot_lines pm key) /\
  (foldl parse_line st (boot_lines pm key)).2 =
    match key with Some k => set_value "global" "db_key" k | None => id end
      (if pm then set_value "global" "db_path" kDefaultDbPath st.2 else st.2).
Proof.
  intros Hk. unfold boot_lines. cbn [foldl]. rewrite parse_global. split.
  - apply Forall_cons; split; [done|]. apply Forall_app. split; [by destruct pm; repeat constructor|].
    destruct key as [k|]; [|done]. destruct (Hk k eq_refl) as [H _]. apply Forall_singleton.
    apply inked_no_newline. unfold inked. rewrite str_all_app. by rewrite H.
  - rewrite foldl_app. destruct key as [k|]; [destruct (Hk k eq_refl) as [H Hne]|]; destruct pm; cbn [foldl];
      rewrite ?parse_default_path, ?parse_key by done; done.
Qed.

Section bootstrap.
Context (d : draws) (exists_ : string -> bool) (can_append : bool).

(** The text with a first run's lines. *)
Definition extended (text : option string) (pm : bool) (key : option string) : option string :=
  Some (String.append (default EmptyString text) (String newline (text_of (boot_lines pm key)))).

Lemma append_chain c (pm : bool) key :
  String.append (String.append (String.append c (String.append nl (String.append "[global]" nl)))
    (if pm then String.append "db_path=" (String.append kDefaultDbPath nl) else EmptyString))
    (match key with Some k => String.append "db_key=" (String.append k nl) | None => EmptyString end) =
  String.append c (String newline (text_of (boot_lines pm key))).
Proof.
  rewrite !str_app_assoc. f_equal. unfold boot_lines, text_of. cbn [foldr]. unfold nl. cbn [String.append]. do 2 f_equal.
  destruct pm, key as [k|]; cbn [app foldr]; rewrite ?str_app_assoc; done.
Qed.

Lemma write_block (pm km : bool) text n :
  (append (String.append nl (String.append "[global]" nl)) ;;
   when pm (append (String.append "db_path=" (String.append kDefaultDbPath nl))) ;;
   when km (key ← randomBytes d 32; append (String.append "db_key=" (String.append (base64NoPadding key) nl))) : Comp boot unit) (mkBoot text n) =
  if km then match draw_bytes d n 32 with
             | Some l => (Ok tt, mkBoot (extended text pm (Some (base64NoPadding l))) (S n))
             | None => (Throw (StdError "RAND_bytes failed"), mkBoot (extended text pm None) (S n))
             end
  else (Ok tt, mkBoot (extended text pm None) n).
Proof.
  unfold extended. rewrite <- (append_chain _ pm None). destruct km; [|destruct pm; cbn; by rewrite ?str_app_nil_r].
  unfold append, randomBytes. destruct pm; unfold when, modify, mbind, comp_bind, mret, comp_ret; cbn [config_text b_draws default];
    (destruct (draw_bytes d n 32) as [l|]; cbn [config_text b_draws default];
     [rewrite <- (append_chain _ _ (Some (base64NoPadding l)))|]; by rewrite ?str_app_nil_r).
Qed.

(** What a run does to the file. *)
Lemma bootstrap_eq b :
  let pm := str_empty (boot_values b).1 in let km := str_empty (boot_values b).2 in
  let path := if pm then kDefaultDbPath else (boot_values b).1 in
  bootstrapGlobalConfigIfNeeded d exists_ can_append b =
  if negb pm && negb km then (Ok tt, b)
  else if km && exists_ path then (Throw (StdError "[global] db_key is missing but the database already exists"), b)
  else if negb can_append then (Throw (StdError "cannot write to config file"), b)
  else if km then match draw_bytes d (b_draws b) 32 with
                  | Some l => (Ok tt, mkBoot (extended (config_text b) pm (Some (base64NoPadding l))) (S (b_draws b)))
                  | None => (Throw (StdError "RAND_bytes failed"), mkBoot (extended (config_text b) pm None) (S (b_draws b)))
                  end
  else (Ok tt, mkBoot (extended (config_text b) pm None) (b_draws b)).
Proof.
  intros pm km path. unfold bootstrapGlobalConfigIfNeeded, gets. unfold mbind at 1, comp_bind at 1. fold pm km path.
  destruct (negb pm && negb km); [done|]. destruct (km && exists_ path); [done|]. destruct (negb can_append); [done|].
  rewrite <- write_block. unfold path. destruct b. by destruct pm.
Qed.

Lemma extended_ini text pm key n n' : (forall k, key = Some k -> inked k /\ k <> EmptyString) ->
  ini_of (mkBoot (extended text pm key) n) =
    match key with Some k => set_value "global" "db_key" k | None => id end
      (if pm then set_value "global" "db_path" kDefaultDbPath (ini_of (mkBoot text n')) else ini_of (mkBoot text n')).
Proof.
  intros Hk. unfold ini_of at 1, extended. cbn [config_text]. change (default EmptyString (Some ?x)) with x.
  destruct (boot_lines_ini (read_text (default EmptyString text)) pm key Hk) as [Hn E]. by rewrite read_appended, E.
Qed.
End bootstrap.

(** A drawn key is a text the file can hold. *)
Lemma drawn_key l : length l = 32%nat -> inked (base64NoPadding l) /\ base64NoPadding l <> EmptyString.
Proof. intros H. split; [apply base64NoPadding_inked|]. destruct l; [done|apply base64NoPadding_nonempty]. Qed.

Definition is_boot_key (section key : string) : Prop := section = "global"%string /\ (key = "db_path"%string \/ key = "db_key"%string).

(** What is read after the lines were added. *)
Lemma extended_values text (pm : bool) key n n' s k fallback :
  (forall k, key = Some k -> inked k /\ k <> EmptyString) ->
  getOr (ini_of (mkBoot (extended text pm key) n)) s k fallback =
  if bool_decide (s = "global"%string /\ k = "db_key"%string) && negb (bool_decide (key = None))
  then default EmptyString key
  else if bool_decide (s = "global"%string /\ k = "db_path"%string) && pm then kDefaultDbPath
  else getOr (ini_of (mkBoot text n')) s k fallback.
Proof.
  intros Hk. rewrite (extended_ini text pm key n n' Hk). destruct key as [x|].
  - rewrite getOr_set. destruct (Hk x eq_refl) as [_ Hx]. assert (str_empty x = false) as Ex by (by destruct x). rewrite Ex.
    rewrite (bool_decide_eq_false_2 (Some x = None)) by done. cbn [negb]. rewrite andb_true_r. cbn [default].
    destruct (bool_decide (s = "global"%string /\ k = "db_key"%string)); [done|]. destruct pm; [|by rewrite andb_false_r].
    rewrite getOr_set, andb_true_r. reflexivity.
  - rewrite (bool_decide_eq_true_2 (@None string = None)) by done. rewrite andb_false_r. unfold id. destruct pm; [|by rewrite andb_false_r].
    rewrite getOr_set, andb_true_r. reflexivity.
Qed.

(** The first run completes the config file and nothing else: whatever it
    held, whether the run succeeds or fails, a db_path or db_key that was set
    keeps its value and every other entry of every section reads as before;
    when it succeeds both are set, the path to the default if it was missing,
    and a key was invented only if there was none and no database file exists
    at the path; when it fails no key was. *)
Lemma bootstrap_completes_config d exists_ can_append b
    (Hrand : forall n k l, draw_bytes d n k = Some l -> length l = k) :
  let '(o, b') := bootstrapGlobalConfigIfNeeded d exists_ can_append b in
  let '(path, key) := boot_values b in let '(path', key') := boot_values b' in
  let target := if str_empty path then kDefaultDbPath else path in
  (path <> EmptyString -> path' = path) /\ (key <> EmptyString -> key' = key) /\
  (forall s k fallback, ~ is_boot_key s k -> getOr (ini_of b') s k fallback = getOr (ini_of b) s k fallback) /\
  match o with
  | Ok _ => path' = target /\ key' <> EmptyString /\ (key = EmptyString -> exists_ target = false)
  | Throw _ => key' = key
  end /\
  (can_append = true -> (key = EmptyString -> exists_ target = false) -> (forall n, is_Some (draw_bytes d n 32)) -> is_ok o = true).
Proof.
  rewrite bootstrap_eq. rewrite (boot_values_eq b). cbn [fst snd].
  set (path := getOr (ini_of b) "global" "db_path" ""). set (key := getOr (ini_of b) "global" "db_key" "").
  assert (forall s, str_empty s = false <-> s <> EmptyString) as Hempty by (by intros []; split).
  assert (forall s, str_empty s = true <-> s = EmptyString) as Hempty' by (by intros []; split).
  assert (forall pm ko n, (forall k, ko = Some k -> inked k /\ k <> EmptyString) -> forall s k f, ~ is_boot_key s k ->
    getOr (ini_of (mkBoot (extended (config_text b) pm ko) n)) s k f = getOr (ini_of b) s k f) as Hother.
  { intros pm ko n Hko s k f Hk. rewrite (extended_values _ _ _ _ (b_draws b)) by done.
    rewrite (bool_decide_eq_false_2 (s = "global"%string /\ k = "db_key"%string)) by (intros [-> ->]; apply Hk; split; [done|by right]).
    rewrite (bool_decide_eq_false_2 (s = "global"%string /\ k = "db_path"%string)) by (intros [-> ->]; apply Hk; split; [done|by left]).
    by destruct b. }
  assert (forall pm ko n, (forall k, ko = Some k -> inked k /\ k <> EmptyString) ->
    boot_values (mkBoot (extended (config_text b) pm ko) n) =
    (if pm then kDefaultDbPath else path, match ko with Some k => k | None => key end)) as Hvalues.
  { intros pm ko n Hko. rewrite boot_values_eq, !(extended_values _ _ _ _ (b_draws b)) by done. unfold path, key.
    destruct b as [t m]. cbn [config_text b_draws]. by destruct ko, pm. }
  assert (boot_values b = (path, key)) as Hb by apply boot_values_eq.
  assert (forall n l, draw_bytes d n 32 = Some l -> forall k, Some (base64NoPadding l) = Some k -> inked k /\ k <> EmptyString) as Hdrawn
    by (intros n l Hl k [= <-]; by apply drawn_key, (Hrand n)).
  destruct (str_empty path) eqn:Ep; [apply Hempty' in Ep|apply Hempty in Ep];
    (destruct (str_empty key) eqn:Ek; [apply Hempty' in Ek|apply Hempty in Ek]); cbn [negb andb];
    [destruct (exists_ kDefaultDbPath) eqn:Ex| |destruct (exists_ path) eqn:Ex|].
  all: try (destruct can_append; cbn [negb]).
  all: try (destruct (draw_bytes d (b_draws b) 32) as [l|] eqn:Ed).
  all: rewrite ?Hb, ?Hvalues by (try done; by eapply Hdrawn).
  all: cbv beta iota zeta; rewrite ?Hb, ?Hvalues by (try done; by eapply Hdrawn); cbv beta iota zeta; rewrite ?Ep; cbn [str_empty].
  all: split_and!; try done; try (by rewrite Ep, Ek); try (intros ? ? ? ?; by apply Hother); try (by apply drawn_key, (Hrand (b_draws b)));
    try (intros _ H1 _; by specialize (H1 Ek)); try (intros _ _ H1; destruct (H1 (b_draws b)); congruence);
    try (intros s k f Hk; apply Hother; [by eapply Hdrawn|done]).
Qed.

Definition sevens : draws := mkDraws (fun n => Z.of_nat n + 1) (fun _ n => Some (repeat 7 n)).

(** A config file whose [global] section has a key and no path. *)
Definition pathless : boot :=
  mkBoot (Some (String.append "[global]" (String.append nl (String.append "db_key=k" nl)))) 0.

Lemma bootstrap_completes_config_witness :
  let '(o, b') := bootstrapGlobalConfigIfNeeded sevens (fun _ => false) true pathless in
  let '(path, key) := boot_values pathless in let '(path', key') := boot_values b' in
  let target := if str_empty path then kDefaultDbPath else path in
  (path <> EmptyString -> path' = path) /\ (key <> EmptyString -> key' = key) /\
  (forall s k fallback, ~ is_boot_key s k -> getOr (ini_of b') s k fallback = getOr (ini_of pathless) s k fallback) /\
  match o with
  | Ok _ => path' = target /\ key' <> EmptyString /\ (key = EmptyString -> false = false)
  | Throw _ => key' = key
  end /\
  (true = true -> (key = EmptyString -> false = false) -> (forall n, is_Some (draw_bytes sevens n 32)) -> is_ok o = true).
Proof.
  refine (bootstrap_completes_config sevens (fun _ => false) true pathless _).
  intros n k l [= <-]. apply repeat_length.
Defined.

(** A fresh file gets both values; a missing key beside a database file, none. *)
Example fresh_file : boot_values (bootstrapGlobalConfigIfNeeded sevens (fun _ => false) true (mkBoot None 0)).2 =
  (kDefaultDbPath, base64NoPadding (repeat 7 32)).
Proof. vm_compute. reflexivity. Qed.

Example existing_database : is_ok (bootstrapGlobalConfigIfNeeded sevens (fun _ => true) true (mkBoot None 0)).1 = false.
Proof. vm_compute. reflexivity. Qed.
