(* ===== verification/Gendb.v ===== *)
(** The commands of signal2sip-gendb (src/gendb/main.cpp): registering and
    linking an account, its life cycle on Signal's servers and in the
    database, and its configuration.

    [gendb] is what a command works on: libsignal's objects and the database
    connection, the registration client, the authenticated socket, the requests
    made, the pending-registration files, and what was printed that matters.
    Everything outside is the [environment]. *)

From S2P Require Import Prelude Storage Config AuthSocket ProtocolStores CallSignaling Crypto PreKeys LinkCiphers QrLink Handles Provisioning Registration AccountFinisher GendbConfig.

Open Scope Z_scope.

Inductive http :=
| SocketOpened (username pw signalProxy : string)
| OverSocket (verb path : string) (body : option json)
| OverCurl (host verb path : string) (body : json) (user pw : string).

Inductive note :=
| SessionCreated (id : string) (allowed : bool) | CaptchaRequired | PushChallengeRequired | CodeNotAllowed
| CodeRequested (transport : string) | NotVerified | RegistrationRejected (what : string) | RegisteredAs (aci : string)
| NumberMismatch (linked configured : string) | LinkResponse (status : Z) | LinkRejected | LinkedAs (aci : string) (device : Z)
| Unlinked (e164 : string) | Deactivated (e164 : string) | Reactivated (e164 : string)
| LockWarning | DeletedEverywhere (e164 : string) | DeletionAmbiguous (e164 : string)
| Signaled (pid : Z) | ConfigWritten (field value : string) | EnabledWritten (b : bool)
| Value (field value : string) | NoAccounts | Listed (s : AccountSummary).

Record environment := mkEnv {
  env_keys : prekey_lib; env_ciphers : cipher_lib; env_parser : provision_parser; env_draws : draws;
  env_fault : nat -> bool; env_ffi : nat -> bool; env_net : nat -> bool;
  env_open : string -> bool; env_open_list : bool;         (* Storage's constructor, listAllAccounts' open *)
  env_now : Z; env_nowMs : Z;
  env_registration : reg_server;
  env_connect : Socket.attempt_result; env_exchange : nat -> Socket.exchange;
  env_link : json -> string -> string -> outcome (Z * option json);  (* curl's answer, None: not JSON *)
  env_attempt : Provisioning.attempt; env_late : nat * nat; env_events : list (Z * Provisioning.event);
  env_can_write : string -> bool;
  env_pid_file : string -> option string; env_exe : Z -> option string; env_kill : Z -> bool;
}.

Record gendb := mkGendb {
  g_stores : pstate;
  g_registrar : registrar;
  g_socket : Socket.sock;
  g_requests : list http;
  g_files : gmap string (option json);
  g_draws : nat;
  g_said : list note;
}.

#[export] Instance has_g_stores : Has pstate gendb := {|
  prj := g_stores;
  put s g := mkGendb s (g_registrar g) (g_socket g) (g_requests g) (g_files g) (g_draws g) (g_said g) |}.
#[export] Instance has_g_stores_laws : HasLaws pstate gendb.
Proof. by split; intros; try destruct w. Qed.
#[export] Instance has_g_conn : Has conn gendb := {|
  prj g := db_conn (g_stores g);
  put c g := mkGendb (put c (g_stores g)) (g_registrar g) (g_socket g) (g_requests g) (g_files g) (g_draws g) (g_said g) |}.
#[export] Instance has_g_conn_laws : HasLaws conn gendb.
Proof. split; intros; try done. by destruct w as [[]]. Qed.
#[export] Instance has_g_registrar : Has registrar gendb := {|
  prj := g_registrar;
  put r g := mkGendb (g_stores g) r (g_socket g) (g_requests g) (g_files g) (g_draws g) (g_said g) |}.
#[export] Instance has_g_socket : Has Socket.sock gendb := {|
  prj := g_socket;
  put s g := mkGendb (g_stores g) (g_registrar g) s (g_requests g) (g_files g) (g_draws g) (g_said g) |}.

Definition log_http (h : http) (g : gendb) : gendb :=
  mkGendb (g_stores g) (g_registrar g) (g_socket g) (g_requests g ++ [h]) (g_files g) (g_draws g) (g_said g).
Definition set_files (f : gmap string (option json)) (g : gendb) : gendb :=
  mkGendb (g_stores g) (g_registrar g) (g_socket g) (g_requests g) f (g_draws g) (g_said g).
Definition next_draw (g : gendb) : gendb :=
  mkGendb (g_stores g) (g_registrar g) (g_socket g) (g_requests g) (g_files g) (S (g_draws g)) (g_said g).
Definition say (n : note) : Comp gendb unit :=
  modify (fun g => mkGendb (g_stores g) (g_registrar g) (g_socket g) (g_requests g) (g_files g) (g_draws g) (g_said g ++ [n])).

(** Run [m]; the destructor runs however it is left. *)
Definition finally {S A} (m : Comp S A) (destructor : Comp S unit) : Comp S A :=
  r ← catch_all m (fun e => destructor ;; throw e);
  destructor ;;
  mret r.

(** ** Helpers *)

Definition pendingFilePath (global : GlobalConfig) (account : string) : string :=
  String.append (dirName (dbPath global)) (String.append "/." (String.append account ".gendb-pending.json")).

Record PendingRegistration := mkPending {
  pend_e164 : string; pend_sessionId : string; pend_password : string; pend_transport : string }.

Definition pending_json (p : PendingRegistration) : json :=
  JObj [("e164"%string, JStr (pend_e164 p)); ("sessionId"%string, JStr (pend_sessionId p));
        ("password"%string, JStr (pend_password p)); ("transport"%string, JStr (pend_transport p))].
Definition json_string (j : json) (k : string) : outcome string := v ← at_ j k; get_string v.

Record ResolvedAccount := mkResolvedAccount { ra_account : AccountConfig; existedInDb : bool }.

Definition fresh_account (nm : string) : AccountConfig :=
  mkAccountConfig nm 0 "" "" "" "" "" "" "" "disabled" "udp" "" false "" "" false.

Definition resolveAccount (config : DaemonConfig) (nm : string) : ResolvedAccount :=
  match find (fun a => str_eqb (name a) nm) (accounts config) with
  | Some a => mkResolvedAccount a true
  | None => mkResolvedAccount (fresh_account nm) false
  end.

Definition requireE164NotUsedByOtherAccount (config : DaemonConfig) (nm number : string) : outcome unit :=
  if existsb (fun a => negb (str_eqb (name a) nm) && str_eqb (cfg_e164 a) number) (accounts config)
  then Throw (StdError "e164 is already configured under a different account") else Ok tt.

Definition serverHostFor (a : AccountConfig) : string :=
  if str_empty (serverUrl a) then "chat.signal.org" else serverUrl a.

Definition capabilitiesJson : json :=
  JObj [("storage"%string, JBool false); ("versionedExpirationTimer"%string, JBool false);
        ("attachmentBackfill"%string, JBool false); ("spqr"%string, JBool true);
        ("usernameChangeSyncMessage"%string, JBool true)].

(** signedPreKeyJson and kyberPreKeyJson. *)
Definition preKeyJson (w : WirePreKey) : json :=
  JObj [("keyId"%string, JNum (keyId w)); ("publicKey"%string, JStr (base64NoPadding (publicKey w)));
        ("signature"%string, JStr (base64NoPadding (signature w)))].

Definition kDeviceName : string := "signal2sip".

Definition socket_username (a : AccountRecord) : string :=
  if bool_decide (device_id a = 1) then aci a
  else String.append (aci a) (String.append "." (to_string (device_id a))).

Section Commands.
Context (env : environment) (config : DaemonConfig).
Notation fault := (env_fault env).
Notation server := (env_registration env).

(** Opening the account's database. *)
Definition open_storage (nm : string) : Comp gendb unit :=
  if env_open env nm then mret tt else throw_std "failed to open database".

Definition requireNoExistingAccount (nm : string) : Comp gendb unit :=
  there ← lift (hasAccount fault nm);
  if (there : bool) then throw_std "account already has a saved account in the database" else mret tt.

Definition draw_random_bytes (n : nat) : Comp gendb Bytes :=
  i ← gets g_draws;
  modify next_draw ;;
  match draw_bytes (env_draws env) i n with
  | Some l => mret l
  | None => throw_std "RAND_bytes failed"
  end.
Definition randomRegistrationId : Comp gendb Z :=
  i ← gets g_draws;
  modify next_draw ;;
  mret (draw_id (env_draws env) i).

Definition savePending (nm : string) (p : PendingRegistration) : Comp gendb unit :=
  let path := pendingFilePath (global config) nm in
  if env_can_write env path
  then modify (fun g => set_files (<[path := Some (pending_json p)]> (g_files g)) g)
  else throw_std "cannot write pending-registration file".

Definition loadPending (nm : string) : Comp gendb PendingRegistration :=
  f ← gets (fun g => g_files g !! pendingFilePath (global config) nm);
  match f with
  | None => throw_std "no pending registration for account - run 'register' first"
  | Some None => throw_std "json: parse error"
  | Some (Some j) =>
    of_outcome (e ← json_string j "e164"; s ← json_string j "sessionId"; p ← json_string j "password";
                t ← json_string j "transport"; mret (mkPending e s p t))
  end.

Definition deletePending (nm : string) : Comp gendb unit :=
  modify (fun g => set_files (delete (pendingFilePath (global config) nm) (g_files g)) g).

(** [RegistrationServiceClient client;] and the scope it lives in.  A client
    whose constructor throws is not destroyed. *)
Definition with_client {A} (m : Comp gendb A) : Comp gendb A :=
  made ← lift (lift (construct (env_net env)) : Comp registrar (nat * nat));
  modify (fun g => put (mkRegistrar (r_heap (g_registrar g)) made.1 made.2 None (r_calls (g_registrar g))) g) ;;
  finally m (lift (destruct_ (env_net env))).

(** ** Flow A *)

Definition cmdRegister (nm e164Arg transport : string) : Comp gendb unit :=
  if negb (one_of transport ["sms"; "voice"]) then throw_std "transport must be sms or voice" else
  let resolved := resolveAccount config nm in
  number ← of_outcome (
    if negb (existedInDb resolved) then
      if str_empty e164Arg then Throw (StdError "account is not in the config yet - pass --e164") else Ok e164Arg
    else if str_nonempty e164Arg && negb (str_eqb e164Arg (cfg_e164 (ra_account resolved)))
    then Throw (StdError "account is already configured with another e164")
    else Ok (cfg_e164 (ra_account resolved)));
  of_outcome (requireE164NotUsedByOtherAccount config nm number) ;;
  open_storage nm ;;
  requireNoExistingAccount nm ;;
  with_client (
    session ← lift (createSession server (env_net env) number);
    id ← lift (sessionId server (env_net env));
    say (SessionCreated id (allowedToRequestCode session)) ;;
    pw ← draw_random_bytes 18;
    id ← lift (sessionId server (env_net env));
    savePending nm (mkPending number id (base64NoPadding pw) transport) ;;
    if one_of "captcha" (requestedInformation session) then say CaptchaRequired else
    if one_of "pushChallenge" (requestedInformation session) then say PushChallengeRequired else
    if negb (allowedToRequestCode session) then say CodeNotAllowed else
    lift (requestVerificationCode server (env_net env) transport) ;;
    say (CodeRequested transport)).

Definition cmdRegisterCaptcha (nm pasted : string) : Comp gendb unit :=
  let token := cleanCaptchaToken pasted in
  if str_empty token then throw_std "captcha token is empty after cleanup" else
  pending ← loadPending nm;
  with_client (
    lift (resumeSession server (env_net env) (pend_sessionId pending) (pend_e164 pending)) ;;
    session ← lift (submitCaptcha server (env_net env) token);
    if negb (allowedToRequestCode session) then say CodeNotAllowed else
    lift (requestVerificationCode server (env_net env) (pend_transport pending)) ;;
    say (CodeRequested (pend_transport pending))).

(** The part of [cmdVerify] after the session was verified. *)
Definition verified_account (nm number : string) (pending : PendingRegistration) : Comp gendb unit :=
  aciIdentity ← lift (generateKeyPair (env_keys env) (env_ffi env));
  pniIdentity ← lift (generateKeyPair (env_keys env) (env_ffi env));
  registrationId ← randomRegistrationId;
  pniRegistrationId ← randomRegistrationId;
  prekeys ← lift (generatePrekeys (env_keys env) (env_ffi env) (env_nowMs env)
                    (kp_privateKey aciIdentity) (kp_privateKey pniIdentity) 1);
  registered ← catch_std
    (ids ← lift (registerAccount server (env_net env) (pend_password pending) registrationId pniRegistrationId
                   aciIdentity pniIdentity prekeys);
     mret (Some ids))
    (fun what => say (RegistrationRejected what) ;; mret None);
  match registered with
  | None => mret tt
  | Some ids =>
    lift (saveFinishedAccount fault nm (env_now env)
      (mkFinished number ids.1 ids.2 (pend_password pending) 1 registrationId pniRegistrationId aciIdentity pniIdentity
         prekeys "standalone" None None None)) ;;
    deletePending nm ;;
    say (RegisteredAs ids.1)
  end.

Definition cmdVerify (nm code : string) : Comp gendb unit :=
  open_storage nm ;;
  requireNoExistingAccount nm ;;
  let resolved := resolveAccount config nm in
  pending ← loadPending nm;
  let number := if str_empty (cfg_e164 (ra_account resolved)) then pend_e164 pending else cfg_e164 (ra_account resolved) in
  of_outcome (requireE164NotUsedByOtherAccount config nm number) ;;
  with_client (
    lift (resumeSession server (env_net env) (pend_sessionId pending) number) ;;
    verified ← lift (submitVerificationCode server (env_net env) code);
    if negb (verified : bool) then say NotVerified else
    verified_account nm number pending).

(** ** Flow B *)

(** [ProvisioningClient] and its wait, on this process's libsignal objects;
    its destructor at the end of the command touches only its own. *)
Definition provision : Comp gendb ProvisionMessageResult := fun g =>
  match Impl (env_keys env) (env_ffi env) (env_net env) (g_stores g, mkHeap ∅ 0 0) with
  | (Throw e, (k, _)) => (Throw e, put k g)
  | (Ok c, _) =>
    let '(r, c') := waitForProvisionMessage (env_ciphers env) (env_parser env) (env_ffi env) (env_net env)
                      (env_attempt env) (env_late env).1 (env_late env).2 (env_events env) c in
    (r, put (c_keys c') g)
  end.

Definition link_body (provisioned : ProvisionMessageResult) (registrationId pniRegistrationId : Z) (deviceName : string)
    (prekeys : GeneratedPrekeys) : json :=
  JObj [("verificationCode"%string, JStr (provisioningCode provisioned));
        ("accountAttributes"%string, JObj [("fetchesMessages"%string, JBool true);
           ("registrationId"%string, JNum registrationId); ("pniRegistrationId"%string, JNum pniRegistrationId);
           ("name"%string, JStr deviceName); ("capabilities"%string, capabilitiesJson)]);
        ("aciSignedPreKey"%string, preKeyJson (aciSignedPreKey prekeys).1);
        ("pniSignedPreKey"%string, preKeyJson (pniSignedPreKey prekeys).1);
        ("aciPqLastResortPreKey"%string, preKeyJson (aciKyberPreKey prekeys).1);
        ("pniPqLastResortPreKey"%string, preKeyJson (pniKyberPreKey prekeys).1);
        ("gcmToken"%string, JNull)].

Definition cmdLink (nm : string) : Comp gendb unit :=
  open_storage nm ;;
  requireNoExistingAccount nm ;;
  let account := ra_account (resolveAccount config nm) in
  provisioned ← provision;
  let finalE164 := if str_nonempty (cfg_e164 account) then cfg_e164 account else p_e164 provisioned in
  when (str_nonempty (cfg_e164 account) && str_nonempty (p_e164 provisioned) &&
        negb (str_eqb (p_e164 provisioned) (cfg_e164 account)))
    (say (NumberMismatch (p_e164 provisioned) (cfg_e164 account))) ;;
  of_outcome (requireE164NotUsedByOtherAccount config nm finalE164) ;;
  let aciIdentity := mkKeyPair (aciIdentityKeyPrivate provisioned) (aciIdentityKeyPublic provisioned) in
  let pniIdentity := mkKeyPair (pniIdentityKeyPrivate provisioned) (pniIdentityKeyPublic provisioned) in
  registrationId ← randomRegistrationId;
  pniRegistrationId ← randomRegistrationId;
  prekeys ← lift (generatePrekeys (env_keys env) (env_ffi env) (env_nowMs env)
                    (kp_privateKey aciIdentity) (kp_privateKey pniIdentity) 1);
  pw ← draw_random_bytes 18;
  let ourPassword := base64NoPadding pw in
  deviceName ← lift (encryptDeviceName (env_keys env) (env_ciphers env) (env_ffi env) kDeviceName (kp_privateKey aciIdentity));
  let body := link_body provisioned registrationId pniRegistrationId deviceName prekeys in
  modify (log_http (OverCurl (serverHostFor account) "PUT" "/v1/devices/link" body (p_aci provisioned) ourPassword)) ;;
  resp ← of_outcome (env_link env body (p_aci provisioned) ourPassword);
  say (LinkResponse resp.1) ;;
  if negb (bool_decide (resp.1 = 200)) then say LinkRejected else
  parsed ← of_outcome (match resp.2 with Some j => Ok j | None => Throw (StdError "json: parse error") end);
  aci_ ← of_outcome (json_string parsed "uuid");
  pni_ ← of_outcome (json_string parsed "pni");
  device ← of_outcome (v ← at_ parsed "deviceId"; get_int v);
  lift (saveFinishedAccount fault nm (env_now env)
    (mkFinished finalE164 aci_ pni_ ourPassword device registrationId pniRegistrationId aciIdentity pniIdentity prekeys
       "linked" (accountEntropyPool provisioned) (mediaRootBackupKey provisioned) (profileKey provisioned))) ;;
  say (LinkedAs aci_ device).

(** ** The account's life cycle *)

(** The account's row, which must be there. *)
Definition existing_account (nm : string) : Comp gendb AccountRecord :=
  open_storage nm ;;
  there ← lift (hasAccount fault nm);
  if negb (there : bool) then throw_std "account has no saved account in the database" else
  lift (loadAccount fault nm).

Definition cmdUnlink (nm : string) : Comp gendb unit :=
  a ← existing_account nm;
  lift (deleteAccount fault nm) ;;
  say (Unlinked (e164 a)).

(** [AuthSocket socket(...)], with its default of no proxy, and the scope it
    lives in. *)
Definition with_socket {A} (a : AccountRecord) (m : Comp gendb A) : Comp gendb A :=
  modify (log_http (SocketOpened (socket_username a) (password a) "")) ;;
  modify (fun g => put Socket.fresh_sock g) ;;
  finally m (lift Socket.close).

Definition socket_request (verb path : string) (body : option json) : Comp gendb Socket.Response :=
  n ← gets (fun g => length (g_requests g));
  modify (log_http (OverSocket verb path body)) ;;
  lift (Socket.doRequest (match body with Some _ => true | None => false end) (env_exchange env n)).

Definition attributes_body (fetchesMessages : bool) (a : AccountRecord) (deviceName : json) : json :=
  JObj [("fetchesMessages"%string, JBool fetchesMessages); ("registrationId"%string, JNum (registration_id a));
        ("pniRegistrationId"%string, JNum (pni_registration_id a)); ("name"%string, deviceName);
        ("capabilities"%string, capabilitiesJson); ("unrestrictedUnidentifiedAccess"%string, JBool true);
        ("discoverableByPhoneNumber"%string, JBool true)].

Definition success (r : Socket.Response) : bool := bool_decide (Socket.status r / 100 = 2).

Definition putFetchesMessages (nm : string) (a : AccountRecord) (fetchesMessages : bool) : Comp gendb unit :=
  with_socket a (
    lift (Socket.connect (env_connect env)) ;;
    deviceName ← (if bool_decide (flow a = Some "linked"%string) then
                    k ← lift (loadIdentityKeypair fault nm "aci");
                    match k with
                    | Some k => n ← lift (encryptDeviceName (env_keys env) (env_ciphers env) (env_ffi env) kDeviceName (private_key k));
                                mret (JStr n)
                    | None => mret JNull
                    end
                  else mret JNull);
    response ← socket_request "PUT" "/v1/accounts/attributes/" (Some (attributes_body fetchesMessages a deviceName));
    lift Socket.close ;;
    if negb (success response) then throw_std "PUT /v1/accounts/attributes/ failed" else mret tt).

Definition cmdDeactivate (nm : string) : Comp gendb unit :=
  a ← existing_account nm; putFetchesMessages nm a false ;; say (Deactivated (e164 a)).
Definition cmdReactivate (nm : string) : Comp gendb unit :=
  a ← existing_account nm; putFetchesMessages nm a true ;; say (Reactivated (e164 a)).

Definition disableRegistrationLockBestEffort : Comp gendb unit :=
  catch_std (
    response ← socket_request "DELETE" "/v1/accounts/registration_lock" None;
    when (negb (success response)) (say LockWarning))
  (fun _ => say LockWarning).

(** What [cmdDeleteAccount] does while it has its socket. *)
Definition delete_everywhere (nm : string) (a : AccountRecord) : Comp gendb unit :=
  lift (Socket.connect (env_connect env)) ;;
  disableRegistrationLockBestEffort ;;
  response ← socket_request "DELETE" "/v1/accounts/me" None;
  lift Socket.close ;;
  if success response then
    lift (deleteAccount fault nm) ;;
    say (DeletedEverywhere (e164 a))
  else if bool_decide (Socket.status response = 0) then say (DeletionAmbiguous (e164 a))
  else throw_std "DELETE /v1/accounts/me failed".

Definition cmdDeleteAccount (nm : string) : Comp gendb unit :=
  a ← existing_account nm;
  with_socket a (delete_everywhere nm a).

(** ** Configuration *)

Definition pidFilePath : string := String.append (dirName (dbPath (global config))) "/signal2sip.pid".

(** [pidFile >> pid] into a long: 0 when there is no number, the nearest limit
    when it does not fit. *)
Definition read_long (s : string) : Z :=
  let '(neg, digits_) := sign_of (skip_space s) in
  let '(seen, v) := digits false 0 digits_ in
  if seen then Z.max (- 2 ^ 63) (Z.min int64_max (if neg then - v else v)) else 0.

Definition kDaemonName : string := "signal2sip-daemon".
Definition ends_with (suffix s : string) : bool :=
  bool_decide (String.length suffix <= String.length s)%nat &&
  str_eqb (String.substring (String.length s - String.length suffix) (String.length suffix) s) suffix.

Definition signalDaemonBestEffort : Comp gendb unit :=
  match env_pid_file env pidFilePath with
  | None => mret tt
  | Some text =>
    let pid := read_long text in
    if bool_decide (pid <= 0) then mret tt else
    match env_exe env pid with
    | None => mret tt
    | Some exe =>
      if str_empty exe then mret tt else
      if negb (ends_with kDaemonName exe) then mret tt else
      if env_kill env (to_int pid) then say (Signaled pid) else mret tt
    end
  end.

Definition cmdConfigGet (nm fld : string) : Comp gendb unit :=
  a ← existing_account nm;
  if str_nonempty fld then
    f ← of_outcome (findConfigField fld);
    say (Value fld (field_get f a))
  else
    for_each (fun f => say (Value (field_name f) (field_get f a))) configFields ;;
    say (Value "enabled" (yes_no (enabled a))) ;;
    say (Value "config_version" (to_string (config_version a))).

Definition cmdConfigSet (nm fld v : string) : Comp gendb unit :=
  a ← existing_account nm;
  a' ← of_outcome (f ← findConfigField fld; field_set f a v);
  lift (saveAccountConfig fault nm a') ;;
  say (ConfigWritten fld v) ;;
  signalDaemonBestEffort.

Definition set_enabled (b : bool) (a : AccountRecord) : AccountRecord :=
  mkAccount (e164 a) (aci a) (pni a) (password a) (device_id a) (registration_id a) (pni_registration_id a) (flow a)
    (account_entropy_pool a) (media_root_backup_key a) (profile_key a) (registered_at a) (linked_at a) (prekeys_refreshed_at a)
    (server_url a) (sip_host a) (sip_extension a) (sip_password a) (sip_bridge_destination a) (sip_bridge_did a) (sip_srtp a)
    (sip_transport a) (sip_tls_ca_file a) (sip_tls_insecure a) (outgoing_call_target a) (signal_proxy a)
    (signal_censorship_circumvention a) b (config_version a).

Definition cmdSetEnabled (nm : string) (b : bool) : Comp gendb unit :=
  a ← existing_account nm;
  lift (saveAccountConfig fault nm (set_enabled b a)) ;;
  say (EnabledWritten b) ;;
  signalDaemonBestEffort.

Definition cmdListAccounts : Comp gendb unit :=
  (if env_open_list env then mret tt else throw_std "listAllAccounts: failed to open database") ;;
  l ← lift (listAllAccounts fault);
  match l with
  | [] => say NoAccounts
  | _ => for_each (fun s => say (Listed s)) l
  end.

(** ** main, once the config is loaded *)

Definition arg_or (n : nat) (fallback : string) (args : ParsedArgs) : string := nth n (positional args) fallback.

Definition run_command (args : ParsedArgs) : Comp gendb Z :=
  let nm := accountName args in
  let cmd := command args in
  let needs (k : nat) (what : string) (m : Comp gendb unit) : Comp gendb Z :=
    if bool_decide (length (positional args) < k)%nat then throw_std what else m ;; mret 0 in
  if str_eqb cmd "register" then cmdRegister nm (arg_e164 args) (arg_or 0 "sms" args) ;; mret 0
  else if str_eqb cmd "register-captcha" then needs 1%nat "register-captcha needs a <token>" (cmdRegisterCaptcha nm (arg_or 0 "" args))
  else if str_eqb cmd "verify" then needs 1%nat "verify needs a <code>" (cmdVerify nm (arg_or 0 "" args))
  else if str_eqb cmd "link" then cmdLink nm ;; mret 0
  else if str_eqb cmd "unlink" then cmdUnlink nm ;; mret 0
  else if one_of cmd ["deactivate"; "unregister"] then cmdDeactivate nm ;; mret 0
  else if str_eqb cmd "reactivate" then cmdReactivate nm ;; mret 0
  else if str_eqb cmd "delete-account" then cmdDeleteAccount nm ;; mret 0
  else if str_eqb cmd "enable" then cmdSetEnabled nm true ;; mret 0
  else if str_eqb cmd "disable" then cmdSetEnabled nm false ;; mret 0
  else if str_eqb cmd "config" then
    needs 1%nat "config needs a get/set subcommand" (
      let sub := arg_or 0 "" args in
      if one_of sub ["get"; "list"] then cmdConfigGet nm (arg_or 1 "" args)
      else if str_eqb sub "set" then
        if bool_decide (length (positional args) < 3)%nat then throw_std "config set needs <field> <value>"
        else cmdConfigSet nm (arg_or 1 "" args) (arg_or 2 "" args)
      else throw_std "config: unknown subcommand - use get/set")
  else if str_eqb cmd "list" then cmdListAccounts ;; mret 0
  else mret 1.

(** The last try block: what is thrown ends the program with 1. *)
Definition gendb_exit (args : ParsedArgs) : Comp gendb Z := catch_std (run_command args) (fun _ => mret 1).
End Commands.

Definition resolveGendbConfigPath (fileExists : string -> bool) (explicitPath : string) : string :=
  resolveConfigPath fileExists (if str_empty explicitPath then None else Some explicitPath).

(** The whole program: exit code, config file and what the command left.
    [file_system path] says which paths exist and whether [path] can be
    appended to; [loads] is DaemonConfig::load on the file's lines. *)
Definition gendb_main (argv : list string) (exists_ : string -> bool) (can_append : string -> bool)
    (loads : option (list string) -> outcome DaemonConfig) (env : environment) (b : string -> boot) (g : gendb) :
    Z * (string -> boot) * gendb :=
  if existsb (fun arg => one_of arg ["--help"; "-h"]) argv then (0, b, g) else
  match parseArgs argv with
  | Throw _ => (1, b, g)
  | Ok args =>
    let path := resolveGendbConfigPath exists_ (configPath args) in
    let '(o, f) := bootstrapGlobalConfigIfNeeded (env_draws env) exists_ (can_append path) (b path) in
    let b' := fun p => if str_eqb p path then f else b p in
    match o with
    | Throw _ => (1, b', g)
    | Ok _ =>
      match loads (getlines <$> config_text f) with
      | Throw _ => (1, b', g)
      | Ok config =>
        let '(code, g') := gendb_exit env config args g in
        (match code with Ok c => c | Throw _ => 1 end, b', g')
      end
    end
  end.

(** ** Lemmas: what a step leaves alone *)

Definition conn_of (g : gendb) : conn := db_conn (g_stores g).

(** The data of the database are [D], in a connection whose transaction is
    [S]. *)
Definition data (D : db) (S : option db) (g : gendb) : Prop := cdb (conn_of g) = D /\ saved (conn_of g) = S.

Lemma data_conn D S {A} (m : Comp conn A) :
  preserves (fun c => cdb c = D /\ saved c = S) m -> preserves (data D S) (lift m : Comp gendb A).
Proof. intros Hm. exact (preserves_lift (fun c => cdb c = D /\ saved c = S) m Hm). Qed.

Lemma select_data fault {A} (q : db -> option A) D S : preserves (fun c => cdb c = D /\ saved c = S) (select fault q).
Proof.
  intros c [<- <-]. destruct (select_cases fault q c) as [n [[w ->]|[-> | ->]]]; done.
Qed.
#[export] Hint Resolve select_data data_conn : signal.

Lemma step_rows_data fault {A} (l : list A) D S : preserves (fun c => cdb c = D /\ saved c = S) (step_rows fault l).
Proof. intros c [<- <-]. apply step_rows_same. Qed.
Lemma hasAccount_data fault nm D S : preserves (fun c => cdb c = D /\ saved c = S) (hasAccount fault nm).
Proof. unfold hasAccount. keeps. Qed.
Lemma loadAccount_data fault nm D S : preserves (fun c => cdb c = D /\ saved c = S) (loadAccount fault nm).
Proof. unfold loadAccount. keeps. Qed.
Lemma loadKeypair_data fault nm i D S : preserves (fun c => cdb c = D /\ saved c = S) (loadIdentityKeypair fault nm i).
Proof. unfold loadIdentityKeypair. keeps. Qed.
#[export] Hint Resolve hasAccount_data loadAccount_data loadKeypair_data : signal.

(** A computation on the handles that leaves the connection alone. *)
Definition keeps_conn {A} (m : Comp pstate A) : Prop := forall c, preserves (fun p => db_conn p = c) m.

Lemma data_stores D S {A} (m : Comp pstate A) : keeps_conn m -> preserves (data D S) (lift m : Comp gendb A).
Proof.
  intros Hm g [<- <-]. unfold lift. specialize (Hm _ (g_stores g) eq_refl). cbn. destruct (m (g_stores g)) as [r p].
  unfold data, conn_of. cbn in *. by rewrite Hm.
Qed.
Lemma data_registrar D S {A} (m : Comp registrar A) : preserves (data D S) (lift m : Comp gendb A).
Proof. intros g H. unfold lift. by destruct (m (prj g)). Qed.
Lemma data_socket D S {A} (m : Comp Socket.sock A) : preserves (data D S) (lift m : Comp gendb A).
Proof. intros g H. unfold lift. by destruct (m (prj g)). Qed.
Lemma data_say D S n : preserves (data D S) (say n).
Proof. by apply preserves_modify. Qed.
Lemma data_log D S h : preserves (data D S) (modify (log_http h)).
Proof. by apply preserves_modify. Qed.
Lemma data_files D S f : preserves (data D S) (modify (fun g => set_files (f g) g)).
Proof. by apply preserves_modify. Qed.
Lemma data_draw D S : preserves (data D S) (modify next_draw).
Proof. by apply preserves_modify. Qed.
#[export] Hint Resolve data_stores data_registrar data_socket data_say data_log data_files data_draw : signal.

Ltac conn_leaf := apply preserves_modify; intros []; done.
Lemma generateKeyPair_conn keys f : keeps_conn (generateKeyPair keys f).
Proof.
  intros c. unfold generateKeyPair, publicKeySerializeAndDestroy, create, ProtocolStores.serialize, ProtocolStores.destroy,
    checkError, bytes_at, object_at. keeps; try conn_leaf.
Qed.
Lemma agree_conn lib f a b : keeps_conn (agree_with lib f a b).
Proof.
  intros c. unfold agree_with, privateKeyDeserialize, publicKeyDeserialize, create, ProtocolStores.destroy,
    checkError, bytes_at, object_at. keeps; try conn_leaf.
Qed.
Lemma encryptDeviceName_conn keys lib f nm k : keeps_conn (encryptDeviceName keys lib f nm k).
Proof.
  intros c. unfold encryptDeviceName. keeps; try apply preserves_of_outcome.
  - apply generateKeyPair_conn.
  - apply agree_conn.
Qed.
Lemma generatePrekeys_conn keys f t a p id : keeps_conn (generatePrekeys keys f t a p id).
Proof.
  intros c. unfold generatePrekeys, generateSignedPreKey, generateKyberPreKey, sign_with, privateKeyDeserialize, create,
    ProtocolStores.serialize, ProtocolStores.destroy, checkError, bytes_at, object_at. keeps; try conn_leaf.
Qed.
#[export] Hint Resolve generateKeyPair_conn encryptDeviceName_conn generatePrekeys_conn : signal.

Lemma preserves_finally {S A} (I : S -> Prop) (m : Comp S A) d : preserves I m -> preserves I d -> preserves I (finally m d).
Proof. intros Hm Hd. unfold finally. keeps. Qed.

Section data.
Context (env : environment) (config : DaemonConfig) (D : db) (S : option db).
Notation keeps_data m := (preserves (data D S) m).

Lemma open_storage_data nm : keeps_data (open_storage env nm).
Proof. unfold open_storage. keeps. Qed.
Lemma require_data nm : keeps_data (requireNoExistingAccount env nm).
Proof. unfold requireNoExistingAccount. keeps. Qed.
Lemma existing_data nm : keeps_data (existing_account env nm).
Proof. unfold existing_account, open_storage. keeps. Qed.
Lemma draw_bytes_data n : keeps_data (draw_random_bytes env n).
Proof. unfold draw_random_bytes. keeps. Qed.
Lemma draw_id_data : keeps_data (randomRegistrationId env).
Proof. unfold randomRegistrationId. keeps. Qed.
Lemma loadPending_data nm : keeps_data (loadPending config nm).
Proof. unfold loadPending. keeps. Qed.
Lemma socket_request_data v p b : keeps_data (socket_request env v p b).
Proof. unfold socket_request. keeps. Qed.
Lemma lock_data : keeps_data (disableRegistrationLockBestEffort env).
Proof. unfold disableRegistrationLockBestEffort. pose proof socket_request_data. keeps. Qed.
Lemma with_client_data {A} (m : Comp gendb A) : keeps_data m -> keeps_data (with_client env m).
Proof. intros Hm. unfold with_client. keeps. apply preserves_finally; eauto with signal. Qed.
Lemma with_socket_data {A} a (m : Comp gendb A) : keeps_data m -> keeps_data (with_socket a m).
Proof. intros Hm. unfold with_socket. keeps. apply preserves_finally; eauto with signal. Qed.
End data.
#[export] Hint Resolve open_storage_data require_data existing_data draw_bytes_data draw_id_data loadPending_data
  socket_request_data lock_data : signal.

(** ** Deleting an account *)

(** A request that got a real answer was answered by the server. *)
Lemma answered b x s r s' : Socket.doRequest b x s = (Ok r, s') -> Socket.status r <> 0 -> Socket.completion x = inr (Some r).
Proof.
  destruct s as [c cn da st ka lv ht], x as [[n|] [h|] [sc|] [code|[r'|]]], b, c as [id|]; cbn;
    try destruct (Socket.dropped code); intros [= <- _]; cbn; congruence.
Qed.

Lemma success_status r : success r = true -> Socket.status r <> 0.
Proof. unfold success. intros H%bool_decide_eq_true_1 E. by rewrite E in H. Qed.

(** Take the first step of a sequence, of which [H] says what it keeps. *)
Ltac run_step H :=
  match goal with
  | |- context [(?m ≫= ?k) ?g] =>
    let Hn := fresh "Hn" in pose proof (H g ltac:(eassumption)) as Hn; cbv beta in Hn;
    let E := fresh "E" in destruct (m g) as [[?a|?e] ?g] eqn:E; cbn [snd] in Hn;
    [rewrite (bind_ok _ _ _ _ _ E)|rewrite (bind_throw _ _ _ _ _ E)]; cbv beta
  end.

(** The server confirmed the deletion: the last request, and its answer. *)
Definition confirmed (env : environment) (g : gendb) : Prop :=
  exists l r, g_requests g = l ++ [OverSocket "DELETE" "/v1/accounts/me" None] /\
    Socket.completion (env_exchange env (length l)) = inr (Some r) /\ success r = true.

Section deletion.
Context (env : environment) (nm : string) (D : db).

(** The database is as it was, or wiped after a confirmed deletion. *)
Definition safe_wipe (g : gendb) : Prop :=
  committed (conn_of g) = D \/ (confirmed env g /\ committed (conn_of g) = wiped nm D).

Lemma data_safe g : data D None g -> safe_wipe g.
Proof. intros [H1 H2]. left. unfold committed. by rewrite H1, H2. Qed.

Lemma conn_socket {A} (m : Comp Socket.sock A) g :
  conn_of (lift m g : outcome A * gendb).2 = conn_of g /\ g_requests (lift m g : outcome A * gendb).2 = g_requests g.
Proof. unfold lift. by destruct (m (prj g)). Qed.

Lemma finally_safe {A} (m : Comp gendb A) : (forall g, data D None g -> safe_wipe (m g).2) ->
  forall g, data D None g -> safe_wipe (finally m (lift Socket.close) g).2.
Proof.
  intros Hm g Hg. specialize (Hm g Hg). unfold finally, catch_all. unfold mbind at 1, comp_bind at 1.
  assert (forall g, safe_wipe g -> safe_wipe (lift Socket.close g : outcome unit * gendb).2) as Hclose.
  { intros g0 H0. destruct (conn_socket Socket.close g0) as [H1 H2]. unfold safe_wipe, confirmed in *. by rewrite H1, H2. }
  destruct (m g) as [[a|e] g1]; cbn [snd] in Hm; unfold mbind, comp_bind; specialize (Hclose g1 Hm);
    by destruct (lift Socket.close g1) as [[u|e'] g2].
Qed.

Lemma socket_request_spec v p b g :
  let '(o, g') := socket_request env v p b g in
  conn_of g' = conn_of g /\ g_requests g' = g_requests g ++ [OverSocket v p b] /\
  (forall r, o = Ok r -> Socket.status r <> 0 ->
     Socket.completion (env_exchange env (length (g_requests g))) = inr (Some r)).
Proof.
  unfold socket_request, gets, modify, lift, mbind, comp_bind. cbn.
  destruct (Socket.doRequest _ (env_exchange env (length (g_requests g))) (g_socket g)) as [o s'] eqn:E.
  split_and!; [done|done|]. intros r -> Hr. by eapply answered.
Qed.

Lemma delete_safe a g : data D None g -> safe_wipe (delete_everywhere env nm a g).2.
Proof.
  intros Hg. unfold delete_everywhere.
  run_step (data_socket D None (Socket.connect (env_connect env))); [|by apply data_safe].
  run_step (lock_data env D None); [|by apply data_safe].
  pose proof (socket_request_spec "DELETE" "/v1/accounts/me" None g1) as Hr.
  run_step (socket_request_data env D None "DELETE" "/v1/accounts/me" None); [|by apply data_safe].
  destruct Hr as (Hc & Hlog & Hans).
  pose proof (conn_socket Socket.close g2) as [Hc3 Hl3].
  run_step (data_socket D None Socket.close); [|by apply data_safe]. cbn [snd] in Hc3, Hl3.
  destruct (success a2) eqn:Es; [|case_bool_decide; by apply data_safe].
  assert (confirmed env g3) as Hconf.
  { exists (g_requests g1), a2. rewrite Hl3, Hlog. split_and!; [done| |done]. by apply Hans; [|apply success_status]. }
  clear - Hn2 Hconf. destruct Hn2 as [H1 H2].
  destruct (deleteAccount_cases (env_fault env) nm (conn_of g3) H2) as [[n E]|(e & c' & E & Hcm)].
  - erewrite bind_ok by (unfold lift; cbn [prj has_g_conn]; unfold conn_of in E; rewrite E; reflexivity).
    right. split; [done|]. cbn. by rewrite <- H1.
  - erewrite bind_throw by (unfold lift; cbn [prj has_g_conn]; unfold conn_of in E; rewrite E; reflexivity).
    left. cbn. by rewrite Hcm.
Qed.
End deletion.

(** Without failures on the way, a confirmed deletion wipes. *)
Definition clean (x : Socket.exchange) (r : Socket.Response) : Prop :=
  Socket.new_error x = None /\ Socket.send_call_error x = None /\ Socket.completion x = inr (Some r).

Lemma existing_ok env nm a g : env_fault env = no_fault -> env_open env nm = true -> account (cdb (conn_of g)) !! nm = Some a ->
  existing_account env nm g =
  (Ok a, put (mkConn (cdb (conn_of g)) (saved (conn_of g)) (4 + calls (conn_of g))) g).
Proof.
  intros Hf Ho Ha. unfold existing_account, open_storage. rewrite Ho, Hf. unfold conn_of in *.
  destruct g as [[[d s n] l h k] r so rq fi dr sa]. cbn in Ha.
  erewrite bind_ok by reflexivity. unfold hasAccount, loadAccount, select, prepare, sql_call, lift, mbind, comp_bind, gets. cbn.
  rewrite Ha. cbn. by rewrite Ha.
Qed.

Lemma doRequest_std b x : std_comp (Socket.doRequest b x).
Proof.
  intros [c cn da st ka lv ht]. destruct x as [[n|] [h|] [sc|] [code|[r'|]]], b, c as [id|]; cbn;
    try destruct (Socket.dropped code); done.
Qed.

(** The registration lock's request is contained, and the connection is
    kept. *)
Lemma lock_ok env g : exists g', disableRegistrationLockBestEffort env g = (Ok tt, g') /\ conn_of g' = conn_of g /\
  Socket.chat (g_socket g') = Socket.chat (g_socket g) /\
  g_requests g' = g_requests g ++ [OverSocket "DELETE" "/v1/accounts/registration_lock" None].
Proof.
  unfold disableRegistrationLockBestEffort, catch_std, socket_request, gets, modify, lift, mbind, comp_bind. cbn.
  pose proof (doRequest_std false (env_exchange env (length (g_requests g))) (g_socket g)) as Hstd.
  pose proof (Socket.doRequest_frame false (env_exchange env (length (g_requests g))) (g_socket g)) as (Hchat & _).
  destruct (Socket.doRequest false _ (g_socket g)) as [[r|[w| |]] s']; cbn in *; try done; [|by eexists].
  destruct (success r); by eexists.
Qed.

Lemma clean_answer x r s : clean x r -> is_Some (Socket.chat s) -> exists s', Socket.doRequest false x s = (Ok r, s').
Proof.
  intros (H1 & H2 & H3) [id Hc]. destruct x as [a h b c], s as [ch cn da st ka lv ht]. cbn in *. subst. by eexists.
Qed.

Lemma close_ok (g : gendb) : exists g', lift Socket.close g = (Ok tt, g') /\ conn_of g' = conn_of g.
Proof.
  unfold lift. destruct g as [st re [ch cn da [] ka lv ht] rq fi dr sa]; cbn; [by eexists|].
  unfold Socket.close, Socket.disconnectAndDestroyBestEffort. destruct ch as [id|]; cbn; by eexists.
Qed.

Lemma confirmed_deletion_wipes env nm a id r g :
  env_fault env = no_fault -> saved (conn_of g) = None -> env_connect env = Socket.Opened id None ->
  clean (env_exchange env (S (length (g_requests g)))) r -> success r = true ->
  exists g', delete_everywhere env nm a (put Socket.fresh_sock g) = (Ok tt, g') /\
    cdb (conn_of g') = wiped nm (cdb (conn_of g)) /\ saved (conn_of g') = None.
Proof.
  intros Hf Hs Hc Hx Hr. unfold delete_everywhere. rewrite Hc.
  erewrite bind_ok; [|reflexivity]. cbv beta.
  match goal with |- context [(disableRegistrationLockBestEffort env ≫= _) ?x] => set (g1 := x) end.
  destruct (lock_ok env g1) as (g2 & E2 & Hc2 & Hchat & Hl2). rewrite (bind_ok _ _ _ _ _ E2). cbv beta.
  destruct (clean_answer (env_exchange env (S (length (g_requests g)))) r (g_socket g2) Hx) as [s' Es];
    [rewrite Hchat; by eexists|].
  assert (socket_request env "DELETE" "/v1/accounts/me" None g2 =
    (Ok r, put s' (log_http (OverSocket "DELETE" "/v1/accounts/me" None) g2))) as Ereq.
  { unfold socket_request, gets, modify, lift, mbind, comp_bind. cbn. rewrite Hl2, length_app, Nat.add_comm.
    change (g_requests g1) with (g_requests g). cbn [length Nat.add]. by rewrite Es. }
  rewrite (bind_ok _ _ _ _ _ Ereq). cbv beta.
  destruct (close_ok (put s' (log_http (OverSocket "DELETE" "/v1/accounts/me" None) g2))) as (g3 & E3 & Hc3).
  rewrite (bind_ok _ _ _ _ _ E3). cbv beta. rewrite Hr, Hf.
  change (conn_of (put s' (log_http (OverSocket "DELETE" "/v1/accounts/me" None) g2))) with (conn_of g2) in Hc3.
  change (conn_of g1) with (conn_of g) in Hc2. rewrite Hc2 in Hc3.
  pose proof (deleteAccount_ok nm (conn_of g3)) as Hd. rewrite Hc3 in Hd. destruct (Hd Hs) as [n Ed].
  erewrite bind_ok by (unfold lift; cbn [prj has_g_conn]; unfold conn_of in Hc3, Ed; rewrite Hc3, Ed; reflexivity).
  by eexists.
Qed.

Lemma finally_ok {S A} (m : Comp S A) d s a s1 s2 : m s = (Ok a, s1) -> d s1 = (Ok tt, s2) -> finally m d s = (Ok a, s2).
Proof. intros H1 H2. unfold finally, catch_all. unfold mbind, comp_bind. by rewrite H1, H2. Qed.

(** C34: nobody's keys are thrown away on a guess: whatever fails and whatever
    Signal answers, after [delete-account] the committed database is what it
    was, or the account's rows are gone, every other row is as it was, and the
    last request made was DELETE /v1/accounts/me, which the server answered
    with success; and when nothing fails on the way such an answer does wipe
    the account. *)
Theorem wiped_only_when_confirmed env nm g (Hsaved : saved (conn_of g) = None) :
  let '(o, g') := cmdDeleteAccount env nm g in
  (committed (conn_of g') = cdb (conn_of g) \/
   (confirmed env g' /\ committed (conn_of g') = wiped nm (cdb (conn_of g)))) /\
  (forall a id r, env_fault env = no_fault -> env_open env nm = true -> account (cdb (conn_of g)) !! nm = Some a ->
     env_connect env = Socket.Opened id None -> clean (env_exchange env (2 + length (g_requests g))) r -> success r = true ->
     o = Ok tt /\ committed (conn_of g') = wiped nm (cdb (conn_of g))).
Proof.
  set (D := cdb (conn_of g)). assert (data D None g) as Hg by done.
  assert (safe_wipe env nm D (cmdDeleteAccount env nm g).2) as Hsafe.
  { unfold cmdDeleteAccount. run_step (existing_data env D None nm); [|by apply data_safe].
    unfold with_socket. run_step (data_log D None (SocketOpened (socket_username a) (password a) "")); [|by apply data_safe].
    erewrite bind_ok by reflexivity. apply finally_safe; [apply delete_safe|done]. }
  destruct (cmdDeleteAccount env nm g) as [o g'] eqn:E. split; [exact Hsafe|].
  intros a id r Hf Ho Ha Hc Hx Hr. unfold cmdDeleteAccount in E.
  rewrite (bind_ok _ _ _ _ _ (existing_ok env nm a g Hf Ho Ha)) in E. unfold with_socket in E.
  erewrite bind_ok in E by reflexivity. erewrite bind_ok in E by reflexivity.
  match type of E with finally _ _ (put _ ?x) = _ => set (g0 := x) in E end.
  destruct (confirmed_deletion_wipes env nm a id r g0 Hf Hsaved Hc) as (g1 & E1 & Hw & Hs1); [|done|].
  { unfold g0. cbn. by rewrite length_app, Nat.add_comm. }
  destruct (close_ok g1) as (g2 & E2 & Hc2). rewrite (finally_ok _ _ _ _ _ _ E1 E2) in E. injection E as <- <-.
  split; [done|]. unfold committed. by rewrite Hc2, Hw, Hs1.
Qed.

(** ** Examples *)

Definition toy_env : environment :=
  mkEnv plain_keys toy_ciphers toy_parser (mkDraws (fun n => Z.of_nat n + 1) (fun _ n => Some (repeat 7 n)))
    no_fault no_fault no_fault (fun _ => true) true 100 100000 complete_server
    (Socket.Opened 0 None) (fun _ => Socket.mkExchange None None None (inr (Some (Socket.mkResponse 204 []))))
    (fun _ _ _ => Ok (200, Some (JObj [("uuid"%string, JStr "u"); ("pni"%string, JStr "p"); ("deviceId"%string, JNum 2)])))
    Provisioning.Opened (0%nat, 0%nat) [(200, Address "addr"); (61000, Envelope (7 :: toy_body))]
    (fun _ => true) (fun _ => None) (fun _ => None) (fun _ => false).

Definition toy_gendb (c : conn) : gendb :=
  mkGendb (mkP c ∅ 0 0) (mkRegistrar (mkHeap ∅ 0 0) 0 0 None []) Socket.fresh_sock [] ∅ 0 [].

Lemma wiped_only_when_confirmed_witness :
  let '(o, g') := cmdDeleteAccount toy_env "a" (toy_gendb two_accounts) in
  o = Ok tt /\ committed (conn_of g') = wiped "a" (cdb two_accounts).
Proof.
  pose proof (wiped_only_when_confirmed toy_env "a" (toy_gendb two_accounts) eq_refl) as H.
  destruct (cmdDeleteAccount toy_env "a" (toy_gendb two_accounts)) as [o g'].
  destruct H as [_ H]. eapply (H _ 0%nat (Socket.mkResponse 204 [])); try reflexivity. repeat split; reflexivity.
Defined.
