(* ===== verification/GendbAccounts.v ===== *)
(** Creating accounts with signal2sip-gendb: what [register], [verify] and
    [link] of Gendb leave in the database, and how that fits what they told
    Signal's servers. *)

From S2P Require Import Prelude Storage Config AuthSocket ProtocolStores CallSignaling Crypto PreKeys LinkCiphers QrLink Handles Provisioning Registration AccountFinisher GendbConfig Gendb.

Open Scope Z_scope.

(** ** An account that is there *)

(** Nothing was told to anybody, written or removed. *)
Definition untouched (g g' : gendb) : Prop :=
  data (cdb (conn_of g)) (saved (conn_of g)) g' /\ g_files g' = g_files g /\
  r_calls (g_registrar g') = r_calls (g_registrar g) /\ g_requests g' = g_requests g.

Section guard.
Context (env : environment) (config : DaemonConfig) (nm : string) (g : gendb).

(** The guard lets a command go on when there is no row, or when the step that
    reads it fails. *)
Lemma guard_cases :
  let c := conn_of g in
  let '(o, g') := requireNoExistingAccount env nm g in
  untouched g g' /\
  (o = Ok tt <-> env_fault env (calls c) = false /\ (env_fault env (S (calls c)) = true \/ account (cdb c) !! nm = None)).
Proof.
  destruct g as [[[d s n] l h k] r so rq fi dr sa].
  unfold requireNoExistingAccount, hasAccount, select, prepare, sql_call, gets, lift, mbind, comp_bind, untouched, data, conn_of.
  cbn. destruct (env_fault env n) eqn:E0; cbn; [split; [done|split; [done|intros [? _]; congruence]]|].
  destruct (env_fault env (S n)) eqn:E1; cbn; [split; [done|by split; [split; [|left]|]]|].
  destruct (account d !! nm) as [a|] eqn:Ea; cbn.
  - split; [done|]. split; [done|]. intros [_ [?|?]]; congruence.
  - split; [done|]. split; [by split; [|right]|done].
Qed.
End guard.

(** An account that is there is never registered or linked over: whatever
    its other arguments are, and even while an earlier verification is still
    pending, [register], [verify] and [link] end with an error before they call
    a service, send a request, or change a row or a file.  The guard is passed
    only if there is no row, or if reading it fails: a read error counts as "no
    account". *)
Lemma existing_account_refused env config nm a g e164Arg transport code
    (Hrow : account (cdb (conn_of g)) !! nm = Some a) :
  ((requireNoExistingAccount env nm g).1 = Ok tt <->
     env_fault env (calls (conn_of g)) = false /\ env_fault env (S (calls (conn_of g))) = true) /\
  (env_fault env (S (calls (conn_of g))) = false ->
   Forall (fun m : Comp gendb unit => is_ok (m g).1 = false /\ untouched g (m g).2)
     [cmdRegister env config nm e164Arg transport; cmdVerify env config nm code; cmdLink env config nm]).
Proof.
  pose proof (guard_cases env nm g) as H. destruct (requireNoExistingAccount env nm g) as [o g1] eqn:E.
  destruct H as [Hu Hiff]. cbn [fst].
  assert (o = Ok tt <-> env_fault env (calls (conn_of g)) = false /\ env_fault env (S (calls (conn_of g))) = true) as Hiff2.
  { rewrite Hiff. split; intros [H1 H2]; (split; [done|]); [destruct H2; congruence|by left]. }
  split; [done|]. intros Hread.
  assert (forall k : unit -> Comp gendb unit, is_ok ((open_storage env nm ;; requireNoExistingAccount env nm ≫= k) g).1 = false /\
    untouched g ((open_storage env nm ;; requireNoExistingAccount env nm ≫= k) g).2) as Hk.
  { intros k. unfold open_storage. destruct (env_open env nm); [|done]. erewrite bind_ok by reflexivity.
    destruct o as [[]|e]; [exfalso; destruct (proj1 Hiff2 eq_refl); congruence|].
    by rewrite (bind_throw _ _ _ _ _ E). }
  apply Forall_cons. split; [|apply Forall_cons; split; [exact (Hk _)|apply Forall_cons; split; [exact (Hk _)|apply Forall_nil_2]]].
  unfold cmdRegister. destruct (negb (one_of transport ["sms"; "voice"])); [done|].
  match goal with |- context [of_outcome ?x] => destruct x as [number|e]; [|done] end.
  erewrite bind_ok by reflexivity. destruct (requireE164NotUsedByOtherAccount config nm number); [|done].
  erewrite bind_ok by reflexivity. exact (Hk _).
Qed.

Lemma existing_account_refused_witness :
  ((requireNoExistingAccount toy_env "a" (toy_gendb two_accounts)).1 = Ok tt <-> false = false /\ false = true) /\
  (false = false ->
   Forall (fun m : Comp gendb unit => is_ok (m (toy_gendb two_accounts)).1 = false /\
       untouched (toy_gendb two_accounts) (m (toy_gendb two_accounts)).2)
     [cmdRegister toy_env (mkDaemon (mkGlobal "/d/x.db" "k" 0 0 0 0) []) "a" "+1" "sms";
      cmdVerify toy_env (mkDaemon (mkGlobal "/d/x.db" "k" 0 0 0 0) []) "a" "123";
      cmdLink toy_env (mkDaemon (mkGlobal "/d/x.db" "k" 0 0 0 0) []) "a"]).
Proof.
  exact (existing_account_refused toy_env (mkDaemon (mkGlobal "/d/x.db" "k" 0 0 0 0) []) "a" column_defaults
    (toy_gendb two_accounts) "+1" "sms" "123" eq_refl).
Defined.

(** ** The registration client's objects *)

Definition fresh_client (r : registrar) : Prop := fresh_heap (r_heap r).

Lemma client_lift {A} (m : Comp (heap robject) A) : preserves fresh_heap m -> preserves fresh_client (lift m : Comp registrar A).
Proof. intros H r Hr. specialize (H _ Hr). unfold lift. cbn. by destruct (m (r_heap r)). Qed.
#[export] Hint Resolve client_lift : signal.

Section client.
Context (server : reg_server) (f : nat -> bool).

Lemma call_fresh {A} what c (reply : list reg_call -> outcome A) : preserves fresh_client (call f what c reply).
Proof. unfold call. keeps; by apply preserves_modify. Qed.
Lemma session_fresh : preserves fresh_client (currentSessionState server f).
Proof. unfold currentSessionState. keeps. Qed.
Lemma resume_fresh id e : preserves fresh_client (resumeSession server f id e).
Proof. unfold resumeSession, runCreateOrResume. pose proof @call_fresh. pose proof session_fresh. keeps; by apply preserves_modify. Qed.
Lemma submit_fresh code : preserves fresh_client (submitVerificationCode server f code).
Proof. unfold submitVerificationCode, runBoolCall. pose proof @call_fresh. keeps. Qed.
Lemma construct_fresh : preserves fresh_heap (construct f).
Proof. unfold construct, makeConnectionManager. keeps. Qed.
End client.

(** Destroying a client calls nothing. *)
Lemma destruct_calls f l : preserves (fun r => r_calls r = l) (destruct_ f).
Proof. unfold destruct_. keeps; try (intros r Hr; unfold lift; by destruct (release_quietly _ _ _ _)). Qed.

(** ** Verifying *)

(** Where a verification stands before it registers. *)
Definition before (D : db) (S : option db) (files : gmap string (option json)) (g : gendb) : Prop :=
  data D S g /\ g_files g = files /\ fresh_client (g_registrar g).

Section before.
Context (env : environment) (D : db) (S : option db) (files : gmap string (option json)).
Notation keeps_before m := (preserves (before D S files) m).

Lemma before_stores {A} (m : Comp pstate A) : keeps_conn m -> keeps_before (lift m : Comp gendb A).
Proof.
  intros Hm g (Hd & Hf & Hr). pose proof (data_stores D S m Hm g Hd) as H. unfold lift in *. cbn in *.
  by destruct (m (g_stores g)).
Qed.
Lemma before_registrar {A} (m : Comp registrar A) : preserves fresh_client m -> keeps_before (lift m : Comp gendb A).
Proof. intros Hm g (Hd & Hf & Hr). specialize (Hm _ Hr). unfold lift. cbn in *. by destruct (m (g_registrar g)). Qed.
Lemma before_say n : keeps_before (say n).
Proof. by apply preserves_modify. Qed.
Lemma before_draw : keeps_before (modify next_draw).
Proof. by apply preserves_modify. Qed.
End before.
#[export] Hint Resolve before_stores before_registrar before_say before_draw resume_fresh submit_fresh : signal.

(** Saving a finished account, whatever fails. *)
Lemma save_step fault nm now a D S g : data D S g ->
  let '(o, g') := (lift (saveFinishedAccount fault nm now a) g : outcome unit * gendb) in
  g_registrar g' = g_registrar g /\ g_requests g' = g_requests g /\ g_files g' = g_files g /\ saved (conn_of g') = S /\
  match o with
  | Ok _ => cdb (conn_of g') = finished_db nm now a D
  | Throw _ => cdb (conn_of g') = D \/ is_Some (account (cdb (conn_of g')) !! nm)
  end.
Proof.
  intros [H1 H2]. pose proof (saveFinished_cases fault nm now a (conn_of g)) as Hs.
  unfold lift. cbn [prj has_g_conn]. fold (conn_of g).
  destruct (saveFinishedAccount fault nm now a (conn_of g)) as [[u|e] c']; cbn; rewrite H1 in Hs.
  - destruct Hs as [Hs1 Hs2]. by rewrite Hs2.
  - destruct Hs as (_ & Hs2 & Hs3). by rewrite Hs2.
Qed.

Section verify.
Context (env : environment) (config : DaemonConfig) (nm number : string) (pending : PendingRegistration).
Context (D : db) (S : option db) (files : gmap string (option json)).
Notation server := (env_registration env).

(** Two identity key pairs of libsignal's, and prekeys whose public halves and
    records belong together, signed with these identity keys. *)
Definition own_keys (keys : prekey_lib) (aciIdentity pniIdentity : KeyPair) (prekeys : GeneratedPrekeys) : Prop :=
  kp_publicKey aciIdentity = privatekey_get_public_key keys (kp_privateKey aciIdentity) /\
  kp_publicKey pniIdentity = privatekey_get_public_key keys (kp_privateKey pniIdentity) /\
  prekeys_match keys (kp_privateKey aciIdentity) (kp_privateKey pniIdentity) prekeys.

(** The account was registered with the public halves ([full_request]) of
    keys whose private halves and records the rows hold ([finished_db]). *)
Definition registered_and_saved (o : outcome unit) (g : gendb) : Prop :=
  exists l id1 id2 aciIdentity pniIdentity prekeys ids,
    own_keys (env_keys env) aciIdentity pniIdentity prekeys /\
    r_calls (g_registrar g) =
      l ++ [RegisterAccount (full_request (pend_password pending) aciIdentity pniIdentity prekeys) (attributes_for id1 id2)] /\
    registered_as server (r_calls (g_registrar g)) = Ok ids /\ saved (conn_of g) = S /\
    match o with
    | Ok _ =>
      cdb (conn_of g) = finished_db nm (env_now env)
        (mkFinished number ids.1 ids.2 (pend_password pending) 1 id1 id2 aciIdentity pniIdentity prekeys "standalone" None None None) D /\
      g_files g = delete (pendingFilePath (global config) nm) files
    | Throw _ => cdb (conn_of g) = D \/ is_Some (account (cdb (conn_of g)) !! nm)
    end.

(** Nothing is saved, the pending registration stays; or the above. *)
Definition verify_end (o : outcome unit) (g : gendb) : Prop :=
  (data D S g /\ g_files g = files) \/ registered_and_saved o g.

Lemma before_end o g : before D S files g -> verify_end o g.
Proof. intros (H1 & H2 & _). by left. Qed.

(** Saving once the service has accepted. *)
Lemma save_end l id1 id2 aciIdentity pniIdentity prekeys ids g :
  own_keys (env_keys env) aciIdentity pniIdentity prekeys -> data D S g -> g_files g = files ->
  r_calls (g_registrar g) =
    l ++ [RegisterAccount (full_request (pend_password pending) aciIdentity pniIdentity prekeys) (attributes_for id1 id2)] ->
  registered_as server (r_calls (g_registrar g)) = Ok ids ->
  let '(o, g') := (
    lift (saveFinishedAccount (env_fault env) nm (env_now env)
      (mkFinished number ids.1 ids.2 (pend_password pending) 1 id1 id2 aciIdentity pniIdentity prekeys "standalone" None None None)) ;;
    deletePending config nm ;; say (RegisteredAs ids.1) : Comp gendb unit) g in
  registered_and_saved o g'.
Proof.
  intros Hown Hd Hf Hc Hi. set (a := mkFinished _ _ _ _ _ _ _ _ _ _ _ _ _ _).
  pose proof (save_step (env_fault env) nm (env_now env) a D S g Hd) as H. unfold mbind at 1, comp_bind at 1.
  destruct (lift (saveFinishedAccount _ _ _ a) g) as [o g1]. destruct H as (Hr & _ & Hfl & Hs & H).
  destruct o as [u|e]; exists l, id1, id2, aciIdentity, pniIdentity, prekeys, ids; (split; [exact Hown|]); unfold conn_of in *; cbn; rewrite Hr, ?Hfl, ?Hf, Hs; by rewrite Hc in Hi |- *.
Qed.

Lemma verified_end g : before D S files g ->
  let '(o, g') := verified_account env config nm number pending g in verify_end o g'.
Proof.
  intros Hg. unfold verified_account.
  run_step (before_stores D S files (generateKeyPair (env_keys env) (env_ffi env)) (generateKeyPair_conn _ _)); [|by apply before_end].
  run_step (before_stores D S files (generateKeyPair (env_keys env) (env_ffi env)) (generateKeyPair_conn _ _)); [|by apply before_end].
  assert (preserves (before D S files) (randomRegistrationId env)) as Hid by (unfold randomRegistrationId; keeps).
  run_step Hid; [|by apply before_end]. run_step Hid; [|by apply before_end].
  run_step (before_stores D S files _ (generatePrekeys_conn (env_keys env) (env_ffi env) (env_nowMs env)
    (kp_privateKey a) (kp_privateKey a0) 1)); [|by apply before_end].
  destruct Hn3 as (Hd & Hfl & Hfr).
  assert (own_keys (env_keys env) a a0 a3) as Hown.
  { apply lift_ok_inv in E as [? E]. apply lift_ok_inv in E0 as [? E0]. apply lift_ok_inv in E3 as [? E3].
    split_and!; [by eapply generateKeyPair_real|by eapply generateKeyPair_real|by eapply generatePrekeys_match]. }
  pose proof (registerAccount_spec server (env_net env) (pend_password pending) a1 a2 a a0 a3 (g_registrar g4) Hfr) as Hreg.
  cbv zeta in Hreg. unfold mbind at 1, comp_bind at 1. unfold catch_std at 1. unfold mbind at 1, comp_bind at 1. unfold lift at 1.
  cbn [prj has_g_registrar]. destruct (registerAccount _ _ _ _ _ _ _ _ (g_registrar g4)) as [[ids|[w| |]] R'].
  - destruct Hreg as (_ & Hok & _). destruct (Hok ids eq_refl) as [Hc Hi].
    pose proof (save_end (r_calls (g_registrar g4)) a1 a2 a a0 a3 ids (put R' g4) Hown Hd Hfl Hc) as Hs. cbn in Hs. rewrite Hc in Hs.
    specialize (Hs Hi).
    match type of Hs with let '(_, _) := ?x in _ => match goal with |- let '(_, _) := ?y in _ => change y with x end;
      destruct x as [o g5] end. by right.
  - by left.
  - by left.
  - by left.
Qed.
End verify.

(** A destructor that does not throw leaves the result alone. *)
Lemma finally_eq {S A} (m : Comp S A) d s : (forall s, exists s', d s = (Ok tt, s')) ->
  finally m d s = ((m s).1, (d (m s).2).2).
Proof.
  intros Hd. unfold finally, catch_all. unfold mbind at 1, comp_bind at 1.
  destruct (m s) as [[a|e] s1]; cbn [fst snd]; destruct (Hd s1) as [s2 E]; unfold mbind, comp_bind; by rewrite E.
Qed.

Lemma release_quietly_returns {O} f what h (s : heap O) : exists s', release_quietly f what h s = (Ok tt, s').
Proof. unfold release_quietly, catch_std, release, checked, delete_object, mbind, comp_bind. destruct (f (ffi_made s)); by eexists. Qed.
Lemma destruct_returns f r : exists r', destruct_ f r = (Ok tt, r').
Proof.
  assert (forall what h r, exists r', lift (release_quietly f what h) r = (Ok tt, r') :> outcome unit * registrar) as Hl.
  { intros what h r0. unfold lift. destruct (release_quietly_returns f what h (prj r0)) as [h' ->]. by eexists. }
  unfold destruct_. erewrite bind_ok by reflexivity. destruct (r_service r) as [h|].
  - destruct (Hl "signal_registration_service_destroy"%string h r) as [r1 E1]. rewrite (bind_ok _ _ _ _ _ E1).
    edestruct Hl as [r2 E2]. rewrite (bind_ok _ _ _ _ _ E2). apply Hl.
  - erewrite bind_ok by reflexivity. edestruct Hl as [r2 E2]. rewrite (bind_ok _ _ _ _ _ E2). apply Hl.
Qed.
Lemma client_destroyed f (g : gendb) : exists g', lift (destruct_ f) g = (Ok tt, g') /\
  conn_of g' = conn_of g /\ g_files g' = g_files g /\ r_calls (g_registrar g') = r_calls (g_registrar g) /\
  g_requests g' = g_requests g.
Proof.
  unfold lift. cbn [prj has_g_registrar]. pose proof (destruct_calls f _ (g_registrar g) eq_refl) as Hc. cbv beta in Hc.
  destruct (destruct_returns f (g_registrar g)) as [r' E]. rewrite E in Hc |- *. by eexists.
Qed.

Lemma verify_end_same env config nm number pending D S files o g g' :
  verify_end env config nm number pending D S files o g ->
  conn_of g' = conn_of g -> g_files g' = g_files g -> r_calls (g_registrar g') = r_calls (g_registrar g) ->
  verify_end env config nm number pending D S files o g'.
Proof. unfold verify_end, registered_and_saved, data. by intros H -> -> ->. Qed.

Section client_scope.
Context (env : environment) (config : DaemonConfig) (nm number code : string) (pending : PendingRegistration).
Context (D : db) (S : option db) (files : gmap string (option json)).
Notation verify_end := (verify_end env config nm number pending D S files).

Lemma with_client_end (m : Comp gendb unit) g :
  (forall g, before D S files g -> let '(o, g') := m g in verify_end o g') -> before D S files g ->
  let '(o, g') := with_client env m g in verify_end o g'.
Proof.
  intros Hm Hg. unfold with_client.
  assert (preserves (before D S files) (lift (lift (construct (env_net env)) : Comp registrar (nat * nat)))) as Hc
    by (apply before_registrar, client_lift, construct_fresh).
  run_step Hc; [|by apply before_end]. erewrite bind_ok by reflexivity.
  rewrite (finally_eq _ _ _ ltac:(intros s0; destruct (client_destroyed (env_net env) s0) as (s1 & -> & _); by eexists)).
  match goal with |- context [(m ?x).1] => set (g1 := x) end.
  assert (before D S files g1) as Hg1 by (by destruct Hn as (? & ? & ?)). specialize (Hm g1 Hg1).
  destruct (m g1) as [o g2]. cbn [fst snd]. destruct (client_destroyed (env_net env) g2) as (g3 & E3 & H1 & H2 & H3 & _).
  rewrite E3. by eapply verify_end_same.
Qed.

Lemma session_end g : before D S files g ->
  let '(o, g') := (
    lift (resumeSession (env_registration env) (env_net env) (pend_sessionId pending) number) ;;
    verified ← lift (submitVerificationCode (env_registration env) (env_net env) code);
    if negb (verified : bool) then say NotVerified else
    verified_account env config nm number pending : Comp gendb unit) g in
  verify_end o g'.
Proof.
  intros Hg. run_step (before_registrar D S files _ (resume_fresh (env_registration env) (env_net env) (pend_sessionId pending) number));
    [|by apply before_end].
  run_step (before_registrar D S files _ (submit_fresh (env_registration env) (env_net env) code)); [|by apply before_end].
  destruct (negb a0); [by apply before_end|by apply verified_end].
Qed.
End client_scope.

(** The pending registration a command reads. *)
Definition pending_of (config : DaemonConfig) (nm : string) (g : gendb) : outcome PendingRegistration := (loadPending config nm g).1.

Lemma loadPending_eq config nm g g' : g_files g' = g_files g -> loadPending config nm g' = (pending_of config nm g, g').
Proof.
  intros Hf. unfold pending_of, loadPending, gets, mbind, comp_bind. rewrite Hf.
  destruct (g_files g !! pendingFilePath (global config) nm) as [[j|]|]; done.
Qed.
Lemma before_conn D S files {A} (m : Comp conn A) :
  preserves (fun c => cdb c = D /\ saved c = S) m -> preserves (before D S files) (lift m : Comp gendb A).
Proof.
  intros Hm g (Hd & Hf & Hr). pose proof (data_conn D S m Hm g Hd) as H. unfold lift in *. cbn in *. by destruct (m _).
Qed.
#[export] Hint Resolve before_conn : signal.

(** C18: what [verify] stores is what it registered: whatever fails and
    whatever the service says, either no row and no file changed; or the
    service accepted a registration with the password of the pending file,
    complete keys and the two registration ids, and then, when [verify]
    succeeds, the database has gained exactly the account's row, with that
    password, those ids and the identifiers the service gave, its two identity
    key pairs, whose public keys are the registered ones, and four prekey records,
    each the one libsignal made for the public key and signature that was
    registered in its place, signed with the saved identity key; and the pending
    file is gone.  If saving fails half-way the row may be there without its
    keys. *)
Theorem verify_saves_what_it_registered env config nm code g (Hfresh : fresh_client (g_registrar g)) :
  let '(o, g') := cmdVerify env config nm code g in
  let D := cdb (conn_of g) in let S := saved (conn_of g) in
  (data D S g' /\ g_files g' = g_files g) \/
  exists pending, pending_of config nm g = Ok pending /\
    registered_and_saved env config nm
      (let configured := cfg_e164 (ra_account (resolveAccount config nm)) in
       if str_empty configured then pend_e164 pending else configured) pending D S (g_files g) o g'.
Proof.
  set (D := cdb (conn_of g)). set (S := saved (conn_of g)). set (files := g_files g).
  assert (before D S files g) as Hg by done. unfold cmdVerify.
  assert (preserves (before D S files) (open_storage env nm)) as Hopen by (unfold open_storage; keeps).
  run_step Hopen; [|left; by destruct Hn as (? & ? & _)].
  assert (preserves (before D S files) (requireNoExistingAccount env nm)) as Hreq by (unfold requireNoExistingAccount; keeps).
  run_step Hreq; [|left; by destruct Hn0 as (? & ? & _)].
  pose proof (loadPending_eq config nm g g1 ltac:(by destruct Hn0 as (_ & -> & _))) as El.
  destruct (pending_of config nm g) as [pending|e] eqn:Ep.
  2: { rewrite (bind_throw _ _ _ _ _ El). left. by destruct Hn0 as (? & ? & _). }
  rewrite (bind_ok _ _ _ _ _ El). cbv beta zeta. set (number := if str_empty _ then _ else _).
  destruct (requireE164NotUsedByOtherAccount config nm number) as [[]|e];
    [erewrite bind_ok by reflexivity|left; by destruct Hn0 as (? & ? & _)].
  pose proof (with_client_end env config nm number pending D S files _ g1 (session_end env config nm number code pending D S files) Hn0) as H.
  match type of H with let '(_, _) := ?x in _ => match goal with |- let '(_, _) := ?y in _ => change y with x end;
    destruct x as [o g'] end.
  destruct H as [H|H]; [by left|right]. by exists pending.
Qed.

(** ** Linking *)

Definition keys_at (k : conn) (c : client) : Prop := db_conn (c_keys c) = k.

Lemma decrypt_conn lib f a b c : keeps_conn (decryptProvisionEnvelope lib f a b c).
Proof.
  intros k. unfold decryptProvisionEnvelope. pose proof (agree_conn lib f a b k). unfold checkError. keeps; conn_leaf.
Qed.

Section provisioning.
Context (keys : prekey_lib) (lib : cipher_lib) (parser : provision_parser) (f net : nat -> bool) (k : conn).

Lemma lift_keys_at {A} (m : Comp pstate A) : keeps_conn m -> preserves (keys_at k) (lift m : Comp client A).
Proof. intros Hm c Hc. specialize (Hm _ _ Hc). unfold lift. cbn in *. by destruct (m (c_keys c)). Qed.
Lemma lift_net_at {A} (m : Comp (heap pobject) A) : preserves (keys_at k) (lift m : Comp client A).
Proof. intros c Hc. unfold lift. by destruct (m (prj c)). Qed.
Hint Resolve lift_keys_at lift_net_at decrypt_conn : signal.

Lemma deliver_at e : preserves (keys_at k) (deliver lib parser f net e).
Proof.
  destruct e as [a|b|]; unfold deliver, onReceivedAddress, onReceivedEnvelope, onConnectionInterrupted, send_ack, printLinkUrl;
    keeps; try (by apply preserves_modify).
Qed.
Lemma wait_at deadline pred late events : preserves (keys_at k) (wait_until lib parser f net deadline pred late events).
Proof.
  pose proof deliver_at. induction events as [|[t e] events IH]; cbn [wait_until]; keeps.
Qed.
Lemma provision_at a l1 l2 events : preserves (keys_at k) (waitForProvisionMessage lib parser f net a l1 l2 events).
Proof.
  pose proof wait_at. destruct a; unfold waitForProvisionMessage; keeps; try (by apply preserves_modify).
Qed.
End provisioning.

Lemma provision_data env D S : preserves (data D S) (provision env).
Proof.
  intros g Hg. unfold provision, Impl. cbn [fst snd].
  match goal with |- context [?m (mkHeap ∅ 0 0)] => destruct (m (mkHeap ∅ 0 0)) as [[[r m']|e] n] end; [|done].
  pose proof (generateKeyPair_conn (env_keys env) (env_ffi env) (conn_of g) (g_stores g) eq_refl) as Hk.
  destruct (generateKeyPair _ _ (g_stores g)) as [[kp|e] p]; cbn [snd] in Hk; [|unfold data, conn_of in *; cbn; by rewrite Hk].
  pose proof (provision_at (env_ciphers env) (env_parser env) (env_ffi env) (env_net env) (conn_of g) (env_attempt env)
    (env_late env).1 (env_late env).2 (env_events env) (mkClient p n r m' kp None false None None []) Hk) as Hw.
  destruct (waitForProvisionMessage _ _ _ _ _ _ _ _ _) as [o c']. unfold data, conn_of, keys_at in *. cbn in *. by rewrite Hw.
Qed.

Section link.
Context (env : environment) (config : DaemonConfig) (nm : string) (g0 : gendb).

(** What the command's [provision] gave when it is run from [g0]. *)
Definition scanned (m : ProvisionMessageResult) : Prop :=
  exists g1, (open_storage env nm ;; requireNoExistingAccount env nm) g0 = (Ok tt, g1) /\
    (provision env g1).1 = Ok m.

(** The configured number, else the one of the message. *)
Definition linked_number (m : ProvisionMessageResult) : string :=
  let configured := cfg_e164 (ra_account (resolveAccount config nm)) in
  if str_nonempty configured then configured else p_e164 m.

(** The service accepted the device of the scanned message; what was sent is
    what the rows hold. *)
Definition linked_and_saved (o : outcome unit) (g : gendb) : Prop :=
  exists l m id1 id2 deviceName prekeys raw answer aci_ pni_ device,
    let pw := base64NoPadding raw in
    let body := link_body m id1 id2 deviceName prekeys in
    let host := serverHostFor (ra_account (resolveAccount config nm)) in
    scanned m /\
    prekeys_match (env_keys env) (aciIdentityKeyPrivate m) (pniIdentityKeyPrivate m) prekeys /\
    (exists k, encryptDeviceName (env_keys env) (env_ciphers env) (env_ffi env) kDeviceName
       (aciIdentityKeyPrivate m) k.1 = (Ok deviceName, k.2)) /\
    (exists i, draw_bytes (env_draws env) i 18 = Some raw) /\
    g_requests g = l ++ [OverCurl host "PUT" "/v1/devices/link" body (p_aci m) pw] /\
    env_link env body (p_aci m) pw = Ok (200, Some answer) /\
    json_string answer "uuid" = Ok aci_ /\ json_string answer "pni" = Ok pni_ /\
    (v ← at_ answer "deviceId"; get_int v) = Ok device /\ saved (conn_of g) = saved (conn_of g0) /\
    match o with
    | Ok _ => cdb (conn_of g) = finished_db nm (env_now env)
        (mkFinished (linked_number m) aci_ pni_ pw device id1 id2
           (mkKeyPair (aciIdentityKeyPrivate m) (aciIdentityKeyPublic m))
           (mkKeyPair (pniIdentityKeyPrivate m) (pniIdentityKeyPublic m)) prekeys "linked"
           (accountEntropyPool m) (mediaRootBackupKey m) (profileKey m)) (cdb (conn_of g0))
    | Throw _ => cdb (conn_of g) = cdb (conn_of g0) \/ is_Some (account (cdb (conn_of g)) !! nm)
    end.
End link.

Lemma draw_random_inv env n g raw g' :
  draw_random_bytes env n g = (Ok raw, g') -> exists i, draw_bytes (env_draws env) i n = Some raw.
Proof.
  unfold draw_random_bytes, gets, modify, mbind, comp_bind. cbn.
  destruct (draw_bytes _ _ _) as [l|] eqn:E; [|done]. intros [= -> _]. by eexists.
Qed.

(** C33: what [link] stores is what it sent: whatever fails and whoever answers,
    either no row changed; or Signal accepted, with status 200, the very
    request that carries the code of the message scanned in this run, two
    registration ids, the device's name (encrypted for the account's identity
    key) and the public halves of four prekeys, and then, when [link] succeeds,
    the database has gained exactly the row with those ids, the configured number
    or that of the message, the password the request was made with (18 random
    bytes), the identifiers and device number of the answer and the secrets of
    the scanned message; its two identity key pairs; and four prekey records,
    each the one libsignal made for the public key and signature that was sent in
    its place, signed with the scanned identity key.  (The request itself carries
    no identity key.)  If saving fails half-way the row may be there without its
    keys. *)
Theorem link_saves_what_it_sent env config nm g :
  let '(o, g') := cmdLink env config nm g in
  data (cdb (conn_of g)) (saved (conn_of g)) g' \/ linked_and_saved env config nm g o g'.
Proof.
  set (D := cdb (conn_of g)). set (S := saved (conn_of g)). assert (data D S g) as Hg by done. unfold cmdLink.
  run_step (open_storage_data env D S nm); [|by left]. run_step (require_data env D S nm); [|by left]. cbv zeta.
  destruct a, a0. pose proof (bind_ok (open_storage env nm) (fun _ => requireNoExistingAccount env nm) _ _ _ E) as Estart.
  cbv beta in Estart. rewrite E0 in Estart.
  run_step (provision_data env D S); [|by left].
  assert (scanned env nm g a) as Hscan by (exists g1; split; [done|by rewrite E1]).
  match goal with |- context [when ?b (say ?n)] => set (mismatch := when b (say n)) end.
  assert (preserves (data D S) mismatch) as Hmis by (unfold mismatch; keeps).
  run_step Hmis; [|by left].
  match goal with |- context [of_outcome (requireE164NotUsedByOtherAccount ?c ?n ?e)] =>
    change e with (linked_number config nm a);
    destruct (requireE164NotUsedByOtherAccount c n (linked_number config nm a)) as [[]|e']; [|by left] end.
  erewrite bind_ok by reflexivity. run_step (draw_id_data env D S); [|by left]. run_step (draw_id_data env D S); [|by left].
  run_step (data_stores D S _ (generatePrekeys_conn (env_keys env) (env_ffi env) (env_nowMs env)
    (kp_privateKey (mkKeyPair (aciIdentityKeyPrivate a) (aciIdentityKeyPublic a)))
    (kp_privateKey (mkKeyPair (pniIdentityKeyPrivate a) (pniIdentityKeyPublic a))) 1)); [|by left].
  run_step (draw_bytes_data env D S 18); [|by left].
  run_step (data_stores D S _ (encryptDeviceName_conn (env_keys env) (env_ciphers env) (env_ffi env) kDeviceName
    (kp_privateKey (mkKeyPair (aciIdentityKeyPrivate a) (aciIdentityKeyPublic a))))); [|by left].
  erewrite bind_ok by reflexivity.
  assert (prekeys_match (env_keys env) (aciIdentityKeyPrivate a) (pniIdentityKeyPrivate a) a3) as Hpk
    by (apply lift_ok_inv in E5 as [? E5]; by eapply generatePrekeys_match).
  assert (exists k, encryptDeviceName (env_keys env) (env_ciphers env) (env_ffi env) kDeviceName
    (aciIdentityKeyPrivate a) k.1 = (Ok a5, k.2)) as Hname by (apply lift_ok_inv in E7 as [k2 E7]; by exists (prj g7, k2)).
  apply draw_random_inv in E6.
  destruct (env_link env (link_body a a1 a2 a5 a3) (p_aci a) (base64NoPadding a4)) as [[status answer]|e] eqn:El; [|by left].
  erewrite bind_ok by reflexivity. erewrite bind_ok by reflexivity. cbn [fst snd].
  case_bool_decide as Hst; cbn [negb]; [|by left]. subst status.
  destruct answer as [j|]; [|by left]. erewrite bind_ok by reflexivity.
  destruct (json_string j "uuid") as [aci_|e] eqn:E1'; [|by left]. erewrite bind_ok by reflexivity.
  destruct (json_string j "pni") as [pni_|e] eqn:E2'; [|by left]. erewrite bind_ok by reflexivity.
  destruct (v ← at_ j "deviceId"; get_int v) as [device|e] eqn:E3'; [|by left]. erewrite bind_ok by reflexivity.
  match goal with |- context [(lift (saveFinishedAccount _ _ _ ?a) ≫= _) ?x] => set (fin := a); set (gl := x) end.
  assert (data D S gl) as Hgl by done.
  pose proof (save_step (env_fault env) nm (env_now env) fin D S gl Hgl) as H. unfold mbind at 1, comp_bind at 1.
  destruct (lift (saveFinishedAccount _ _ _ fin) gl) as [o gs]. destruct H as (_ & Hrq & _ & Hs & H).
  destruct o as [u|e]; right; (eexists _, a, a1, a2, a5, a3, a4, j, aci_, pni_, device);
    unfold conn_of in *; cbn; rewrite ?Hrq, Hs; split_and!; done.
Qed.


(** ** Examples *)

Definition toy_config : DaemonConfig := mkDaemon (mkGlobal "/d/x.db" "k" 0 0 0 0) [].
Definition verifying : gendb :=
  set_files (<[pendingFilePath (global toy_config) "a" := Some (pending_json (mkPending "+49" "id" "pw" "sms"))]> ∅)
    (toy_gendb (mkConn empty_db None 0)).

Lemma verify_saves_what_it_registered_witness :
  let '(o, g') := cmdVerify toy_env toy_config "a" "123" verifying in
  (data empty_db None g' /\ g_files g' = g_files verifying) \/
  exists pending, pending_of toy_config "a" verifying = Ok pending /\
    registered_and_saved toy_env toy_config "a" (pend_e164 pending) pending empty_db None (g_files verifying) o g'.
Proof. exact (verify_saves_what_it_registered toy_env toy_config "a" "123" verifying (fun _ _ => eq_refl)). Defined.

(** The second case is real. *)
Example verify_run :
  let '(o, g') := cmdVerify toy_env toy_config "a" "123" verifying in
  (o, registration_id <$> (account (cdb (conn_of g')) !! "a"), length (map_to_list (kyber_prekey (cdb (conn_of g')))),
   bool_decide (g_files g' = ∅)) = (Ok tt, Some 1, 2%nat, true).
Proof. vm_compute. reflexivity. Qed.

(** A write that fails after the first leaves the row without the keys, and
    the account is then refused for good. *)
Example interrupted_save :
  let env := mkEnv plain_keys toy_ciphers toy_parser (mkDraws (fun n => Z.of_nat n + 1) (fun _ n => Some (repeat 7 n)))
    (fun n => bool_decide (n = 5)%nat) no_fault no_fault (fun _ => true) true 100 100000 complete_server
    (Socket.Opened 0 None) (env_exchange toy_env) (env_link toy_env) Provisioning.Opened (0%nat, 0%nat) [] (fun _ => true)
    (fun _ => None) (fun _ => None) (fun _ => false) in
  let '(o, g') := cmdVerify env toy_config "a" "123" verifying in
  (is_ok o, bool_decide (is_Some (account (cdb (conn_of g')) !! "a")), length (map_to_list (identity_keypair (cdb (conn_of g')))),
   is_ok (cmdVerify toy_env toy_config "a" "123" g').1) = (false, true, 0%nat, false).
Proof. vm_compute. reflexivity. Qed.

Definition linking_env : environment :=
  mkEnv plain_keys toy_ciphers toy_parser (mkDraws (fun n => Z.of_nat n + 1) (fun _ n => Some (repeat 7 n)))
    no_fault no_fault no_fault (fun _ => true) true 100 100000 complete_server
    (Socket.Opened 0 None) (env_exchange toy_env) (env_link toy_env) Provisioning.Opened (0%nat, 0%nat)
    [(200, Address "addr"); (61000, Envelope (7 :: default [] (encryptProvision toy_ciphers toy_cbc [7] [0] (repeat 0 16) [9; 9])))]
    (fun _ => true) (fun _ => None) (fun _ => None) (fun _ => false).

Example link_run :
  let '(o, g') := cmdLink linking_env toy_config "a" (toy_gendb (mkConn empty_db None 0)) in
  (o, aci <$> (account (cdb (conn_of g')) !! "a"), device_id <$> (account (cdb (conn_of g')) !! "a"),
   private_key <$> (identity_keypair (cdb (conn_of g')) !! ("a", "aci")), length (g_requests g'))%string =
  (Ok tt, Some "u"%string, Some 2, Some [9; 9], 1%nat).
Proof. vm_compute. reflexivity. Qed.
