(* ===== verification/GendbSettings.v ===== *)
(** Editing an account's configuration with signal2sip-gendb, as the daemon
    and the other commands then see it. *)

From S2P Require Import Prelude Storage Config AuthSocket ProtocolStores CallSignaling Crypto PreKeys LinkCiphers Handles Provisioning Registration AccountFinisher GendbConfig Gendb.

Open Scope Z_scope.

(** What a field shows after it was set to [v]. *)
Definition stored (fld v : string) : string :=
  if one_of fld ["sip_tls_insecure"; "signal_censorship_circumvention"] then yes_no (truthy v) else v.

(** The row [a'] is [a] with one field set, in its next version. *)
Definition edited (fld v : string) (a a' : AccountRecord) : Prop :=
  Forall (fun f => field_get f a' = if str_eqb (field_name f) fld then stored fld v else field_get f a) configFields /\
  take_identity a a' = a' /\ enabled a' = enabled a /\ config_version a' = next_version (config_version a).

Lemma set_edits : Forall (fun f => forall a v a', field_set f a v = Ok a' -> edited (field_name f) v a (take_config a' a)) configFields.
Proof.
  unfold configFields.
  repeat (apply Forall_cons; split; [intros [] v a'; cbn [field_set field_name];
    try (match goal with |- context [if ?c then Throw _ else _] => destruct c; [done|] end);
    intros [= <-]; unfold edited; split_and!; [repeat (apply Forall_cons; split; [reflexivity|]); apply Forall_nil_2|reflexivity..]|]).
  apply Forall_nil_2.
Qed.

Lemma find_field fld f : findConfigField fld = Ok f -> f ∈ configFields /\ field_name f = fld.
Proof.
  unfold findConfigField. destruct (find _ configFields) as [f'|] eqn:E; [|done]. intros [= ->].
  apply find_some in E as [Hin Hn]. split; [by apply list_elem_of_In|]. by apply bool_decide_eq_true_1 in Hn.
Qed.

Lemma signal_returns env config g : exists g', signalDaemonBestEffort env config g = (Ok tt, g') /\ conn_of g' = conn_of g.
Proof.
  unfold signalDaemonBestEffort. destruct (env_pid_file env (pidFilePath config)) as [text|]; [|by eexists].
  destruct (bool_decide (read_long text <= 0)); [by eexists|]. destruct (env_exe env (read_long text)) as [exe|]; [|by eexists].
  destruct (str_empty exe); [by eexists|]. destruct (negb (ends_with kDaemonName exe)); [by eexists|].
  destruct (env_kill env (to_int (read_long text))); by eexists.
Qed.

(** [config set] up to its last step, for a field it knows and a value the
    field takes: the row is written, and the daemon is still to be signalled. *)
Lemma config_set_signals env config nm fld f v a a' g
    (Hfault : env_fault env = no_fault) (Hopen : env_open env nm = true) (Hrow : account (cdb (conn_of g)) !! nm = Some a)
    (Ef : findConfigField fld = Ok f) (Es : field_set f a v = Ok a') :
  exists g1 a2, cmdConfigSet env config nm fld v g = signalDaemonBestEffort env config g1 /\ edited fld v a a2 /\
    conn_of g1 = mkConn (set_account (insert nm a2) (cdb (conn_of g))) (saved (conn_of g)) (6 + calls (conn_of g)).
Proof.
  unfold cmdConfigSet. rewrite (bind_ok _ _ _ _ _ (existing_ok env nm a g Hfault Hopen Hrow)). cbv beta.
  rewrite Ef. cbn [mbind outcome_bind]. rewrite Es. erewrite bind_ok by reflexivity.
  pose proof (find_field fld f Ef) as [Hin Hname].
  pose proof (proj1 (Forall_forall _ _) set_edits f Hin a v a' Es) as Hed. rewrite Hname in Hed.
  set (a2 := take_config a' a) in Hed.
  assert (lift (saveAccountConfig (env_fault env) nm a') (put (mkConn (cdb (conn_of g)) (saved (conn_of g)) (4 + calls (conn_of g))) g)
    = (Ok tt, put (mkConn (set_account (insert nm a2) (cdb (conn_of g))) (saved (conn_of g)) (6 + calls (conn_of g))) g)) as Esave.
  { rewrite Hfault. unfold conn_of in *. destruct g as [[[d s n] l h k] r so rq fi dr sa]. cbn in Hrow.
    unfold saveAccountConfig, write, prepare, run_write, sql_call, gets, modify, lift, mbind, comp_bind. cbn.
    rewrite lookup_alter_eq, Hrow. cbn.
    assert (alter (take_config a') nm (account d) = <[nm := a2]> (account d)) as Ealt; [|unfold set_account, set_cdb; cbn; by rewrite Ealt].
    apply map_eq. intros x. destruct (decide (x = nm)) as [->|Hne];
      [by rewrite lookup_alter_eq, lookup_insert_eq, Hrow|by rewrite lookup_alter_ne, lookup_insert_ne]. }
  rewrite (bind_ok _ _ _ _ _ Esave). erewrite bind_ok by reflexivity.
  eexists _, a2. split; [reflexivity|]. by split.
Qed.

(** What it does to the row. *)
Lemma config_set_result env config nm fld f v a a' g
    (Hfault : env_fault env = no_fault) (Hopen : env_open env nm = true) (Hrow : account (cdb (conn_of g)) !! nm = Some a)
    (Ef : findConfigField fld = Ok f) (Es : field_set f a v = Ok a') :
  exists g' a2, cmdConfigSet env config nm fld v g = (Ok tt, g') /\ edited fld v a a2 /\
    conn_of g' = mkConn (set_account (insert nm a2) (cdb (conn_of g))) (saved (conn_of g)) (6 + calls (conn_of g)).
Proof.
  destruct (config_set_signals env config nm fld f v a a' g Hfault Hopen Hrow Ef Es) as (g1 & a2 & -> & Hed & Hc).
  destruct (signal_returns env config g1) as (g2 & -> & Hc2). exists g2, a2. split; [done|]. split; [done|]. by rewrite Hc2.
Qed.

(** C36: [config set] does what it says and no more: for an account with a row,
    a known field and a value the field takes, the command succeeds, the row's
    other fields, its identity and its enabled flag are what they were, its
    version has moved so that the daemon notices, every other row of every
    table is as it was, and [config get] of the field shows the value (a switch
    shows yes or no); an unknown field or a refused value changes nothing. *)
Theorem config_set_then_get env config nm fld v a g
    (Hfault : env_fault env = no_fault) (Hopen : env_open env nm = true) (Hrow : account (cdb (conn_of g)) !! nm = Some a) :
  let '(o, g') := cmdConfigSet env config nm fld v g in
  match f ← findConfigField fld; field_set f a v with
  | Ok _ => o = Ok tt /\ exists a', edited fld v a a' /\
      cdb (conn_of g') = set_account (insert nm a') (cdb (conn_of g)) /\
      let '(o2, g2) := cmdConfigGet env nm fld g' in o2 = Ok tt /\ last (g_said g2) = Some (Value fld (stored fld v))
  | Throw e => o = Throw e /\ cdb (conn_of g') = cdb (conn_of g)
  end.
Proof.
  destruct (findConfigField fld) as [f|e] eqn:Ef; cbn [mbind outcome_bind].
  2: { unfold cmdConfigSet. rewrite (bind_ok _ _ _ _ _ (existing_ok env nm a g Hfault Hopen Hrow)). by rewrite Ef. }
  destruct (field_set f a v) as [a'|e] eqn:Es.
  2: { unfold cmdConfigSet. rewrite (bind_ok _ _ _ _ _ (existing_ok env nm a g Hfault Hopen Hrow)). rewrite Ef. cbn [mbind outcome_bind]. by rewrite Es. }
  destruct (config_set_result env config nm fld f v a a' g Hfault Hopen Hrow Ef Es) as (g2 & a2 & -> & Hed & Hc2).
  split; [done|]. exists a2.
  assert (cdb (conn_of g2) = set_account (insert nm a2) (cdb (conn_of g))) as Hdb by (by rewrite Hc2).
  split_and!; [done|done|]. unfold cmdConfigGet.
  assert (account (cdb (conn_of g2)) !! nm = Some a2) as Hrow2 by (rewrite Hdb; cbn; by rewrite lookup_insert_eq).
  rewrite (bind_ok _ _ _ _ _ (existing_ok env nm a2 g2 Hfault Hopen Hrow2)). cbv beta.
  assert (str_nonempty fld = true) as -> by (by destruct fld). rewrite Ef. erewrite bind_ok by reflexivity.
  destruct (find_field fld f Ef) as [Hin Hname].
  destruct Hed as [Hget _]. pose proof (proj1 (Forall_forall _ _) Hget f Hin) as Hf. cbv beta in Hf. rewrite Hname in Hf.
  unfold str_eqb in Hf. rewrite bool_decide_eq_true_2 in Hf by done. split; [done|]. cbn. by rewrite last_snoc, Hf.
Qed.

(** ** What the daemon makes of an edited row *)

(** The transport the daemon accepts: TLS needs a pinned certificate or the
    explicit opt-out. *)
Definition tls_ready (a : AccountRecord) : bool :=
  negb (str_eqb (sip_transport a) "tls") || str_nonempty (sip_tls_ca_file a) || sip_tls_insecure a.

Definition srtp_known (a : AccountRecord) : bool := one_of (sip_srtp a) [""; "disabled"; "optional"; "mandatory"].
Definition transport_known (a : AccountRecord) : bool := one_of (sip_transport a) [""; "udp"; "tls"].

Lemma one_of_cons x y l : one_of x (y :: l) = str_eqb x y || one_of x l.
Proof.
  unfold one_of, str_eqb. destruct (decide (x = y)) as [->|Hne].
  - rewrite !bool_decide_eq_true_2 by (done || by apply list_elem_of_here). done.
  - rewrite (bool_decide_eq_false_2 (x = y)) by done. cbn. apply bool_decide_ext.
    rewrite elem_of_cons. naive_solver.
Qed.

(** The daemon's validation of a row, as a predicate on the row. *)
Lemma accepted_row nm a : is_ok (accountConfigFromRecord nm a) =
  str_nonempty (e164 a) && srtp_known a && transport_known a && tls_ready a.
Proof.
  unfold accountConfigFromRecord, srtp_known, transport_known, tls_ready. rewrite (one_of_cons _ ""), (one_of_cons _ "").
  unfold str_nonempty.
  destruct (e164 a) as [|x y]; [done|]. cbn [str_empty negb andb].
  destruct (sip_srtp a) as [|c s], (sip_transport a) as [|c' s']; cbn [str_empty];
    try (change (str_eqb (String c s) "") with false); try (change (str_eqb (String c' s') "") with false);
    try (change (one_of "disabled" _) with true); try (change (one_of "udp" _) with true);
    try (change (str_eqb "" "") with true); try (change (str_eqb "" "tls") with false); try (change (str_eqb "udp" "tls") with false);
    cbn [orb]; repeat (destruct (one_of _ _); [cbn [negb andb]|done]); try done.
  all: destruct (str_eqb (String c' s') "tls"); [|done].
  all: by destruct (str_empty (sip_tls_ca_file a)), (sip_tls_insecure a).
Qed.

Lemma set_keeps_known : Forall (fun f => forall a v a', field_set f a v = Ok a' ->
  e164 a' = e164 a /\ (srtp_known a = true -> srtp_known a' = true) /\ (transport_known a = true -> transport_known a' = true)) configFields.
Proof.
  unfold configFields, srtp_known, transport_known.
  repeat (apply Forall_cons; split; [intros [] v a'; cbn [field_set];
    try (match goal with |- context [if negb ?c then Throw _ else _] => destruct c eqn:Hc; [cbn [negb]|done] end);
    intros [= <-]; cbn; split_and!; try done; intros _; rewrite one_of_cons; by rewrite Hc, orb_true_r|]).
  apply Forall_nil_2.
Qed.

(** What the setters check is not all the daemon checks: a row the daemon
    accepts is still accepted after a successful [set] exactly when the edited
    row does not ask for TLS with neither a certificate nor the opt-out, a
    combination no setter refuses; the daemon then drops the account. *)
Lemma set_row_accepted_iff_tls_ready nm fld v a a' (Hrow : is_ok (accountConfigFromRecord nm a) = true)
    (Hset : (f ← findConfigField fld; field_set f a v) = Ok a') :
  is_ok (accountConfigFromRecord nm (take_config a' a)) = tls_ready a'.
Proof.
  destruct (findConfigField fld) as [f|] eqn:Ef; [|done]. cbn in Hset. apply find_field in Ef as [Hin _].
  pose proof (proj1 (Forall_forall _ _) set_keeps_known f Hin a v a' Hset) as (He & Hs & Ht).
  rewrite accepted_row in Hrow |- *. apply andb_prop in Hrow as [[[He0 Hs0]%andb_prop Ht0]%andb_prop _].
  specialize (Hs Hs0). specialize (Ht Ht0).
  change (e164 (take_config a' a)) with (e164 a). change (srtp_known (take_config a' a)) with (srtp_known a').
  change (transport_known (take_config a' a)) with (transport_known a'). change (tls_ready (take_config a' a)) with (tls_ready a').
  by rewrite He0, Hs, Ht.
Qed.

(** Another row than [nm]'s that the daemon runs has the number. *)
Definition runs_elsewhere (d : db) (nm number : string) : Prop := exists nm' r,
  account d !! nm' = Some r /\ nm' <> nm /\ e164 r = number /\ enabled r = true /\ is_ok (accountConfigFromRecord nm' r) = true.

(** The guard against taking over a number compares with what the daemon
    would load: with the configuration loaded without failures it passes
    exactly when no other enabled row the daemon accepts has the number. A
    disabled account's number, or one the daemon rejects, is not protected. *)
Lemma number_guard_sees_accepted_rows d file ini gl config nm number
    (Hini : parseIni file = Ok ini) (Hgl : load_global ini = Ok gl)
    (Hload : load d true no_fault (fun _ => true) (fun _ => no_fault) file = Ok config) :
  requireE164NotUsedByOtherAccount config nm number = Ok tt <-> ~ runs_elsewhere d nm number.
Proof.
  destruct (load_result d (fun _ => true) (fun _ => no_fault) file ini gl Hini Hgl) as (l & Hl & Hfrom & Hto).
  rewrite Hload in Hl. injection Hl as ->. unfold requireE164NotUsedByOtherAccount. cbn [accounts].
  assert (forall nm r c, accountConfigFromRecord nm r = Ok c -> name c = nm /\ cfg_e164 c = e164 r) as Hcfg
    by (intros x r c; unfold accountConfigFromRecord; repeat case_match; intros Hx; try done; by injection Hx as <-).
  destruct (existsb _ l) eqn:Ex.
  - apply existsb_exists in Ex as (c & Hc & Htest). apply list_elem_of_In in Hc. apply andb_prop in Htest as [Hne He].
    unfold str_eqb in *. apply negb_true_iff, bool_decide_eq_false in Hne. apply bool_decide_eq_true in He.
    destruct (Hfrom c Hc) as (_ & r & Hr & Hen & Hok). split; [done|]. intros Hnone. destruct Hnone.
    exists (name c), r. rewrite Hok. split_and!; try done. by rewrite <- (proj2 (Hcfg _ _ _ Hok)).
  - split; [|done]. intros _ (nm' & r & Hr & Hne & He & Hen & Hok').
    destruct (accountConfigFromRecord nm' r) as [c|] eqn:Hok; [|done].
    destruct (proj2 (Hto nm' r Hr eq_refl eq_refl c) (conj Hen Hok)) as [Hin Hname].
    enough (existsb (fun a => negb (str_eqb (name a) nm) && str_eqb (cfg_e164 a) number) l = true) by congruence.
    apply existsb_exists. exists c. split; [by apply list_elem_of_In|].
    destruct (Hcfg _ _ _ Hok) as [_ Hce]. unfold str_eqb.
    by rewrite Hname, Hce, bool_decide_eq_false_2, bool_decide_eq_true_2 by done.
Qed.

(** *** Witness *)

Lemma config_set_then_get_witness :
  let '(o, g') := cmdConfigSet toy_env (mkDaemon (mkGlobal "/d/x.db" "k" 0 0 0 0) []) "a" "sip_tls_insecure" "true" (toy_gendb two_accounts) in
  o = Ok tt /\ exists a', edited "sip_tls_insecure" "true" column_defaults a' /\
      cdb (conn_of g') = set_account (insert "a"%string a') (cdb two_accounts) /\
      let '(o2, g2) := cmdConfigGet toy_env "a" "sip_tls_insecure" g' in
      o2 = Ok tt /\ last (g_said g2) = Some (Value "sip_tls_insecure" "yes").
Proof.
  exact (config_set_then_get toy_env (mkDaemon (mkGlobal "/d/x.db" "k" 0 0 0 0) []) "a" "sip_tls_insecure" "true" column_defaults
    (toy_gendb two_accounts) eq_refl eq_refl eq_refl).
Defined.

(** An account row with a number, asking for [transport]. *)
Definition numbered (on : bool) (transport : string) : AccountRecord :=
  mkAccount "+1" "" "" "" 0 0 0 None None None None None None None
    "" "" "" "" "" "" "disabled" transport "" false "" "" false on 0.

(** TLS without a certificate passes the setter and is rejected by the daemon. *)
Lemma set_row_accepted_iff_tls_ready_witness :
  is_ok (accountConfigFromRecord "a" (take_config (numbered true "tls") (numbered true "udp"))) = tls_ready (numbered true "tls") /\
  tls_ready (numbered true "tls") = false.
Proof.
  split; [|reflexivity].
  exact (set_row_accepted_iff_tls_ready "a" "sip_transport" "tls" (numbered true "udp") (numbered true "tls") eq_refl eq_refl).
Defined.

(** The number of the disabled account "b" may be registered again as "a". *)
Definition disabled_owner : db := set_account (insert "b"%string (numbered false "udp")) empty_db.

Lemma number_guard_sees_accepted_rows_witness :
  requireE164NotUsedByOtherAccount (mkDaemon (mkGlobal "/x" "k" 0 86400 43200 30) []) "a" "+1" = Ok tt <->
  ~ runs_elsewhere disabled_owner "a" "+1".
Proof.
  eapply (number_guard_sees_accepted_rows disabled_owner sample_file);
    [reflexivity|vm_compute; reflexivity|vm_compute; reflexivity].
Defined.
