(* ===== verification/Calls.v ===== *)
(** One account's calls (src/daemon/main.cpp): RingRTC's callbacks, the two
    kinds of SIP leg, the SIP registration, and the handlers that connect a
    Signal call with a SIP call in either direction.

    The state holds the fields of [AccountState] that a call uses and the
    objects they point to: audio bridges and legs are addresses in a heap, so
    that a reference kept after [delete] can be seen.  RingRTC, PJSIP and the
    other threads are the [environment]; what they are told, and which leg
    states they report, is recorded in [trace].  Each handler runs to its end,
    except that SIP callbacks of the leg being torn down are delivered while
    the handler waits for it. *)

From S2P Require Import Prelude Storage RingBuffer AudioBridge Config ContactResolver CallSignaling.

Open Scope Z_scope.

(** ** Data *)

(** [pjsip_inv_state] *)
Inductive inv_state :=
| INV_NULL | INV_CALLING | INV_INCOMING | INV_EARLY | INV_CONNECTING | INV_CONFIRMED
| INV_DISCONNECTED.

#[export] Instance inv_state_eq_dec : EqDecision inv_state.
Proof. solve_decision. Defined.

Definition CALL_STATE_INCOMING_AUDIO : Z := 0.
Definition CALL_STATE_OUTGOING_AUDIO : Z := 1.
Definition CALL_STATE_RINGING : Z := 2.
Definition CALL_STATE_CONNECTED : Z := 3.
Definition CALL_STATE_ENDED : Z := 5.
Definition CALL_STATE_CONCLUDED : Z := 7.

Definition SC_OK : Z := 200.
Definition SC_RINGING : Z := 180.
Definition SC_NOT_FOUND : Z := 404.
Definition SC_BUSY_HERE : Z := 486.
Definition SC_SERVICE_UNAVAILABLE : Z := 503.

(** A [BridgeCall]: [bc_bridge] is the address behind its reference. *)
Record BridgeCall := mkBridgeCall {
  bc_bridge : nat; bc_acceptSent : bool; bc_weHungUp : bool; bc_disconnected : bool;
}.

Record IncomingSipCall := mkIncoming {
  ic_bridge : nat; ic_weHungUp : bool; ic_disconnected : bool;
}.

(** The account's entry of [g_sipAccounts]. *)
Record BridgeAccount := mkBridgeAccount { registered : bool; unregisteredSinceMs : Z }.

(** What the account does to the outside, in order.  [LegState] records a
    state PJSIP reported; [UseOfFreedBridge] an access through a dangling
    reference. *)
Inductive effect :=
| Proceed (callId : Z)
| Accept (leg : nat) (callId : Z)
| SignalHangup
| StartOutgoing (target : string) (device : Z)
| MessageSent (callId : Z)
| MakeCall (leg : nat) (uri : string) (headers : list (string * string))
| Answer (leg : nat) (code : Z)
| HangupLeg (leg : nat)
| Refuse (code : Z)
| LegState (leg : nat) (st : inv_state)
| Sleep100ms
| StartProbe
| UseOfFreedBridge (addr : nat).

Record AccountState := mkAccount {
  a_sender : sender;                       (* sender, and behind it the stores and the storage *)
  a_sip : option BridgeAccount;
  activeCallId : Z;
  isCallee : bool;
  remotePeerId : string;
  a_bridge : option nat;
  sipCall : option nat;
  incomingSipCall : option nat;
  bridges : gmap nat bridge;               (* the heap *)
  conference : conf;
  bridge_calls : gmap nat BridgeCall;
  incoming_calls : gmap nat IncomingSipCall;
  next : nat;
  trace : list effect;
}.

Definition set_sip v a := mkAccount (a_sender a) v (activeCallId a) (isCallee a) (remotePeerId a)
  (a_bridge a) (sipCall a) (incomingSipCall a) (bridges a) (conference a) (bridge_calls a)
  (incoming_calls a) (next a) (trace a).
Definition set_peer i p a := mkAccount (a_sender a) (a_sip a) i (isCallee a) p
  (a_bridge a) (sipCall a) (incomingSipCall a) (bridges a) (conference a) (bridge_calls a)
  (incoming_calls a) (next a) (trace a).
Definition set_isCallee v a := mkAccount (a_sender a) (a_sip a) (activeCallId a) v (remotePeerId a)
  (a_bridge a) (sipCall a) (incomingSipCall a) (bridges a) (conference a) (bridge_calls a)
  (incoming_calls a) (next a) (trace a).
Definition set_bridge v bs c a := mkAccount (a_sender a) (a_sip a) (activeCallId a) (isCallee a)
  (remotePeerId a) v (sipCall a) (incomingSipCall a) bs c (bridge_calls a)
  (incoming_calls a) (next a) (trace a).
Definition set_sipCall v legs a := mkAccount (a_sender a) (a_sip a) (activeCallId a) (isCallee a)
  (remotePeerId a) (a_bridge a) v (incomingSipCall a) (bridges a) (conference a) legs
  (incoming_calls a) (next a) (trace a).
Definition set_incoming v legs a := mkAccount (a_sender a) (a_sip a) (activeCallId a) (isCallee a)
  (remotePeerId a) (a_bridge a) (sipCall a) v (bridges a) (conference a) (bridge_calls a)
  legs (next a) (trace a).
Definition set_next v a := mkAccount (a_sender a) (a_sip a) (activeCallId a) (isCallee a)
  (remotePeerId a) (a_bridge a) (sipCall a) (incomingSipCall a) (bridges a) (conference a)
  (bridge_calls a) (incoming_calls a) v (trace a).
Definition set_trace v a := mkAccount (a_sender a) (a_sip a) (activeCallId a) (isCallee a)
  (remotePeerId a) (a_bridge a) (sipCall a) (incomingSipCall a) (bridges a) (conference a)
  (bridge_calls a) (incoming_calls a) (next a) v.
Definition set_sender v a := mkAccount v (a_sip a) (activeCallId a) (isCallee a) (remotePeerId a)
  (a_bridge a) (sipCall a) (incomingSipCall a) (bridges a) (conference a) (bridge_calls a)
  (incoming_calls a) (next a) (trace a).

#[export] Instance has_sender : Has sender AccountState := {| prj := a_sender; put := set_sender |}.
#[export] Instance has_sender_laws : HasLaws sender AccountState.
Proof. split; intros; cbn; by try destruct w. Qed.

(** The database behind the sender. *)
#[export] Instance has_storage : Has conn AccountState := {|
  prj a := stores (a_sender a);
  put c a := set_sender (put c (a_sender a)) a;
|}.
#[export] Instance has_storage_laws : HasLaws conn AccountState.
Proof. split; intros; cbn; try done. by destruct w as [[]]. Qed.

(** ** The environment *)

(** A callback PJSIP makes on a leg. *)
Inductive leg_event :=
| CallState (st : inv_state)
| MediaState (ms : list media).

(** What RingRTC and PJSIP answer.  [ports_result]: registering the audio ports
    of the bridge about to be made throws when PJSIP has no slot for them
    ([AudioPorts]).  [in_hangup] are the callbacks of the leg made while its [hangup] runs, [in_poll] those during the i-th sleep. *)
Record environment := mkEnv {
  ports_result : nat -> outcome unit;
  makeCall_result : string -> list (string * string) -> outcome unit;
  answer_result : nat -> Z -> outcome unit;
  hangup_result : nat -> outcome unit;
  in_hangup : nat -> list leg_event;
  in_poll : nat -> nat -> list leg_event;
  call_start_outgoing : string -> Z -> Z;
}.

Definition emit (e : effect) : Comp AccountState unit :=
  modify (fun a => set_trace (trace a ++ [e]) a).

(** ** Configuration *)

Definition bridgeTarget (c : AccountConfig) : string :=
  if str_empty (sipBridgeDid c) then sipBridgeDestination c else sipBridgeDid c.

Definition is_registered (a : AccountState) : bool :=
  match a_sip a with Some s => registered s | None => false end.

Definition canBridgeToSip (c : AccountConfig) (a : AccountState) : bool :=
  if str_empty (bridgeTarget c) then false else is_registered a.

(** ** The SIP registration *)

Definition BridgeAccount_onRegState (regIsActive : bool) (now : Z) (s : BridgeAccount) :
    BridgeAccount :=
  if regIsActive then mkBridgeAccount true 0
  else mkBridgeAccount false
    (if bool_decide (unregisteredSinceMs s = 0) then now else unregisteredSinceMs s).

(** ** The bridge object *)

(** The destructor of the bridge at [b], when there is one. *)
Definition free_bridge (b : option nat) (bs : gmap nat bridge) (c : conf) : gmap nat bridge * conf :=
  match b with
  | Some i => match bs !! i with
              | Some br => (delete i bs, (destroy br c).1)
              | None => (bs, c)
              end
  | None => (bs, c)
  end.

(** [acct.bridge = std::make_unique<RingRtcSipBridge>(acct.handle)], once the
    new one is built: the old one is destroyed. *)
Definition install_bridge : Comp AccountState nat := fun a =>
  let '(bs, c) := free_bridge (a_bridge a) (<[next a := new_bridge]> (bridges a)) (conference a) in
  (Ok (next a), set_next (S (next a)) (set_bridge (Some (next a)) bs c a)).

Definition make_bridge (env : environment) : Comp AccountState nat :=
  a ← get;
  of_outcome (ports_result env (next a)) ;; install_bridge.

(** [acct.bridge.reset()] *)
Definition reset_bridge : Comp AccountState unit :=
  modify (fun a => let '(bs, c) := free_bridge (a_bridge a) (bridges a) (conference a) in
                   set_bridge None bs c a).

(** [if (acct.bridge) acct.bridge->Stop()] *)
Definition stop_bridge : Comp AccountState unit :=
  modify (fun a => match a_bridge a with
                   | Some b => set_bridge (a_bridge a) (alter Stop b (bridges a)) (conference a) a
                   | None => a
                   end).

(** [wireBridgeAudio] on this leg, through a leg's reference [b]. *)
Definition onCallMediaState (b : nat) (ms : list media) : Comp AccountState unit :=
  a ← get;
  match bridges a !! b with
  | Some br =>
    let '(br', c) := wireBridgeAudio ms (br, conference a) in
    modify (set_bridge (a_bridge a) (<[b := br']> (bridges a)) c)
  | None => emit (UseOfFreedBridge b)
  end.

(** ** Allocating, marking and deleting legs *)

(** [new BridgeCall(sipAccount, bridge, acct)], stored in [acct.sipCall] *)
Definition new_BridgeCall (b : nat) : Comp AccountState nat := fun a =>
  (Ok (next a), set_next (S (next a))
     (set_sipCall (Some (next a)) (<[next a := mkBridgeCall b false false false]> (bridge_calls a)) a)).

(** [new IncomingSipCall(...)], stored in [acct.incomingSipCall] *)
Definition new_IncomingSipCall (b : nat) : Comp AccountState nat := fun a =>
  (Ok (next a), set_next (S (next a))
     (set_incoming (Some (next a)) (<[next a := mkIncoming b false false]> (incoming_calls a)) a)).

(** [call->weHungUp_ = true] *)
Definition mark_sipCall (id : nat) : Comp AccountState unit :=
  modify (fun a => set_sipCall (sipCall a)
    (alter (fun l => mkBridgeCall (bc_bridge l) (bc_acceptSent l) true (bc_disconnected l)) id
       (bridge_calls a)) a).
Definition mark_incoming (id : nat) : Comp AccountState unit :=
  modify (fun a => set_incoming (incomingSipCall a)
    (alter (fun l => mkIncoming (ic_bridge l) true (ic_disconnected l)) id (incoming_calls a)) a).

(** [delete call; acct.sipCall = nullptr] *)
Definition delete_sipCall (id : nat) : Comp AccountState unit :=
  modify (fun a => set_sipCall None (delete id (bridge_calls a)) a).
Definition delete_incoming (id : nat) : Comp AccountState unit :=
  modify (fun a => set_incoming None (delete id (incoming_calls a)) a).

Section Account.
Context (env : environment) (config : AccountConfig) (fault : nat -> bool).

(** ** The legs *)

(** [BridgeCall::onCallState] *)
Definition BridgeCall_onCallState (id : nat) (st : inv_state) : Comp AccountState unit :=
  emit (LegState id st) ;;
  a ← get;
  match bridge_calls a !! id with
  | None => mret tt
  | Some leg =>
    let confirmed := bool_decide (st = INV_CONFIRMED) in
    let leg1 := if confirmed
                then mkBridgeCall (bc_bridge leg) true (bc_weHungUp leg) (bc_disconnected leg)
                else leg in
    modify (fun a => set_sipCall (sipCall a) (<[id := leg1]> (bridge_calls a)) a) ;;
    when (confirmed && negb (bc_acceptSent leg)) (emit (Accept id (activeCallId a))) ;;
    when (bool_decide (st = INV_DISCONNECTED))
      (when (bc_acceptSent leg1 && negb (bc_weHungUp leg1)) (emit SignalHangup) ;;
       modify (fun a => set_sipCall (sipCall a)
         (<[id := mkBridgeCall (bc_bridge leg1) (bc_acceptSent leg1) (bc_weHungUp leg1) true]>
            (bridge_calls a)) a))
  end.

(** [IncomingSipCall::onCallState] *)
Definition IncomingSipCall_onCallState (id : nat) (st : inv_state) : Comp AccountState unit :=
  emit (LegState id st) ;;
  a ← get;
  match incoming_calls a !! id with
  | None => mret tt
  | Some leg =>
    when (bool_decide (st = INV_DISCONNECTED))
      (when (negb (ic_weHungUp leg)) (emit SignalHangup) ;;
       modify (fun a => set_incoming (incomingSipCall a)
         (<[id := mkIncoming (ic_bridge leg) true true]> (incoming_calls a)) a))
  end.

(** A callback of PJSIP on a leg, dispatched to the object's class; none
    arrives for an object that is gone. *)
Definition leg_callback (id : nat) (e : leg_event) : Comp AccountState unit :=
  a ← get;
  match bridge_calls a !! id, incoming_calls a !! id with
  | Some leg, _ =>
    match e with
    | CallState st => BridgeCall_onCallState id st
    | MediaState ms => onCallMediaState (bc_bridge leg) ms
    end
  | None, Some leg =>
    match e with
    | CallState st => IncomingSipCall_onCallState id st
    | MediaState ms => onCallMediaState (ic_bridge leg) ms
    end
  | None, None => mret tt
  end.

(** ** Dialling the PBX *)

Definition contact_headers (c : SyncedContactRecord) : list (string * string) :=
  let name := if str_nonempty (family_name c)
              then String.append (given_name c)
                     (String.append (if str_empty (given_name c) then "" else " ") (family_name c))
              else given_name c in
  (if str_nonempty (sc_e164 c) then [("X-Signal-Phone"%string, sc_e164 c)] else []) ++
  (if str_nonempty name then [("X-Signal-Name"%string, name)] else []).

Definition dest_uri : string :=
  let scheme := if str_eqb (sipTransport config) "tls" then "sips"%string else "sip"%string in
  String.append scheme (String.append ":" (String.append (bridgeTarget config)
    (String.append "@" (sipHost config)))).

Definition startSipDial : Comp AccountState unit :=
  a ← get;
  if negb (is_registered a) then mret tt else
  b ← make_bridge env;
  id ← new_BridgeCall b;
  headers ←
    (if str_empty (remotePeerId a) then mret (@nil (string * string))
     else contact ← lift (loadSyncedContactByAci fault (name config) (remotePeerId a));
          mret (("X-Signal-UUID"%string, remotePeerId a) ::
                match contact with Some c => contact_headers c | None => [] end));
  catch_pj (emit (MakeCall id dest_uri headers) ;; of_outcome (makeCall_result env dest_uri headers))
    (mret tt).

(** ** Tearing a leg down *)

(** [for (int i = 0; i < n && !disconnected; i++) sleep_for(100ms)] *)
Fixpoint wait_disconnected (id : nat) (disconnected : AccountState -> bool) (n i : nat) :
    Comp AccountState unit :=
  match n with
  | O => mret tt
  | S n' =>
    finished ← gets disconnected;
    if (finished : bool) then mret tt
    else emit Sleep100ms ;;
         for_each (leg_callback id) (in_poll env id i) ;;
         wait_disconnected id disconnected n' (S i)
  end.

(** [call->hangup] inside [catch (...)]. *)
Definition hangup_leg (id : nat) : Comp AccountState unit :=
  catch_all (emit (HangupLeg id) ;; for_each (leg_callback id) (in_hangup env id) ;;
             of_outcome (hangup_result env id)) (fun _ => mret tt).

Definition bc_done (id : nat) (a : AccountState) : bool :=
  match bridge_calls a !! id with Some leg => bc_disconnected leg | None => true end.
Definition ic_done (id : nat) (a : AccountState) : bool :=
  match incoming_calls a !! id with Some leg => ic_disconnected leg | None => true end.

Definition stopSipBridge : Comp AccountState unit :=
  stop_bridge ;;
  call ← gets sipCall;
  match call with
  | Some id =>
    mark_sipCall id ;;
    hangup_leg id ;;
    wait_disconnected id (bc_done id) 50 0 ;;
    delete_sipCall id
  | None => mret tt
  end ;;
  reset_bridge.

Definition stopIncomingSipCall : Comp AccountState unit :=
  stop_bridge ;;
  call ← gets incomingSipCall;
  match call with
  | Some id =>
    mark_incoming id ;;
    hangup_leg id ;;
    wait_disconnected id (ic_done id) 50 0 ;;
    delete_incoming id
  | None => mret tt
  end ;;
  reset_bridge.

(** ** RingRTC's callbacks *)

(** [safeCallback]: nothing crosses into RingRTC. *)
Definition safeCallback (f : Comp AccountState unit) : Comp AccountState unit :=
  catch_all (catch_std f (fun _ => mret tt)) (fun _ => mret tt).

Definition onCallState (peer : string) (callId state : Z) : Comp AccountState unit :=
  modify (set_peer callId peer) ;;
  safeCallback (
    a ← get;
    if bool_decide (state = CALL_STATE_OUTGOING_AUDIO) then emit (Proceed callId)
    else if bool_decide (state = CALL_STATE_INCOMING_AUDIO) then
      when (canBridgeToSip config a) (modify (set_isCallee true) ;; emit (Proceed callId))
    else if bool_decide (state = CALL_STATE_RINGING) && isCallee a then
      when (canBridgeToSip config a) startSipDial
    else if bool_decide (state = CALL_STATE_CONNECTED) then
      match isCallee a, incomingSipCall a with
      | false, Some id =>
        catch_pj (emit (Answer id SC_OK) ;; of_outcome (answer_result env id SC_OK)) (mret tt)
      | callee, _ =>
        when (negb callee && str_nonempty (outgoingCallTarget config)) (emit StartProbe)
      end
    else if bool_decide (state = CALL_STATE_ENDED) || bool_decide (state = CALL_STATE_CONCLUDED) then
      stopSipBridge ;; stopIncomingSipCall ;; modify (set_isCallee false)
    else mret tt).

Section callbacks.
Context (lib : libraries) (now : Z).

(** The four [onSend] callbacks: send, then tell RingRTC. *)
Definition send_callback (send : Comp sender unit) (callId : Z) : Comp AccountState unit :=
  safeCallback (lift send ;; emit (MessageSent callId)).

Definition onSendOffer (remote : string) (callId mediaType : Z) (opaque : Bytes) :=
  send_callback (sendOffer lib fault (name config) now
    remote callId mediaType opaque) callId.
Definition onSendAnswer (remote : string) (callId : Z) (opaque : Bytes) :=
  send_callback (sendAnswer lib fault (name config) now
    remote callId opaque) callId.
Definition onSendIce (remote : string) (callId : Z) (receiver : option Z) (opaque : Bytes) :=
  send_callback (sendIce lib fault (name config) now
    remote callId receiver opaque) callId.
Definition onSendHangup (remote : string) (callId hangupType hangupDeviceId : Z) :=
  send_callback (sendHangup lib fault (name config) now
    remote callId hangupType hangupDeviceId) callId.
End callbacks.

(** ** A SIP call for Signal *)

(** The leading plus signs go, exactly one comes back; an empty user stays. *)
Fixpoint drop_plus (s : string) : string :=
  match s with
  | String c s' => if bool_decide (c = "+"%char) then drop_plus s' else s
  | EmptyString => EmptyString
  end.
Definition normalise_user (u : string) : string :=
  if str_nonempty u then String "+" (drop_plus u) else u.

(** A call object only made to be refused. *)
Definition refuse (code : Z) : Comp AccountState unit := emit (Refuse code).

(** [onIncomingCall] from the point where the account is known; [user] is the
    user part of a sip or sips request URI, or empty. *)
Definition onIncomingCall (deviceId ttlSec now now' : Z) (svc : directory) (user : string) :
    Comp AccountState unit :=
  a ← get;
  if bool_decide (is_Some (incomingSipCall a)) || bool_decide (is_Some (sipCall a))
  then refuse SC_BUSY_HERE else
  let destUser := normalise_user user in
  if str_empty destUser then refuse SC_NOT_FOUND else
  b ← make_bridge env;
  id ← new_IncomingSipCall b;
  catch_pj (emit (Answer id SC_RINGING) ;; of_outcome (answer_result env id SC_RINGING)) (mret tt) ;;
  resolvedTarget ← catch_std (lift (resolveOutgoingTarget fault (name config) svc now now' destUser ttlSec))
                     (fun _ => mret EmptyString);
  if str_empty resolvedTarget then stopIncomingSipCall else
  modify (set_isCallee false) ;;
  emit (StartOutgoing resolvedTarget (u32 deviceId)) ;;
  when (bool_decide (call_start_outgoing env resolvedTarget (u32 deviceId) = 0)) stopIncomingSipCall.
End Account.

(** Which account a SIP call belongs to: the one PJSIP called ([acctState]),
    unless the port of the receiving transport is known to be another's.  An
    object without an account refuses the call. *)
Definition route (ports : gmap Z string) (acctState : option string) (actualPort : option Z) :
    string + effect :=
  match acctState with
  | None => inr (Refuse SC_SERVICE_UNAVAILABLE)
  | Some own =>
    match actualPort with
    | Some p => inl (default own (ports !! p))
    | None => inl own
    end
  end.

(** ** Everything that can happen to an account *)

Inductive event :=
| RingRtcState (peer : string) (callId state : Z)
| Leg (id : nat) (e : leg_event)
| Invite (deviceId ttlSec now now' : Z) (svc : directory) (user : string)
| RegState (active : bool) (now : Z).

Section Events.
Context (env : environment) (config : AccountConfig) (fault : nat -> bool).

Definition handle (e : event) : Comp AccountState unit :=
  match e with
  | RingRtcState peer callId state => onCallState env config fault peer callId state
  | Leg id e => leg_callback id e
  | Invite dev ttl now now' svc user => onIncomingCall env config fault dev ttl now now' svc user
  | RegState active now =>
    modify (fun a => set_sip (BridgeAccount_onRegState active now <$> a_sip a) a)
  end.

(** A history of the account. *)
Fixpoint run (events : list event) (a : AccountState) : AccountState :=
  match events with
  | [] => a
  | e :: events' => run events' (handle e a).2
  end.
End Events.

(** ** Lemmas *)

(** *** Invariants of the account

    A state predicate that the primitive operations keep is kept by every
    handler; the instances below discharge the primitives. *)

Definition is_accept (e : effect) : bool := match e with Accept _ _ => true | _ => false end.

Class handler_invariant (ev_ok : leg_event -> Prop) (I : AccountState -> Prop) := {
  inv_emit e : is_accept e = false -> preserves I (emit e);
  inv_bridge_leg id st : preserves I (BridgeCall_onCallState id st);
  inv_incoming_leg id st : preserves I (IncomingSipCall_onCallState id st);
  inv_media b ms : ev_ok (MediaState ms) -> preserves I (onCallMediaState b ms);
  inv_install_bridge : preserves I install_bridge;
  inv_reset_bridge : preserves I reset_bridge;
  inv_stop_bridge : preserves I stop_bridge;
  inv_new_out b : preserves I (new_BridgeCall b);
  inv_new_in b : preserves I (new_IncomingSipCall b);
  inv_mark_out id : preserves I (mark_sipCall id);
  inv_mark_in id : preserves I (mark_incoming id);
  inv_delete_out id : preserves I (delete_sipCall id);
  inv_delete_in id : preserves I (delete_incoming id);
  inv_set_peer i p : preserves I (modify (set_peer i p));
  inv_set_isCallee v : preserves I (modify (set_isCallee v));
  inv_set_sip f : preserves I (modify (fun a => set_sip (f (a_sip a)) a));
  inv_set_sender s a : I a -> I (set_sender s a);
}.

Definition env_ok (ev_ok : leg_event -> Prop) (env : environment) : Prop :=
  forall id, Forall ev_ok (in_hangup env id) /\ forall i, Forall ev_ok (in_poll env id i).
Definition event_ok (ev_ok : leg_event -> Prop) (e : event) : Prop :=
  match e with Leg _ e => ev_ok e | _ => True end.

#[export] Hint Resolve preserves_get : signal.
#[export] Hint Resolve inv_emit inv_bridge_leg inv_incoming_leg inv_media inv_install_bridge
  inv_reset_bridge inv_stop_bridge inv_new_out inv_new_in inv_mark_out inv_mark_in inv_delete_out
  inv_delete_in inv_set_peer inv_set_isCallee inv_set_sip : signal.

Section handlers.
#[local] Set Default Proof Using "All".
Context (ev_ok : leg_event -> Prop) (I : AccountState -> Prop) `{Hinv : !handler_invariant ev_ok I}.
Context (env : environment) (config : AccountConfig) (fault : nat -> bool) (Henv : env_ok ev_ok env).

Lemma inv_lift_storage {A} (m : Comp conn A) : preserves I (lift m).
Proof using Hinv. intros a Ha. unfold lift. destruct (m _) as [r s]. cbn. by eapply inv_set_sender. Qed.

Lemma inv_leg_callback id e : ev_ok e -> preserves I (leg_callback id e).
Proof using Hinv. intros He. unfold leg_callback. keeps. Qed.

Lemma inv_callbacks id l : Forall ev_ok l -> preserves I (for_each (leg_callback id) l).
Proof using Hinv.
  induction 1 as [|e l He _ IH]; cbn [for_each]; [keeps|].
  apply preserves_bind; [by apply inv_leg_callback|by intros _].
Qed.

Lemma inv_wait id d n i : preserves I (wait_disconnected env id d n i).
Proof using Hinv Henv.
  revert i. induction n as [|n IH]; intros i; cbn [wait_disconnected]; [keeps|].
  apply preserves_bind; [keeps|]. intros []; [keeps|].
  apply preserves_bind; [by apply inv_emit|]. intros _.
  apply preserves_bind; [apply inv_callbacks, Henv|by intros _].
Qed.

Lemma inv_hangup_leg id : preserves I (hangup_leg env id).
Proof using Hinv Henv.
  apply preserves_catch_all; [|keeps].
  apply preserves_bind; [by apply inv_emit|]. intros _.
  apply preserves_bind; [apply inv_callbacks, Henv|]. intros _. keeps.
Qed.

Lemma inv_stopSipBridge : preserves I (stopSipBridge env).
Proof using Hinv Henv. unfold stopSipBridge. keeps; auto using inv_hangup_leg, inv_wait. Qed.

Lemma inv_stopIncomingSipCall : preserves I (stopIncomingSipCall env).
Proof using Hinv Henv. unfold stopIncomingSipCall. keeps; auto using inv_hangup_leg, inv_wait. Qed.

Lemma inv_make_bridge : preserves I (make_bridge env).
Proof using Hinv. unfold make_bridge. keeps. Qed.

Lemma inv_startSipDial : preserves I (startSipDial env config fault).
Proof using Hinv. unfold startSipDial. keeps; auto using inv_make_bridge, inv_lift_storage. Qed.

Lemma inv_safeCallback f : preserves I f -> preserves I (safeCallback f).
Proof using Hinv. intros Hf. unfold safeCallback. keeps. Qed.

Lemma inv_onCallState peer callId state : preserves I (onCallState env config fault peer callId state).
Proof.
  unfold onCallState. apply preserves_bind; [eauto with signal|intros _].
  apply inv_safeCallback. apply preserves_bind; [eauto with signal|intros a].
  destruct (bool_decide _); [by apply inv_emit|].
  destruct (bool_decide _).
  { apply preserves_when, preserves_bind; [apply inv_set_isCallee|intros _; by apply inv_emit]. }
  destruct (_ && _); [apply preserves_when, inv_startSipDial|].
  destruct (bool_decide _); [keeps; by apply inv_emit|].
  destruct (_ || _); [|apply preserves_ret].
  apply preserves_bind; [apply inv_stopSipBridge|intros _].
  apply preserves_bind; [apply inv_stopIncomingSipCall|intros _]. apply inv_set_isCallee.
Qed.

Lemma inv_onIncomingCall dev ttl now now' svc user :
  preserves I (onIncomingCall env config fault dev ttl now now' svc user).
Proof.
  unfold onIncomingCall, refuse. apply preserves_bind; [eauto with signal|intros a].
  keeps; auto using inv_make_bridge, inv_stopIncomingSipCall, inv_lift_storage with signal.
Qed.

Lemma inv_handle e : event_ok ev_ok e -> preserves I (handle env config fault e).
Proof.
  destruct e; cbn; intros He; auto using inv_onCallState, inv_leg_callback, inv_onIncomingCall.
  by apply (inv_set_sip (fun s => BridgeAccount_onRegState active now <$> s)).
Qed.

Lemma inv_run events a : Forall (event_ok ev_ok) events -> I a -> I (run env config fault events a).
Proof.
  intros He. revert a. induction He as [|e events He _ IH]; intros a Ha; cbn [run]; [done|].
  apply IH. by apply inv_handle.
Qed.
End handlers.

(** *** Accepting *)

Definition accepted (t : list effect) : list nat :=
  omap (fun e => match e with Accept id _ => Some id | _ => None end) t.

#[local] Arguments accepted : simpl never.

(** Every [Accept] comes right after the report that the PBX answered. *)
Definition prompted (t : list effect) : Prop :=
  forall t1 id c t2, t = t1 ++ Accept id c :: t2 ->
    exists t0, t1 = t0 ++ [LegState id INV_CONFIRMED].

Record accept_inv (a : AccountState) : Prop := {
  ai_prompted : prompted (trace a);
  ai_nodup : NoDup (accepted (trace a));
  ai_sent : forall id, id ∈ accepted (trace a) -> (id < next a)%nat /\
    forall leg, bridge_calls a !! id = Some leg -> bc_acceptSent leg = true;
  ai_fresh : forall id leg, bridge_calls a !! id = Some leg -> (id < next a)%nat;
}.

Lemma accepted_snoc t e : is_accept e = false -> accepted (t ++ [e]) = accepted t.
Proof. intros He. unfold accepted. rewrite omap_app. destruct e; try done; by rewrite app_nil_r. Qed.

Lemma snoc_split {A} (t t1 t2 : list A) x y :
  t ++ [x] = t1 ++ y :: t2 -> (t2 = [] /\ t1 = t /\ y = x) \/ exists t3, t = t1 ++ y :: t3.
Proof.
  destruct t2 as [|z t2 _] using rev_ind; intros E.
  - apply app_inj_tail in E as [-> ->]. by left.
  - rewrite app_comm_cons, app_assoc in E. apply app_inj_tail in E as [-> _]. eauto.
Qed.

Lemma prompted_snoc t e : is_accept e = false -> prompted t -> prompted (t ++ [e]).
Proof.
  intros He Hp t1 id c t2 E. apply snoc_split in E as [(_ & _ & <-)|[t3 E]]; [done|by eapply Hp].
Qed.

Lemma accept_inv_emit e : is_accept e = false -> preserves accept_inv (emit e).
Proof.
  intros He a [Hp Hn Hs Hf]. cbn. split; cbn; rewrite ?accepted_snoc by done; try done.
  by apply prompted_snoc.
Qed.

(** A step that emits nothing and keeps [acceptSent] of the legs there were. *)
Lemma accept_inv_step a a' :
  trace a' = trace a -> (next a <= next a')%nat ->
  (forall id leg', bridge_calls a' !! id = Some leg' ->
     (next a <= id < next a')%nat \/
     exists leg, bridge_calls a !! id = Some leg /\
       (bc_acceptSent leg = true -> bc_acceptSent leg' = true)) ->
  accept_inv a -> accept_inv a'.
Proof.
  intros Ht Hle Hl [Hp Hn Hs Hf]. split; rewrite ?Ht; try done.
  - intros id Hid. destruct (Hs id Hid) as [Hlt Hleg]. split; [lia|]. intros leg' Hleg'.
    destruct (Hl _ _ Hleg') as [?|(leg & H1 & H2)]; [lia|]. by apply H2, Hleg.
  - intros id leg' Hleg'. destruct (Hl _ _ Hleg') as [?|(leg & H1 & _)]; [lia|].
    apply Hf in H1. lia.
Qed.

(** The same for a step that leaves trace, legs and addresses alone. *)
Lemma accept_inv_frame a a' :
  trace a' = trace a -> (next a <= next a')%nat -> bridge_calls a' = bridge_calls a ->
  accept_inv a -> accept_inv a'.
Proof. intros Ht Hn Hb. apply accept_inv_step; [done..|]. rewrite Hb. eauto. Qed.

Lemma accept_inv_confirmed a id leg c :
  accept_inv a -> bridge_calls a !! id = Some leg -> bc_acceptSent leg = false ->
  forall t0, trace a = t0 ++ [LegState id INV_CONFIRMED] ->
  accept_inv (set_trace (trace a ++ [Accept id c])
    (set_sipCall (sipCall a) (<[id := mkBridgeCall (bc_bridge leg) true (bc_weHungUp leg)
      (bc_disconnected leg)]> (bridge_calls a)) a)).
Proof.
  intros [Hp Hn Hs Hf] Hleg Hsent t0 Ht.
  assert (accepted (trace a ++ [Accept id c]) = accepted (trace a) ++ [id]) as Hacc
    by (unfold accepted; by rewrite omap_app).
  assert (id ∉ accepted (trace a)) as Hnew.
  { intros [_ H]%Hs. apply H in Hleg. congruence. }
  split; cbn; rewrite ?Hacc.
  - intros t1 i c' t2 E. apply snoc_split in E as [(_ & -> & [= <- <-])|[t3 E]];
      [by exists t0|by eapply Hp].
  - apply NoDup_app. split; [done|]. split; [|apply NoDup_singleton].
    intros x Hx [= ->]%list_elem_of_singleton. done.
  - intros i Hi. apply elem_of_app in Hi as [Hi|[= ->]%list_elem_of_singleton].
    + destruct (Hs i Hi) as [Hlt Hl]. split; [done|]. intros leg' Hleg'.
      destruct (decide (i = id)) as [->|]; [done|].
      rewrite lookup_insert_ne in Hleg' by done. by apply Hl.
    + split; [by eapply Hf|]. intros leg'. rewrite lookup_insert_eq. by intros [= <-].
  - intros i leg' Hleg'. destruct (decide (i = id)) as [->|]; [by eapply Hf|].
    rewrite lookup_insert_ne in Hleg' by done. by eapply Hf.
Qed.

(** Replacing a leg by one that differs in other flags. *)
Lemma accept_inv_update a id leg leg' :
  bridge_calls a !! id = Some leg -> (bc_acceptSent leg = true -> bc_acceptSent leg' = true) ->
  accept_inv a -> accept_inv (set_sipCall (sipCall a) (<[id := leg']> (bridge_calls a)) a).
Proof.
  intros Hleg Hs. apply accept_inv_step; [done|done|]. cbn. intros i l' Hl'. right.
  destruct (decide (i = id)) as [->|].
  - rewrite lookup_insert_eq in Hl'. injection Hl' as <-. eauto.
  - rewrite lookup_insert_ne in Hl' by done. eauto.
Qed.

Lemma accept_inv_bridge_leg id st : preserves accept_inv (BridgeCall_onCallState id st).
Proof.
  intros a Ha. unfold BridgeCall_onCallState, emit, modify, get, when, mbind, comp_bind.
  pose proof (accept_inv_emit (LegState id st) eq_refl a Ha) as Hb. cbn in Hb |- *.
  destruct (bridge_calls a !! id) as [leg|] eqn:Hleg; [|done].
  destruct (bool_decide (st = INV_CONFIRMED)) eqn:Hc.
  - apply bool_decide_eq_true_1 in Hc as ->. rewrite bool_decide_eq_false_2 by done.
    destruct (bc_acceptSent leg) eqn:Hs; cbn.
    + by eapply accept_inv_update in Hb.
    + by eapply accept_inv_confirmed in Hb.
  - cbn [andb]. assert (accept_inv (set_sipCall (sipCall a) (<[id := leg]> (bridge_calls a))
        (set_trace (trace a ++ [LegState id st]) a))) as Hd
      by (by eapply accept_inv_update in Hb).
    destruct (bool_decide (st = INV_DISCONNECTED)); [|done].
    destruct (bc_acceptSent leg && negb (bc_weHungUp leg)); cbn.
    + apply (accept_inv_emit SignalHangup eq_refl) in Hd. cbn in Hd.
      eapply accept_inv_update in Hd; [exact Hd|by apply lookup_insert_eq|done].
    + eapply accept_inv_update in Hd; [exact Hd|by apply lookup_insert_eq|done].
Qed.

Lemma accept_inv_incoming_leg id st : preserves accept_inv (IncomingSipCall_onCallState id st).
Proof.
  unfold IncomingSipCall_onCallState.
  apply preserves_bind; [by apply accept_inv_emit|intros _].
  apply preserves_bind; [apply preserves_get|intros a].
  destruct (incoming_calls a !! id); keeps; try by apply accept_inv_emit.
  apply preserves_modify. intros b. by apply accept_inv_frame.
Qed.

#[export] Instance accept_inv_handlers : handler_invariant (fun _ => True) accept_inv.
Proof.
  split.
  - apply accept_inv_emit.
  - apply accept_inv_bridge_leg.
  - apply accept_inv_incoming_leg.
  - intros b ms _. unfold onCallMediaState. apply preserves_bind; [apply preserves_get|intros a].
    destruct (bridges a !! b) as [br|]; [|by apply accept_inv_emit].
    destruct (wireBridgeAudio _ _). intros x. by apply accept_inv_frame.
  - intros a. unfold install_bridge. destruct (free_bridge _ _ _).
    apply accept_inv_frame; [done|cbn; lia|done].
  - intros a. unfold reset_bridge, modify. destruct (free_bridge _ _ _). by apply accept_inv_frame.
  - intros a. unfold stop_bridge, modify. cbn. destruct (a_bridge a); [by apply accept_inv_frame|done].
  - intros b a. apply accept_inv_step; [done|cbn; lia|]. cbn. intros id leg' Hl.
    destruct (decide (id = next a)) as [->|]; [left; lia|].
    rewrite lookup_insert_ne in Hl by done. eauto.
  - intros b a. apply accept_inv_frame; [done|cbn; lia|done].
  - intros id a. apply accept_inv_step; [done|done|]. cbn. intros i leg' Hl. right.
    destruct (decide (i = id)) as [->|].
    + rewrite lookup_alter_eq in Hl. apply fmap_Some in Hl as (leg & -> & ->). eauto.
    + rewrite lookup_alter_ne in Hl by done. eauto.
  - intros id a. by apply accept_inv_frame.
  - intros id a. apply accept_inv_step; [done|done|]. cbn. intros i leg' Hl. right.
    apply lookup_delete_Some in Hl as [_ Hl]. eauto.
  - intros id a. by apply accept_inv_frame.
  - intros i p a. by apply accept_inv_frame.
  - intros v a. by apply accept_inv_frame.
  - intros f a. by apply accept_inv_frame.
  - intros s a. by apply accept_inv_frame.
Qed.

(** A freshly set up account. *)
Definition fresh_account (s : sender) (sip : option BridgeAccount) : AccountState :=
  mkAccount s sip 0 false "" None None None ∅ (mkConf 0 ∅) ∅ ∅ 0 [].

(** C4: the daemon takes a Signal call only when the PBX has answered: in any
    history of an account, every [signal2sip_call_accept] comes right after
    PJSIP reported CONFIRMED for the leg it is made for, and is the only one
    for that leg, however often CONFIRMED is reported and whatever
    RingRTC, PJSIP and the database answer. *)
Theorem accept_only_after_answer (env : environment) (config : AccountConfig)
    (fault : nat -> bool) (s : sender) (sip : option BridgeAccount) (events : list event) :
  let t := trace (run env config fault events (fresh_account s sip)) in
  NoDup (accepted t) /\
  forall t1 id c t2, t = t1 ++ Accept id c :: t2 ->
    (exists t0, t1 = t0 ++ [LegState id INV_CONFIRMED]) /\ id ∉ accepted (t1 ++ t2).
Proof.
  assert (accept_inv (run env config fault events (fresh_account s sip))) as [Hp Hn _ _].
  { apply (inv_run (fun _ => True) accept_inv).
    - intros id. split; [|intros i]; by apply Forall_true.
    - apply Forall_true. by intros [].
    - split; cbn; [|constructor|intros id Hid|intros id leg Hl].
      + intros [|] ????; done.
      + by apply elem_of_nil in Hid.
      + by rewrite lookup_empty in Hl. }
  split; [done|]. intros t1 id c t2 E. split; [by eapply Hp|].
  rewrite E in Hn. unfold accepted in Hn. rewrite omap_app in Hn. cbn in Hn.
  unfold accepted. rewrite omap_app.
  apply NoDup_app in Hn as (_ & H1 & H2). apply NoDup_cons in H2 as [H2 _].
  intros [Hi|Hi]%elem_of_app; [|done]. apply (H1 _ Hi). by left.
Qed.

(** *** The heap *)

Definition one_stream (e : leg_event) : Prop :=
  match e with MediaState ms => (audio_count ms <= 1)%nat | CallState _ => True end.

(** The account's pointers reach live objects, the only bridge alive is the
    account's, and no resample port is live but those it has on record. *)
Record heap_ok (a : AccountState) : Prop := {
  ho_sipCall : forall id, sipCall a = Some id -> is_Some (bridge_calls a !! id);
  ho_incoming : forall id, incomingSipCall a = Some id -> is_Some (incoming_calls a !! id);
  ho_distinct : forall id, is_Some (bridge_calls a !! id) -> incoming_calls a !! id = None;
  ho_fresh_out : forall id, is_Some (bridge_calls a !! id) -> (id < next a)%nat;
  ho_fresh_in : forall id, is_Some (incoming_calls a !! id) -> (id < next a)%nat;
  ho_bridge :
    match a_bridge a with
    | Some b => (b < next a)%nat /\ exists br, bridges a = {[b := br]} /\ wire_inv (br, conference a)
    | None => bridges a = ∅ /\ conf_ok (conference a) /\ live (conference a) = ∅
    end;
}.

Lemma heap_ok_emit e : preserves heap_ok (emit e).
Proof. intros a [? ? ? ? ? ?]. by split. Qed.

(** A step that only touches flags, and pointers only to clear them. *)
Lemma heap_ok_frame a a' :
  a_bridge a' = a_bridge a -> bridges a' = bridges a -> conference a' = conference a ->
  next a' = next a ->
  (forall id, sipCall a' = Some id -> sipCall a = Some id /\ bridge_calls a' !! id <> None) ->
  (forall id, incomingSipCall a' = Some id ->
     incomingSipCall a = Some id /\ incoming_calls a' !! id <> None) ->
  (forall id, is_Some (bridge_calls a' !! id) -> is_Some (bridge_calls a !! id)) ->
  (forall id, is_Some (incoming_calls a' !! id) -> is_Some (incoming_calls a !! id)) ->
  heap_ok a -> heap_ok a'.
Proof.
  intros Hb Hbs Hc Hn Hs Hi Hlo Hli [H1 H2 H3 H4 H5 H6]. split; rewrite ?Hb, ?Hbs, ?Hc, ?Hn.
  - intros id [_ H]%Hs. by apply not_eq_None_Some.
  - intros id [_ H]%Hi. by apply not_eq_None_Some.
  - intros id H%Hlo. apply eq_None_not_Some. intros H'%Hli. apply H3 in H. rewrite H in H'.
    by destruct H'.
  - intros id H%Hlo. by apply H4.
  - intros id H%Hli. by apply H5.
  - done.
Qed.

Lemma heap_ok_out_flags a id leg leg' :
  bridge_calls a !! id = Some leg -> heap_ok a ->
  heap_ok (set_sipCall (sipCall a) (<[id := leg']> (bridge_calls a)) a).
Proof.
  intros Hleg Ha. eapply heap_ok_frame; [..|exact Ha]; cbn; try done.
  - intros i Hi. split; [done|]. apply not_eq_None_Some.
    destruct (decide (i = id)) as [->|]; [by rewrite lookup_insert_eq|].
    rewrite lookup_insert_ne by done. by apply (ho_sipCall a Ha).
  - intros i Hi. split; [done|]. apply not_eq_None_Some. by apply (ho_incoming a Ha).
  - intros i Hi. destruct (decide (i = id)) as [->|]; [by rewrite Hleg|].
    by rewrite lookup_insert_ne in Hi.
Qed.

Lemma heap_ok_in_flags a id leg leg' :
  incoming_calls a !! id = Some leg -> heap_ok a ->
  heap_ok (set_incoming (incomingSipCall a) (<[id := leg']> (incoming_calls a)) a).
Proof.
  intros Hleg Ha. eapply heap_ok_frame; [..|exact Ha]; cbn; try done.
  - intros i Hi. split; [done|]. apply not_eq_None_Some. by apply (ho_sipCall a Ha).
  - intros i Hi. split; [done|]. apply not_eq_None_Some.
    destruct (decide (i = id)) as [->|]; [by rewrite lookup_insert_eq|].
    rewrite lookup_insert_ne by done. by apply (ho_incoming a Ha).
  - intros i Hi. destruct (decide (i = id)) as [->|]; [by rewrite Hleg|].
    by rewrite lookup_insert_ne in Hi.
Qed.

Lemma heap_ok_bridge_leg id st : preserves heap_ok (BridgeCall_onCallState id st).
Proof.
  intros a Ha. unfold BridgeCall_onCallState, emit, modify, get, when, mbind, comp_bind.
  apply (heap_ok_emit (LegState id st)) in Ha. cbn in Ha |- *.
  destruct (bridge_calls a !! id) as [leg|] eqn:Hleg; [|done].
  set (leg1 := if bool_decide (st = INV_CONFIRMED) then _ else _).
  apply (heap_ok_out_flags _ id leg leg1) in Ha; [|done]. cbn in Ha.
  destruct (bool_decide (st = INV_CONFIRMED) && negb (bc_acceptSent leg)); cbn;
    [apply (heap_ok_emit (Accept id (activeCallId a))) in Ha; cbn in Ha|];
    (destruct (bool_decide (st = INV_DISCONNECTED)); [|exact Ha]);
    (destruct (bc_acceptSent leg1 && negb (bc_weHungUp leg1)); cbn;
      [apply (heap_ok_emit SignalHangup) in Ha; cbn in Ha|]);
    (eapply heap_ok_out_flags in Ha; [exact Ha|by apply lookup_insert_eq]).
Qed.

Lemma heap_ok_incoming_leg id st : preserves heap_ok (IncomingSipCall_onCallState id st).
Proof.
  intros a Ha. unfold IncomingSipCall_onCallState, emit, modify, get, when, mbind, comp_bind.
  apply (heap_ok_emit (LegState id st)) in Ha. cbn in Ha |- *.
  destruct (incoming_calls a !! id) as [leg|] eqn:Hleg; [|done].
  destruct (bool_decide (st = INV_DISCONNECTED)); [|done].
  destruct (negb (ic_weHungUp leg)); cbn;
    [apply (heap_ok_emit SignalHangup) in Ha; cbn in Ha|];
    by apply (heap_ok_in_flags _ id leg (mkIncoming (ic_bridge leg) true true)) in Ha.
Qed.

Lemma conf_ok_remove i c : conf_ok c -> conf_ok (remove_port i c).
Proof. intros Hc id Hid. cbn. rewrite lookup_delete_None. right. by apply Hc. Qed.

Lemma conf_ok_destroy b c : conf_ok c -> conf_ok (destroy b c).1.
Proof.
  intros Hc. unfold destroy. cbn. destruct (resample (Stop b)) as [[[p i] o]|]; [|done].
  by apply conf_ok_remove, conf_ok_remove.
Qed.

Lemma wire_inv_Stop b c : wire_inv (b, c) -> wire_inv (Stop b, c).
Proof.
  intros (Hf & Hc & Ho). split; [by apply flags_Stop|]. split; [done|].
  cbn in *. unfold only_recorded, Stop in *. by destruct (negb (feeder_running b)).
Qed.

Lemma wire_inv_wire ms b c :
  (audio_count ms <= 1)%nat -> wire_inv (b, c) -> wire_inv (wireBridgeAudio ms (b, c)).
Proof. intros Hm Hi. apply (wire_events_inv [ms]); [by constructor|done]. Qed.

Lemma heap_ok_media b ms : one_stream (MediaState ms) -> preserves heap_ok (onCallMediaState b ms).
Proof.
  intros Hms a Ha. unfold onCallMediaState, get, mbind, comp_bind.
  destruct (bridges a !! b) as [br|] eqn:Hb; [|by apply heap_ok_emit].
  destruct (wireBridgeAudio ms (br, conference a)) as [br' c] eqn:Hw. cbn.
  destruct Ha as [H1 H2 H3 H4 H5 H6]. split; cbn; try done.
  destruct (a_bridge a) as [b0|].
  - destruct H6 as (Hlt & br0 & Hbs & Hi). rewrite Hbs in Hb |- *.
    apply lookup_singleton_Some in Hb as [-> ->]. split; [done|]. exists br'.
    split; [apply insert_singleton_eq|]. rewrite <- Hw. by apply wire_inv_wire.
  - destruct H6 as [Hbs _]. by rewrite Hbs, lookup_empty in Hb.
Qed.

Lemma heap_ok_install_bridge : preserves heap_ok install_bridge.
Proof.
  intros a [H1 H2 H3 H4 H5 H6]. unfold install_bridge.
  destruct (free_bridge _ _ _) as [bs c] eqn:Hf. cbn.
  assert (bs = {[next a := new_bridge]} /\ conf_ok c /\ live c = ∅) as (-> & Hc & Hl).
  { unfold free_bridge in Hf. destruct (a_bridge a) as [b|].
    - destruct H6 as (Hlt & br & Hbs & Hw). rewrite Hbs in Hf.
      rewrite lookup_insert_ne, lookup_singleton_eq in Hf by lia. injection Hf as <- <-.
      split_and!; [|by apply conf_ok_destroy, Hw|by apply only_recorded_destroy, Hw].
      apply map_eq. intros i. destruct (decide (i = b)) as [->|Hb].
      + by rewrite lookup_delete_eq, lookup_singleton_ne by lia.
      + rewrite lookup_delete_ne by done. destruct (decide (i = next a)) as [->|].
        * by rewrite lookup_insert_eq, lookup_singleton_eq.
        * by rewrite lookup_insert_ne, !lookup_singleton_ne.
    - destruct H6 as (Hbs & ? & ?). injection Hf as <- <-. by rewrite Hbs. }
  split; cbn; try done.
  - intros id Hid%H4. lia.
  - intros id Hid%H5. lia.
  - split; [lia|]. exists new_bridge. split; [done|]. split; [done|]. split; [done|].
    intros id. cbn. rewrite Hl, lookup_empty. by intros [? ?].
Qed.

Lemma heap_ok_reset_bridge : preserves heap_ok reset_bridge.
Proof.
  intros a [H1 H2 H3 H4 H5 H6]. unfold reset_bridge, modify.
  destruct (free_bridge _ _ _) as [bs c] eqn:Hf. cbn. split; cbn; try done.
  unfold free_bridge in Hf. destruct (a_bridge a) as [b|].
  - destruct H6 as (Hlt & br & Hbs & Hw). rewrite Hbs, lookup_singleton_eq in Hf.
    injection Hf as <- <-.
    split_and!; [|by apply conf_ok_destroy, Hw|by apply only_recorded_destroy, Hw].
    apply delete_singleton_eq.
  - by injection Hf as <- <-.
Qed.

Lemma heap_ok_stop_bridge : preserves heap_ok stop_bridge.
Proof.
  intros a [H1 H2 H3 H4 H5 H6]. unfold stop_bridge, modify. cbn.
  destruct (a_bridge a) as [b|] eqn:Hb; [|split; try done; by rewrite Hb].
  split; cbn; try done. destruct H6 as (Hlt & br & Hbs & Hw). split; [done|].
  exists (Stop br). split; [|by apply wire_inv_Stop]. rewrite Hbs. apply alter_singleton_eq.
Qed.

Lemma heap_ok_new_out b : preserves heap_ok (new_BridgeCall b).
Proof.
  intros a [H1 H2 H3 H4 H5 H6]. split; cbn; try done.
  - intros id [= <-]. by rewrite lookup_insert_eq.
  - intros id Hid. destruct (decide (id = next a)) as [->|].
    + apply eq_None_not_Some. intros H%H5. lia.
    + rewrite lookup_insert_ne in Hid by done. by apply H3.
  - intros id Hid. destruct (decide (id = next a)) as [->|]; [lia|].
    rewrite lookup_insert_ne in Hid by done. apply H4 in Hid. lia.
  - intros id Hid%H5. lia.
  - destruct (a_bridge a); [|done]. destruct H6 as [? ?]. split; [lia|done].
Qed.

Lemma heap_ok_new_in b : preserves heap_ok (new_IncomingSipCall b).
Proof.
  intros a [H1 H2 H3 H4 H5 H6]. split; cbn; try done.
  - intros id [= <-]. by rewrite lookup_insert_eq.
  - intros id Hid. destruct (decide (id = next a)) as [->|].
    + by apply H4 in Hid; lia.
    + rewrite lookup_insert_ne by done. by apply H3.
  - intros id Hid%H4. lia.
  - intros id Hid. destruct (decide (id = next a)) as [->|]; [lia|].
    rewrite lookup_insert_ne in Hid by done. apply H5 in Hid. lia.
  - destruct (a_bridge a); [|done]. destruct H6 as [? ?]. split; [lia|done].
Qed.

Lemma alter_none {A} (f : A -> A) i j (m : gmap nat A) : alter f i m !! j = None <-> m !! j = None.
Proof.
  destruct (decide (j = i)) as [->|].
  - rewrite lookup_alter_eq. apply fmap_None.
  - by rewrite lookup_alter_ne.
Qed.

Lemma is_Some_alter {A} (f : A -> A) i j (m : gmap nat A) : is_Some (alter f i m !! j) <-> is_Some (m !! j).
Proof. by rewrite <- !not_eq_None_Some, alter_none. Qed.

#[export] Instance heap_ok_handlers : handler_invariant one_stream heap_ok.
Proof.
  split.
  - intros e _. apply heap_ok_emit.
  - apply heap_ok_bridge_leg.
  - apply heap_ok_incoming_leg.
  - apply heap_ok_media.
  - apply heap_ok_install_bridge.
  - apply heap_ok_reset_bridge.
  - apply heap_ok_stop_bridge.
  - apply heap_ok_new_out.
  - apply heap_ok_new_in.
  - intros id a [H1 H2 H3 H4 H5 H6]. split; cbn; try done; intros i;
      rewrite ?is_Some_alter; eauto.
  - intros id a [H1 H2 H3 H4 H5 H6]. split; cbn; try done; intros i;
      rewrite ?is_Some_alter, ?alter_none; eauto.
  - intros id a [H1 H2 H3 H4 H5 H6]. split; cbn; try done;
      intros i [? [_ Hi]%lookup_delete_Some]; eauto.
  - intros id a [H1 H2 H3 H4 H5 H6]. split; cbn; try done.
    + intros i Hi%H3. apply lookup_delete_None. by right.
    + intros i [? [_ Hi]%lookup_delete_Some]; eauto.
  - intros i p a [? ? ? ? ? ?]. by split.
  - intros v a [? ? ? ? ? ?]. by split.
  - intros f a [? ? ? ? ? ?]. by split.
  - intros s a [? ? ? ? ? ?]. by split.
Qed.

Lemma heap_ok_fresh s sip : heap_ok (fresh_account s sip).
Proof.
  split; cbn; try done; intros id [? H]; by rewrite lookup_empty in H.
Qed.

(** *** Tearing down *)

#[export] Instance effect_eq_dec : EqDecision effect.
Proof. solve_decision. Defined.

Definition sleeps (t : list effect) : nat := length (filter (fun e => e = Sleep100ms) t).
#[local] Arguments sleeps : simpl never.

(** [m] returns, leads from [W] to [W'], adds no effect in [F] and sleeps at
    most [n] times. *)
Definition quiet (F : effect -> Prop) (n : nat) (W : AccountState -> Prop)
    (m : Comp AccountState unit) (W' : AccountState -> Prop) : Prop :=
  forall a, W a -> exists a' l, m a = (Ok tt, a') /\ W' a' /\ trace a' = trace a ++ l /\
    Forall (fun e => ~ F e) l /\ (sleeps l <= n)%nat.

Lemma sleeps_app l1 l2 : sleeps (l1 ++ l2) = (sleeps l1 + sleeps l2)%nat.
Proof. unfold sleeps. by rewrite filter_app, length_app. Qed.

Section quiet.
Context (F : effect -> Prop).

Lemma quiet_bind n1 n2 W1 W2 W3 m1 m2 :
  quiet F n1 W1 m1 W2 -> quiet F n2 W2 m2 W3 -> quiet F (n1 + n2) W1 (m1 ;; m2) W3.
Proof.
  intros H1 H2 a Ha. destruct (H1 a Ha) as (a1 & l1 & E1 & Ha1 & Ht1 & Hf1 & Hs1).
  destruct (H2 a1 Ha1) as (a2 & l2 & E2 & Ha2 & Ht2 & Hf2 & Hs2).
  exists a2, (l1 ++ l2). rewrite (bind_ok _ _ _ _ _ E1). split; [done|]. split; [done|].
  split; [by rewrite Ht2, Ht1, app_assoc|]. split; [by apply Forall_app|].
  rewrite sleeps_app. lia.
Qed.

Lemma quiet_modify n W W' f :
  (forall a, W a -> W' (f a)) -> (forall a, trace (f a) = trace a) -> quiet F n W (modify f) W'.
Proof.
  intros Hf Ht a Ha. exists (f a), []. rewrite app_nil_r. split_and!; auto using Forall_nil, Nat.le_0_l.
Qed.

Lemma quiet_ret n W : quiet F n W (mret tt) W.
Proof. intros a Ha. exists a, []. rewrite app_nil_r. split_and!; auto using Nat.le_0_l. Qed.

Lemma quiet_emit W e : ~ F e -> preserves W (emit e) -> quiet F 1 W (emit e) W.
Proof.
  intros He HW a Ha. exists (set_trace (trace a ++ [e]) a), [e]. split; [done|].
  split; [by apply (HW a)|]. split; [done|]. split; [by constructor|].
  unfold sleeps. cbn. destruct (decide _); cbn; lia.
Qed.

Lemma quiet_emit_awake W e : ~ F e -> e <> Sleep100ms -> preserves W (emit e) -> quiet F 0 W (emit e) W.
Proof.
  intros He Hn HW a Ha. destruct (quiet_emit W e He HW a Ha) as (a' & l & E & Ha' & Ht & Hf & _).
  exists a', [e]. injection E as <-. split; [done|]. split; [done|]. split; [done|].
  split; [by constructor|]. unfold sleeps. cbn. by rewrite decide_False.
Qed.

Lemma quiet_for_each {A} W (f : A -> Comp AccountState unit) l :
  (forall x, x ∈ l -> quiet F 0 W (f x) W) -> quiet F 0 W (for_each f l) W.
Proof.
  induction l as [|x l IH]; intros Hf; cbn [for_each]; [apply quiet_ret|].
  apply (quiet_bind 0 0 W W W); [apply Hf; by left|apply IH; intros y Hy; apply Hf; by right].
Qed.
End quiet.

(** While a leg is torn down: it is marked as hung up by us, and with [live]
    its bridge is still there; [other] is the leg in the other direction. *)
Definition tearing_out (live : bool) (other : option nat) (id : nat) (a : AccountState) : Prop :=
  heap_ok a /\ sipCall a = Some id /\ incomingSipCall a = other /\
  exists leg, bridge_calls a !! id = Some leg /\ bc_weHungUp leg = true /\
    (live = true -> is_Some (bridges a !! bc_bridge leg)).
Definition tearing_in (live callee : bool) (id : nat) (a : AccountState) : Prop :=
  heap_ok a /\ incomingSipCall a = Some id /\ (sipCall a = None /\ isCallee a = callee) /\
  exists leg, incoming_calls a !! id = Some leg /\ ic_weHungUp leg = true /\
    (live = true -> is_Some (bridges a !! ic_bridge leg)).

(** Telling RingRTC to hang up again, and, with [live], using a freed bridge. *)
Definition unwanted (live : bool) (e : effect) : Prop :=
  e = SignalHangup \/ (live = true /\ exists b, e = UseOfFreedBridge b).

Lemma is_Some_insert_mono {A} (m : gmap nat A) i j x : is_Some (m !! j) -> is_Some (<[i := x]> m !! j).
Proof.
  intros H. destruct (decide (i = j)) as [->|]; [by rewrite lookup_insert_eq|].
  by rewrite lookup_insert_ne.
Qed.

Lemma onCallMediaState_quiet lv b ms (W : AccountState -> Prop) a :
  W a -> preserves W (onCallMediaState b ms) -> (lv = true -> is_Some (bridges a !! b)) ->
  exists a' l, onCallMediaState b ms a = (Ok tt, a') /\ W a' /\ trace a' = trace a ++ l /\
    Forall (fun e => ~ unwanted lv e) l /\ (sleeps l <= 0)%nat.
Proof.
  intros Ha HW Hlv. specialize (HW a Ha).
  unfold onCallMediaState, get, mbind, comp_bind in *. destruct (bridges a !! b) as [br|].
  - destruct (wireBridgeAudio _ _) as [br' c]. eexists _, []. rewrite app_nil_r.
    split; [done|]. split; [exact HW|]. split; [done|]. split; [constructor|done].
  - destruct lv; [by destruct Hlv|].
    eexists _, [UseOfFreedBridge b]. split; [done|]. split; [exact HW|]. split; [done|].
    split; [|done]. constructor; [|constructor]. by intros [H|[H _]].
Qed.

Lemma media_keeps_legs b ms (W : AccountState -> Prop) :
  (forall a br c, W a -> is_Some (bridges a !! b) ->
     W (set_bridge (a_bridge a) (<[b := br]> (bridges a)) c a)) ->
  (forall a e, W a -> W (set_trace (trace a ++ [e]) a)) ->
  preserves W (onCallMediaState b ms).
Proof.
  intros Hb He a Ha. unfold onCallMediaState, get, mbind, comp_bind.
  destruct (bridges a !! b) as [br|] eqn:E; [|by apply He].
  destruct (wireBridgeAudio _ _). by apply Hb.
Qed.

Lemma tearing_out_media lv other id b ms :
  one_stream (MediaState ms) -> preserves (tearing_out lv other id) (onCallMediaState b ms).
Proof.
  intros Hms a (Hh & Hs & Hi & leg & Hl & Hw & Hb).
  split; [by apply (heap_ok_media b ms Hms a)|].
  revert a Hs Hi Hl Hw Hb Hh.
  assert (preserves (fun a => sipCall a = Some id /\ incomingSipCall a = other /\ bridge_calls a !! id = Some leg /\
    (lv = true -> is_Some (bridges a !! bc_bridge leg))) (onCallMediaState b ms)) as Hp.
  { apply media_keeps_legs; [|done]. intros a br c (? & ? & ? & H) _. cbn. split_and!; [done..|].
    intros ?%H. by apply is_Some_insert_mono. }
  intros a Hs Hi Hl Hw Hb Hh. destruct (Hp a) as (? & ? & ? & ?); [done|]. split_and!; eauto.
Qed.

Lemma tearing_in_media lv callee id b ms :
  one_stream (MediaState ms) -> preserves (tearing_in lv callee id) (onCallMediaState b ms).
Proof.
  intros Hms a (Hh & Hs & Ho & leg & Hl & Hw & Hb).
  split; [by apply (heap_ok_media b ms Hms a)|].
  revert a Hs Ho Hl Hw Hb Hh.
  assert (preserves (fun a => incomingSipCall a = Some id /\ (sipCall a = None /\ isCallee a = callee) /\
    incoming_calls a !! id = Some leg /\
    (lv = true -> is_Some (bridges a !! ic_bridge leg))) (onCallMediaState b ms)) as Hp.
  { apply media_keeps_legs; [|done]. intros a br c (? & Hsc & ? & Hlive) _. destruct Hsc. cbn. split_and!; [done..|].
    intros ?%Hlive. by apply is_Some_insert_mono. }
  intros a Hs Ho Hl Hw Hb Hh. destruct (Hp a) as (? & [? ?] & ? & ?); [done|]. split_and!; eauto.
Qed.

Lemma out_callState_quiet lv other id st :
  quiet (unwanted lv) 0 (tearing_out lv other id) (BridgeCall_onCallState id st) (tearing_out lv other id).
Proof.
  intros a (Hh & Hs & Hi & leg & Hl & Hw & Hb).
  pose proof (heap_ok_bridge_leg id st a Hh) as Hh'.
  unfold BridgeCall_onCallState, emit, modify, get, when, mbind, comp_bind in *. cbn in *.
  rewrite Hl in *. set (leg1 := if bool_decide (st = INV_CONFIRMED) then _ else _) in *.
  assert (bc_weHungUp leg1 = true /\ bc_bridge leg1 = bc_bridge leg) as [Hw1 Hb1]
    by (unfold leg1; by destruct (bool_decide _)).
  rewrite Hw1, andb_false_r in *.
  set (acc := bool_decide (st = INV_CONFIRMED) && negb (bc_acceptSent leg)) in *.
  destruct acc, (bool_decide (st = INV_DISCONNECTED)); cbn in *.
  all: eexists _, (LegState id st :: ?[rest]); split; [reflexivity|].
  all: split; [split; [exact Hh'|]; split; [done|]; split; [done|];
         eexists; split; [by apply lookup_insert_eq|]; cbn; rewrite ?Hb1; by split|].
  all: cbn; split; [rewrite <- ?app_assoc; cbn; reflexivity|].
  all: split; [|done]; repeat constructor; by intros [?|[_ [? ?]]].
Qed.

Lemma in_callState_quiet lv callee id st :
  quiet (unwanted lv) 0 (tearing_in lv callee id) (IncomingSipCall_onCallState id st) (tearing_in lv callee id).
Proof.
  intros a (Hh & Hs & Ho & leg & Hl & Hw & Hb).
  pose proof (heap_ok_incoming_leg id st a Hh) as Hh'.
  unfold IncomingSipCall_onCallState, emit, modify, get, when, mbind, comp_bind in *. cbn in *.
  rewrite Hl in *. rewrite Hw in *.
  destruct (bool_decide (st = INV_DISCONNECTED)); cbn in *.
  all: eexists _, [LegState id st]; split; [reflexivity|].
  all: split; [split; [exact Hh'|]; split; [done|]; split; [done|];
         eexists; split; [first [by apply lookup_insert_eq|exact Hl]|]; cbn; by split|].
  all: split; [done|]; split; [|done]; repeat constructor; by intros [?|[_ [? ?]]].
Qed.

Lemma out_callback_quiet lv other id e :
  one_stream e -> quiet (unwanted lv) 0 (tearing_out lv other id) (leg_callback id e) (tearing_out lv other id).
Proof.
  intros He a Ha. unfold leg_callback, get. unfold mbind, comp_bind at 1.
  destruct Ha as (Hh & Hs & Hi & leg & Hl & Hw & Hb). rewrite Hl.
  assert (tearing_out lv other id a) as Ha by (split_and!; eauto).
  destruct e as [st|ms]; [by apply out_callState_quiet|].
  apply onCallMediaState_quiet; [done|by apply tearing_out_media|done].
Qed.

Lemma in_callback_quiet lv callee id e :
  one_stream e -> quiet (unwanted lv) 0 (tearing_in lv callee id) (leg_callback id e) (tearing_in lv callee id).
Proof.
  intros He a Ha. unfold leg_callback, get. unfold mbind, comp_bind at 1.
  destruct Ha as (Hh & Hs & Ho & leg & Hl & Hw & Hb). rewrite Hl.
  assert (bridge_calls a !! id = None) as ->.
  { apply eq_None_not_Some. intros H%(ho_distinct a Hh). congruence. }
  assert (tearing_in lv callee id a) as Ha by (destruct Ho; split_and!; eauto).
  destruct e as [st|ms]; [by apply in_callState_quiet|].
  apply onCallMediaState_quiet; [done|by apply tearing_in_media|done].
Qed.

Lemma tearing_emit lv other callee id e :
  preserves (tearing_out lv other id) (emit e) /\ preserves (tearing_in lv callee id) (emit e).
Proof.
  split; intros a (Hh & H); (split; [by apply (heap_ok_emit e a)|exact H]).
Qed.

Section teardown.
#[local] Set Default Proof Using "All".
Context (env : environment) (Henv : env_ok one_stream env) (lv : bool) (id : nat).
Context (W : AccountState -> Prop) (HWe : forall e, preserves W (emit e)).
Context (HWc : forall e, one_stream e -> quiet (unwanted lv) 0 W (leg_callback id e) W).

Lemma callbacks_quiet l : Forall one_stream l -> quiet (unwanted lv) 0 W (for_each (leg_callback id) l) W.
Proof. intros Hl. apply quiet_for_each. intros e He. apply HWc. by eapply Forall_forall. Qed.

Lemma wait_quiet d n i : quiet (unwanted lv) n W (wait_disconnected env id d n i) W.
Proof.
  revert i. induction n as [|n IH]; intros i; cbn [wait_disconnected]; [apply quiet_ret|].
  intros a Ha. unfold gets. unfold mbind at 1, comp_bind at 1. destruct (d a); [by apply quiet_ret|].
  revert a Ha. change (quiet (unwanted lv) (1 + (0 + n)) W (emit Sleep100ms ;;
    for_each (leg_callback id) (in_poll env id i) ;; wait_disconnected env id d n (S i)) W).
  apply (quiet_bind _ _ _ W W W).
  - apply quiet_emit; [by intros [?|[_ [? ?]]]|apply HWe].
  - apply (quiet_bind _ _ _ W W W); [apply callbacks_quiet, Henv|apply IH].
Qed.

Lemma hangup_quiet a :
  W a -> exists a' l, hangup_leg env id a = (Ok tt, a') /\ W a' /\
    trace a' = trace a ++ HangupLeg id :: l /\ Forall (fun e => ~ unwanted lv e) l /\
    (sleeps l <= 0)%nat.
Proof.
  intros Ha. unfold hangup_leg.
  destruct (callbacks_quiet (in_hangup env id) (proj1 (Henv id)) _ (HWe (HangupLeg id) a Ha))
    as (a' & l & E & Ha' & Ht & Hl & Hs).
  exists a', l. split; [|split_and!; [done| |done|done]; by rewrite Ht; cbn; rewrite <- app_assoc].
  unfold catch_all. rewrite (bind_ok (emit (HangupLeg id)) _ a tt (emit (HangupLeg id) a).2 eq_refl).
  cbv beta. rewrite (bind_ok _ _ _ _ _ E). unfold of_outcome. by destruct (hangup_result env id) as [[]|e].
Qed.
End teardown.

(** Nothing is left of an outgoing (incoming) leg. *)
Definition no_bridge (a : AccountState) : Prop :=
  a_bridge a = None /\ bridges a = ∅ /\ live (conference a) = ∅.
Definition released_out (a : AccountState) : Prop := heap_ok a /\ sipCall a = None /\ no_bridge a.
Definition released (a : AccountState) : Prop := released_out a /\ incomingSipCall a = None.

(** What a teardown adds to the trace: the hangup of the leg there was. *)
Definition hangup_first (leg : option nat) (l : list effect) : Prop :=
  match leg with Some id => exists l', l = HangupLeg id :: l' | None => l = [] end.

Lemma reset_bridge_released a :
  heap_ok a -> heap_ok (reset_bridge a).2 /\ no_bridge (reset_bridge a).2.
Proof.
  intros Ha. pose proof (heap_ok_reset_bridge a Ha) as Hr. split; [done|].
  pose proof (ho_bridge _ Hr) as Hb. unfold reset_bridge, modify in *.
  destruct (free_bridge _ _ _). cbn in *. by destruct Hb as (? & ? & ?).
Qed.

Lemma reset_bridge_eq a :
  exists bs c, reset_bridge a = (Ok tt, set_bridge None bs c a).
Proof. unfold reset_bridge, modify. destruct (free_bridge _ _ _). eauto. Qed.

Lemma stop_bridge_eq a :
  exists bs, stop_bridge a = (Ok tt, set_bridge (a_bridge a) bs (conference a) a) /\
    forall i, is_Some (bs !! i) <-> is_Some (bridges a !! i).
Proof.
  unfold stop_bridge, modify. destruct (a_bridge a) as [b|] eqn:E.
  - eexists. split; [done|]. intros i. apply is_Some_alter.
  - exists (bridges a). split; [|done]. destruct a; cbn in *. by rewrite E.
Qed.

Section stop.
#[local] Set Default Proof Using "All".
Context (env : environment) (Henv : env_ok one_stream env).

(** The last two statements: the pointer is cleared, then the bridge goes. *)
Lemma finish_out id a :
  heap_ok a -> exists a', (delete_sipCall id ;; reset_bridge) a = (Ok tt, a') /\
    released_out a' /\ incomingSipCall a' = incomingSipCall a /\ trace a' = trace a.
Proof.
  intros Ha. pose proof (inv_delete_out (I := heap_ok) id a Ha) as Hd.
  unfold delete_sipCall, modify in *. unfold mbind, comp_bind. cbn [fst snd] in *.
  destruct (reset_bridge_eq (set_sipCall None (delete id (bridge_calls a)) a)) as (bs & c & E).
  destruct (reset_bridge_released _ Hd) as [Hr Hn]. rewrite E in *.
  eexists. split; [reflexivity|]. split; [|by split]. split; [exact Hr|]. split; [done|exact Hn].
Qed.

Lemma finish_in id a :
  heap_ok a -> sipCall a = None ->
  exists a', (delete_incoming id ;; reset_bridge) a = (Ok tt, a') /\
    released a' /\ isCallee a' = isCallee a /\ trace a' = trace a.
Proof.
  intros Ha Hs. pose proof (inv_delete_in (I := heap_ok) id a Ha) as Hd.
  unfold delete_incoming, modify in *. unfold mbind, comp_bind. cbn [fst snd] in *.
  destruct (reset_bridge_eq (set_incoming None (delete id (incoming_calls a)) a)) as (bs & c & E).
  destruct (reset_bridge_released _ Hd) as [Hr Hn]. rewrite E in *.
  eexists. split; [reflexivity|]. split; [|by split]. split; [|done]. split; [exact Hr|]. split; [exact Hs|exact Hn].
Qed.

Lemma stopSipBridge_spec lv a :
  heap_ok a ->
  (lv = true -> forall id leg, sipCall a = Some id -> bridge_calls a !! id = Some leg ->
     is_Some (bridges a !! bc_bridge leg)) ->
  exists a' l, stopSipBridge env a = (Ok tt, a') /\ released_out a' /\
    incomingSipCall a' = incomingSipCall a /\
    trace a' = trace a ++ l /\ hangup_first (sipCall a) l /\
    Forall (fun e => ~ unwanted lv e) l /\ (sleeps l <= 50)%nat.
Proof.
  intros Ha Hlv. unfold stopSipBridge.
  destruct (stop_bridge_eq a) as (bs & E & Hbs). rewrite (bind_ok _ _ _ _ _ E).
  pose proof (heap_ok_stop_bridge a Ha) as Ha1. rewrite E in Ha1. cbn in Ha1.
  set (a1 := set_bridge _ _ _ a) in *. unfold gets. unfold mbind at 1, comp_bind at 1.
  change (sipCall a1) with (sipCall a). destruct (sipCall a) as [id|] eqn:Hs.
  2: { unfold mbind, comp_bind. cbn [mret comp_ret].
       destruct (reset_bridge_released _ Ha1) as [Hr Hn].
       destruct (reset_bridge_eq a1) as (bs' & c & Er). rewrite Er in *.
       eexists _, []. rewrite app_nil_r. split; [reflexivity|]. split; [by split|].
       split_and!; [done|done|done|constructor|apply Nat.le_0_l]. }
  destruct (ho_sipCall a Ha id Hs) as [leg Hleg].
  pose proof (inv_mark_out (I := heap_ok) id a1 Ha1) as Ha2.
  assert (tearing_out lv (incomingSipCall a) id (mark_sipCall id a1).2) as Ht.
  { split; [done|]. split; [done|]. split; [done|]. cbn. rewrite lookup_alter_eq, Hleg. eexists. split; [done|].
    split; [done|]. cbn. intros Hv. apply Hbs. by eapply Hlv. }
  destruct (hangup_quiet env Henv lv id _ (fun e => proj1 (tearing_emit lv (incomingSipCall a) false id e))
    (out_callback_quiet lv (incomingSipCall a) id) _ Ht) as (a3 & l3 & E3 & Ht3 & Hl3 & Hu3 & Hs3).
  destruct (wait_quiet env Henv lv id _ (fun e => proj1 (tearing_emit lv (incomingSipCall a) false id e))
    (out_callback_quiet lv (incomingSipCall a) id) (bc_done id) 50 0 a3 Ht3) as (a4 & l4 & E4 & Ht4 & Hl4 & Hu4 & Hs4).
  destruct (finish_out id a4 (proj1 Ht4)) as (a5 & E5 & Hr5 & Hi5 & Hl5).
  exists a5, (HangupLeg id :: l3 ++ l4).
  split; [|split_and!; [done|rewrite Hi5; apply Ht4| |by eexists| |]].
  - unfold mbind, comp_bind in E5 |- *. unfold mark_sipCall, modify in *. cbn [fst snd] in *.
    by rewrite E3, E4.
  - rewrite Hl5, Hl4, Hl3, <- app_assoc. done.
  - constructor; [by intros [?|[_ [? ?]]]|by apply Forall_app].
  - change (HangupLeg id :: l3 ++ l4) with ([HangupLeg id] ++ l3 ++ l4). rewrite !sleeps_app.
    change (sleeps [HangupLeg id]) with 0%nat. lia.
Qed.

Lemma stopIncomingSipCall_spec lv a :
  heap_ok a -> sipCall a = None ->
  (lv = true -> forall id leg, incomingSipCall a = Some id -> incoming_calls a !! id = Some leg ->
     is_Some (bridges a !! ic_bridge leg)) ->
  exists a' l, stopIncomingSipCall env a = (Ok tt, a') /\ released a' /\
    isCallee a' = isCallee a /\
    trace a' = trace a ++ l /\ hangup_first (incomingSipCall a) l /\
    Forall (fun e => ~ unwanted lv e) l /\ (sleeps l <= 50)%nat.
Proof.
  intros Ha Ho Hlv. unfold stopIncomingSipCall.
  destruct (stop_bridge_eq a) as (bs & E & Hbs). rewrite (bind_ok _ _ _ _ _ E).
  pose proof (heap_ok_stop_bridge a Ha) as Ha1. rewrite E in Ha1. cbn in Ha1.
  set (a1 := set_bridge _ _ _ a) in *. unfold gets. unfold mbind at 1, comp_bind at 1.
  change (incomingSipCall a1) with (incomingSipCall a). destruct (incomingSipCall a) as [id|] eqn:Hs.
  2: { unfold mbind, comp_bind. cbn [mret comp_ret].
       destruct (reset_bridge_released _ Ha1) as [Hr Hn].
       destruct (reset_bridge_eq a1) as (bs' & c & Er). rewrite Er in *.
       eexists _, []. rewrite app_nil_r. split; [reflexivity|]. split; [by split|].
       split_and!; [done|done|done|constructor|apply Nat.le_0_l]. }
  destruct (ho_incoming a Ha id Hs) as [leg Hleg].
  pose proof (inv_mark_in (I := heap_ok) id a1 Ha1) as Ha2.
  assert (tearing_in lv (isCallee a) id (mark_incoming id a1).2) as Ht.
  { split; [done|]. split; [done|]. split; [done|]. cbn. rewrite lookup_alter_eq, Hleg.
    eexists. split; [done|]. split; [done|]. cbn. intros Hv. apply Hbs. by eapply Hlv. }
  destruct (hangup_quiet env Henv lv id _ (fun e => proj2 (tearing_emit lv None (isCallee a) id e))
    (in_callback_quiet lv (isCallee a) id) _ Ht) as (a3 & l3 & E3 & Ht3 & Hl3 & Hu3 & Hs3).
  destruct (wait_quiet env Henv lv id _ (fun e => proj2 (tearing_emit lv None (isCallee a) id e))
    (in_callback_quiet lv (isCallee a) id) (ic_done id) 50 0 a3 Ht3) as (a4 & l4 & E4 & Ht4 & Hl4 & Hu4 & Hs4).
  destruct (finish_in id a4 (proj1 Ht4) ltac:(by apply Ht4)) as (a5 & E5 & Hr5 & Hc5 & Hl5).
  exists a5, (HangupLeg id :: l3 ++ l4).
  split; [|split_and!; [done|rewrite Hc5; apply Ht4| |by eexists| |]].
  - unfold mbind, comp_bind in E5 |- *. unfold mark_incoming, modify in *. cbn [fst snd] in *.
    by rewrite E3, E4.
  - rewrite Hl5, Hl4, Hl3, <- app_assoc. done.
  - constructor; [by intros [?|[_ [? ?]]]|by apply Forall_app].
  - change (HangupLeg id :: l3 ++ l4) with ([HangupLeg id] ++ l3 ++ l4). rewrite !sleeps_app.
    change (sleeps [HangupLeg id]) with 0%nat. lia.
Qed.
End stop.

Definition ends (state : Z) : Prop := state = CALL_STATE_ENDED \/ state = CALL_STATE_CONCLUDED.

(** Stopping never throws, whatever the legs do while it waits. *)
Lemma leg_callback_never id e : raises_only never (leg_callback id e).
Proof.
  unfold leg_callback, BridgeCall_onCallState, IncomingSipCall_onCallState, onCallMediaState, emit. raises.
Qed.

Lemma hangup_leg_never env id : raises_only never (hangup_leg env id).
Proof. unfold hangup_leg. raises. Qed.

Lemma wait_never env id d n i : raises_only never (wait_disconnected env id d n i).
Proof.
  revert i. induction n as [|n IH]; intros i; cbn [wait_disconnected]; unfold emit; raises.
  apply leg_callback_never.
Qed.

Lemma stop_calls_never env : raises_only never (stopSipBridge env ;; stopIncomingSipCall env).
Proof.
  unfold stopSipBridge, stopIncomingSipCall, stop_bridge, mark_sipCall, mark_incoming,
    delete_sipCall, delete_incoming, reset_bridge.
  raises; auto using hangup_leg_never, wait_never.
Qed.

(** The whole reaction to the end of a call. *)
Definition end_call (env : environment) : Comp AccountState unit :=
  stopSipBridge env ;; stopIncomingSipCall env ;; modify (set_isCallee false).

Lemma onCallState_ends env config fault peer callId state a :
  ends state ->
  onCallState env config fault peer callId state a =
  safeCallback (end_call env) (set_peer callId peer a).
Proof. by intros [-> | ->]. Qed.

Lemma safeCallback_ok f a a' : f a = (Ok tt, a') -> safeCallback f a = (Ok tt, a').
Proof. intros E. unfold safeCallback, catch_all, catch_std. by rewrite E. Qed.

Lemma end_call_spec env a :
  env_ok one_stream env -> heap_ok a ->
  exists a' l1 l2, end_call env a = (Ok tt, a') /\ released a' /\ isCallee a' = false /\
    trace a' = trace a ++ l1 ++ l2 /\ hangup_first (sipCall a) l1 /\
    hangup_first (incomingSipCall a) l2 /\
    Forall (fun e => e <> SignalHangup) (l1 ++ l2) /\ (sleeps (l1 ++ l2) <= 100)%nat.
Proof.
  intros Henv Ha. unfold end_call.
  destruct (stopSipBridge_spec env Henv false a Ha) as (a1 & l1 & E1 & (H1 & Hs1 & _) & Hi1 & Ht1 & Hh1 & Hu1 & Hn1);
    [done|].
  destruct (stopIncomingSipCall_spec env Henv false a1 H1 Hs1)
    as (a2 & l2 & E2 & Hr2 & _ & Ht2 & Hh2 & Hu2 & Hn2); [done|].
  exists (set_isCallee false a2), l1, l2. rewrite (bind_ok _ _ _ _ _ E1), (bind_ok _ _ _ _ _ E2).
  split; [done|]. destruct Hr2 as [(Hh & Hs & Hb) Hi].
  split; [split; [split; [by apply (inv_set_isCallee (I := heap_ok))|done]|done]|].
  split; [done|]. split; [cbn; by rewrite Ht2, Ht1, app_assoc|]. split; [done|].
  split; [by rewrite <- Hi1|].
  rewrite sleeps_app. split; [|lia]. apply Forall_app. split; [eapply Forall_impl; [exact Hu1|]|
    eapply Forall_impl; [exact Hu2|]]; intros e He ->; apply He; by left.
Qed.

(** C7: when RingRTC reports that a call ended or is concluded, the callback
    returns normally (no exception crosses into RingRTC, whatever PJSIP's
    hangup throws), after at most 100 sleeps of 100 ms: neither leg, no audio
    bridge and no resample port is left, [isCallee] is false, every leg
    there was has been hung up, and RingRTC is not told to hang up
    again, whatever PJSIP reports while the legs are torn down.  The history
    before is arbitrary, with at most one audio stream per media change. *)
Theorem call_end_releases_everything (env : environment) (config : AccountConfig)
    (fault : nat -> bool) (s : sender) (sip : option BridgeAccount) (events : list event)
    (peer : string) (callId state : Z)
    (Henv : env_ok one_stream env) (Hevents : Forall (event_ok one_stream) events)
    (Hstate : ends state) :
  let a := run env config fault events (fresh_account s sip) in
  exists a' l, onCallState env config fault peer callId state a = (Ok tt, a') /\
    sipCall a' = None /\ incomingSipCall a' = None /\ a_bridge a' = None /\
    bridges a' = ∅ /\ live (conference a') = ∅ /\ isCallee a' = false /\
    trace a' = trace a ++ l /\
    (forall id, sipCall a = Some id \/ incomingSipCall a = Some id -> HangupLeg id ∈ l) /\
    SignalHangup ∉ l /\ (sleeps l <= 100)%nat.
Proof.
  intros a. assert (heap_ok a) as Ha
    by (apply (inv_run one_stream heap_ok env config fault Henv events _ Hevents), heap_ok_fresh).
  rewrite onCallState_ends by done.
  destruct (end_call_spec env (set_peer callId peer a) Henv)
    as (a' & l1 & l2 & E & ((_ & Hs & Hb & Hbs & Hl) & Hi) & Hc & Ht & Hh1 & Hh2 & Hu & Hn);
    [by apply (inv_set_peer (I := heap_ok))|].
  exists a', (l1 ++ l2). split; [by apply safeCallback_ok|]. split_and!; try done.
  - cbn in Hh1, Hh2. intros id [Hid|Hid]; rewrite Hid in *; cbn in Hh1, Hh2.
    + destruct Hh1 as [l' ->]. by left.
    + destruct Hh2 as [l' ->]. apply elem_of_app. right. by left.
  - intros H. rewrite Forall_forall in Hu. by apply (Hu _ H).
Qed.

#[export] Instance trace_grows e : handler_invariant (fun _ => True) (fun a => e ∈ trace a).
Proof.
  assert (forall e', preserves (fun a => e ∈ trace a) (emit e')) as He.
  { intros e' a Ha. cbn. apply elem_of_app. by left. }
  split; try done; try (intros; intros a Ha; exact Ha).
  - intros id st. unfold BridgeCall_onCallState. apply preserves_bind; [apply He|intros _].
    apply preserves_bind; [apply preserves_get|intros a].
    destruct (bridge_calls a !! id); keeps; try apply He; by apply preserves_modify.
  - intros id st. unfold IncomingSipCall_onCallState. apply preserves_bind; [apply He|intros _].
    apply preserves_bind; [apply preserves_get|intros a].
    destruct (incoming_calls a !! id); keeps; try apply He; by apply preserves_modify.
  - intros b ms _. apply media_keeps_legs; [done|intros a x Ha; by apply (He x)].
  - intros a Ha. unfold install_bridge. by destruct (free_bridge _ _ _).
  - intros a Ha. unfold reset_bridge, modify. by destruct (free_bridge _ _ _).
  - intros a Ha. unfold stop_bridge, modify. cbn. by destruct (a_bridge a).
Qed.

Lemma bind_reach {A B} (I : AccountState -> Prop) (m : Comp AccountState A)
    (f : A -> Comp AccountState B) a :
  I (m a).2 -> (forall x, preserves I (f x)) -> I ((m ≫= f) a).2.
Proof.
  intros Hm Hf. unfold mbind, comp_bind. destruct (m a) as [[x|e] a']; [by apply Hf|done].
Qed.

Lemma env_ok_true env : env_ok (fun _ => True) env.
Proof. intros id. split; [|intros i]; by apply Forall_true. Qed.

(** The part of a teardown after the bridge is gone. *)
Lemma stop_incoming_dangling env a id leg ms rest :
  bridges a = ∅ -> a_bridge a = None -> incomingSipCall a = Some id ->
  incoming_calls a !! id = Some leg -> bridge_calls a !! id = None ->
  in_hangup env id = MediaState ms :: rest ->
  UseOfFreedBridge (ic_bridge leg) ∈ trace (stopIncomingSipCall env a).2.
Proof.
  intros Hbs Hb Hi Hl Ho He. unfold stopIncomingSipCall.
  assert (stop_bridge a = (Ok tt, a)) as E1 by (unfold stop_bridge, modify; by rewrite Hb).
  rewrite (bind_ok _ _ _ _ _ E1). unfold gets. unfold mbind at 1, comp_bind at 1. rewrite Hi.
  set (I := fun a' => UseOfFreedBridge (ic_bridge leg) ∈ trace a').
  pose proof (trace_grows (UseOfFreedBridge (ic_bridge leg))) as HI. fold I in HI.
  apply (bind_reach I); [|intros _; apply inv_reset_bridge].
  rewrite (bind_ok (mark_incoming id) _ a tt (mark_incoming id a).2 eq_refl). cbv beta.
  apply (bind_reach I); [|intros _; apply preserves_bind;
    [apply (inv_wait (fun _ => True) I env (env_ok_true env))|intros _; apply inv_delete_in]].
  unfold hangup_leg.
  assert (I ((for_each (leg_callback id) (in_hangup env id) ;; of_outcome (hangup_result env id))
    (emit (HangupLeg id) (mark_incoming id a).2).2).2) as Hreach.
  { apply (bind_reach I); [|intros _; apply preserves_of_outcome]. rewrite He. cbn [for_each].
    apply (bind_reach I); [|intros _; apply (inv_callbacks (fun _ => True) I); by apply Forall_true].
    unfold leg_callback, get. unfold mbind at 1, comp_bind at 1. cbn.
    rewrite Ho, lookup_alter_eq, Hl. cbn. unfold onCallMediaState, get.
    unfold mbind at 1, comp_bind at 1. cbn. rewrite Hbs, lookup_empty. cbn.
    unfold I. cbn. apply elem_of_app. right. by left. }
  unfold catch_all. rewrite (bind_ok (emit (HangupLeg id)) _ _ tt _ eq_refl). cbv beta.
  destruct ((for_each _ _ ;; _) _) as [[[]|e] a']; exact Hreach.
Qed.

(** The end of a Signal call placed for a SIP call frees the audio bridge
    while the SIP leg, alive until it is hung up afterwards, still refers to
    it: if PJSIP reports a media state of that leg then, the daemon works on
    the freed object.  [stopIncomingSipCall] alone, which deletes the leg
    first, never does. *)
Lemma end_frees_bridge_under_leg (env : environment) (config : AccountConfig)
    (fault : nat -> bool) (peer : string) (callId state : Z) (a : AccountState) (id : nat)
    (leg : IncomingSipCall) (ms : list media) (rest : list leg_event)
    (Henv : env_ok one_stream env) (Ha : heap_ok a) (Hstate : ends state)
    (Hout : sipCall a = None) (Hin : incomingSipCall a = Some id)
    (Hleg : incoming_calls a !! id = Some leg)
    (Hb : a_bridge a = Some (ic_bridge leg))
    (Hwin : in_hangup env id = MediaState ms :: rest) :
  UseOfFreedBridge (ic_bridge leg) ∈ trace (onCallState env config fault peer callId state a).2 /\
  exists a' l, stopIncomingSipCall env a = (Ok tt, a') /\ trace a' = trace a ++ l /\
    forall b, UseOfFreedBridge b ∉ l.
Proof.
  split.
  - rewrite onCallState_ends by done.
    set (a0 := set_peer callId peer a).
    assert (heap_ok a0) as Ha0 by (by apply (inv_set_peer (I := heap_ok))).
    set (I := fun a' => UseOfFreedBridge (ic_bridge leg) ∈ trace a').
    destruct (end_call_spec env a0 Henv Ha0) as (a' & l1 & l2 & E & _).
    rewrite (safeCallback_ok _ _ _ E). change (I (Ok tt, a').2). rewrite <- E.
    destruct (stop_bridge_eq a0) as (bs & E1 & Hbs).
    assert (heap_ok (set_bridge (a_bridge a0) bs (conference a0) a0)) as H1.
    { pose proof (heap_ok_stop_bridge a0 Ha0) as H. by rewrite E1 in H. }
    destruct (reset_bridge_eq (set_bridge (a_bridge a0) bs (conference a0) a0)) as (bs' & c & E2).
    destruct (reset_bridge_released _ H1) as [H2 (_ & Hb2 & _)]. rewrite E2 in H2, Hb2.
    assert (stopSipBridge env a0 = reset_bridge (set_bridge (a_bridge a0) bs (conference a0) a0)) as E3.
    { unfold stopSipBridge. rewrite (bind_ok _ _ _ _ _ E1). unfold gets, mbind, comp_bind.
      change (sipCall (set_bridge _ _ _ _)) with (sipCall a). by rewrite Hout. }
    unfold end_call. rewrite E2 in E3. rewrite (bind_ok _ _ _ _ _ E3).
    apply (bind_reach I); [|intros _; by intros x].
    eapply stop_incoming_dangling; [exact Hb2|done|exact Hin|exact Hleg| |exact Hwin].
    cbn. apply eq_None_not_Some. intros H%(ho_distinct a Ha). congruence.
  - destruct (stopIncomingSipCall_spec env Henv true a Ha Hout)
      as (a' & l & E & _ & _ & Ht & _ & Hu & _).
    { intros _ i leg' Hi Hl'. rewrite Hin in Hi. injection Hi as <-. rewrite Hleg in Hl'.
      injection Hl' as <-. pose proof (ho_bridge a Ha) as H. rewrite Hb in H.
      destruct H as (_ & br & -> & _). by rewrite lookup_singleton_eq. }
    exists a', l. split; [done|]. split; [done|]. intros i Hi. rewrite Forall_forall in Hu.
    apply (Hu _ Hi). right. eauto.
Qed.

(** *** SIP calls for Signal *)

Definition busy (a : AccountState) : Prop := is_Some (incomingSipCall a) \/ is_Some (sipCall a).

Lemma drop_plus_spec s : starts_with_plus (drop_plus s) = false.
Proof.
  induction s as [|c s IH]; cbn; [done|]. case_bool_decide as Hc; [done|]. cbn.
  by case_bool_decide.
Qed.

Lemma catch_pj_emit e (o : outcome unit) a :
  pj_outcome o -> catch_pj (emit e ;; of_outcome o) (mret tt) a = (Ok tt, set_trace (trace a ++ [e]) a).
Proof. intros Ho. by destruct o as [[]|[| |]]. Qed.

(** The account once the leg exists and rings. *)
Definition ringing (a : AccountState) (bs : gmap nat bridge) (c : conf) : AccountState :=
  set_trace (trace a ++ [Answer (S (next a)) SC_RINGING])
    (set_next (S (S (next a)))
      (set_incoming (Some (S (next a)))
        (<[S (next a) := mkIncoming (next a) false false]> (incoming_calls a))
        (set_next (S (next a)) (set_bridge (Some (next a)) bs c a)))).

Lemma make_bridge_ok env u a : ports_result env (next a) = Ok u -> make_bridge env a = install_bridge a.
Proof. intros H. unfold make_bridge, get, of_outcome, mbind, comp_bind. by rewrite H. Qed.
Lemma make_bridge_fails env e a : ports_result env (next a) = Throw e -> make_bridge env a = (Throw e, a).
Proof. intros H. unfold make_bridge, get, of_outcome, mbind, comp_bind. by rewrite H. Qed.

Lemma ringing_eq env u a :
  ports_result env (next a) = Ok u -> (forall id code, pj_outcome (answer_result env id code)) -> heap_ok a ->
  exists bs c, heap_ok (ringing a bs c) /\ is_Some (bs !! next a) /\
    forall (k : Comp AccountState unit),
      (b ← make_bridge env; id ← new_IncomingSipCall b;
       catch_pj (emit (Answer id SC_RINGING) ;; of_outcome (answer_result env id SC_RINGING)) (mret tt) ;; k) a
      = k (ringing a bs c).
Proof.
  intros Hports Hpj Ha. pose proof (heap_ok_install_bridge a Ha) as H1. unfold install_bridge in H1.
  destruct (free_bridge _ _ _) as [bs c] eqn:Hf. cbn [fst snd] in H1. exists bs, c.
  pose proof (heap_ok_new_in (next a) _ H1) as H2.
  pose proof (heap_ok_emit (Answer (S (next a)) SC_RINGING) _ H2) as H3.
  split; [exact H3|]. split.
  { pose proof (ho_bridge _ H1) as Hb. cbn in Hb. destruct Hb as (_ & br & -> & _).
    by rewrite lookup_singleton_eq. }
  intros k. unfold mbind at 1, comp_bind at 1. rewrite (make_bridge_ok _ _ _ Hports). unfold install_bridge. rewrite Hf.
  unfold mbind at 1, comp_bind at 1. unfold new_IncomingSipCall. cbn [next set_next].
  unfold mbind at 1, comp_bind at 1. rewrite catch_pj_emit by done. done.
Qed.

(** What comes of a SIP call that is let in, once its bridge is there. *)
Lemma incoming_call_served (env : environment) (config : AccountConfig) (fault : nat -> bool)
    (dev ttl now now' : Z) (svc : directory) (user : string) (a : AccountState)
    (Henv : env_ok one_stream env) (Ha : heap_ok a)
    (Hpj : forall id code, pj_outcome (answer_result env id code))
    (Hstd : std_outcome (resolveOutgoingTarget fault (name config) svc now now'
       (String "+" (drop_plus user)) ttl (stores (a_sender a))).1) u : ~ busy a -> ports_result env (next a) = Ok u ->
  exists a', (b ← make_bridge env; id ← new_IncomingSipCall b;
     catch_pj (emit (Answer id SC_RINGING) ;; of_outcome (answer_result env id SC_RINGING)) (mret tt) ;;
     resolvedTarget ← catch_std (lift (resolveOutgoingTarget fault (name config) svc now now' (String "+" (drop_plus user)) ttl))
                        (fun _ => mret EmptyString);
     if str_empty resolvedTarget then stopIncomingSipCall env else
     modify (set_isCallee false) ;;
     emit (StartOutgoing resolvedTarget (u32 dev)) ;;
     when (bool_decide (call_start_outgoing env resolvedTarget (u32 dev) = 0)) (stopIncomingSipCall env)) a = (Ok tt, a') /\
     match (resolveOutgoingTarget fault (name config) svc now now' (String "+" (drop_plus user)) ttl
              (stores (a_sender a))).1 with
     | Ok (String _ _ as r) =>
       isCallee a' = false /\
       exists id b l, trace a' = trace a ++ Answer id SC_RINGING :: StartOutgoing r (u32 dev) :: l /\
         if bool_decide (call_start_outgoing env r (u32 dev) = 0) then released a'
         else l = [] /\ incomingSipCall a' = Some id /\ a_bridge a' = Some b /\
              incoming_calls a' !! id = Some (mkIncoming b false false) /\ is_Some (bridges a' !! b)
     | _ => released a'
     end.
Proof.
  intros Hidle Hports. assert (sipCall a = None) as Hs by (apply eq_None_not_Some; intros H; apply Hidle; by right).
  set (r := resolveOutgoingTarget _ _ _ _ _ _ _) in *.
  change (stores (a_sender a)) with (prj a : conn).
  destruct (ringing_eq env _ a Hports Hpj Ha) as (bs & c & H3 & Hbs & Hk). rewrite Hk. clear Hk.
  set (a3 := ringing a bs c) in *. change (stores (a_sender a)) with (prj a : conn) in Hstd. unfold catch_std, lift.
  unfold mbind at 1, comp_bind at 1. destruct (r (prj a)) as [o cn] eqn:Er. cbn [fst] in *.
  assert (r (prj a3) = (o, cn)) as -> by exact Er.
  set (a4 := put cn a3). assert (heap_ok a4) as H4 by (by apply (inv_set_sender (I := heap_ok))).
  assert (sipCall a4 = None) as Hs4 by done.
  destruct (stopIncomingSipCall_spec env Henv false a4 H4 Hs4) as (a5 & l5 & E5 & Hr5 & _); [done|].
  destruct o as [[|ch' t]|[w| |]]; [| | |done|done].
  - exists a5. by split.
  - cbn [str_empty]. unfold modify, emit. unfold mbind at 1, comp_bind at 1.
    unfold mbind at 1, comp_bind at 1. unfold modify.
    set (a6 := set_trace _ _).
    assert (heap_ok a6) as H6 by (apply (heap_ok_emit _ (set_isCallee false a4)),
      (inv_set_isCallee (I := heap_ok) false a4), H4).
    destruct (stopIncomingSipCall_spec env Henv false a6 H6 Hs4) as (a7 & l7 & E7 & Hr7 & Hc7 & Ht7 & _);
      [done|].
    destruct (bool_decide (call_start_outgoing _ _ _ = 0)); unfold when.
    + exists a7. split; [exact E7|]. split; [by rewrite Hc7|].
      exists (S (next a)), (next a), l7.
      split; [rewrite Ht7; cbn; by rewrite <- !app_assoc|done].
    + exists a6. split; [done|]. split; [done|].
      exists (S (next a)), (next a), [].
      split; [cbn; by rewrite <- !app_assoc|]. cbn. rewrite lookup_insert_eq. by split_and!.
  - exists a5. by split.
Qed.

(** C8: the answer to every SIP call: 486 while a leg of either direction
    exists, 404 without a user in the request URI; otherwise, when PJSIP has no
    slot for the bridge's ports, its exception leaves the callback and nothing
    has changed (the caller is not answered); else it rings and the
    number, with its plus signs replaced by exactly one, is resolved.  Then
    either everything made for it is released again (nothing resolved, or
    RingRTC refuses), or the leg stays with a live bridge and the outgoing
    call to exactly the resolved target has been started. *)
Theorem incoming_call_outcomes (env : environment) (config : AccountConfig) (fault : nat -> bool)
    (dev ttl now now' : Z) (svc : directory) (user : string) (a : AccountState)
    (Henv : env_ok one_stream env) (Ha : heap_ok a)
    (Hpj : forall id code, pj_outcome (answer_result env id code))
    (Hstd : std_outcome (resolveOutgoingTarget fault (name config) svc now now'
       (String "+" (drop_plus user)) ttl (stores (a_sender a))).1) :
  starts_with_plus (drop_plus user) = false /\
  exists o a', onIncomingCall env config fault dev ttl now now' svc user a = (o, a') /\
    (busy a -> o = Ok tt /\ a' = set_trace (trace a ++ [Refuse SC_BUSY_HERE]) a) /\
    (~ busy a -> user = EmptyString -> o = Ok tt /\ a' = set_trace (trace a ++ [Refuse SC_NOT_FOUND]) a) /\
    (~ busy a -> user <> EmptyString ->
     match ports_result env (next a) with
     | Throw e => o = Throw e /\ a' = a
     | Ok _ => o = Ok tt /\
     match (resolveOutgoingTarget fault (name config) svc now now' (String "+" (drop_plus user)) ttl
              (stores (a_sender a))).1 with
     | Ok (String _ _ as r) =>
       isCallee a' = false /\
       exists id b l, trace a' = trace a ++ Answer id SC_RINGING :: StartOutgoing r (u32 dev) :: l /\
         if bool_decide (call_start_outgoing env r (u32 dev) = 0) then released a'
         else l = [] /\ incomingSipCall a' = Some id /\ a_bridge a' = Some b /\
              incoming_calls a' !! id = Some (mkIncoming b false false) /\ is_Some (bridges a' !! b)
     | _ => released a'
     end
     end).
Proof.
  split; [apply drop_plus_spec|]. unfold onIncomingCall, get. unfold mbind at 1, comp_bind at 1.
  destruct (bool_decide (is_Some (incomingSipCall a)) || bool_decide (is_Some (sipCall a))) eqn:Hbusy.
  { assert (busy a) as Hb by (apply orb_true_iff in Hbusy as [H|H]; bdec; [by left|by right]).
    eexists _, _. split; [reflexivity|]. by split_and!. }
  apply orb_false_iff in Hbusy as [Hi%bool_decide_eq_false_1 Hs%bool_decide_eq_false_1].
  assert (~ busy a) as Hb by (by intros [?|?]).
  destruct user as [|ch user]; [eexists _, _; split; [reflexivity|]; by split_and!|].
  change (normalise_user (String ch user)) with (String "+" (drop_plus (String ch user))). cbn [str_empty].
  destruct (ports_result env (next a)) as [u|e] eqn:Hports.
  - destruct (incoming_call_served env config fault dev ttl now now' svc (String ch user) a Henv Ha Hpj Hstd u Hb Hports) as (a' & E & H).
    eexists _, a'. split; [exact E|]. by split_and!.
  - exists (Throw e), a. split; [|by split_and!]. unfold mbind at 1, comp_bind at 1. by rewrite (make_bridge_fails _ _ _ Hports).
Qed.

Lemma safeCallback_state f a : (safeCallback f a).2 = (f a).2.
Proof. unfold safeCallback, catch_all, catch_std. by destruct (f a) as [[[]|[w| |]] a']. Qed.

(** Dialling, when the database can be read. *)
Lemma startSipDial_dials env config fault a u :
  is_registered a = true -> ports_result env (next a) = Ok u ->
  is_ok (loadSyncedContactByAci fault (name config) (remotePeerId a) (stores (a_sender a))).1 = true ->
  exists id headers, MakeCall id (dest_uri config) headers ∈ trace (startSipDial env config fault a).2.
Proof.
  intros Hr Hports Hdb. unfold startSipDial, get. unfold mbind at 1, comp_bind at 1. rewrite Hr. cbn [negb].
  unfold mbind at 1, comp_bind at 1. rewrite (make_bridge_ok _ _ _ Hports). unfold install_bridge. destruct (free_bridge _ _ _) as [bs c].
  unfold mbind at 1, comp_bind at 1. unfold new_BridgeCall.
  set (a2 := set_next _ (set_sipCall _ _ _)).
  set (hs := if str_empty _ then _ else _).
  assert (exists headers s, hs a2 = (Ok headers, set_sender s a2)) as (headers & s & Eh).
  { unfold hs. destruct (str_empty _); [by exists [], (a_sender a)|].
    unfold mbind, comp_bind, lift. change (prj a2 : conn) with (stores (a_sender a)).
    destruct (loadSyncedContactByAci _ _ _ _) as [[x|e] cn]; [|done]. by eexists _, _. }
  eexists _, headers. rewrite (bind_ok _ _ _ _ _ Eh).
  destruct (makeCall_result env (dest_uri config) headers) as [[]|[w| |]];
    unfold catch_pj, emit, modify, of_outcome, mbind, comp_bind; cbn;
    apply elem_of_app; right; by left.
Qed.

(** A SIP call that arrives while an incoming Signal call has been
    announced but does not ring yet takes that call's place: [isCallee] is
    cleared as soon as its number resolves, whether or not RingRTC then starts
    the outgoing call, and when the announced call rings nothing is dialled;
    without the SIP call it would have been. *)
Lemma invite_cancels_announced_call (env : environment) (config : AccountConfig)
    (fault : nat -> bool) (dev ttl now now' : Z) (svc : directory) (user : string)
    (peer : string) (callId : Z) (ch : ascii) (target : string) (a : AccountState)
    (Henv : env_ok one_stream env) (Ha : heap_ok a)
    (Hpj : forall id code, pj_outcome (answer_result env id code))
    (Hports : ports_result env (next a) = Ok tt)
    (Hidle : ~ busy a) (Hcallee : isCallee a = true) (Hcan : canBridgeToSip config a = true)
    (Huser : user <> EmptyString)
    (Hres : (resolveOutgoingTarget fault (name config) svc now now' (String "+" (drop_plus user)) ttl
               (stores (a_sender a))).1 = Ok (String ch target))
    (Hdb : is_ok (loadSyncedContactByAci fault (name config) peer (stores (a_sender a))).1 = true) :
  let ring := onCallState env config fault peer callId CALL_STATE_RINGING in
  let a' := (onIncomingCall env config fault dev ttl now now' svc user a).2 in
  isCallee a' = false /\ trace (ring a').2 = trace a' /\
  exists id headers, MakeCall id (dest_uri config) headers ∈ trace (ring a).2.
Proof.
  intros ring a'.
  assert (forall x, isCallee x = false -> trace (ring x).2 = trace x) as Hring.
  { intros x Hx. unfold ring, onCallState. unfold modify. unfold mbind at 1, comp_bind at 1.
    rewrite safeCallback_state. unfold get. unfold mbind at 1, comp_bind at 1.
    change (isCallee (set_peer callId peer x)) with (isCallee x). by rewrite Hx. }
  assert (isCallee a' = false) as Hc.
  { unfold a', onIncomingCall, get. unfold mbind at 1, comp_bind at 1.
    rewrite !bool_decide_eq_false_2 by (intros ?; apply Hidle; by (left + right)). cbn [orb].
    destruct user as [|ch0 user]; [done|].
    change (normalise_user (String ch0 user)) with (String "+" (drop_plus (String ch0 user))).
    cbn [str_empty]. set (r := resolveOutgoingTarget _ _ _ _ _ _ _) in *.
    destruct (ringing_eq env tt a Hports Hpj Ha) as (bs & c & H3 & _ & ->).
    set (a3 := ringing a bs c) in *. unfold catch_std, lift. unfold mbind at 1, comp_bind at 1.
    destruct (r (stores (a_sender a))) as [o cn] eqn:Er. cbn [fst] in Hres. subst o.
    assert (r (prj a3) = (Ok (String ch target), cn)) as -> by exact Er.
    cbn [str_empty]. unfold modify, emit. unfold mbind at 1, comp_bind at 1.
    unfold mbind at 1, comp_bind at 1. unfold modify. set (a6 := set_trace _ _).
    unfold when. destruct (bool_decide _); [|done].
    assert (heap_ok a6) as H6 by (apply (heap_ok_emit _ (set_isCallee false (put cn a3))),
      (inv_set_isCallee (I := heap_ok) false (put cn a3)), (inv_set_sender (I := heap_ok)), H3).
    destruct (stopIncomingSipCall_spec env Henv false a6 H6) as (a7 & l7 & -> & _ & Hc7 & _);
      [|done|cbn [snd]; by rewrite Hc7].
    apply eq_None_not_Some. intros ?. apply Hidle. by right. }
  split; [done|]. split; [by apply Hring|].
  unfold ring, onCallState, modify. unfold mbind at 1, comp_bind at 1. rewrite safeCallback_state.
  unfold get. unfold mbind at 1, comp_bind at 1.
  change (isCallee (set_peer callId peer a)) with (isCallee a). rewrite Hcallee. cbn [andb].
  change (canBridgeToSip config (set_peer callId peer a)) with (canBridgeToSip config a).
  rewrite Hcan. apply (startSipDial_dials _ _ _ _ tt); [|exact Hports|exact Hdb].
  unfold canBridgeToSip in Hcan. by destruct (str_empty _).
Qed.

(** What a send callback does: the message goes out through the sender; only
    when that succeeds is RingRTC told, so that it sends the next one. *)
Definition callback_sends (m : Comp AccountState unit) (send : Comp sender unit) (callId : Z) : Prop :=
  forall a, m a = (Ok tt,
    let '(r, s) := send (a_sender a) in
    set_trace (trace a ++ if is_ok r then [MessageSent callId] else []) (set_sender s a)).

Lemma send_callback_sends send callId : callback_sends (send_callback send callId) send callId.
Proof.
  intros a. unfold send_callback, safeCallback, catch_all, catch_std, emit, modify, lift, mbind, comp_bind.
  change (prj a : sender) with (a_sender a).
  destruct (send (a_sender a)) as [[[]|[w| |]] s]; cbn; try rewrite app_nil_r; by destruct a.
Qed.

(** None of RingRTC's four send callbacks ever lets an exception out, of
    any kind; each reports the message as sent exactly when
    [CallMessageSender] delivered it, and changes nothing else of the
    account. *)
Lemma send_callbacks_contained (config : AccountConfig) (fault : nat -> bool) (lib : libraries)
    (now : Z) (remote : string) (callId mediaType hangupType hangupDev : Z) (receiver : option Z)
    (opaque : Bytes) :
  callback_sends (onSendOffer config fault lib now remote callId mediaType opaque)
    (sendOffer lib fault (name config) now remote callId mediaType opaque) callId /\
  callback_sends (onSendAnswer config fault lib now remote callId opaque)
    (sendAnswer lib fault (name config) now remote callId opaque) callId /\
  callback_sends (onSendIce config fault lib now remote callId receiver opaque)
    (sendIce lib fault (name config) now remote callId receiver opaque) callId /\
  callback_sends (onSendHangup config fault lib now remote callId hangupType hangupDev)
    (sendHangup lib fault (name config) now remote callId hangupType hangupDev) callId.
Proof. split_and!; apply send_callback_sends. Qed.

(** ** Examples *)

Definition sample_config : AccountConfig :=
  mkAccountConfig "a" 1 "+1" "" "pbx" "100" "secret" "200" "" "disabled" "udp" "" false "" "" false.

(** Hanging up fails; meanwhile a media state and the disconnect arrive. *)
Definition sample_env : environment :=
  mkEnv (fun _ => Ok tt) (fun _ _ => Ok tt) (fun _ _ => Ok tt) (fun _ => Throw PjError)
    (fun _ => [MediaState [mkMedia true true]; CallState INV_DISCONNECTED]) (fun _ _ => [])
    (fun _ _ => 7).

Definition sample_account : AccountState :=
  fresh_account (sample_sender []) (Some (mkBridgeAccount true 0)).

(** An incoming Signal call up to the answer of the PBX. *)
Definition bridged_call : list event :=
  [RingRtcState "u" 5 CALL_STATE_INCOMING_AUDIO; RingRtcState "u" 5 CALL_STATE_RINGING;
   Leg 1 (CallState INV_EARLY); Leg 1 (MediaState [mkMedia true true]);
   Leg 1 (CallState INV_CONFIRMED); Leg 1 (CallState INV_CONFIRMED)].

Example bridged_call_trace :
  trace (run sample_env sample_config no_fault bridged_call sample_account) =
  [Proceed 5; MakeCall 1 "sip:200@pbx" [("X-Signal-UUID"%string, "u"%string)];
   LegState 1 INV_EARLY; LegState 1 INV_CONFIRMED; Accept 1 5; LegState 1 INV_CONFIRMED].
Proof. vm_compute. reflexivity. Qed.

Lemma sample_env_ok : env_ok one_stream sample_env.
Proof. intros id. split; [|intros i]; repeat constructor. Qed.

Lemma call_end_releases_everything_witness :
  sipCall (run sample_env sample_config no_fault bridged_call sample_account) = Some 1%nat /\
  let a := run sample_env sample_config no_fault bridged_call sample_account in
  exists a' l, onCallState sample_env sample_config no_fault "u" 5 5 a = (Ok tt, a') /\
    sipCall a' = None /\ incomingSipCall a' = None /\ a_bridge a' = None /\
    bridges a' = ∅ /\ live (conference a') = ∅ /\ isCallee a' = false /\
    trace a' = trace a ++ l /\
    (forall id, sipCall a = Some id \/ incomingSipCall a = Some id -> HangupLeg id ∈ l) /\
    SignalHangup ∉ l /\ (sleeps l <= 100)%nat.
Proof.
  split; [vm_compute; reflexivity|].
  apply (call_end_releases_everything sample_env sample_config no_fault (sample_sender [])
    (Some (mkBridgeAccount true 0)) bridged_call "u" 5 5).
  - intros id. split; [|intros i]; repeat constructor.
  - repeat constructor.
  - by left.
Defined.

(** A directory that knows every number. *)
Definition sample_directory : directory :=
  mkDirectory (Ok (200, [])) (fun _ => Ok ("u"%string, "p"%string))
    (fun _ _ _ => Ok [mkCdsi "+7" "aci7" "pni7"]).

(** A SIP call that placed a Signal call. *)
Definition placed_call : AccountState :=
  run sample_env sample_config no_fault [Invite 2 3600 100 101 sample_directory "++7"] sample_account.

Example placed_call_trace :
  trace placed_call = [Answer 1 180; StartOutgoing "aci7" 2] /\ incomingSipCall placed_call = Some 1%nat.
Proof. vm_compute. by split. Qed.

Lemma placed_call_ok : heap_ok placed_call.
Proof.
  apply (inv_run one_stream heap_ok sample_env sample_config no_fault sample_env_ok);
    [by repeat constructor|apply heap_ok_fresh].
Qed.

Lemma end_frees_bridge_under_leg_witness :
  UseOfFreedBridge 0 ∈ trace (onCallState sample_env sample_config no_fault "aci7" 7 5 placed_call).2 /\
  exists a' l, stopIncomingSipCall sample_env placed_call = (Ok tt, a') /\
    trace a' = trace placed_call ++ l /\ forall b, UseOfFreedBridge b ∉ l.
Proof.
  apply (end_frees_bridge_under_leg sample_env sample_config no_fault "aci7" 7 5 placed_call 1
    (mkIncoming 0 false false) [mkMedia true true] [CallState INV_DISCONNECTED]).
  - apply sample_env_ok.
  - apply placed_call_ok.
  - by left.
  - vm_compute. reflexivity.
  - vm_compute. reflexivity.
  - vm_compute. reflexivity.
  - vm_compute. reflexivity.
  - reflexivity.
Defined.

Lemma incoming_call_outcomes_witness :
  starts_with_plus (drop_plus "++7") = false /\
  exists o a', onIncomingCall sample_env sample_config no_fault 2 3600 100 101 sample_directory "++7"
    sample_account = (o, a') /\
    (busy sample_account -> o = Ok tt /\ a' = set_trace [Refuse SC_BUSY_HERE] sample_account) /\
    (~ busy sample_account -> "++7"%string = EmptyString ->
       o = Ok tt /\ a' = set_trace [Refuse SC_NOT_FOUND] sample_account) /\
    (~ busy sample_account -> "++7"%string <> EmptyString -> o = Ok tt /\
     isCallee a' = false /\
     exists id b l, trace a' = Answer id 180 :: StartOutgoing "aci7" 2 :: l /\
       l = [] /\ incomingSipCall a' = Some id /\ a_bridge a' = Some b /\
       incoming_calls a' !! id = Some (mkIncoming b false false) /\ is_Some (bridges a' !! b)).
Proof.
  apply (incoming_call_outcomes sample_env sample_config no_fault 2 3600 100 101 sample_directory "++7"
    sample_account).
  - apply sample_env_ok.
  - apply heap_ok_fresh.
  - by intros.
  - vm_compute. done.
Defined.

(** A Signal call has been announced, and the daemon said it proceeds. *)
Definition announced_call : AccountState :=
  run sample_env sample_config no_fault [RingRtcState "u" 5 CALL_STATE_INCOMING_AUDIO] sample_account.

Lemma invite_cancels_announced_call_witness :
  let ring := onCallState sample_env sample_config no_fault "u" 5 CALL_STATE_RINGING in
  let a' := (onIncomingCall sample_env sample_config no_fault 2 3600 100 101 sample_directory "7"
               announced_call).2 in
  isCallee a' = false /\ trace (ring a').2 = trace a' /\
  exists id headers, MakeCall id (dest_uri sample_config) headers ∈ trace (ring announced_call).2.
Proof.
  apply (invite_cancels_announced_call sample_env sample_config no_fault 2 3600 100 101
    sample_directory "7" "u" 5 "a" "ci7" announced_call).
  - apply sample_env_ok.
  - apply (inv_run one_stream heap_ok sample_env sample_config no_fault sample_env_ok);
      [by repeat constructor|apply heap_ok_fresh].
  - by intros.
  - reflexivity.
  - intros [H|H]; vm_compute in H; by destruct H.
  - vm_compute. reflexivity.
  - vm_compute. reflexivity.
  - done.
  - vm_compute. reflexivity.
  - vm_compute. reflexivity.
Defined.
