(* ===== verification/Handoff.v ===== *)
(** The SIP legs of one account between the threads that use them
    (src/daemon/main.cpp, AccountState::callHandoffMutex and
    registerPjsipThreadIfNeeded): RingRTC's callback threads, the main thread
    that tears an account down, PJSIP's workers that deliver a leg's callbacks
    and incoming calls, and libsignal's threads that turn a text message into
    DTMF.

    [Calls] runs each handler to its end; here a handler is a list of atomic
    instructions, the instructions of all threads interleave freely, and what
    goes wrong (an access through a null pointer or a pointer to a deleted leg,
    a PJSIP call from a thread PJLIB does not know) is recorded.  Bridges are
    left to [Calls].  A fault is undefined behaviour in the real process; the
    model notes it and goes on as if the access had had no effect. *)

From S2P Require Import Prelude.

Open Scope Z_scope.

(** ** Data *)

(** Which of [sipCall] and [incomingSipCall]; the class of the leg. *)
Inductive side := Out | In.
#[export] Instance side_eq_dec : EqDecision side.
Proof. solve_decision. Defined.

Record leg := mkLeg { leg_side : side; weHungUp : bool; disconnected : bool; acceptSent : bool }.

Definition tid := nat.

(** What comes of the number an incoming SIP call is for. *)
Inductive resolution := Unresolved | StartFailed | Started.

(** One atomic step of a handler: a read or write of the account, a call into
    PJSIP or RingRTC, a lock or unlock of callHandoffMutex. *)
Inductive instr :=
| Register                            (* registerPjsipThreadIfNeeded() *)
| Lock | Unlock
| SetPeer (peer : string)
| SetCallee (b : bool)
| Test (d : side)                     (* if (acct.sipCall) *)
| Load (d : side)                     (* auto* call = acct.sipCall *)
| Mark (l : nat)                      (* call->weHungUp_ = true *)
| Hangup (l : nat)
| Poll (l : nat) (n : nat)            (* n rounds left *)
| Delete (d : side) (l : nat)
| Null (d : side)
| NewLeg (d : side)                   (* call = new ...; acct.sipCall = call: nobody sees the leg in between *)
| MakeCall (l : nat)
| Answer (l : nat)
| CalleeTest                          (* CONNECTED: !acct.isCallee.load() && ... *)
| AnswerTest                          (* ... && acct.incomingSipCall *)
| LoadAnswer                          (* auto* sipCall = acct.incomingSipCall *)
| DialTest (can_bridge : bool)        (* RINGING: isCallee, canBridgeToSip() *)
| IncomingTest (r : resolution)       (* acct.incomingSipCall || ... *)
| SipTest (r : resolution)            (* ... || acct.sipCall *)
| Resolve (r : resolution)
| CheckDtmf (sender : string)
| DialDtmf (l : nat)
| GetInfo (l : nat)
| Confirmed (l : nat)
| HungUpCheck (l : nat)
| SetDisconnected (l : nat).

(** A use of a pointer to a deleted leg, of a null pointer, of PJSIP on a thread
    PJLIB does not know. *)
Inductive fault := Dangling (t : tid) (i : instr) | NullPointer (t : tid) (i : instr) | Unregistered (t : tid) (i : instr).

Inductive said := SignalAccept (l : nat) | SignalHangup (l : nat) | Dtmf (l : nat) (sender : string).

Record memory := mkMem {
  legs : gmap nat leg; next_leg : nat;
  sipCall : option nat; incomingSipCall : option nat;
  remotePeerId : string; isCallee : bool;
  callHandoffMutex : option tid;
  registered : gset tid;              (* threads PJLIB knows *)
  asked : gset tid;                   (* the thread_local flag *)
  faults : list fault; log : list said;
}.

Definition slot (d : side) (m : memory) : option nat := match d with Out => sipCall m | In => incomingSipCall m end.
Definition set_slot (d : side) (v : option nat) (m : memory) : memory :=
  match d with
  | Out => mkMem (legs m) (next_leg m) v (incomingSipCall m) (remotePeerId m) (isCallee m) (callHandoffMutex m) (registered m) (asked m) (faults m) (log m)
  | In => mkMem (legs m) (next_leg m) (sipCall m) v (remotePeerId m) (isCallee m) (callHandoffMutex m) (registered m) (asked m) (faults m) (log m)
  end.
Definition set_legs (ls : gmap nat leg) (n : nat) (m : memory) : memory :=
  mkMem ls n (sipCall m) (incomingSipCall m) (remotePeerId m) (isCallee m) (callHandoffMutex m) (registered m) (asked m) (faults m) (log m).
Definition set_call (peer : string) (callee : bool) (m : memory) : memory :=
  mkMem (legs m) (next_leg m) (sipCall m) (incomingSipCall m) peer callee (callHandoffMutex m) (registered m) (asked m) (faults m) (log m).
Definition set_mutex (o : option tid) (m : memory) : memory :=
  mkMem (legs m) (next_leg m) (sipCall m) (incomingSipCall m) (remotePeerId m) (isCallee m) o (registered m) (asked m) (faults m) (log m).
Definition set_registered (r a : gset tid) (m : memory) : memory :=
  mkMem (legs m) (next_leg m) (sipCall m) (incomingSipCall m) (remotePeerId m) (isCallee m) (callHandoffMutex m) r a (faults m) (log m).
Definition add_fault (f : fault) (m : memory) : memory :=
  mkMem (legs m) (next_leg m) (sipCall m) (incomingSipCall m) (remotePeerId m) (isCallee m) (callHandoffMutex m) (registered m) (asked m)
    (faults m ++ [f]) (log m).
Definition say (x : said) (m : memory) : memory :=
  mkMem (legs m) (next_leg m) (sipCall m) (incomingSipCall m) (remotePeerId m) (isCallee m) (callHandoffMutex m) (registered m) (asked m)
    (faults m) (log m ++ [x]).
Definition update_leg (l : nat) (f : leg -> leg) (m : memory) : memory := set_legs (alter f l (legs m)) (next_leg m) m.

(** ** Instructions *)

Section Exec.
(** Threads whose [libRegisterThread] fails. *)
Context (register_fails : tid -> bool).

(** A call into PJSIP. *)
Definition pjsip (t : tid) (i : instr) (m : memory) : memory :=
  if bool_decide (t ∈ registered m) then m else add_fault (Unregistered t i) m.

(** An access through a pointer to the leg [l]. *)
Definition touch {A} (t : tid) (i : instr) (l : nat) (k : leg -> memory -> A * memory) (otherwise : A) (m : memory) : A * memory :=
  match legs m !! l with Some x => k x m | None => (otherwise, add_fault (Dangling t i) m) end.

(** The flag is set also when the registration fails. *)
Definition registerPjsipThreadIfNeeded (t : tid) (m : memory) : memory :=
  if bool_decide (t ∈ asked m) then m
  else set_registered (if register_fails t then registered m else registered m ∪ {[ t ]}) (asked m ∪ {[ t ]}) m.

Definition stop_leg (d : side) : list instr := [Register; Test d].

(** What the instruction does, and what the handler does next before the rest
    of its instructions; [None]: it waits. *)
Definition exec (t : tid) (i : instr) (m : memory) : option (list instr * memory) :=
  match i with
  | Register => Some ([], registerPjsipThreadIfNeeded t m)
  | Lock => match callHandoffMutex m with None => Some ([], set_mutex (Some t) m) | Some _ => None end
  | Unlock => Some ([], set_mutex None m)
  | SetPeer peer => Some ([], set_call peer (isCallee m) m)
  | SetCallee b => Some ([], set_call (remotePeerId m) b m)
  | Test d =>
    Some (match slot d m with Some _ => [Load d] | None => [] end, m)
  | Load d =>
    Some (match slot d m with
          | Some l => ([Mark l; Hangup l; Poll l 50; Lock; Delete d l; Unlock], m)
          | None => ([], add_fault (NullPointer t i) m)
          end)
  | Mark l => Some (touch t i l (fun _ m => ([], update_leg l (fun x => mkLeg (leg_side x) true (disconnected x) (acceptSent x)) m)) [] m)
  | Hangup l => Some (touch t i l (fun _ m => ([], pjsip t i m)) [] m)
  | Poll l n =>
    match n with
    | O => Some ([], m)
    | S n => Some (touch t i l (fun x m => (if disconnected x then [] else [Poll l n], m)) [] m)
    end
  | Delete d l => Some (touch t i l (fun _ m => ([Null d], set_legs (delete l (legs m)) (next_leg m) (pjsip t i m))) [Null d] m)
  | Null d => Some ([], set_slot d None m)
  | NewLeg d =>
    let l := next_leg m in
    Some ([match d with Out => MakeCall l | In => Answer l end],
          set_slot d (Some l) (set_legs (<[l := mkLeg d false false false]> (legs m)) (S l) (pjsip t i m)))
  | MakeCall l | Answer l | GetInfo l => Some (touch t i l (fun _ m => ([], pjsip t i m)) [] m)
  | CalleeTest => Some (if isCallee m then [] else [AnswerTest], m)
  | AnswerTest => Some (match incomingSipCall m with Some _ => [Register; LoadAnswer] | None => [] end, m)
  | LoadAnswer =>
    Some (match incomingSipCall m with Some l => ([Answer l], m) | None => ([], add_fault (NullPointer t i) m) end)
  | DialTest can => Some (if isCallee m && can then [Register; NewLeg Out] else [], m)
  | IncomingTest r =>
    Some (match incomingSipCall m with None => [SipTest r] | Some _ => [] end, m)
  | SipTest r => Some (match sipCall m with None => [NewLeg In; Resolve r] | Some _ => [] end, m)
  | Resolve r =>
    Some (match r with
          | Unresolved => stop_leg In
          | StartFailed => SetCallee false :: stop_leg In
          | Started => [SetCallee false]
          end, m)
  | CheckDtmf sender =>
    Some (if str_eqb sender (remotePeerId m)
          then match sipCall m with
               | Some l => [Register; DialDtmf l]
               | None => match incomingSipCall m with Some l => [Register; DialDtmf l] | None => [] end
               end
          else [], m)
  | DialDtmf l => Some (touch t i l (fun _ m => ([], say (Dtmf l (remotePeerId m)) (pjsip t i m))) [] m)
  | Confirmed l =>
    Some (touch t i l (fun x m =>
      match leg_side x with
      | Out => ([], update_leg l (fun x => mkLeg (leg_side x) (weHungUp x) (disconnected x) true)
                      (if acceptSent x then m else say (SignalAccept l) m))
      | In => ([], m)
      end) [] m)
  | HungUpCheck l =>
    Some (touch t i l (fun x m =>
      match leg_side x with
      | Out => ([], if acceptSent x && negb (weHungUp x) then say (SignalHangup l) m else m)
      | In => ([], update_leg l (fun x => mkLeg (leg_side x) true (disconnected x) (acceptSent x))
                     (if weHungUp x then m else say (SignalHangup l) m))
      end) [] m)
  | SetDisconnected l =>
    Some (touch t i l (fun _ m => ([], update_leg l (fun x => mkLeg (leg_side x) (weHungUp x) true (acceptSent x)) m)) [] m)
  end.

(** ** Handlers *)

Inductive call_state := INCOMING_AUDIO (can_bridge : bool) | RINGING (can_bridge : bool) | CONNECTED | ENDED | OTHER.
Inductive callback := CONFIRMED | DISCONNECTED | MEDIA.

Inductive handler :=
| CallState (peer : string) (st : call_state)       (* RingRTC: onCallState *)
| Teardown                                          (* main: teardownAccount *)
| IncomingCall (r : resolution)                     (* PJSIP: BridgeAccount::onIncomingCall *)
| TextMessage (sender : string)                     (* libsignal: onPush, a text of DTMF digits *)
| LegCallback (l : nat) (c : callback).             (* PJSIP: onCallState, onCallMediaState *)

Definition program (h : handler) : list instr :=
  match h with
  | CallState peer st =>
    [Lock; SetPeer peer; Unlock] ++
    match st with
    | INCOMING_AUDIO can => if can then [SetCallee true] else []
    | RINGING can => [DialTest can]
    | CONNECTED => [CalleeTest]
    | ENDED => stop_leg Out ++ stop_leg In ++ [SetCallee false]
    | OTHER => []
    end
  | Teardown => stop_leg Out ++ stop_leg In
  | IncomingCall r => [IncomingTest r]
  | TextMessage sender => [Lock; CheckDtmf sender; Unlock]
  | LegCallback l c =>
    GetInfo l :: match c with CONFIRMED => [Confirmed l] | DISCONNECTED => [HungUpCheck l; SetDisconnected l] | MEDIA => [] end
  end.

(** ** The account's threads *)

Record system := mkSystem { mem : memory; threads : gmap tid (handler * list instr) }.

Definition pending (t : tid) (s : system) : list instr := match threads s !! t with Some (_, p) => p | None => [] end.

(** A callback of the leg [l] is running. *)
Definition on_leg (l : nat) (th : handler * list instr) : bool :=
  match th with
  | (LegCallback l' _, _ :: _) => bool_decide (l' = l)
  | _ => false
  end.
Definition in_callback (l : nat) (s : system) : bool := existsb (fun x => on_leg l x.2) (map_to_list (threads s)).

(** PJSIP's part: it calls back only on its own threads, on a leg that is still
    there and not yet disconnected, one callback of a leg at a time. *)
Definition may_start (t : tid) (h : handler) (s : system) : bool :=
  match h with
  | LegCallback l _ =>
    bool_decide (t ∈ registered (mem s)) && match legs (mem s) !! l with Some x => negb (disconnected x) | None => false end &&
    negb (in_callback l s)
  | IncomingCall _ | Teardown => bool_decide (t ∈ registered (mem s))
  | _ => true
  end.

Inductive event := Start (t : tid) (h : handler) | Go (t : tid).

Definition apply (e : event) (s : system) : option system :=
  match e with
  | Start t h =>
    match pending t s with
    | [] => if may_start t h s then Some (mkSystem (mem s) (<[t := (h, program h)]> (threads s))) else None
    | _ => None
    end
  | Go t =>
    match threads s !! t with
    | Some (h, i :: p) =>
      match exec t i (mem s) with
      | Some (q, m) => Some (mkSystem m (<[t := (h, q ++ p)]> (threads s)))
      | None => None
      end
    | _ => None
    end
  end.

Definition step (s s' : system) : Prop := exists e, apply e s = Some s'.
Fixpoint run (es : list event) (s : system) : option system :=
  match es with [] => Some s | e :: es => s' ← apply e s; run es s' end.

(** Before the first call: PJLIB knows its own threads and the one that
    initialised it. *)
Definition idle (known : gset tid) : system :=
  mkSystem (mkMem ∅ 0 None None "" false None known ∅ [] []) ∅.
End Exec.

(** ** Lemmas *)

Definition locked_only (i : instr) : bool :=
  match i with SetPeer _ | Delete _ _ | Null _ | CheckDtmf _ | DialDtmf _ => true | _ => false end.
Definition unlocked_only (i : instr) : bool :=
  match i with Test _ | Load _ | Resolve _ | IncomingTest _ | SipTest _ => true | _ => false end.

(** The rest of a handler takes and gives back the mutex properly; [b]: it
    holds it now. *)
Fixpoint balanced (b : bool) (p : list instr) : bool :=
  match p with
  | [] => negb b
  | Lock :: p => negb b && balanced true p
  | Unlock :: p => b && balanced false p
  | i :: p => implb (locked_only i) b && implb (unlocked_only i) (negb b) && balanced b p
  end.

(** It calls PJSIP, or goes on to, only on a known thread or after Register. *)
Definition calls_pjsip (i : instr) : bool :=
  match i with
  | Test _ | Load _ | LoadAnswer | Hangup _ | Delete _ _ | NewLeg _ | MakeCall _ | Answer _ | IncomingTest _ | SipTest _ | DialDtmf _ | GetInfo _ => true
  | _ => false
  end.
Fixpoint ready (b : bool) (p : list instr) : bool :=
  match p with
  | [] => true
  | Register :: p => ready true p
  | i :: p => implb (calls_pjsip i) b && ready b p
  end.

Lemma ready_mono p : forall b, ready b p = true -> ready true p = true.
Proof.
  induction p as [|i p IH]; intros b H; [done|]. destruct i; cbn in *; first [exact H | by eauto | idtac];
    apply andb_true_iff in H as [_ H]; by eauto.
Qed.

(** Only text messages dial. *)
Definition in_text (i : instr) : bool :=
  match i with Lock | Unlock | Register | CheckDtmf _ | DialDtmf _ => true | _ => false end.
Definition is_text (i : instr) : bool := match i with CheckDtmf _ | DialDtmf _ => true | _ => false end.
Definition of_handler (h : handler) (i : instr) : bool :=
  match h with TextMessage _ => in_text i | _ => negb (is_text i) end.

(** A number about to be dialled is dialled next. *)
Definition is_dial (i : instr) : bool := match i with DialDtmf _ => true | _ => false end.
Definition no_dial (p : list instr) : bool := forallb (fun i => negb (is_dial i)) p.
Definition dial_next (p : list instr) : bool :=
  match p with
  | DialDtmf _ :: p | Register :: DialDtmf _ :: p => no_dial p
  | p => no_dial p
  end.

Lemma no_dial_next p : no_dial p = true -> dial_next p = true.
Proof. destruct p as [|[] [|[] p]]; cbn; try done; by rewrite ?andb_true_iff. Qed.
Lemma no_dial_in p l : no_dial p = true -> DialDtmf l ∉ p.
Proof. intros H Hl. unfold no_dial in H. rewrite forallb_forall in H. apply list_elem_of_In in Hl. by specialize (H _ Hl). Qed.
Lemma dial_next_tail i p : dial_next (i :: p) = true -> dial_next p = true /\ (i <> Register -> no_dial p = true).
Proof.
  intros H. assert (no_dial p = true \/ i = Register /\ dial_next p = true) as [Hn|[-> Hn]].
  - destruct i; cbn in H; try by left. destruct p as [|[] p]; cbn in *; try (by left); by right.
  - split; [by apply no_dial_next|done].
  - done.
Qed.

Section lemmas.
Context (register_fails : tid -> bool).

Definition known (t : tid) (m : memory) : bool := bool_decide (t ∈ registered m) || register_fails t.
Definition holds (t : tid) (m : memory) : bool := bool_decide (callHandoffMutex m = Some t).

Definition instr_ok (m : memory) (i : instr) : Prop :=
  match i with
  | Delete d l => (l < next_leg m)%nat /\ forall x, legs m !! l = Some x -> leg_side x = d
  | Mark l | Hangup l | Poll l _ => True
  | DialDtmf l => is_Some (legs m !! l)
  | _ => True
  end.

Record thread_ok (t : tid) (m : memory) (h : handler) (p : list instr) : Prop := {
  th_balanced : balanced (holds t m) p = true;
  th_ready : ready (known t m) p = true;
  th_kind : forallb (of_handler h) p = true;
  th_dial : dial_next p = true;
  th_instrs : Forall (instr_ok m) p;
}.

(** The legs of [m'] are those of [m], or newer. *)
Definition legs_from (m m' : memory) : Prop :=
  (next_leg m <= next_leg m')%nat /\
  forall l x, legs m' !! l = Some x -> (next_leg m <= l < next_leg m')%nat \/ exists y, legs m !! l = Some y /\ leg_side y = leg_side x.

Lemma instr_ok_frame m m' i : legs_from m m' -> (forall l, i = DialDtmf l -> is_Some (legs m !! l) -> is_Some (legs m' !! l)) ->
  instr_ok m i -> instr_ok m' i.
Proof.
  intros [Hn Hl] Hd. destruct i; cbn; try done; [|by eauto].
  intros [H1 H2]. split; [lia|]. intros x Hx. destruct (Hl _ _ Hx) as [?|(y & Hy & <-)]; [lia|by eauto].
Qed.

Lemma thread_ok_frame t m m' h p : holds t m' = holds t m -> registered m ⊆ registered m' -> legs_from m m' ->
  (forall l, DialDtmf l ∈ p -> is_Some (legs m !! l) -> is_Some (legs m' !! l)) -> thread_ok t m h p -> thread_ok t m' h p.
Proof.
  intros Hm Hr Hl Hd [H1 H2 H3 Hn H4]. split; [by rewrite Hm| |done|done|].
  - destruct (known t m) eqn:E.
    + assert (known t m' = true) as ->; [|done]. unfold known in *. apply orb_true_iff in E as [E|E]; apply orb_true_iff; [left|by right].
      apply bool_decide_eq_true in E. apply bool_decide_eq_true. set_solver.
    + destruct (known t m'); [by eapply ready_mono|done].
  - apply Forall_forall. intros i Hi. rewrite Forall_forall in H4. eapply instr_ok_frame; [done| |by apply H4]. intros l ->. by apply Hd.
Qed.

(** *** The invariant *)

(** Not an access to a deleted leg by a text message's thread, and no PJSIP
    call from a thread that could have been registered. *)
Definition harmless (f : fault) : Prop :=
  match f with
  | Dangling _ (DialDtmf _) => False
  | Dangling _ _ | NullPointer _ _ => True
  | Unregistered t _ => register_fails t = true
  end.

(** A thread that has just deleted the leg of [d] and is about to say so. *)
Definition clearing (d : side) (s : system) : Prop :=
  exists t h p, callHandoffMutex (mem s) = Some t /\ threads s !! t = Some (h, Null d :: p).

Record sound (s : system) : Prop := {
  so_threads : forall t h p, threads s !! t = Some (h, p) -> thread_ok t (mem s) h p;
  so_asked : forall t, t ∈ asked (mem s) -> known t (mem s) = true;
  so_fresh : forall l, is_Some (legs (mem s) !! l) -> (l < next_leg (mem s))%nat;
  so_slots : forall d l, slot d (mem s) = Some l ->
    ((l < next_leg (mem s))%nat /\ forall x, legs (mem s) !! l = Some x -> leg_side x = d) /\
    (is_Some (legs (mem s) !! l) \/ clearing d s);
  so_faults : Forall harmless (faults (mem s));
}.

(** A change that concerns neither the legs there are, nor who knows them. *)
Record same_shape (m m' : memory) : Prop := {
  sh_slots : forall d, slot d m' = slot d m;
  sh_mutex : callHandoffMutex m' = callHandoffMutex m;
  sh_registered : registered m' = registered m;
  sh_asked : asked m' = asked m;
  sh_next : next_leg m' = next_leg m;
  sh_legs : forall l, leg_side <$> legs m' !! l = leg_side <$> legs m !! l;
  sh_faults : Forall harmless (faults m) -> Forall harmless (faults m');
}.

#[local] Instance same_shape_preorder : PreOrder same_shape.
Proof using Type.
  split; [by intros m; split|]. intros m1 m2 m3 [] []. split; intros; try congruence; auto.
Qed.

Lemma shape_live m m' l : same_shape m m' -> is_Some (legs m !! l) <-> is_Some (legs m' !! l).
Proof.
  intros H. pose proof (sh_legs m m' H l) as E. rewrite <- !(fmap_is_Some leg_side). by rewrite E.
Qed.
Lemma shape_side m m' l x : same_shape m m' -> legs m' !! l = Some x -> exists y, legs m !! l = Some y /\ leg_side y = leg_side x.
Proof.
  intros H Hx. pose proof (sh_legs m m' H l) as E. rewrite Hx in E. cbn in E. symmetry in E. apply fmap_Some in E as (y & Hy & E). eauto.
Qed.
Lemma shape_from m m' : same_shape m m' -> legs_from m m'.
Proof. intros H. split; [by rewrite (sh_next _ _ H)|]. intros l x Hx. right. by eapply shape_side. Qed.
Lemma shape_known t m m' : same_shape m m' -> known t m' = known t m.
Proof. intros H. unfold known. by rewrite (sh_registered _ _ H). Qed.
Lemma shape_holds t m m' : same_shape m m' -> holds t m' = holds t m.
Proof. intros H. unfold holds. by rewrite (sh_mutex _ _ H). Qed.
Lemma shape_thread t m m' h p : same_shape m m' -> thread_ok t m h p -> thread_ok t m' h p.
Proof.
  intros H. apply thread_ok_frame; [by apply shape_holds|by rewrite (sh_registered _ _ H)|by apply shape_from|].
  intros l _ Hl. by apply (shape_live _ _ _ H).
Qed.

Lemma shape_fault m f : harmless f -> same_shape m (add_fault f m).
Proof. intros Hf. split; try done. cbn. intros H. apply Forall_app. split; [done|]. by apply Forall_singleton. Qed.
Lemma shape_pjsip t i m : known t m = true -> same_shape m (pjsip t i m).
Proof.
  intros Hk. unfold pjsip. case_bool_decide as E; [done|]. apply shape_fault. cbn. unfold known in Hk.
  by rewrite (bool_decide_eq_false_2 _ E) in Hk.
Qed.
Lemma shape_say m x : same_shape m (say x m).
Proof. by split. Qed.
Lemma shape_call m p b : same_shape m (set_call p b m).
Proof. by split. Qed.
Lemma shape_update m l g : (forall x, leg_side (g x) = leg_side x) -> same_shape m (update_leg l g m).
Proof.
  intros Hg. split; try done. intros k. cbn. rewrite lookup_alter. case_decide as E; [subst k|done].
  destruct (legs m !! l) as [x|]; [|done]. cbn. by rewrite Hg.
Qed.
#[local] Hint Resolve shape_fault shape_pjsip shape_say shape_call shape_update : core.

Lemma touch_shape {A} t i l (k : leg -> memory -> A * memory) o m :
  (forall x, legs m !! l = Some x -> same_shape m (k x m).2) -> harmless (Dangling t i) -> same_shape m (touch t i l k o m).2.
Proof. intros Hk Hi. unfold touch. destruct (legs m !! l) as [x|] eqn:E; [by apply Hk|by apply shape_fault]. Qed.

(** *** One step of a thread *)

(** The instructions that leave the shape alone. *)
Definition quiet (i : instr) : bool :=
  match i with Register | Lock | Unlock | Delete _ _ | Null _ | NewLeg _ => false | _ => true end.

Lemma head_ok t m h i p : thread_ok t m h (i :: p) -> instr_ok m i /\ (calls_pjsip i = true -> known t m = true) /\ of_handler h i = true.
Proof.
  intros [_ Hr Hk _ Hi]. apply Forall_cons in Hi as [Hi _]. cbn in Hk. apply andb_true_iff in Hk as [Hk _]. split; [done|]. split; [|done].
  destruct i; cbn in Hr |- *; try done; intros _; apply andb_true_iff in Hr as [Hr _]; by destruct (known t m).
Qed.

Lemma quiet_shape t i m r h p : quiet i = true -> thread_ok t m h (i :: p) -> exec register_fails t i m = Some r -> same_shape m r.2.
Proof.
  intros Hq Ht E. destruct (head_ok _ _ _ _ _ Ht) as (Hi & Hk & _).
  destruct i; cbn in Hq, E, Hk; try discriminate; try (injection E as <-; auto; done);
    try (injection E as <-; apply touch_shape; [|done]; intros x _; cbn; auto; fail).
  - injection E as <-. destruct (slot d m); [done|]. by apply (shape_fault m (NullPointer t (Load d))).
  - destruct n; injection E as <-; [done|]. by apply touch_shape.
  - injection E as <-. destruct (incomingSipCall m); [done|]. by apply (shape_fault m (NullPointer t LoadAnswer)).
  - cbn in Hi. destruct Hi as [x Hx]. unfold touch in E. rewrite Hx in E. injection E as <-. etrans; [by apply (shape_pjsip t (DialDtmf l)), Hk|apply shape_say].
  - injection E as <-. apply touch_shape; [|done]. intros x _. destruct (leg_side x); [|done]. cbn. etrans; [|by apply shape_update]. by destruct (acceptSent x).
  - injection E as <-. apply touch_shape; [|done]. intros x _. destruct (leg_side x); cbn; [by destruct (_ && _)|].
    etrans; [|by apply shape_update]. by destruct (weHungUp x).
Qed.

(** What an instruction makes the handler do next fits the rest of it. *)
Definition fits (i : instr) (q : list instr) : Prop :=
  (forall b p, balanced b (i :: p) = true -> balanced b (q ++ p) = true) /\
  (forall b p, ready b (i :: p) = true -> ready b (q ++ p) = true) /\
  (forall h p, forallb (of_handler h) (i :: p) = true -> forallb (of_handler h) (q ++ p) = true) /\
  (forall p, no_dial p = true -> dial_next (q ++ p) = true).

Ltac fit :=
  split_and!; [intros [] ?|intros [] ?|intros [] ?|intros ?; first [apply no_dial_next|idtac]]; cbn; rewrite ?andb_true_iff; try done; try tauto;
  try (intros [? ?]; done); try (intros ?; by eapply ready_mono); try (intros [? ?]; by eapply ready_mono).

Lemma quiet_fits t i m r : quiet i = true -> exec register_fails t i m = Some r -> fits i r.1.
Proof.
  intros Hq E.
  destruct i; cbn in Hq, E; try discriminate;
    repeat match type of E with context [match ?x with _ => _ end] => destruct x eqn:? end; try discriminate;
    injection E as <-; unfold touch; cbn [fst];
    repeat match goal with |- context [match ?x with _ => _ end] => destruct x eqn:? end; try (fit; fail).
Qed.

Lemma thread_next t m h i p q : fits i q -> i <> Register -> Forall (instr_ok m) q -> thread_ok t m h (i :: p) -> thread_ok t m h (q ++ p).
Proof.
  intros (F1 & F2 & F3 & F4) Hi Hq [H1 H2 H3 Hd H4]. apply Forall_cons in H4 as [_ H4].
  split; [by apply F1|by apply F2|by apply F3| |by apply Forall_app]. apply F4. apply dial_next_tail in Hd as [_ Hd]. by apply Hd.
Qed.
Lemma fits_null d : fits (Null d) [].
Proof. fit. Qed.
Lemma fits_delete d l : fits (Delete d l) [Null d].
Proof. fit. Qed.
Lemma fits_new_leg d l : fits (NewLeg d) [match d with Out => MakeCall l | In => Answer l end].
Proof. destruct d; fit. Qed.

(** The mutex is one thread's. *)
Lemma holds_once t t' m : holds t m = true -> holds t' m = true -> t = t'.
Proof. unfold holds. intros H1%bool_decide_eq_true H2%bool_decide_eq_true. congruence. Qed.

(** A slot that the thread holding the mutex sees, unless it is clearing it. *)
Lemma held_slot_live s t h i p d l : sound s -> threads s !! t = Some (h, i :: p) -> holds t (mem s) = true -> (forall d, i <> Null d) ->
  slot d (mem s) = Some l -> is_Some (legs (mem s) !! l).
Proof.
  intros Hs Ht Hh Hi Hl. destruct (so_slots s Hs d l Hl) as [_ [H|(t' & h' & p' & Hm & Ht')]]; [done|].
  assert (t' = t) as -> by (eapply holds_once; [|done]; unfold holds; by apply bool_decide_eq_true).
  rewrite Ht in Ht'. injection Ht' as _ E _. by destruct (Hi d).
Qed.

Lemma head_holds t m h i p : thread_ok t m h (i :: p) -> locked_only i = true -> holds t m = true.
Proof. intros [H _ _ _ _] Hl. destruct i; cbn in H, Hl; try discriminate; by destruct (holds t m). Qed.

Lemma quiet_instrs s t h i p r : sound s -> threads s !! t = Some (h, i :: p) -> quiet i = true -> exec register_fails t i (mem s) = Some r ->
  Forall (instr_ok (mem s)) r.1.
Proof.
  intros Hs Ht Hq E. pose proof (so_threads s Hs _ _ _ Ht) as Hok. pose proof (head_holds _ _ _ _ _ Hok) as Hh.
  pose proof (fun d l => held_slot_live s t h i p d l Hs Ht) as Hlive.
  destruct i; cbn in Hq, E, Hh; try discriminate;
    repeat match type of E with context [match ?x with _ => _ end] => destruct x eqn:? end; try discriminate;
    injection E as <-; unfold touch; cbn [fst];
    repeat match goal with |- context [match ?x with _ => _ end] => destruct x eqn:? end; cbn [fst];
    try (repeat constructor; fail).
  - repeat (apply Forall_cons; split; [|]); try done; try apply (so_slots s Hs d n); done.
  - repeat constructor. by apply (Hlive Out n (Hh eq_refl)).
  - repeat constructor. by apply (Hlive In n (Hh eq_refl)).
Qed.

(** Any other instruction, or none: the new state of one thread. *)
Lemma sound_quiet s t h i p r : sound s -> threads s !! t = Some (h, i :: p) -> quiet i = true -> exec register_fails t i (mem s) = Some r ->
  sound (mkSystem r.2 (<[t := (h, r.1 ++ p)]> (threads s))).
Proof.
  intros Hs Ht Hq E. pose proof (so_threads s Hs _ _ _ Ht) as Hok. pose proof (quiet_shape _ _ _ _ _ _ Hq Hok E) as Hsh.
  pose proof (quiet_fits _ _ _ _ Hq E) as Hfit. pose proof (quiet_instrs _ _ _ _ _ _ Hs Ht Hq E) as Hins.
  destruct r as [q m']. cbn [fst snd] in *. split; cbn [mem threads].
  - intros t' h' p' [[<- [= <- <-]]|[Hne H']]%lookup_insert_Some; eapply shape_thread; [exact Hsh| |exact Hsh|by eapply so_threads].
    eapply thread_next; [exact Hfit|by intros ->|done|done].
  - intros t'. rewrite (sh_asked _ _ Hsh), (shape_known _ _ _ Hsh). apply Hs.
  - intros l Hl. rewrite (sh_next _ _ Hsh). apply (so_fresh s Hs). by apply (shape_live _ _ _ Hsh).
  - intros d l. rewrite (sh_slots _ _ Hsh), (sh_next _ _ Hsh). intros Hl. destruct (so_slots s Hs d l Hl) as [[H1 H2] H3]. split; [split; [done|]|].
    + intros x Hx. destruct (shape_side _ _ _ _ Hsh Hx) as (y & Hy & <-). by apply H2.
    + destruct H3 as [H3|(t' & h' & p' & Hm & Ht')]; [left; by apply (shape_live _ _ _ Hsh)|right].
      exists t', h', p'. cbn. rewrite (sh_mutex _ _ Hsh). split; [done|]. rewrite lookup_insert_ne; [done|]. intros <-.
      rewrite Ht in Ht'. injection Ht' as _ -> _. done.
  - apply (sh_faults _ _ Hsh), Hs.
Qed.

Lemma upd_threads s t th m' : thread_ok t m' th.1 th.2 ->
  (forall t' h' p', t' <> t -> threads s !! t' = Some (h', p') -> thread_ok t' m' h' p') ->
  forall t' h' p', <[t := th]> (threads s) !! t' = Some (h', p') -> thread_ok t' m' h' p'.
Proof. intros H1 H2 t' h' p' [[<- ->]|[Hne H]]%lookup_insert_Some; [done|by eauto]. Qed.

Lemma clearing_kept s t h i p th m' d : threads s !! t = Some (h, i :: p) -> (forall d, i <> Null d) ->
  callHandoffMutex m' = callHandoffMutex (mem s) -> clearing d s -> clearing d (mkSystem m' (<[t := th]> (threads s))).
Proof.
  intros Ht Hi Hm (t' & h' & p' & H1 & H2). exists t', h', p'. cbn. split; [by rewrite Hm|]. rewrite lookup_insert_ne; [done|].
  intros <-. rewrite Ht in H2. injection H2 as _ E _. by apply (Hi d).
Qed.

Lemma sound_register s t h p : sound s -> threads s !! t = Some (h, Register :: p) ->
  sound (mkSystem (registerPjsipThreadIfNeeded register_fails t (mem s)) (<[t := (h, p)]> (threads s))).
Proof.
  intros Hs Ht. pose proof (so_threads s Hs _ _ _ Ht) as Hok. set (m' := registerPjsipThreadIfNeeded register_fails t (mem s)).
  assert (registered (mem s) ⊆ registered m') as Hr.
  { unfold m', registerPjsipThreadIfNeeded. case_bool_decide; [done|]. cbn. destruct (register_fails t); set_solver. }
  assert (known t m' = true /\ forall t', t' ∈ asked m' -> known t' m' = true) as [Hk Hask].
  { pose proof (so_asked s Hs) as Ha. destruct (decide (t ∈ asked (mem s))) as [E|E].
    - assert (m' = mem s) as -> by (unfold m', registerPjsipThreadIfNeeded; by rewrite bool_decide_eq_true_2). split; [by apply Ha|done].
    - assert (m' = set_registered (if register_fails t then registered (mem s) else registered (mem s) ∪ {[ t ]}) (asked (mem s) ∪ {[ t ]}) (mem s))
        as -> by (unfold m', registerPjsipThreadIfNeeded; by rewrite bool_decide_eq_false_2).
      unfold known in *. cbn in *. split; [|intros t' [H| ->%elem_of_singleton]%elem_of_union].
      + rewrite orb_true_iff, bool_decide_eq_true. destruct (register_fails t); [by right|left; set_solver].
      + specialize (Ha t' H). rewrite orb_true_iff, bool_decide_eq_true in Ha |- *. destruct Ha as [Ha|Ha]; [left; by apply Hr|by right].
      + rewrite orb_true_iff, bool_decide_eq_true. destruct (register_fails t); [by right|left; set_solver]. }
  assert (forall d, slot d m' = slot d (mem s)) as Hslot by (intros []; unfold m', registerPjsipThreadIfNeeded; by case_bool_decide).
  assert (callHandoffMutex m' = callHandoffMutex (mem s) /\ legs m' = legs (mem s) /\ next_leg m' = next_leg (mem s) /\ faults m' = faults (mem s))
    as (Hmu & Hl & Hn & Hfa) by (unfold m', registerPjsipThreadIfNeeded; by case_bool_decide).
  assert (forall t' h' p', thread_ok t' (mem s) h' p' -> thread_ok t' m' h' p') as Hframe.
  { intros t' h' p'. apply thread_ok_frame; [unfold holds; by rewrite Hmu|done| |by rewrite Hl].
    split; [by rewrite Hn|]. rewrite Hl. eauto. }
  split; cbn [mem threads].
  - apply upd_threads; [|by intros t' h' p' _ ?%(so_threads s Hs); auto]. cbn. destruct (Hframe _ _ _ Hok) as [H1 H2 H3 Hd H4].
    apply Forall_cons in H4 as [_ H4]. apply andb_true_iff in H3 as [_ H3]. apply dial_next_tail in Hd as [Hd _]. cbn in H1, H2. split; [done|by rewrite Hk|done..].
  - done.
  - rewrite Hl, Hn. apply Hs.
  - intros d l. rewrite Hslot, Hl, Hn. intros H. destruct (so_slots s Hs d l H) as [H1 [H2|H2]]; split; auto. right. by eapply clearing_kept.
  - rewrite Hfa. apply Hs.
Qed.

Lemma thread_ok_mutex t m o h p : holds t (set_mutex o m) = holds t m -> thread_ok t m h p -> thread_ok t (set_mutex o m) h p.
Proof. intros Hh. apply thread_ok_frame; try done. split; [done|]. eauto. Qed.

Lemma sound_lock s t h p : sound s -> threads s !! t = Some (h, Lock :: p) -> callHandoffMutex (mem s) = None ->
  sound (mkSystem (set_mutex (Some t) (mem s)) (<[t := (h, p)]> (threads s))).
Proof.
  intros Hs Ht Hm. pose proof (so_threads s Hs _ _ _ Ht) as [H1 H2 H3 Hd H4]. apply Forall_cons in H4 as [_ H4]. apply andb_true_iff in H3 as [_ H3]. apply dial_next_tail in Hd as [Hd _].
  split; cbn [mem threads].
  - apply upd_threads.
    + cbn in *. split; [|done..]. apply andb_true_iff in H1 as [_ H1]. unfold holds. cbn. by rewrite bool_decide_eq_true_2.
    + intros t' h' p' Hne H'. apply thread_ok_mutex; [|by eapply so_threads]. unfold holds. cbn. rewrite Hm.
      by rewrite !bool_decide_eq_false_2 by congruence.
  - apply Hs.
  - apply Hs.
  - intros d l H. assert (slot d (mem s) = Some l) as H' by (by destruct d).
    destruct (so_slots s Hs d l H') as [? [?|(t' & h' & p' & Hm' & _)]]; [by auto|]. by rewrite Hm in Hm'.
  - apply Hs.
Qed.

Lemma sound_unlock s t h p : sound s -> threads s !! t = Some (h, Unlock :: p) ->
  sound (mkSystem (set_mutex None (mem s)) (<[t := (h, p)]> (threads s))).
Proof.
  intros Hs Ht. pose proof (so_threads s Hs _ _ _ Ht) as [H1 H2 H3 Hd H4]. apply Forall_cons in H4 as [_ H4]. apply andb_true_iff in H3 as [_ H3]. apply dial_next_tail in Hd as [Hd _]. cbn in H1, H2.
  apply andb_true_iff in H1 as [Hh H1]. split; cbn [mem threads].
  - apply upd_threads; [by split|].
    intros t' h' p' Hne H'. apply thread_ok_mutex; [|by eapply so_threads]. apply bool_decide_eq_true in Hh. unfold holds. cbn. rewrite Hh.
    by rewrite !bool_decide_eq_false_2 by congruence.
  - apply Hs.
  - apply Hs.
  - intros d l H. assert (slot d (mem s) = Some l) as H' by (by destruct d). split; [by apply (so_slots s Hs d l)|]. left.
    by eapply held_slot_live.
  - apply Hs.
Qed.

Lemma sound_null s t h p d : sound s -> threads s !! t = Some (h, Null d :: p) ->
  sound (mkSystem (set_slot d None (mem s)) (<[t := (h, p)]> (threads s))).
Proof.
  intros Hs Ht. pose proof (so_threads s Hs _ _ _ Ht) as Hok. pose proof (head_holds _ _ _ _ _ Hok eq_refl) as Hh.
  assert (forall t' h' p', thread_ok t' (mem s) h' p' -> thread_ok t' (set_slot d None (mem s)) h' p') as Hframe.
  { intros t' h' p'. apply thread_ok_frame; try (by destruct d); [destruct d; split; cbn; eauto..]. }
  split; cbn [mem threads].
  - apply upd_threads; [|by intros t' h' p' _ ?%(so_threads s Hs); auto].
    by apply (thread_next t _ h (Null d) p []); [apply fits_null|..|apply Hframe].
  - destruct d; apply Hs.
  - destruct d; apply Hs.
  - intros d' l H. assert (d' <> d /\ slot d' (mem s) = Some l) as [Hne H'] by (by destruct d, d').
    destruct (so_slots s Hs d' l H') as [H1 H2]. split; [by destruct d|]. left. assert (is_Some (legs (mem s) !! l)) as H3; [|by destruct d].
    destruct H2 as [H2|(t' & h' & p' & Hm & H2)]; [done|]. exfalso. apply bool_decide_eq_true in Hh. rewrite Hh in Hm. injection Hm as <-.
    rewrite Ht in H2. by injection H2 as _ E _.
  - destruct d; apply Hs.
Qed.

(** Only the thread with the mutex dials. *)
Lemma dial_holds t m h p l : thread_ok t m h p -> DialDtmf l ∈ p -> holds t m = true.
Proof.
  intros [H1 _ _ Hd _] Hin.
  destruct p as [|i p]; [by apply elem_of_nil in Hin|].
  assert ((exists k, i = DialDtmf k) \/ (exists k p', i = Register /\ p = DialDtmf k :: p') \/ no_dial (i :: p) = true) as [(k & ->)|[(k & p' & -> & ->)|H]].
  { destruct i; try (right; right; exact Hd); [|left; by eexists]. destruct p as [|[] p]; try (right; right; exact Hd). right. left. by eexists _, _. }
  - cbn in H1. by destruct (holds t m).
  - cbn in H1. by destruct (holds t m).
  - by destruct (no_dial_in _ l H).
Qed.

(** The other threads, when one that holds the mutex changes the legs. *)
Lemma other_threads s t h i p m' : sound s -> threads s !! t = Some (h, i :: p) -> holds t (mem s) = true ->
  callHandoffMutex m' = callHandoffMutex (mem s) -> registered (mem s) ⊆ registered m' -> legs_from (mem s) m' ->
  forall t' h' p', t' <> t -> threads s !! t' = Some (h', p') -> thread_ok t' m' h' p'.
Proof.
  intros Hs Ht Hh Hm Hr Hl t' h' p' Hne H'. pose proof (so_threads s Hs _ _ _ H') as Hok.
  eapply thread_ok_frame; [by unfold holds; rewrite Hm|done|done| |done].
  intros l Hin _. destruct Hne. eapply holds_once; [by eapply dial_holds|done].
Qed.

Lemma sound_delete s t h p d l r : sound s -> threads s !! t = Some (h, Delete d l :: p) ->
  exec register_fails t (Delete d l) (mem s) = Some r -> sound (mkSystem r.2 (<[t := (h, r.1 ++ p)]> (threads s))).
Proof.
  intros Hs Ht E. pose proof (so_threads s Hs _ _ _ Ht) as Hok. pose proof (head_holds _ _ _ _ _ Hok eq_refl) as Hh.
  destruct (head_ok _ _ _ _ _ Hok) as ([Hln Hld] & Hk & _). specialize (Hk eq_refl).
  assert (r.1 = [Null d]) as Hq by (cbn in E; injection E as <-; unfold touch; by destruct (legs (mem s) !! l)).
  (* the memory: the leg is gone, one way or the other *)
  assert (exists m1, same_shape (mem s) m1 /\ (r.2 = set_legs (delete l (legs m1)) (next_leg m1) m1 \/ r.2 = m1 /\ legs m1 !! l = None)) as (m1 & Hsh & Hm').
  { cbn in E. injection E as <-. unfold touch. destruct (legs (mem s) !! l) as [x|] eqn:El; cbn.
    - exists (pjsip t (Delete d l) (mem s)). split; [by apply shape_pjsip|left]. unfold pjsip. by case_bool_decide.
    - exists (add_fault (Dangling t (Delete d l)) (mem s)). split; [by apply shape_fault|by right]. }
  assert (legs r.2 = delete l (legs m1) /\ next_leg r.2 = next_leg m1 /\ callHandoffMutex r.2 = callHandoffMutex m1 /\ registered r.2 = registered m1 /\
    asked r.2 = asked m1 /\ faults r.2 = faults m1 /\ forall d, slot d r.2 = slot d m1) as (Rl & Rn & Rm & Rr & Ra & Rf & Rs).
  { destruct Hm' as [->|[-> Hnone]]; split_and!; try done; first [by intros []|by rewrite delete_id]. }
  clear Hm'. destruct r as [q m']. cbn [fst snd] in *. subst q.
  assert (legs_from (mem s) m') as Hfrom.
  { split; [by rewrite Rn, (sh_next _ _ Hsh)|]. rewrite Rl. intros k x [Hkl Hx]%lookup_delete_Some. right. by eapply shape_side. }
  assert (callHandoffMutex m' = callHandoffMutex (mem s)) as Hmu by (by rewrite Rm, (sh_mutex _ _ Hsh)).
  split; cbn [mem threads].
  - apply upd_threads.
    + apply (thread_next t m' h (Delete d l) p [Null d]); [apply fits_delete|done|by apply Forall_singleton|].
      eapply thread_ok_frame; [by unfold holds; rewrite Hmu|by rewrite Rr, (sh_registered _ _ Hsh)|done| |done].
      intros k [Heq|Hin]%elem_of_cons _; [done|]. destruct (no_dial_in p k); [|done].
      pose proof (dial_next_tail _ _ (th_dial _ _ _ _ Hok)) as [_ Hd]. by apply Hd.
    + eapply other_threads; try done. by rewrite Rr, (sh_registered _ _ Hsh).
  - intros t'. rewrite Ra, (sh_asked _ _ Hsh). intros H'. unfold known. rewrite Rr, (sh_registered _ _ Hsh). by apply (so_asked s Hs).
  - intros k Hk'. rewrite Rn, (sh_next _ _ Hsh). apply (so_fresh s Hs). apply (shape_live _ _ _ Hsh). rewrite Rl in Hk'.
    destruct Hk' as [x [_ Hx]%lookup_delete_Some]. by eexists.
  - intros d' k. rewrite Rs, Rn, (sh_slots _ _ Hsh), (sh_next _ _ Hsh), Rl. intros Hsl. destruct (so_slots s Hs d' k Hsl) as [[H1 H2] H3].
    pose proof (held_slot_live s t h (Delete d l) p d' k Hs Ht Hh ltac:(done) Hsl) as Hlive. split; [split; [done|]|].
    + intros x [_ Hx]%lookup_delete_Some. destruct (shape_side _ _ _ _ Hsh Hx) as (y & Hy & <-). by apply H2.
    + destruct (decide (k = l)) as [->|Hne].
      * right. exists t, h, p. cbn. split; [rewrite Hmu; by apply bool_decide_eq_true in Hh|]. rewrite lookup_insert_eq.
        destruct Hlive as [x Hx]. by rewrite <- (H2 x Hx), <- (Hld x Hx).
      * left. apply (shape_live _ _ _ Hsh) in Hlive as [x Hx]. exists x. by apply lookup_delete_Some.
  - rewrite Rf. apply (sh_faults _ _ Hsh), Hs.
Qed.

Lemma sound_new_leg s t h p d r : sound s -> threads s !! t = Some (h, NewLeg d :: p) ->
  exec register_fails t (NewLeg d) (mem s) = Some r -> sound (mkSystem r.2 (<[t := (h, r.1 ++ p)]> (threads s))).
Proof.
  intros Hs Ht E. pose proof (so_threads s Hs _ _ _ Ht) as Hok. destruct (head_ok _ _ _ _ _ Hok) as (_ & Hk & _). specialize (Hk eq_refl).
  set (l := next_leg (mem s)). set (m1 := pjsip t (NewLeg d) (mem s)).
  assert (same_shape (mem s) m1) as Hsh by (by apply shape_pjsip).
  set (m' := set_slot d (Some l) (set_legs (<[l := mkLeg d false false false]> (legs (mem s))) (S l) m1)).
  assert (r = ([match d with Out => MakeCall l | In => Answer l end], m')) as -> by (cbn in E; by injection E as <-).
  assert (legs m' = <[l := mkLeg d false false false]> (legs (mem s)) /\ next_leg m' = S l /\ callHandoffMutex m' = callHandoffMutex (mem s) /\
    registered m' = registered (mem s) /\ asked m' = asked (mem s) /\ faults m' = faults m1 /\ slot d m' = Some l /\
    forall d', d' <> d -> slot d' m' = slot d' (mem s)) as (Rl & Rn & Rm & Rr & Ra & Rf & Rd & Rs).
  { pose proof (sh_slots _ _ Hsh) as Hsl. pose proof (sh_mutex _ _ Hsh). pose proof (sh_registered _ _ Hsh). pose proof (sh_asked _ _ Hsh).
    clearbody m1. unfold m'. destruct d; (split_and!; try done); intros [] Hd'; (exact (Hsl In) || exact (Hsl Out) || congruence). }
  assert (legs_from (mem s) m') as Hfrom.
  { split; [rewrite Rn; unfold l; lia|]. rewrite Rl. intros k x [[<- _]|[_ Hx]]%lookup_insert_Some; [left; rewrite Rn; unfold l; lia|right; eauto]. }
  assert (forall k, is_Some (legs (mem s) !! k) -> is_Some (legs m' !! k)) as Hlive.
  { intros k H. rewrite Rl. apply lookup_insert_is_Some'. by right. }
  assert (forall t' h' p', thread_ok t' (mem s) h' p' -> thread_ok t' m' h' p') as Hframe.
  { intros t' h' p'. apply thread_ok_frame; [by unfold holds; rewrite Rm|by rewrite Rr|done|by auto]. }
  split; cbn [mem threads fst snd].
  - apply upd_threads; [|by intros t' h' p' _ ?%(so_threads s Hs); auto].
    eapply thread_next; [apply (fits_new_leg d l)|done| |by apply Hframe]. apply Forall_singleton. by destruct d.
  - intros t'. rewrite Ra. unfold known. rewrite Rr. apply Hs.
  - intros k. rewrite Rl, Rn, lookup_insert_is_Some'. intros [<-|H]; [lia|]. pose proof (so_fresh s Hs k H). unfold l. lia.
  - intros d' k Hsl. destruct (decide (d' = d)) as [->|Hne].
    + rewrite Rd in Hsl. injection Hsl as <-. rewrite Rn, Rl, lookup_insert_eq. split; [split; [lia|by intros x [= <-]]|left; by eexists].
    + rewrite Rs in Hsl by done. destruct (so_slots s Hs d' k Hsl) as [[H1 H2] H3].
      split; [split; [rewrite Rn; unfold l; lia|]|].
      * intros x. rewrite Rl. intros [[<- _]|[_ Hx]]%lookup_insert_Some; [unfold l in H1; lia|by apply H2].
      * destruct H3 as [H3|H3]; [left; by apply Hlive|right]. by eapply clearing_kept.
  - rewrite Rf. apply (sh_faults _ _ Hsh), Hs.
Qed.

Lemma program_instrs h m : Forall (instr_ok m) (program h).
Proof. destruct h as [peer []| | | |l []]; cbn; repeat (case_match || constructor). Qed.

Lemma program_ok t h s : holds t (mem s) = false -> may_start t h s = true -> thread_ok t (mem s) h (program h).
Proof.
  intros Hh Hst.
  assert ((forall c l, h <> LegCallback l c) /\ h <> Teardown /\ (forall r, h <> IncomingCall r) \/ known t (mem s) = true) as Hk.
  { destruct h; cbn in Hst; try (left; done); right; unfold known; by destruct (bool_decide (t ∈ registered (mem s))). }
  split; [rewrite Hh| | | |apply program_instrs].
  - destruct h as [peer []| | | |l []]; cbn; try done; by case_match.
  - destruct (known t (mem s)) eqn:Ek.
    + destruct h as [peer []| | | |l []]; cbn; try done; by case_match.
    + destruct Hk as [(H1 & H2 & H3)|]; [|done]. destruct h as [peer []| |r| |l c]; cbn; try done; [by case_match|by destruct (H3 r)|by destruct (H1 c l)].
  - destruct h as [peer []| | | |l []]; cbn; try done; by case_match.
  - destruct h as [peer []| | | |l []]; cbn; try done; by case_match.
Qed.

(** The mutex is never left with a thread that has never run. *)
Definition holder_present (s : system) : Prop := forall t, callHandoffMutex (mem s) = Some t -> is_Some (threads s !! t).

Lemma exec_mutex t i m r : exec register_fails t i m = Some r ->
  callHandoffMutex r.2 = callHandoffMutex m \/ callHandoffMutex r.2 = Some t \/ callHandoffMutex r.2 = None.
Proof.
  intros E. destruct i; cbn in E; unfold touch, pjsip, registerPjsipThreadIfNeeded in E;
    repeat match type of E with context [match ?x with _ => _ end] => destruct x eqn:? end; try discriminate; injection E as <-; cbn; auto.
  destruct d; auto.
Qed.

Lemma apply_inv e s s' : apply register_fails e s = Some s' ->
  (exists t h, pending t s = [] /\ may_start t h s = true /\ s' = mkSystem (mem s) (<[t := (h, program h)]> (threads s))) \/
  (exists t h i p r, threads s !! t = Some (h, i :: p) /\ exec register_fails t i (mem s) = Some r /\
    s' = mkSystem r.2 (<[t := (h, r.1 ++ p)]> (threads s))).
Proof.
  destruct e as [t h|t]; cbn.
  - destruct (pending t s) eqn:Ep; [|done]. destruct (may_start t h s) eqn:Em; [|done]. intros [= <-]. left. by exists t, h.
  - destruct (threads s !! t) as [[h [|i p]]|] eqn:Ht; try done. destruct (exec register_fails t i (mem s)) as [[q m]|] eqn:E; [|done].
    intros [= <-]. right. by exists t, h, i, p, (q, m).
Qed.

Lemma holder_apply e s s' : apply register_fails e s = Some s' -> holder_present s -> holder_present s'.
Proof.
  intros [(t & h & _ & _ & ->)|(t & h & i & p & r & Ht & E & ->)]%apply_inv H t' Hm; cbn in *; apply lookup_insert_is_Some'; [right; by apply H|].
  destruct (exec_mutex _ _ _ _ E) as [E'|[E'|E']]; rewrite E' in Hm; [right; by apply H|left; by injection Hm|done].
Qed.

Lemma sound_start s t h : sound s -> holder_present s -> pending t s = [] -> may_start t h s = true ->
  sound (mkSystem (mem s) (<[t := (h, program h)]> (threads s))).
Proof.
  intros Hs Hpr Hp Hst. unfold pending in Hp.
  assert (holds t (mem s) = false) as Hh.
  { unfold holds. apply bool_decide_eq_false. intros Hm. destruct (Hpr _ Hm) as [[h0 p0] Ht]. rewrite Ht in Hp. subst p0.
    destruct (so_threads s Hs _ _ _ Ht) as [Hb _ _ _ _]. cbn in Hb. unfold holds in Hb. by rewrite (bool_decide_eq_true_2 _ Hm) in Hb. }
  split; cbn [mem threads]; try apply Hs.
  - apply upd_threads; [by apply program_ok|]. intros t' h' p' _. apply Hs.
  - intros d l Hl. destruct (so_slots s Hs d l Hl) as [H1 [H2|(t' & h' & p' & Hm & Ht')]]; split; auto. right.
    exists t', h', p'. cbn. split; [done|]. rewrite lookup_insert_ne; [done|]. intros <-. by rewrite Ht' in Hp.
Qed.

Lemma sound_apply e s s' : apply register_fails e s = Some s' -> sound s -> holder_present s -> sound s'.
Proof.
  intros [(t & h & Hp & Hst & ->)|(t & h & i & p & r & Ht & E & ->)]%apply_inv Hs Hpr; [by apply sound_start|].
  destruct (quiet i) eqn:Eq; [by eapply sound_quiet|].
  destruct i; try discriminate Eq; try (by eapply sound_delete); try (by eapply sound_new_leg); cbn in E.
  - injection E as <-. by apply sound_register.
  - destruct (callHandoffMutex (mem s)) eqn:Em; [done|]. injection E as <-. by apply sound_lock.
  - injection E as <-. by apply sound_unlock.
  - injection E as <-. by apply sound_null.
Qed.

Lemma sound_idle known : sound (idle known) /\ holder_present (idle known).
Proof. split; [|done]. split; cbn; try done; [by intros ? []|by intros []]. Qed.

Lemma sound_reachable known s : rtc (step register_fails) (idle known) s -> sound s /\ holder_present s.
Proof.
  intros H. revert H. apply (rtc_invariant (step register_fails) (fun s => sound s /\ holder_present s)); [|apply sound_idle].
  intros s1 s2 [Hs Hp] [e He]. split; [by eapply sound_apply|by eapply holder_apply].
Qed.
End lemmas.

Lemma run_rtc fails es : forall s s', run fails es s = Some s' -> rtc (step fails) s s'.
Proof.
  induction es as [|e es IH]; intros s s' H; cbn in H; [by injection H as ->|].
  destruct (apply fails e s) as [s1|] eqn:E; [|done]. eapply rtc_l; [by exists e|by apply IH].
Qed.

(** Only a thread waiting for the mutex waits. *)
Lemma exec_waits fails t i m : exec fails t i m = None -> i = Lock /\ is_Some (callHandoffMutex m).
Proof.
  intros E. destruct i; cbn in E; repeat match type of E with context [match ?x with _ => _ end] => destruct x eqn:? end; try discriminate. by split.
Qed.

Lemma go_on fails s : sound fails s -> holder_present s -> forall t h i p, threads s !! t = Some (h, i :: p) ->
  exists t' s', apply fails (Go t') s = Some s'.
Proof.
  intros Hs Hpr t h i p Ht. destruct (exec fails t i (mem s)) as [[q m]|] eqn:E.
  { exists t. cbn. rewrite Ht, E. by eexists. }
  destruct (exec_waits _ _ _ _ E) as [-> [t' Hm]]. destruct (Hpr t' Hm) as [[h' p'] Ht'].
  pose proof (th_balanced _ _ _ _ _ (so_threads _ _ Hs _ _ _ Ht')) as Hb. unfold holds in Hb. rewrite (bool_decide_eq_true_2 _ Hm) in Hb.
  destruct p' as [|i' p']; [done|]. exists t'. cbn [apply]. rewrite Ht'.
  destruct (exec fails t' i' (mem s)) as [[q m]|] eqn:E'; [by eexists|]. by destruct (exec_waits _ _ _ _ E') as [-> _].
Qed.

(** *** The handlers end *)

(** A bound on what is left of an instruction, of a handler, of all of them. *)
Definition cost (i : instr) : nat :=
  match i with
  | Poll _ n => S n
  | Test _ => 59
  | Load _ => 58
  | Resolve _ => 62
  | IncomingTest _ => 66
  | SipTest _ => 65
  | CalleeTest => 5
  | DialTest _ | AnswerTest => 4
  | CheckDtmf _ => 3
  | Delete _ _ | NewLeg _ | LoadAnswer => 2
  | _ => 1
  end%nat.
Definition weight (p : list instr) : nat := foldr (fun i n => cost i + n)%nat O p.
Definition work (s : system) : nat := map_fold (fun _ th n => weight th.2 + n)%nat O (threads s).

Lemma weight_app p q : weight (p ++ q) = (weight p + weight q)%nat.
Proof. unfold weight. induction p as [|i p IH]; cbn; [done|]. rewrite IH. lia. Qed.

Lemma exec_cost fails t i m r : exec fails t i m = Some r -> (weight r.1 < cost i)%nat.
Proof.
  intros E. destruct i; cbn in E; unfold touch in E;
    repeat match type of E with context [match ?x with _ => _ end] => destruct x eqn:? end; try discriminate; injection E as <-; cbn; lia.
Qed.

Lemma fold_weight_delete (ts : gmap tid (handler * list instr)) t th : ts !! t = Some th ->
  map_fold (fun _ th n => weight th.2 + n)%nat O ts = (weight th.2 + map_fold (fun _ th n => weight th.2 + n)%nat O (delete t ts))%nat.
Proof. intros Ht. apply (map_fold_delete_L (fun _ th n => weight th.2 + n)%nat O t th ts); [|done]. intros. lia. Qed.

Lemma go_works fails t s s' : apply fails (Go t) s = Some s' -> (work s' < work s)%nat.
Proof.
  cbn. destruct (threads s !! t) as [[h [|i p]]|] eqn:Ht; try done. destruct (exec fails t i (mem s)) as [[q m]|] eqn:E; [|done].
  intros [= <-]. unfold work. cbn [threads].
  rewrite (fold_weight_delete _ t (h, q ++ p)) by apply lookup_insert_eq. rewrite (fold_weight_delete (threads s) t (h, i :: p)) by done.
  rewrite delete_insert_eq. cbn [snd].
  rewrite weight_app. pose proof (exec_cost _ _ _ _ _ E) as Hc. unfold weight in *. cbn [fst snd foldr] in *. lia.
Qed.

Lemma gos_work fails ts : forall s s', run fails (Go <$> ts) s = Some s' -> (length ts + work s' <= work s)%nat.
Proof.
  induction ts as [|t ts IH]; intros s s' H; cbn [run fmap list_fmap] in H; [by injection H as ->|].
  destruct (apply fails (Go t) s) as [s1|] eqn:E; [|done]. pose proof (go_works _ _ _ _ E). specialize (IH _ _ H). cbn. lia.
Qed.

(** ** What the mutex and the registration buy *)

(** C5: Whatever the callbacks of RingRTC, PJSIP and libsignal and the main
    thread do to an account, and however their steps interleave: a text
    message's digits are never sent through a pointer to a deleted leg (which
    is what callHandoffMutex is for); PJSIP is only called from a thread PJLIB
    knows, unless registering that thread failed; at most one thread is in
    the region of the mutex; the handlers never block each other for good:
    some thread can go on whenever one has something left to do, and whatever
    the schedule, what has been started ends within a known number of steps. *)
Theorem dtmf_never_dangling fails known s (H : rtc (step fails) (idle known) s) :
  (forall t l, Dangling t (DialDtmf l) ∉ faults (mem s)) /\
  (forall t i, Unregistered t i ∈ faults (mem s) -> fails t = true) /\
  (forall t t' h h' i i' p p', threads s !! t = Some (h, i :: p) -> threads s !! t' = Some (h', i' :: p') ->
    locked_only i = true -> locked_only i' = true -> t = t') /\
  (forall t h i p, threads s !! t = Some (h, i :: p) -> exists t' s', apply fails (Go t') s = Some s') /\
  (forall ts s', run fails (Go <$> ts) s = Some s' -> (length ts <= work s)%nat).
Proof.
  destruct (sound_reachable _ _ _ H) as [Hs Hpr]. pose proof (so_faults _ _ Hs) as Hf. rewrite Forall_forall in Hf. split_and!.
  - intros t l Hin. exact (Hf _ Hin).
  - intros t i Hin. exact (Hf _ Hin).
  - intros t t' h h' i i' p p' Ht Ht' Hi Hi'. eapply holds_once; [eapply head_holds; [by eapply so_threads|done]..].
  - by apply go_on.
  - intros ts s' Hr%gos_work. lia.
Qed.

Module Runs.
Open Scope nat_scope.

(** Thread 0 is PJSIP's, 1 the main thread, 2 RingRTC's, 3 libsignal's. *)
Definition good : tid -> bool := fun _ => false.
Definition go (n : nat) (t : tid) : list event := replicate n (Go t).
Definition started : system := idle {[ 0; 1 ]}.

(** An incoming Signal call, bridged to the PBX: the leg 0. *)
Definition bridged : list event :=
  Start 2 (CallState "bob" (INCOMING_AUDIO true)) :: go 4 2 ++ Start 2 (CallState "bob" (RINGING true)) :: go 7 2.
Definition legs_of (s : system) : list (nat * leg) * option nat * option nat :=
  (map_to_list (legs (mem s)), sipCall (mem s), incomingSipCall (mem s)).

(** The call ends while the main thread tears the account down: both read the
    pointer before either deletes the leg, so it is deleted twice. *)
Definition two_teardowns : list event :=
  bridged ++ [Start 2 (CallState "bob" ENDED); Start 1 Teardown] ++ go 8 2 ++ go 5 1 ++
  Start 0 (LegCallback 0 DISCONNECTED) :: go 3 0 ++ go 5 2 ++ go 5 1.
Example teardowns_delete_twice : (fun s => faults (mem s)) <$> run good two_teardowns started = Some [Dangling 1 (Poll 0 50); Dangling 1 (Delete Out 0)].
Proof. vm_compute. reflexivity. Qed.

(** One has seen that there is a leg, the other deletes it and clears the
    pointer, the first reads it again. *)
Definition pointer_gone : list event :=
  bridged ++ [Start 2 (CallState "bob" ENDED); Start 1 Teardown] ++ go 2 1 ++ go 8 2 ++
  Start 0 (LegCallback 0 DISCONNECTED) :: go 3 0 ++ go 5 2 ++ go 1 1.
Example teardown_through_null : (fun s => faults (mem s)) <$> run good pointer_gone started = Some [NullPointer 1 (Load Out)].
Proof. vm_compute. reflexivity. Qed.

(** Late, the second of them clears the pointer to the leg of the next call,
    which nothing will ever hang up. *)
Definition late_teardown : list event :=
  Start 0 (IncomingCall Started) :: go 6 0 ++ [Start 2 (CallState "bob" ENDED); Start 1 Teardown] ++ go 10 2 ++ go 7 1 ++
  Start 0 (LegCallback 0 DISCONNECTED) :: go 3 0 ++ go 6 2 ++ Start 0 (IncomingCall Started) :: go 6 0 ++ go 5 1.
Example next_leg_lost : legs_of <$> run good late_teardown started = Some ([(1, mkLeg In false false false)], None, None).
Proof. vm_compute. reflexivity. Qed.

(** The peer stays that of the call before until RingRTC reports the first
    state of the next: a text of the last peer is dialled into the call of the
    next. *)
Definition late_text : list event :=
  Start 2 (CallState "bob" ENDED) :: go 8 2 ++ Start 0 (IncomingCall Started) :: go 6 0 ++ Start 3 (TextMessage "bob") :: go 5 3.
Example text_of_the_last_peer : (fun s => log (mem s)) <$> run good late_text started = Some [Dtmf 0 "bob"].
Proof. vm_compute. reflexivity. Qed.

Definition dialling : list event := bridged ++ Start 3 (TextMessage "bob") :: go 3 3 ++ Start 2 (CallState "bob" ENDED) :: go 1 3.

Lemma dtmf_never_dangling_witness : exists s, rtc (step good) started s /\ log (mem s) = [Dtmf 0 "bob"] /\ work s = 125 /\
  (forall t l, Dangling t (DialDtmf l) ∉ faults (mem s)).
Proof.
  destruct (run good dialling started) as [s|] eqn:E; [|vm_compute in E; discriminate E]. exists s.
  assert (H : rtc (step good) started s) by exact (run_rtc _ _ _ _ E). vm_compute in E. injection E as <-.
  split; [exact H|]. split; [reflexivity|]. split; [reflexivity|]. exact (proj1 (dtmf_never_dangling good {[ 0; 1 ]} _ H)).
Defined.
End Runs.
