(* ===== verification/HandoffSerial.v ===== *)
(** The SIP legs of one account when the handlers that make and delete legs do
    not overlap: the histories [Calls] runs.  On top of the interleavings of
    [Handoff], still with text messages and the legs' own callbacks running
    freely beside one such handler, no pointer to a deleted leg is ever used
    and no leg is lost. *)

From S2P Require Import Prelude Handoff.

Open Scope Z_scope.

(** ** Histories *)

(** The handlers that make or delete legs. *)
Definition mutator (h : handler) : bool :=
  match h with CallState _ _ | Teardown | IncomingCall _ => true | _ => false end.
Definition mutating (th : handler * list instr) : bool := match th with (h, _ :: _) => mutator h | _ => false end.

(** One such handler at a time; a RINGING that is to be dialled for comes only
    when the leg of the call before is gone; and a leg that has not reported
    DISCONNECTED by the time the five seconds are over is not deleted in the
    middle of one of its own callbacks. *)
Definition serial (e : event) (s : system) : bool :=
  match e with
  | Start t h =>
    implb (mutator h) (negb (existsb (fun x => mutating x.2) (map_to_list (threads s)))) &&
    match h with CallState _ (RINGING true) => bool_decide (sipCall (mem s) = None) | _ => true end
  | Go t =>
    match threads s !! t with
    | Some (_, Delete _ l :: _) =>
      match legs (mem s) !! l with Some x => disconnected x | None => true end || negb (in_callback l s)
    | _ => true
    end
  end.

Definition serial_step (fails : tid -> bool) (s s' : system) : Prop := exists e, serial e s = true /\ apply fails e s = Some s'.
Fixpoint serial_run (fails : tid -> bool) (es : list event) (s : system) : option system :=
  match es with
  | [] => Some s
  | e :: es => if serial e s then s' ← apply fails e s; serial_run fails es s' else None
  end.

Lemma serial_run_rtc fails es : forall s s', serial_run fails es s = Some s' -> rtc (serial_step fails) s s'.
Proof.
  induction es as [|e es IH]; intros s s' H; cbn in H; [by injection H as ->|].
  destruct (serial e s) eqn:Es; [|done]. destruct (apply fails e s) as [s1|] eqn:E; [|done].
  eapply rtc_l; [by exists e|by apply IH].
Qed.

Lemma serial_rtc fails s s' : rtc (serial_step fails) s s' -> rtc (step fails) s s'.
Proof. intros H. induction H as [|s1 s2 s3 (e & _ & He) _ IH]; [done|]. eapply rtc_l; [by exists e|done]. Qed.

Lemma no_thread (f : handler * list instr -> bool) s : existsb (fun x => f x.2) (map_to_list (threads s)) = false ->
  forall t th, threads s !! t = Some th -> f th = false.
Proof.
  intros H t th Ht. apply not_true_iff_false. intros Hf. apply not_true_iff_false in H. apply H. apply existsb_exists.
  exists (t, th). split; [|done]. apply list_elem_of_In. by apply elem_of_map_to_list.
Qed.

(** ** The rest of a handler *)

Definition live (l : nat) (m : memory) : Prop := is_Some (legs m !! l).
Definition over (l : nat) (m : memory) : Prop := exists x, legs m !! l = Some x /\ disconnected x = true.

(** Instructions that name no leg. *)
Definition plain (i : instr) : bool :=
  match i with
  | Register | Lock | Unlock | SetPeer _ | SetCallee _ | Test _ | CalleeTest | AnswerTest | IncomingTest _ | Resolve _ => true
  | _ => false
  end.

(** The rest of a mutator names live legs only, up to the Delete of one; a new
    leg finds its slot empty. *)
Fixpoint neat (m : memory) (p : list instr) : Prop :=
  match p with
  | [] => True
  | i :: p =>
    match i with
    | Register | Lock | Unlock | SetPeer _ | SetCallee _ => neat m p
    | Test _ | CalleeTest | AnswerTest | IncomingTest _ | Resolve _ => forallb plain p = true
    | SipTest _ => slot In m = None /\ forallb plain p = true
    | Load d => is_Some (slot d m) /\ forallb plain p = true
    | LoadAnswer => is_Some (slot In m) /\ forallb plain p = true
    | Null d => (forall l, slot d m = Some l -> ~ live l m) /\ forallb plain p = true
    | Mark l | Hangup l | Poll l _ | MakeCall l | Answer l => live l m /\ neat m p
    | Delete d l => live l m /\ slot d m = Some l /\ forallb plain p = true
    | NewLeg d => slot d m = None /\ forallb plain p = true
    | DialTest can => (can = true -> slot Out m = None) /\ forallb plain p = true
    | _ => False
    end
  end.

(** The rest of a leg's callback. *)
Fixpoint on_call (l : nat) (p : list instr) : Prop :=
  match p with
  | [] => True
  | SetDisconnected k :: p => k = l /\ p = []
  | (GetInfo k | Confirmed k | HungUpCheck k) :: p => k = l /\ on_call l p
  | _ => False
  end.

(** What handlers may rely on of the legs: their side, whether they are over. *)
Definition view (x : leg) : side * bool := (leg_side x, disconnected x).
Definition agree (m m' : memory) : Prop :=
  (forall l, view <$> legs m' !! l = view <$> legs m !! l) /\ forall d, slot d m' = slot d m.

Definition mention (i : instr) : option nat :=
  match i with
  | Mark l | Hangup l | Poll l _ | Delete _ l | MakeCall l | Answer l | DialDtmf l | GetInfo l | Confirmed l | HungUpCheck l
  | SetDisconnected l => Some l
  | _ => None
  end.
Definition reads (i : instr) : option side := match i with Load d => Some d | LoadAnswer => Some In | _ => None end.
(** Instructions that leave the slots and the views alone. *)
Definition steady (i : instr) : bool :=
  match i with Delete _ _ | NewLeg _ | Null _ | SetDisconnected _ => false | _ => true end.

(** ** Lemmas *)

Lemma plain_neat m p : forallb plain p = true -> neat m p.
Proof.
  induction p as [|i p IH]; intros H; [done|]. cbn in H. apply andb_true_iff in H as [Hi H]. destruct i; try discriminate Hi; cbn; auto.
Qed.
Lemma plain_app_neat m q p : neat m q -> forallb plain p = true -> neat m (q ++ p).
Proof.
  intros Hq Hp. induction q as [|i q IH]; [by apply plain_neat|].
  destruct i; cbn in Hq |- *; rewrite ?forallb_app, ?Hp, ?andb_true_r; try tauto; try (by apply IH); destruct Hq; auto.
Qed.

Lemma neat_frame m m' p : (forall l, live l m <-> live l m') -> (forall d, slot d m' = slot d m) -> neat m p -> neat m' p.
Proof.
  intros Hl Hs. pose proof (Hs Out) as Hout. pose proof (Hs In) as Hin. cbn in Hout, Hin. induction p as [|i p IH]; intros H; [done|].
  destruct i; cbn in H |- *; rewrite ?Hout, ?Hin, ?Hs; try done; try (by apply IH); try (destruct H as [H1 H2]; split; [by apply Hl|by apply IH]).
  - destruct H as (H1%Hl & H2 & H4); auto 10.
  - split; [|by apply H]. intros l Hd. rewrite <- Hl. by apply H.
Qed.

Lemma agree_live m m' l : agree m m' -> live l m -> live l m'.
Proof. intros [H _]. specialize (H l). unfold live. rewrite <- !(fmap_is_Some view). by rewrite H. Qed.
Lemma agree_view m m' l x : agree m m' -> legs m !! l = Some x -> exists y, legs m' !! l = Some y /\ view y = view x.
Proof. intros [H _] Hx. specialize (H l). rewrite Hx in H. cbn in H. apply fmap_Some in H as (y & Hy & E). eauto. Qed.
Lemma agree_sym m m' : agree m m' -> agree m' m.
Proof. intros [H1 H2]. split; intros; by rewrite ?H1, ?H2. Qed.
Lemma agree_over m m' l : agree m m' -> over l m -> over l m'.
Proof. intros H (x & Hx & Hd). destruct (agree_view _ _ _ _ H Hx) as (y & Hy & [= _ E]). exists y. by rewrite E. Qed.
Lemma agree_neat m m' p : agree m m' -> neat m p -> neat m' p.
Proof. intros H. apply neat_frame; [|by apply H]. intros l. split; apply agree_live; [done|by apply agree_sym]. Qed.

Section serial.
Context (fails : tid -> bool).

#[local] Instance agree_preorder : PreOrder agree.
Proof using Type. split; [by split|]. intros m1 m2 m3 [H1 H2] [H3 H4]. split; intros; by rewrite ?H3, ?H4. Qed.

Lemma agree_pjsip t i m : agree m (pjsip t i m).
Proof. unfold pjsip. by case_bool_decide. Qed.
Lemma agree_update m l g : (forall x, view (g x) = view x) -> agree m (update_leg l g m).
Proof.
  intros Hg. split; [|by intros []]. intros k. cbn. rewrite lookup_alter. case_decide as E; [subst k|done].
  destruct (legs m !! l) as [x|]; [|done]. cbn. by rewrite Hg.
Qed.
Lemma agree_touch {A} t i l (k : leg -> memory -> A * memory) o m :
  (forall x, agree m (k x m).2) -> agree m (touch t i l k o m).2.
Proof. intros Hk. unfold touch. by destruct (legs m !! l). Qed.
#[local] Hint Resolve agree_pjsip agree_update : core.

Lemma exec_agree t i m r : steady i = true -> exec fails t i m = Some r -> agree m r.2.
Proof.
  intros Hi E. destruct i; cbn in Hi, E; try discriminate; try (injection E as <-; done);
    try (injection E as <-; apply agree_touch; intros x; cbn; auto; fail).
  - injection E as <-. cbn. unfold registerPjsipThreadIfNeeded. by case_bool_decide.
  - destruct (callHandoffMutex m); [done|]. by injection E as <-.
  - injection E as <-. by destruct (slot d m).
  - destruct n; injection E as <-; [done|]. by apply agree_touch.
  - injection E as <-. by destruct (incomingSipCall m).
  - injection E as <-. apply agree_touch. intros x. cbn. etrans; [by apply agree_pjsip|done].
  - injection E as <-. apply agree_touch. intros x. destruct (leg_side x); [|done]. cbn. etrans; [|by apply agree_update]. by destruct (acceptSent x).
  - injection E as <-. apply agree_touch. intros x. destruct (leg_side x); cbn; [by destruct (_ && _)|].
    etrans; [|by apply agree_update]. by destruct (weHungUp x).
Qed.

(** No null pointer or pointer to a deleted leg has been used. *)
Definition never_dangled (m : memory) : Prop := Forall (fun f => match f with Dangling _ _ | NullPointer _ _ => False | _ => True end) (faults m).

Lemma dangled_pjsip t i m : never_dangled m -> never_dangled (pjsip t i m).
Proof. intros H. unfold pjsip. case_bool_decide; [done|]. apply Forall_app. split; [done|]. by apply Forall_singleton. Qed.
#[local] Hint Resolve dangled_pjsip : core.

Lemma exec_dangled t i m r : (forall l, mention i = Some l -> live l m) -> (forall d, reads i = Some d -> is_Some (slot d m)) -> exec fails t i m = Some r -> never_dangled m -> never_dangled r.2.
Proof.
  intros Hl Hr E H. destruct i; cbn in Hl, E; try (specialize (Hl _ eq_refl) as [x Hx]; unfold touch in E; rewrite Hx in E);
    try (specialize (Hr _ eq_refl) as [l Hr]; cbn in Hr; rewrite Hr in E);
    try (injection E as <-; cbn; auto; fail).
  - injection E as <-. cbn. unfold registerPjsipThreadIfNeeded. by case_bool_decide.
  - destruct (callHandoffMutex m); [done|]. by injection E as <-.
  - destruct n; by injection E as <-.
  - injection E as <-. by apply dangled_pjsip.
  - injection E as <-. by destruct d.
  - injection E as <-. destruct d; by apply dangled_pjsip.
  - injection E as <-. by apply dangled_pjsip.
  - injection E as <-. destruct (leg_side x); [|done]. by destruct (acceptSent x).
  - injection E as <-. destruct (leg_side x); cbn; [by destruct (_ && _)|]. by destruct (weHungUp x).
Qed.

(** ** The invariant *)

Record calm (s : system) : Prop := {
  ca_one : forall t t' th th', threads s !! t = Some th -> threads s !! t' = Some th' -> mutating th = true -> mutating th' = true -> t = t';
  ca_neat : forall t h p, threads s !! t = Some (h, p) -> mutator h = true -> neat (mem s) p;
  ca_call : forall t l c p, threads s !! t = Some (LegCallback l c, p) ->
    on_call l p /\ (p <> [] -> live l (mem s) /\ ~ over l (mem s));
  ca_calls : forall t t' l th th', threads s !! t = Some th -> threads s !! t' = Some th' -> on_leg l th = true -> on_leg l th' = true -> t = t';
  ca_legs : forall l x, legs (mem s) !! l = Some x -> slot (leg_side x) (mem s) = Some l;
  ca_slots : forall d l, slot d (mem s) = Some l -> live l (mem s) \/
    exists t h p, threads s !! t = Some (h, Null d :: p) /\ mutator h = true;
  ca_faults : never_dangled (mem s);
}.

(** A property that one thread at a time may have. *)
Lemma one_at_a_time (f : handler * list instr -> bool) s t h i p q : threads s !! t = Some (h, i :: p) ->
  (f (h, q) = true -> f (h, i :: p) = true) ->
  (forall t t' th th', threads s !! t = Some th -> threads s !! t' = Some th' -> f th = true -> f th' = true -> t = t') ->
  forall t1 t2 th th', <[t := (h, q)]> (threads s) !! t1 = Some th -> <[t := (h, q)]> (threads s) !! t2 = Some th' ->
    f th = true -> f th' = true -> t1 = t2.
Proof.
  intros Ht Hf H t1 t2 th th' [[<- <-]|[H1 E1]]%lookup_insert_Some [[<- <-]|[H2 E2]]%lookup_insert_Some F1 F2; eauto.
Qed.

(** What a step of one thread has to keep. *)
Lemma calm_step s t h i p q m' : calm s -> threads s !! t = Some (h, i :: p) ->
  (mutator h = true -> neat m' q) ->
  (forall t' h' p', t' <> t -> threads s !! t' = Some (h', p') -> mutator h' = true -> neat m' p') ->
  (forall l c, h = LegCallback l c -> on_call l q /\ (q <> [] -> live l m' /\ ~ over l m')) ->
  (forall t' l c p', t' <> t -> threads s !! t' = Some (LegCallback l c, p') -> p' <> [] -> live l m' /\ ~ over l m') ->
  (forall l x, legs m' !! l = Some x -> slot (leg_side x) m' = Some l) ->
  (forall d l, slot d m' = Some l -> live l m' \/ (exists p, q = Null d :: p /\ mutator h = true) \/
    exists t' h' p', t' <> t /\ threads s !! t' = Some (h', Null d :: p') /\ mutator h' = true) ->
  never_dangled m' ->
  calm (mkSystem m' (<[t := (h, q)]> (threads s))).
Proof.
  intros Hs Ht Hown Hothers Hcall Hcalls Hlegs Hslots Hf. split; cbn [mem threads]; [| | | |done| |done].
  - apply (one_at_a_time mutating _ _ _ _ _ _ Ht); [by destruct q|apply Hs].
  - intros t' h' p' [[<- [= <- <-]]|[Hne H']]%lookup_insert_Some; [by apply Hown|by apply (Hothers t' h')].
  - intros t' l c p' [[<- [= -> <-]]|[Hne H']]%lookup_insert_Some; [by eapply Hcall|].
    split; [by eapply (ca_call s Hs)|]. by eapply Hcalls.
  - intros t1 t2 l. apply (one_at_a_time (on_leg l) _ _ _ _ _ _ Ht); [by destruct h, q|]. intros ? ? ? ?. apply (ca_calls s Hs).
  - intros d l Hl. destruct (Hslots d l Hl) as [?|[(p' & -> & ?)|(t' & h' & p' & Hne & ? & ?)]]; [by left|right..].
    + exists t, h, p'. by rewrite lookup_insert_eq.
    + exists t', h', p'. by rewrite lookup_insert_ne by done.
Qed.

Lemma neat_mention m i p l : neat m (i :: p) -> mention i = Some l -> live l m.
Proof. destruct i; cbn; try done; by intros [H _] [= <-]. Qed.
Lemma call_mention k i p l : on_call k (i :: p) -> mention i = Some l -> l = k.
Proof. destruct i; cbn; try done; by intros [H _] [= <-]. Qed.

(** The slots as the mutator sees them. *)
Lemma mutator_slot s t h i p d l : calm s -> threads s !! t = Some (h, i :: p) -> mutator h = true -> i <> Null d ->
  slot d (mem s) = Some l -> live l (mem s).
Proof.
  intros Hs Ht Hm Hi Hl. destruct (ca_slots s Hs d l Hl) as [?|(t' & h' & p' & Ht' & Hm')]; [done|].
  rewrite (ca_one s Hs t t' _ _ Ht Ht' Hm Hm') in Ht. rewrite Ht in Ht'. by injection Ht' as _ -> _.
Qed.

Lemma neat_step s t h i p r : calm s -> threads s !! t = Some (h, i :: p) -> mutator h = true -> steady i = true ->
  exec fails t i (mem s) = Some r -> neat (mem s) (r.1 ++ p).
Proof.
  intros Hs Ht Hm Hi E. pose proof (ca_neat s Hs _ _ _ Ht Hm) as Hn.
  pose proof (fun d l => mutator_slot s t h i p d l Hs Ht Hm) as Hslot.
  destruct i; cbn in Hi, E, Hn; try discriminate; try done.
  - by injection E as <-.
  - destruct (callHandoffMutex (mem s)); [done|]. by injection E as <-.
  - by injection E as <-.
  - by injection E as <-.
  - by injection E as <-.
  - injection E as <-. apply plain_app_neat; [|done]. cbn [fst]. destruct (slot d (mem s)) as [l|] eqn:El; [|done]. cbn. by rewrite El.
  - destruct Hn as [[l El] Hn]. injection E as <-. rewrite El. apply plain_app_neat; [|done]. cbn [fst].
    assert (live l (mem s)) by (by eapply (Hslot d)). cbn. auto 10.
  - destruct Hn as [[x Hx] Hn]. injection E as <-. unfold touch. by rewrite Hx.
  - destruct Hn as [[x Hx] Hn]. injection E as <-. unfold touch. by rewrite Hx.
  - destruct Hn as [[x Hx] Hn]. destruct n; injection E as <-; [done|].
    unfold touch. rewrite Hx. cbn. destruct (disconnected x) eqn:Ed; [done|]. by split; [exists x|].
  - destruct Hn as [[x Hx] Hn]. injection E as <-. unfold touch. by rewrite Hx.
  - destruct Hn as [[x Hx] Hn]. injection E as <-. unfold touch. by rewrite Hx.
  - injection E as <-. apply plain_app_neat; [|done]. by destruct (isCallee (mem s)).
  - injection E as <-. apply plain_app_neat; [|done]. cbn [fst]. destruct (incomingSipCall (mem s)) as [l|] eqn:El; [|done].
    cbn. by rewrite El.
  - destruct Hn as [[l El] Hn]. injection E as <-. cbn in El. rewrite El. apply plain_app_neat; [|done]. cbn. split; [|done]. by apply (Hslot In).
  - injection E as <-. destruct Hn as [H1 H2]. apply plain_app_neat; [|done]. cbn. destruct can_bridge; [|by rewrite andb_false_r].
    rewrite andb_true_r. destruct (isCallee (mem s)); [|done]. cbn. by rewrite H1.
  - injection E as <-. apply plain_app_neat; [|done]. cbn. by destruct (incomingSipCall (mem s)) eqn:E1.
  - injection E as <-. destruct Hn as [H1 H2]. apply plain_app_neat; [|done]. cbn. by destruct (sipCall (mem s)).
  - injection E as <-. apply plain_app_neat; [|done]. by destruct r0.
Qed.

(** *** Instructions that make or delete no leg *)

Lemma thread_mention s t h i p l : sound fails s -> calm s -> threads s !! t = Some (h, i :: p) -> mention i = Some l -> live l (mem s).
Proof.
  intros Hso Hs Ht Hl. destruct (mutator h) eqn:Hm; [by eapply neat_mention; [eapply ca_neat|]|].
  destruct (head_ok _ _ _ _ _ _ (so_threads _ _ Hso _ _ _ Ht)) as (Hi & _ & Hk). destruct h as [| | | |k c]; try discriminate Hm.
  - by destruct i; try discriminate Hk; cbn in Hl, Hi; first [discriminate Hl|injection Hl as <-].
  - destruct (ca_call s Hs _ _ _ _ Ht) as [Hc Hlive]. rewrite (call_mention _ _ _ _ Hc Hl). by apply Hlive.
Qed.

Lemma thread_reads s t h i p d : sound fails s -> calm s -> threads s !! t = Some (h, i :: p) -> reads i = Some d -> is_Some (slot d (mem s)).
Proof.
  intros Hso Hs Ht Hd. destruct (mutator h) eqn:Hm.
  - pose proof (ca_neat s Hs _ _ _ Ht Hm) as Hn. destruct i; try discriminate Hd; injection Hd as <-; apply Hn.
  - destruct (head_ok _ _ _ _ _ _ (so_threads _ _ Hso _ _ _ Ht)) as (_ & _ & Hk). destruct h as [| | | |k c]; try discriminate Hm; [by destruct i|].
    destruct (ca_call s Hs _ _ _ _ Ht) as [Hc _]. by destruct i.
Qed.

Lemma call_next t i l p m r : on_call l (i :: p) -> exec fails t i m = Some r -> r.1 = [] /\ on_call l p.
Proof.
  intros Hc E. destruct i as [| | | | | | | | | | | | | | | | | | | | | | | |k|k|k|k]; cbn in Hc, E; try done; injection E as <-; unfold touch;
    destruct (legs m !! k) as [x|]; try (destruct (leg_side x)); destruct Hc as [-> Hc]; split; try done; by rewrite Hc.
Qed.

(** The callbacks and the Null of the other threads, when views and slots stay. *)
Lemma others_call s m' t' l c p' : calm s -> agree (mem s) m' -> threads s !! t' = Some (LegCallback l c, p') -> p' <> [] -> live l m' /\ ~ over l m'.
Proof.
  intros Hs Ha H' Hp. destruct (ca_call s Hs _ _ _ _ H') as [_ [H1 H2]]; [done|]. split; [by eapply agree_live|].
  intros Ho. apply H2. eapply agree_over; [by apply agree_sym|done].
Qed.

Lemma calm_steady s t h i p r : sound fails s -> calm s -> threads s !! t = Some (h, i :: p) -> steady i = true ->
  exec fails t i (mem s) = Some r -> calm (mkSystem r.2 (<[t := (h, r.1 ++ p)]> (threads s))).
Proof.
  intros Hso Hs Ht Hi E. pose proof (exec_agree _ _ _ _ Hi E) as Ha. apply (calm_step s t h i p); try done.
  - intros Hm. eapply agree_neat; [done|]. by eapply neat_step.
  - intros t' h' p' _ H' Hm. eapply agree_neat; [done|]. by eapply ca_neat.
  - intros l c ->. destruct (ca_call s Hs _ _ _ _ Ht) as [Hc _]. destruct (call_next _ _ _ _ _ _ Hc E) as [-> Hc']. split; [done|].
    intros _. by eapply others_call.
  - intros t' l c p' _ H'. by eapply others_call.
  - intros l x Hx. destruct (agree_view _ _ _ _ (agree_sym _ _ Ha) Hx) as (y & Hy & [= <- _]). destruct Ha as [_ ->]. by apply ca_legs.
  - intros d l. pose proof Ha as [_ ->]. intros Hl. destruct (ca_slots s Hs d l Hl) as [?|(t' & h' & p' & H' & Hm)]; [left; by eapply agree_live|].
    right. right. exists t', h', p'. split; [|done]. intros ->. rewrite Ht in H'. by injection H' as _ -> _.
  - eapply exec_dangled; [| |done|apply Hs]; [intros l Hl; by eapply thread_mention|intros d Hd; by eapply thread_reads].
Qed.

(** *** The others *)

(** Only a mutator makes or deletes a leg; only a leg's callback ends it. *)
Lemma is_mutator s t h i p : sound fails s -> calm s -> threads s !! t = Some (h, i :: p) ->
  steady i = false -> (forall l, i <> SetDisconnected l) -> mutator h = true.
Proof.
  intros Hso Hs Ht Hi Hne. destruct (head_ok _ _ _ _ _ _ (so_threads _ _ Hso _ _ _ Ht)) as (_ & _ & Hk).
  destruct h as [| | | |k c]; try done; [by destruct i|]. destruct (ca_call s Hs _ _ _ _ Ht) as [Hc _].
  by destruct i; try discriminate Hi; try done; destruct (Hne l).
Qed.
Lemma is_callback s t h l p : sound fails s -> calm s -> threads s !! t = Some (h, SetDisconnected l :: p) ->
  exists c, h = LegCallback l c /\ p = [].
Proof.
  intros Hso Hs Ht. destruct (head_ok _ _ _ _ _ _ (so_threads _ _ Hso _ _ _ Ht)) as (_ & _ & Hk).
  destruct (mutator h) eqn:Hm; [by pose proof (ca_neat s Hs _ _ _ Ht Hm)|]. destruct h as [| | | |k c]; try done.
  destruct (ca_call s Hs _ _ _ _ Ht) as [[-> ->] _]. by exists c.
Qed.

(** While a mutator goes on, the others have nothing of their own to keep. *)
Lemma others_neat s t h i p m' : calm s -> threads s !! t = Some (h, i :: p) -> mutator h = true ->
  forall t' h' p', t' <> t -> threads s !! t' = Some (h', p') -> mutator h' = true -> neat m' p'.
Proof. intros Hs Ht Hm t' h' [|i' p'] Hne H' Hm'; [done|]. destruct Hne. by eapply (ca_one s Hs). Qed.

Lemma calm_disconnected s t h l p r : sound fails s -> calm s -> threads s !! t = Some (h, SetDisconnected l :: p) ->
  exec fails t (SetDisconnected l) (mem s) = Some r -> calm (mkSystem r.2 (<[t := (h, r.1 ++ p)]> (threads s))).
Proof.
  intros Hso Hs Ht E. destruct (is_callback _ _ _ _ _ Hso Hs Ht) as (c & -> & ->).
  destruct (ca_call s Hs _ _ _ _ Ht) as [_ [[x Hx] _]]; [done|].
  assert (exec fails t (SetDisconnected l) (mem s) = Some ([], update_leg l (fun x => mkLeg (leg_side x) (weHungUp x) true (acceptSent x)) (mem s))) as E'
    by (cbn; unfold touch; by rewrite Hx).
  rewrite E' in E. injection E as <-. set (m' := update_leg _ _ _) in *. cbn [fst snd app].
  assert (forall k y, legs m' !! k = Some y -> exists z, legs (mem s) !! k = Some z /\ leg_side z = leg_side y /\ (k <> l -> z = y)) as Hview.
  { intros k y. cbn. rewrite lookup_alter. case_decide as Ek; [subst k; rewrite Hx; intros [= <-]; by exists x|]. intros Hy. by exists y. }
  assert (forall k, live k (mem s) <-> live k m') as Hlive.
  { intros k. unfold live, m', update_leg. cbn. rewrite lookup_alter. case_decide as Ek; [|done]. rewrite Ek. by rewrite fmap_is_Some. }
  assert (forall d, slot d m' = slot d (mem s)) as Hsl by (by intros []).
  apply (calm_step s t (LegCallback l c) (SetDisconnected l) []); try done.
  - intros t' h' p' _ H' Hm. eapply neat_frame; [exact Hlive|done|]. by eapply ca_neat.
  - intros t' k c' p' Hne H' Hp. destruct (ca_call s Hs _ _ _ _ H') as [_ [H1 H2]]; [done|]. split; [by apply Hlive|].
    intros (y & Hy & Hd). apply H2. destruct (Hview _ _ Hy) as (z & Hz & _ & E). exists z. split; [done|]. rewrite E; [done|]. intros ->.
    destruct Hne. destruct p' as [|i' p']; [done|]. eapply (ca_calls s Hs t' t l); [done..| |]; by cbn; rewrite bool_decide_eq_true_2.
  - intros k y Hy. rewrite Hsl. destruct (Hview _ _ Hy) as (z & Hz & <- & _). by apply ca_legs.
  - intros d k. rewrite Hsl. intros Hk. destruct (ca_slots s Hs d k Hk) as [?|(t' & h' & p' & H' & Hm)]; [left; by apply Hlive|right; right].
    exists t', h', p'. split; [|done]. intros ->. by rewrite Ht in H'.
  - eapply (exec_dangled t (SetDisconnected l) (mem s) (_, m')); [|done|exact E'|apply Hs]. intros k [= <-]. by eexists.
Qed.

(** No callback of a leg runs when the leg is deleted. *)
Lemma no_callback_at_delete s t h d l p : calm s -> threads s !! t = Some (h, Delete d l :: p) -> serial (Go t) s = true ->
  forall t' c p', threads s !! t' = Some (LegCallback l c, p') -> p' = [].
Proof.
  intros Hs Ht Hser t' c [|i p'] H'; [done|]. cbn in Hser. rewrite Ht in Hser. apply orb_true_iff in Hser as [Hd|Hn].
  - destruct (ca_call s Hs _ _ _ _ H') as [_ [[x Hx] Ho]]; [done|]. destruct Ho. rewrite Hx in Hd. by exists x.
  - apply negb_true_iff in Hn. pose proof (no_thread (on_leg l) s Hn _ _ H') as H. cbn in H. by rewrite bool_decide_eq_true_2 in H.
Qed.

Lemma calm_delete s t h d l p r : sound fails s -> calm s -> threads s !! t = Some (h, Delete d l :: p) ->
  serial (Go t) s = true -> exec fails t (Delete d l) (mem s) = Some r -> calm (mkSystem r.2 (<[t := (h, r.1 ++ p)]> (threads s))).
Proof.
  intros Hso Hs Ht Hser E. assert (mutator h = true) as Hm by (by eapply is_mutator).
  pose proof (no_callback_at_delete _ _ _ _ _ _ Hs Ht Hser) as Hcb.
  destruct (ca_neat s Hs _ _ _ Ht Hm) as ([x Hx] & Hsl & Hp).
  pose proof (ca_legs s Hs _ _ Hx) as Hside.
  assert (r = ([Null d], set_legs (delete l (legs (mem s))) (next_leg (mem s)) (pjsip t (Delete d l) (mem s)))) as ->
    by (cbn in E; unfold touch in E; rewrite Hx in E; by injection E as <-).
  set (m' := set_legs _ _ _) in *. cbn [fst snd].
  assert (forall d, slot d m' = slot d (mem s)) as Hs' by (intros []; unfold m', pjsip; by case_bool_decide).
  apply (calm_step s t h (Delete d l) p); try done.
  - intros _. cbn. split; [|done]. intros k. rewrite Hs', Hsl. intros [= <-] [y Hy]. unfold m', set_legs in Hy. cbn in Hy. by rewrite lookup_delete_eq in Hy.
  - by eapply others_neat.
  - intros k c ->. done.
  - intros t' k c p' _ H' Hp'. destruct (ca_call s Hs _ _ _ _ H') as [_ [[y Hy] H2]]; [done|].
    assert (k <> l) by (intros ->; by apply Hp', (Hcb t' c)). unfold live, over, m', set_legs. cbn. rewrite lookup_delete_ne by done. split; [by exists y|done].
  - intros k y Hy. unfold m', set_legs in Hy. cbn in Hy. apply lookup_delete_Some in Hy as [_ Hy]. rewrite Hs'. by apply ca_legs.
  - intros d' k. rewrite Hs'. intros Hk. destruct (decide (k = l)) as [->|Hne].
    + right. left. exists p. split; [|done]. assert (d' = leg_side x /\ d = leg_side x) as [-> ->]; [|done].
      destruct (so_slots _ _ Hso d' l Hk) as [[_ H1] _]. destruct (so_slots _ _ Hso d l Hsl) as [[_ H2] _]. split; symmetry; auto.
    + left. unfold live, m', set_legs. cbn. rewrite lookup_delete_ne by done. by eapply (mutator_slot s t h (Delete d l)).
  - apply (exec_dangled t (Delete d l) (mem s) ([Null d], m')); [|done|done|apply Hs]. intros k [= <-]. by eexists.
Qed.

Lemma calm_null s t h d p : sound fails s -> calm s -> threads s !! t = Some (h, Null d :: p) ->
  calm (mkSystem (set_slot d None (mem s)) (<[t := (h, p)]> (threads s))).
Proof.
  intros Hso Hs Ht. assert (mutator h = true) as Hm by (by eapply is_mutator).
  pose proof (ca_neat s Hs _ _ _ Ht Hm) as [Hno Hn].
  assert (forall l, legs (set_slot d None (mem s)) !! l = legs (mem s) !! l) as Hl by (by destruct d).
  apply (calm_step s t h (Null d) p); try done.
  - intros _. by apply plain_neat.
  - by eapply others_neat.
  - intros k c ->. done.
  - intros t' k c p' _ H' Hp'. unfold live, over. setoid_rewrite Hl. by apply (ca_call s Hs _ _ _ _ H').
  - intros k y. rewrite Hl. intros Hy. pose proof (ca_legs s Hs _ _ Hy) as Hk.
    assert (leg_side y <> d) by (intros <-; apply (Hno _ Hk); by eexists). by destruct d, (leg_side y).
  - intros d' k Hk. left. unfold live. rewrite Hl. assert (d' <> d /\ slot d' (mem s) = Some k) as [Hne Hk'] by (by destruct d, d').
    eapply (mutator_slot s t h (Null d)); try done. by intros [= ->].
  - by destruct d; apply Hs.
Qed.

Lemma calm_new_leg s t h d p r : sound fails s -> calm s -> threads s !! t = Some (h, NewLeg d :: p) ->
  exec fails t (NewLeg d) (mem s) = Some r -> calm (mkSystem r.2 (<[t := (h, r.1 ++ p)]> (threads s))).
Proof.
  intros Hso Hs Ht E. assert (mutator h = true) as Hm by (by eapply is_mutator).
  destruct (ca_neat s Hs _ _ _ Ht Hm) as [Hsl Hp]. set (l := next_leg (mem s)) in *.
  assert (legs (mem s) !! l = None) as Hfresh.
  { apply eq_None_not_Some. intros H%(so_fresh _ _ Hso). unfold l in H. lia. }
  assert (r.1 = [match d with Out => MakeCall l | In => Answer l end] /\ legs r.2 = <[l := mkLeg d false false false]> (legs (mem s)) /\
    slot d r.2 = Some l /\ forall d', d' <> d -> slot d' r.2 = slot d' (mem s)) as (Rq & Rl & Rd & Rs).
  { cbn in E. injection E as <-. unfold pjsip. destruct d; case_bool_decide; (split_and!; try done); by intros []. }
  assert (forall k, k <> l -> legs r.2 !! k = legs (mem s) !! k) as Hne by (intros k Hk; by rewrite Rl, lookup_insert_ne).
  assert (forall k, live k (mem s) -> k <> l) as Hold by (intros k [y Hy] ->; by rewrite Hfresh in Hy).
  apply (calm_step s t h (NewLeg d) p); try done.
  - intros _. rewrite Rq. apply plain_app_neat; [|done]. assert (live l r.2) by (unfold live; rewrite Rl, lookup_insert_eq; by eexists). by destruct d.
  - by eapply others_neat.
  - intros k c ->. done.
  - intros t' k c p' _ H' Hp'. destruct (ca_call s Hs _ _ _ _ H') as [_ [H1 H2]]; [done|].
    unfold live, over. rewrite Hne by (by apply Hold). done.
  - intros k y Hy. destruct (decide (k = l)) as [->|Hk].
    + rewrite Rl, lookup_insert_eq in Hy. injection Hy as <-. done.
    + rewrite Hne in Hy by done. pose proof (ca_legs s Hs _ _ Hy) as Hk'. rewrite Rs; [done|]. intros Ed. by rewrite Ed, Hsl in Hk'.
  - intros d' k Hk. left. destruct (decide (d' = d)) as [->|Hd].
    + rewrite Rd in Hk. injection Hk as <-. unfold live. rewrite Rl, lookup_insert_eq. by eexists.
    + rewrite Rs in Hk by done. assert (live k (mem s)) as Hlk by (by eapply (mutator_slot s t h (NewLeg d))).
      unfold live. rewrite Hne by (by apply Hold). done.
  - by eapply exec_dangled; [..|done|apply Hs].
Qed.

Lemma neat_program m h : match h with CallState _ (RINGING true) => sipCall m = None | _ => True end -> mutator h = true -> neat m (program h).
Proof. destruct h as [peer []| | | |]; intros H Hm; try done; cbn; by repeat case_match. Qed.

Lemma calm_start s t h : calm s -> pending t s = [] -> may_start t h s = true -> serial (Start t h) s = true ->
  calm (mkSystem (mem s) (<[t := (h, program h)]> (threads s))).
Proof.
  intros Hs Hp Hst Hser. cbn in Hser. apply andb_true_iff in Hser as [Hmu Hring].
  assert (mutator h = true -> forall t' th, threads s !! t' = Some th -> mutating th = false) as Halone.
  { intros Hm. rewrite Hm in Hmu. cbn in Hmu. apply negb_true_iff in Hmu. by apply no_thread. }
  assert (forall l c, h = LegCallback l c -> live l (mem s) /\ ~ over l (mem s) /\ forall t' th, threads s !! t' = Some th -> on_leg l th = false) as Hcb.
  { intros l c ->. cbn in Hst. rewrite !andb_true_iff in Hst. destruct Hst as [[_ Hl] Hc]. apply negb_true_iff in Hc.
    destruct (legs (mem s) !! l) as [x|] eqn:Hx; [|done]. split; [by exists x|]. split; [|by apply no_thread].
    intros (y & Hy & Hd). rewrite Hx in Hy. injection Hy as <-. by rewrite Hd in Hl. }
  assert (forall f : handler * list instr -> bool, (f (h, program h) = true -> forall t' th, threads s !! t' = Some th -> f th = false) ->
    (forall t1 t2 th th', threads s !! t1 = Some th -> threads s !! t2 = Some th' -> f th = true -> f th' = true -> t1 = t2) ->
    forall t1 t2 th th', <[t := (h, program h)]> (threads s) !! t1 = Some th -> <[t := (h, program h)]> (threads s) !! t2 = Some th' ->
      f th = true -> f th' = true -> t1 = t2) as Hone.
  { intros f Hf H t1 t2 th th' [[<- <-]|[H1 E1]]%lookup_insert_Some [[<- <-]|[H2 E2]]%lookup_insert_Some F1 F2; try done; [..|by eapply H].
    - by rewrite (Hf F1 _ _ E2) in F2.
    - by rewrite (Hf F2 _ _ E1) in F1. }
  split; cbn [mem threads]; try apply Hs.
  - apply (Hone mutating); [|apply Hs]. intros Hm. apply Halone. by destruct h as [peer []| | | |].
  - intros t' h' p' [[<- [= <- <-]]|[_ H']]%lookup_insert_Some Hm; [|by eapply (ca_neat s Hs)].
    apply neat_program; [|done]. destruct h as [peer [|[]| | |]| | | |]; try done. by apply bool_decide_eq_true in Hring.
  - intros t' l c p' [[<- [= -> <-]]|[_ H']]%lookup_insert_Some; [|by eapply (ca_call s Hs)].
    destruct (Hcb l c eq_refl) as (H1 & H2 & _). split; [by destruct c|done].
  - intros t1 t2 l. apply (Hone (on_leg l)); [|intros ? ? ? ?; apply (ca_calls s Hs)]. intros Hl. destruct h as [| | | |k c]; try done.
    cbn in Hl. apply bool_decide_eq_true in Hl as ->. by apply (Hcb l c).
  - intros d l Hl. destruct (ca_slots s Hs d l Hl) as [?|(t' & h' & p' & H' & Hm)]; [by left|right].
    exists t', h', p'. rewrite lookup_insert_ne; [done|]. intros <-. unfold pending in Hp. by rewrite H' in Hp.
Qed.

Lemma calm_apply e s s' : sound fails s -> calm s -> serial e s = true -> apply fails e s = Some s' -> calm s'.
Proof.
  intros Hso Hs Hser He. destruct e as [t h|t]; cbn [apply] in He.
  - destruct (pending t s) eqn:Hp; [|done]. destruct (may_start t h s) eqn:Hst; [|done]. injection He as <-. by apply calm_start.
  - destruct (threads s !! t) as [[h [|i p]]|] eqn:Ht; try done. destruct (exec fails t i (mem s)) as [r|] eqn:E; [|done].
    assert (s' = mkSystem r.2 (<[t := (h, r.1 ++ p)]> (threads s))) as -> by (destruct r; by injection He as <-). clear He.
    destruct (steady i) eqn:Ei; [by eapply calm_steady|].
    destruct i; try discriminate Ei; [by eapply calm_delete| |by eapply calm_new_leg|by eapply calm_disconnected].
    injection E as <-. by apply calm_null.
Qed.

(** *** The handlers that end a call *)

Definition ends (h : handler) : bool := match h with Teardown | CallState _ ENDED => true | _ => false end.
(** The instructions they are made of, and those that see to the leg of [d]. *)
Definition ending_instr (i : instr) : bool :=
  match i with NewLeg _ | DialTest _ | IncomingTest _ | SipTest _ | Resolve _ | CalleeTest | AnswerTest | LoadAnswer => false | _ => true end.
Definition frees (d : side) (i : instr) : bool :=
  match i with Test d' | Load d' | Delete d' _ | Null d' => bool_decide (d' = d) | _ => false end.

(** Each leg is gone or still to be seen to. *)
Definition ending (s : system) : Prop := forall t h p, threads s !! t = Some (h, p) -> p <> [] -> ends h = true ->
  forallb ending_instr p = true /\ forall d, slot d (mem s) = None \/ existsb (frees d) p = true.

Lemma exec_empty t i m r d : exec fails t i m = Some r -> i <> NewLeg d -> slot d m = None -> slot d r.2 = None.
Proof.
  intros E Hi Hd. destruct (steady i) eqn:Hs; [by destruct (exec_agree _ _ _ _ Hs E) as [_ ->]|].
  destruct i; try discriminate Hs; cbn in E; injection E as <-; unfold touch, pjsip.
  - destruct (legs m !! l); [|by destruct d]. case_bool_decide; by destruct d.
  - by destruct d, d0.
  - destruct d, d0; try done; case_bool_decide; done.
  - by destruct (legs m !! l), d.
Qed.

Lemma ending_own t i p m r : exec fails t i m = Some r -> forallb ending_instr (i :: p) = true ->
  (forall d, slot d m = None \/ existsb (frees d) (i :: p) = true) ->
  forallb ending_instr (r.1 ++ p) = true /\ forall d, slot d r.2 = None \/ existsb (frees d) (r.1 ++ p) = true.
Proof.
  intros E Hall H. cbn [forallb] in Hall. apply andb_true_iff in Hall as [Hi Hp]. split.
  - rewrite forallb_app, Hp, andb_true_r. destruct i; try discriminate Hi; cbn in E; unfold touch in E;
      repeat match type of E with context [match ?x with _ => _ end] => destruct x eqn:? end; try discriminate; by injection E as <-.
  - intros d. rewrite existsb_app. destruct (H d) as [Hd|Hd]; [left; eapply exec_empty; [done| |done]; by intros ->|].
    cbn in Hd. apply orb_true_iff in Hd as [Hd|Hd]; [|right; by rewrite Hd, orb_true_r].
    destruct i; try discriminate Hd; cbn in Hd; apply bool_decide_eq_true in Hd as ->; cbn in E; injection E as <-; unfold touch.
    + destruct (slot d m) eqn:El; [right|by left]. cbn. by rewrite bool_decide_eq_true_2.
    + destruct (slot d m) eqn:El; [right|left; by destruct d]. cbn. by rewrite bool_decide_eq_true_2.
    + right. destruct (legs m !! l); cbn; by rewrite bool_decide_eq_true_2.
    + left. by destruct d.
Qed.

Lemma ending_apply e s s' : sound fails s -> calm s -> ending s -> apply fails e s = Some s' -> ending s'.
Proof.
  intros Hso Hs He [(t & h & Hp & Hst & ->)|(t & h & i & p & r & Ht & E & ->)]%apply_inv t' h' p'; cbn [mem threads];
    intros [[<- [= <- <-]]|[Hne H']]%lookup_insert_Some Hn Hend; try (by eapply He).
  - split; [by destruct h as [peer []| | | |]|]. intros d. right. destruct d; by destruct h as [peer []| | | |].
  - eapply ending_own; [done|by eapply (He t h (i :: p))..].
  - destruct (He t' h' p' H' Hn Hend) as [H1 H2]. split; [done|]. intros d. destruct (H2 d) as [Hd|]; [left|by right].
    eapply exec_empty; [done| |done]. intros ->. assert (mutator h = true) as Hm by (by eapply is_mutator).
    destruct Hne. eapply (ca_one s Hs t t' _ _ Ht H'); [done|]. destruct p'; [done|]. by destruct h' as [peer []| | | |].
Qed.
Lemma calm_reachable ks s : rtc (serial_step fails) (idle ks) s -> sound fails s /\ calm s /\ ending s.
Proof.
  intros H. assert (sound fails s /\ holder_present s /\ calm s /\ ending s) as Hall; [|tauto].
  revert H. apply (rtc_invariant (serial_step fails) (fun s => sound fails s /\ holder_present s /\ calm s /\ ending s)).
  - intros s1 s2 (H1 & H2 & H3 & H4) (e & Hser & He).
    split_and!; [by eapply sound_apply|by eapply holder_apply|by eapply calm_apply|by eapply ending_apply].
  - destruct (sound_idle fails ks) as [H1 H2]. split_and!; [done..| |by intros ? ? ?]. split; cbn; try done; [by intros []|by constructor].
Qed.

(** The last instruction of such a handler leaves no leg. *)
Lemma ended_without_legs s s' t h i p : sound fails s -> calm s -> ending s -> threads s !! t = Some (h, i :: p) -> ends h = true ->
  serial (Go t) s = true -> apply fails (Go t) s = Some s' -> pending t s' = [] -> legs (mem s') = ∅.
Proof.
  intros Hso Hs He Ht Hend Hser Ha Hp. pose proof (calm_apply _ _ _ Hso Hs Hser Ha) as Hs'.
  cbn in Ha. rewrite Ht in Ha. destruct (exec fails t i (mem s)) as [[q m]|] eqn:E; [|done]. injection Ha as <-.
  unfold pending in Hp. cbn [threads] in Hp. rewrite lookup_insert_eq in Hp.
  destruct (He t h (i :: p) Ht) as [H1 H2]; [done|done|]. destruct (ending_own _ _ _ _ _ E H1 H2) as [_ H3]. cbn [fst snd] in H3.
  rewrite Hp in H3. apply map_empty. intros l. apply eq_None_not_Some. intros [x Hx].
  pose proof (ca_legs _ Hs' l x Hx) as Hsl. cbn [mem] in Hsl. destruct (H3 (leg_side x)) as [Hn|Hn]; [by rewrite Hn in Hsl|done].
Qed.
End serial.

(** ** What the histories of [Calls] rely on *)

(** C6: As long as the handlers that make or delete legs do not overlap
    (texts and the legs' own callbacks may run beside one of them), RINGING of a
    call comes only when the account has no SIP leg of its own, and a leg whose
    DISCONNECTED is not in when the five seconds of waiting are over is not
    deleted in the middle of one of its own callbacks, in every history: no null pointer and no pointer to a deleted leg is ever used;
    every leg there is is the one its account names (none is lost, two never
    share a side); between such handlers what the account names is there; and
    when the end of a call or a teardown is done, no leg is left. *)
Theorem serial_handlers_safe fails ks s (H : rtc (serial_step fails) (idle ks) s) :
  (forall t i, Dangling t i ∉ faults (mem s) /\ NullPointer t i ∉ faults (mem s)) /\
  (forall l x, legs (mem s) !! l = Some x -> slot (leg_side x) (mem s) = Some l) /\
  ((forall t h p, threads s !! t = Some (h, p) -> mutator h = true -> p = []) ->
   forall d l, slot d (mem s) = Some l -> exists x, legs (mem s) !! l = Some x /\ leg_side x = d) /\
  (forall t h i p s', threads s !! t = Some (h, i :: p) -> ends h = true -> serial (Go t) s = true ->
   apply fails (Go t) s = Some s' -> pending t s' = [] -> legs (mem s') = ∅).
Proof.
  destruct (calm_reachable _ _ _ H) as (Hso & Hc & He). split_and!.
  - pose proof (ca_faults s Hc) as Hf. unfold never_dangled in Hf. rewrite Forall_forall in Hf.
    intros t i. split; intros Hin; exact (Hf _ Hin).
  - apply Hc.
  - intros Hidle d l Hl. destruct (ca_slots s Hc d l Hl) as [[x Hx]|(t & h & p & Ht & Hm)]; [|by specialize (Hidle _ _ _ Ht Hm)].
    exists x. split; [done|]. by apply (so_slots _ _ Hso d l Hl).
  - intros t h i p s' Ht Hend Hser Ha. by eapply ended_without_legs.
Qed.

Module SerialRuns.
Open Scope nat_scope.

(** The PBX does not answer the hang-up: after fifty rounds the leg is deleted
    all the same. *)
Definition silent_pbx : list event :=
  Runs.bridged ++ Start 2 (CallState "bob" ENDED) :: Runs.go 61 2.
Example deleted_after_timeout :
  (fun s => (map_to_list (legs (mem s)), faults (mem s), pending 2 s)) <$> serial_run Runs.good silent_pbx Runs.started =
  Some ([], [], [Null Out; Unlock; Register; Test In; SetCallee false]).
Proof. vm_compute. reflexivity. Qed.

(** A callback of the leg starts late and is not through then: it goes on with a
    deleted leg.  [serial] leaves this history out. *)
Definition late_callback : list event :=
  Runs.bridged ++ Start 2 (CallState "bob" ENDED) :: Runs.go 59 2 ++ Start 0 (LegCallback 0 DISCONNECTED) :: Runs.go 2 2 ++ Runs.go 1 0.
Example callback_outlives_leg :
  ((fun s => faults (mem s)) <$> run Runs.good late_callback Runs.started,
   faults ∘ mem <$> serial_run Runs.good late_callback Runs.started) = (Some [Dangling 0 (GetInfo 0)], None).
Proof. vm_compute. reflexivity. Qed.

(** An incoming Signal call is bridged, answered by the PBX, dialled into by a
    text while it ends, and hung up; the leg's own callback ends it. *)
Definition whole_call : list event :=
  Runs.bridged ++ Start 0 (LegCallback 0 CONFIRMED) :: Runs.go 2 0 ++ Start 2 (CallState "bob" ENDED) :: Runs.go 7 2 ++
  Start 3 (TextMessage "bob") :: Runs.go 5 3 ++ Start 0 (LegCallback 0 DISCONNECTED) :: Runs.go 3 0 ++ Runs.go 9 2.
Lemma serial_handlers_safe_witness : exists s, rtc (serial_step Runs.good) Runs.started s /\
  log (mem s) = [SignalAccept 0; Dtmf 0 "bob"] /\ legs (mem s) = ∅ /\
  forall t i, Dangling t i ∉ faults (mem s) /\ NullPointer t i ∉ faults (mem s).
Proof.
  destruct (serial_run Runs.good whole_call Runs.started) as [s|] eqn:E; [|vm_compute in E; discriminate E]. exists s.
  assert (H : rtc (serial_step Runs.good) Runs.started s) by exact (serial_run_rtc _ _ _ _ E). vm_compute in E. injection E as <-.
  split; [exact H|]. split; [reflexivity|]. split; [reflexivity|]. exact (proj1 (serial_handlers_safe Runs.good {[ 0; 1 ]} _ H)).
Defined.
End SerialRuns.
