(* ===== verification/Push.v ===== *)
(** What the server pushes (src/daemon/main.cpp, [onPush]; [resolveServiceId]
    of src/signal/FfiUtil.h): decrypting an envelope, answering one that cannot
    be decrypted, forwarding typed digits into a bridged call, taking over a
    new account entropy pool, and queueing call messages.

    Decryption is an interface, [Decryptor], that Crypto.v implements.  The
    protobuf parsers, the service-id codec and PJSIP's [dialDtmf] are
    parameters.  The work given to the dispatch queue is data here;
    DispatchQueue.v is about how it is run. *)

From S2P Require Import Prelude Padding Storage ProtocolStores CallSignaling Crypto Calls.

Open Scope Z_scope.

(** ** The interface to decryption *)

Class Decryptor := {
  decrypt_identified : string * Z -> Z -> Bytes -> Comp conn Bytes;
  decrypt_sealed : Bytes -> Z -> Comp conn (string * Z * Bytes);
}.

(** It fails with std::exceptions only. *)
Class DecryptorLaws `{!Decryptor} := {
  identified_std : forall who t ct, raises_only is_std (decrypt_identified who t ct);
  sealed_std : forall ct ts, raises_only is_std (decrypt_sealed ct ts);
}.

(** Crypto.v's functions, over a handle table of their own. *)
Definition on_conn {A} (f : Comp pstate A) : Comp conn A := fun c =>
  let '(r, s) := f (mkP c ∅ 0 0) in (r, db_conn s).

#[export] Instance crypto_decryptor (lib : crypto_lib) (localAddress : string * Z) : Decryptor := {|
  decrypt_identified who t ct := on_conn (decryptCiphertext lib no_fault localAddress who t ct);
  decrypt_sealed sealed ts := on_conn (decryptSealedSender lib no_fault localAddress sealed ts);
|}.

(** libsignal reports its failures as SignalFfiErrors. *)
Record lib_std (lib : crypto_lib) : Prop := {
  ls_decrypt : forall m r l, raises_only is_std (signal_decrypt_message lib m r l);
  ls_decrypt_pre : forall m r l, raises_only is_std (signal_decrypt_pre_key_message lib m r l);
  ls_usmc : forall m, raises_only is_std (sealed_session_cipher_decrypt_to_usmc lib m);
  ls_validate : forall c k t, std_outcome (sender_certificate_validate lib c k t);
}.

Lemma decrypt_call_std lib l r t ct : lib_std lib -> raises_only is_std (decrypt_call lib l r t ct).
Proof. intros H. unfold decrypt_call. destruct (bool_decide _); apply H. Qed.

(** ** Data *)

Definition Envelope_Type_DOUBLE_RATCHET : Z := 1.
Definition Envelope_Type_PREKEY_MESSAGE : Z := 3.
Definition Envelope_Type_UNIDENTIFIED_SENDER : Z := 6.
Definition SignalCiphertextMessageTypeWhisper : Z := 2.
Definition SignalCiphertextMessageTypePreKey : Z := 3.

(** signalservice::Envelope, the fields the source uses. *)
Record Envelope := mkEnvelope {
  env_type : Z; env_content : Bytes; env_source : Bytes; env_device : Z;
  serverTimestamp : Z; clientTimestamp : Z;
}.

(** signalservice::DataMessage and Content. *)
Record DataMessage := mkData { dm_body : string; has_groupv2 : bool }.
Record InContent := mkInContent {
  datamessage : option DataMessage;
  sync_keys_pool : option string;      (* syncMessage.keys.accountEntropyPool *)
  callmessage : option CallMessage;
}.

(** What [onPush] defers to the dispatch queue. *)
Inductive work :=
| ReplyError (senderServiceId : string) (senderDeviceId : Z) (originalCiphertext : Bytes)
    (originalType originalTimestamp : Z)
| SyncContacts
| HandleCall (senderServiceId : string) (senderDeviceId localDeviceId : Z) (m : CallMessage).

Record inbox := mkInbox {
  in_account : AccountState;
  in_record : AccountRecord;             (* acct.account *)
  in_queue : list work;
  in_dialled : list (nat * string);      (* dialDtmf calls *)
}.

#[export] Instance has_conn_inbox : Has conn inbox := {|
  prj i := prj (in_account i);
  put c i := mkInbox (put c (in_account i)) (in_record i) (in_queue i) (in_dialled i);
|}.
#[export] Instance has_conn_inbox_laws : HasLaws conn inbox.
Proof. split; intros; cbn; try done. by destruct w as [[[]]]. Qed.

Definition push_work (w : work) : Comp inbox unit :=
  modify (fun i => mkInbox (in_account i) (in_record i) (in_queue i ++ [w]) (in_dialled i)).

Definition set_pool (pool : string) (a : AccountRecord) : AccountRecord :=
  Storage.mkAccount (e164 a) (aci a) (pni a) (password a) (device_id a) (registration_id a)
    (pni_registration_id a) (flow a) (Some pool) (media_root_backup_key a) (profile_key a)
    (registered_at a) (linked_at a) (prekeys_refreshed_at a) (server_url a) (sip_host a)
    (sip_extension a) (sip_password a) (sip_bridge_destination a) (sip_bridge_did a) (sip_srtp a)
    (sip_transport a) (sip_tls_ca_file a) (sip_tls_insecure a) (outgoing_call_target a)
    (signal_proxy a) (signal_censorship_circumvention a) (enabled a) (config_version a).

(** ^[0-9A-Da-d*#]{1,32}$ *)
Definition dtmf_char (c : ascii) : bool :=
  let n := nat_of_ascii c in
  (bool_decide (48 <= n <= 57) || bool_decide (65 <= n <= 68) || bool_decide (97 <= n <= 100) ||
   bool_decide (n = 42) || bool_decide (n = 35))%nat.
Definition is_dtmf (s : string) : bool :=
  bool_decide (1 <= String.length s <= 32)%nat && forallb dtmf_char (String.list_ascii_of_string s).

(** The protobuf parsers, the service-id codec, PJSIP. *)
Record push_lib := mkPushLib {
  parse_envelope : Bytes -> option Envelope;
  parse_content : Bytes -> option InContent;
  service_id_string : Bytes -> outcome string;
  dialDtmf : nat -> string -> outcome unit;
}.

Section Push.
Context `{Decryptor} (lib : push_lib) (fault : nat -> bool) (acct : string).

Definition resolveServiceId (binary : Bytes) : outcome string :=
  match binary with [] => Ok EmptyString | _ => service_id_string lib binary end.

Definition original_type (envelope : Envelope) : Z :=
  if bool_decide (env_type envelope = Envelope_Type_PREKEY_MESSAGE)
  then SignalCiphertextMessageTypePreKey else SignalCiphertextMessageTypeWhisper.

(** The [try] block and its handler: who sent what, or nothing. *)
Definition open_envelope (envelope : Envelope) : Comp inbox (option (string * Z * Bytes)) :=
  if bool_decide (env_type envelope = Envelope_Type_UNIDENTIFIED_SENDER) then
    catch_std (r ← lift (decrypt_sealed (env_content envelope) (serverTimestamp envelope)); mret (Some r))
      (fun _ => mret None)
  else if bool_decide (env_type envelope = Envelope_Type_DOUBLE_RATCHET) ||
          bool_decide (env_type envelope = Envelope_Type_PREKEY_MESSAGE) then
    catch_std (
      sender ← of_outcome (resolveServiceId (env_source envelope));
      catch_std (
        plaintext ← lift (decrypt_identified (sender, env_device envelope) (original_type envelope)
                            (env_content envelope));
        mret (Some (sender, env_device envelope, plaintext)))
        (fun _ =>
           when (str_nonempty sender)
             (push_work (ReplyError sender (env_device envelope) (env_content envelope)
                           (original_type envelope) (clientTimestamp envelope))) ;;
           mret None))
      (fun _ => mret None)
  else mret None.

(** The leg typed digits go to. *)
Definition bridged_leg (a : AccountState) : option nat :=
  match sipCall a with Some c => Some c | None => incomingSipCall a end.

Definition forward_dtmf (sender : string) (m : DataMessage) : Comp inbox unit :=
  when (negb (has_groupv2 m) && is_dtmf (dm_body m)) (
    i ← get;
    when (str_eqb sender (remotePeerId (in_account i)))
      match bridged_leg (in_account i) with
      | Some call =>
        catch_pj (modify (fun i => mkInbox (in_account i) (in_record i) (in_queue i)
                                     (in_dialled i ++ [(call, dm_body m)])) ;;
                  of_outcome (dialDtmf lib call (dm_body m))) (mret tt)
      | None => mret tt
      end).

Definition take_pool (pool : string) : Comp inbox unit :=
  modify (fun i => mkInbox (in_account i) (set_pool pool (in_record i)) (in_queue i) (in_dialled i)) ;;
  record ← gets in_record;
  lift (saveAccount fault acct record) ;;
  push_work SyncContacts.

(** What is done with a decrypted message. *)
Definition dispatch (sender : string) (device : Z) (content : InContent) : Comp inbox unit :=
  match datamessage content with Some m => forward_dtmf sender m | None => mret tt end ;;
  match sync_keys_pool content with Some pool => take_pool pool | None => mret tt end ;;
  match callmessage content with
  | Some m =>
    localDeviceId ← gets (fun i => u32 (device_id (in_record i)));
    push_work (HandleCall sender device localDeviceId m)
  | None => mret tt
  end.

Definition onPush (verb path : string) (body : Bytes) : Comp inbox unit :=
  if negb (str_eqb verb "PUT") || negb (str_eqb path "/api/v1/message") || bool_decide (body = [])
  then mret tt else
  match parse_envelope lib body with
  | None => mret tt
  | Some envelope =>
    opened ← open_envelope envelope;
    match opened with
    | None => mret tt
    | Some (sender, device, plaintext) =>
      match parse_content lib plaintext with
      | None => mret tt
      | Some content => dispatch sender device content
      end
    end
  end.
End Push.

(** ** Lemmas *)

(** The law of the interface, for Crypto.v. *)
Lemma crypto_identified_std lib l who t ct :
  lib_std lib -> raises_only is_std (on_conn (decryptCiphertext lib no_fault l who t ct)).
Proof.
  intros H c. unfold on_conn. rewrite decrypt_eq by done.
  pose proof (decrypt_call_std lib l who t ct H c) as Hc.
  destruct (decrypt_call _ _ _ _ _ c) as [[b|e] c']; [done|exact Hc].
Qed.

Lemma crypto_sealed_std lib l sealed ts :
  lib_std lib -> raises_only is_std (on_conn (decryptSealedSender lib no_fault l sealed ts)).
Proof.
  intros H c. unfold on_conn, decryptSealedSender. destruct trust_roots_eq as (r1 & r2 & ->).
  unfold mbind at 1, comp_bind at 1. rewrite create_from_eq.
  pose proof (ls_usmc lib H sealed c) as Hu. destruct (sealed_session_cipher_decrypt_to_usmc lib sealed c)
    as [[u|e] c1]; [|exact Hu]. step_ok.
  erewrite bind_ok; [|rewrite create_from_eq; reflexivity]. cbv beta. do 3 step_ok.
  unfold mbind at 1, comp_bind at 1. rewrite ffi_eq. unfold of_outcome. cbn [bytes_of].
  pose proof (ls_validate lib H (usmc_get_sender_cert lib u) [r1; r2] ts) as Hv.
  destruct (sender_certificate_validate _ _ _ _) as [[]|[w| |]]; [| |done..]; cbn [negb]; step_ok.
  2: { by do 2 step_ok. }
  do 8 step_ok. unfold mbind at 1, comp_bind at 1. rewrite decrypt_eq.
  2: { intros h Hh. repeat first [rewrite lookup_delete_ne by lia | rewrite lookup_insert_ne by lia]. done. }
  pose proof (decrypt_call_std lib l
    (sender_certificate_get_sender_uuid lib (usmc_get_sender_cert lib u),
     sender_certificate_get_device_id lib (usmc_get_sender_cert lib u))
    (usmc_get_msg_type lib u) (usmc_get_contents lib u) H c1) as Hc.
  destruct (decrypt_call _ _ _ _ _ c1) as [[b|e] c']; [done|exact Hc].
Qed.

(** Crypto.v keeps to the interface. *)
#[export] Instance crypto_decryptor_laws lib l (H : lib_std lib) :
  @DecryptorLaws (crypto_decryptor lib l).
Proof.
  split; intros; [by apply crypto_identified_std|by apply crypto_sealed_std].
Qed.

Section push.
#[local] Set Default Proof Using "Type".
Context `{Hdec : Decryptor} (lib : push_lib) (fault : nat -> bool) (acct : string).

Definition known_type (e : Envelope) : bool :=
  bool_decide (env_type e = Envelope_Type_UNIDENTIFIED_SENDER) ||
  bool_decide (env_type e = Envelope_Type_DOUBLE_RATCHET) ||
  bool_decide (env_type e = Envelope_Type_PREKEY_MESSAGE).

(** Who sent what, as the database and libsignal tell. *)
Definition decryption (e : Envelope) : Comp conn (string * Z * Bytes) :=
  if bool_decide (env_type e = Envelope_Type_UNIDENTIFIED_SENDER)
  then decrypt_sealed (env_content e) (serverTimestamp e)
  else sender ← of_outcome (resolveServiceId lib (env_source e));
       plaintext ← decrypt_identified (sender, env_device e) (original_type e) (env_content e);
       mret (sender, env_device e, plaintext).

(** The reply owed for an envelope that cannot be decrypted. *)
Definition reply_for (e : Envelope) : list work :=
  if bool_decide (env_type e = Envelope_Type_UNIDENTIFIED_SENDER) then []
  else match resolveServiceId lib (env_source e) with
       | Ok sender => if str_nonempty sender
                      then [ReplyError sender (env_device e) (env_content e) (original_type e) (clientTimestamp e)]
                      else []
       | Throw _ => []
       end.

Definition enqueue (ws : list work) (i : inbox) : inbox :=
  mkInbox (in_account i) (in_record i) (in_queue i ++ ws) (in_dialled i).

Lemma enqueue_nil i : enqueue [] i = i.
Proof. unfold enqueue. rewrite app_nil_r. by destruct i. Qed.

Lemma open_envelope_eq e i (Hk : known_type e = true) :
  open_envelope lib e i =
  let '(r, c) := decryption e (prj i) in
  match r with
  | Ok x => (Ok (Some x), put c i)
  | Throw (StdError _) => (Ok None, enqueue (reply_for e) (put c i))
  | Throw x => (Throw x, put c i)
  end.
Proof.
  unfold open_envelope, decryption, reply_for, known_type in *.
  destruct (bool_decide (env_type e = Envelope_Type_UNIDENTIFIED_SENDER)); cbn [orb] in *.
  - unfold catch_std, lift, mbind, comp_bind. cbn.
    destruct (decrypt_sealed _ _ _) as [[x|[w| |]] c]; rewrite ?enqueue_nil; done.
  - rewrite Hk. unfold of_outcome. unfold catch_std at 1. unfold mbind at 1, comp_bind at 1.
    destruct (resolveServiceId lib (env_source e)) as [sender|[w| |]].
    2-4: unfold mbind, comp_bind; by rewrite ?put_prj, ?enqueue_nil.
    unfold catch_std, lift, mbind, comp_bind. cbn.
    destruct (decrypt_identified _ _ _ _) as [[x|[w| |]] c]; [done| |done..].
    destruct (str_nonempty sender); [done|]. by rewrite enqueue_nil.
Qed.

(** The digits a message sends into the bridged call. *)
Definition dtmf_dial (sender : string) (content : InContent) (a : AccountState) : list (nat * string) :=
  match datamessage content with
  | Some m =>
    if negb (has_groupv2 m) && is_dtmf (dm_body m) && str_eqb sender (remotePeerId a) then
      match bridged_leg a with Some call => [(call, dm_body m)] | None => [] end
    else []
  | None => []
  end.

(** The work a message defers. *)
Definition deferred (sender : string) (device : Z) (content : InContent) (a : AccountRecord) : list work :=
  (match sync_keys_pool content with Some _ => [SyncContacts] | None => [] end) ++
  (match callmessage content with
   | Some m => [HandleCall sender device (u32 (device_id a)) m]
   | None => []
   end).

Definition new_record (content : InContent) (a : AccountRecord) : AccountRecord :=
  match sync_keys_pool content with Some pool => set_pool pool a | None => a end.

Definition dialled (sender : string) (content : InContent) (i : inbox) : inbox :=
  mkInbox (in_account i) (in_record i) (in_queue i) (in_dialled i ++ dtmf_dial sender content (in_account i)).

Lemma forward_dtmf_eq sender content i (Hdial : forall call s, pj_outcome (dialDtmf lib call s)) :
  match datamessage content with Some m => forward_dtmf lib sender m | None => mret tt end i =
  (Ok tt, dialled sender content i).
Proof.
  assert ((Ok tt, i) = (Ok tt : outcome unit,
    mkInbox (in_account i) (in_record i) (in_queue i) (in_dialled i ++ []))) as Hnone.
  { rewrite app_nil_r. by destruct i. }
  unfold dialled, dtmf_dial. destruct (datamessage content) as [m|]; [|exact Hnone]. unfold forward_dtmf.
  destruct (negb (has_groupv2 m) && is_dtmf (dm_body m)); [|exact Hnone]. cbn [andb when].
  unfold get. unfold mbind at 1, comp_bind at 1.
  destruct (str_eqb sender (remotePeerId (in_account i))); [|exact Hnone]. cbn [when].
  destruct (bridged_leg (in_account i)) as [call|]; [|exact Hnone].
  unfold catch_pj, modify, of_outcome, mbind, comp_bind. specialize (Hdial call (dm_body m)).
  by destruct (dialDtmf lib call (dm_body m)) as [[]|[w| |]].
Qed.

(** What saving the record can do. *)
Lemma saveAccount_cases a c :
  (exists w c', saveAccount fault acct a c = (Throw (StdError w), c')) \/
  (exists c', saveAccount fault acct a c = (Ok tt, c') /\
     exists row, account (cdb c') !! acct = Some row /\ account_entropy_pool row = account_entropy_pool a).
Proof.
  unfold saveAccount. destruct (write_cases fault "saveAccount failed" (fun d => Some (set_account (fun m =>
      <[acct := take_identity a (default column_defaults (m !! acct))]> m) d)) c)
    as (n & [(w & ->)|(d' & [= <-] & ->)]); [left; eauto|right].
  eexists. split; [done|]. eexists. split; [apply lookup_insert_eq|done].
Qed.

Lemma dispatch_eq sender device content i (Hdial : forall call s, pj_outcome (dialDtmf lib call s)) :
  let i1 := dialled sender content i in
  dispatch lib fault acct sender device content i =
  match sync_keys_pool content with
  | Some pool =>
    let '(r, c) := saveAccount fault acct (set_pool pool (in_record i)) (prj i) in
    let i2 := put c (mkInbox (in_account i1) (set_pool pool (in_record i)) (in_queue i1) (in_dialled i1)) in
    match r with
    | Ok _ => (Ok tt, enqueue (deferred sender device content (in_record i)) i2)
    | Throw e => (Throw e, i2)
    end
  | None => (Ok tt, enqueue (deferred sender device content (in_record i)) i1)
  end.
Proof.
  intros i1. unfold dispatch. rewrite (bind_ok _ _ _ _ _ (forward_dtmf_eq sender content i Hdial)).
  fold i1. unfold deferred. destruct (sync_keys_pool content) as [pool|].
  - unfold take_pool, modify, gets, lift, push_work, mbind, comp_bind. cbn.
    change (prj (in_account i1)) with (prj (in_account i)).
    destruct (saveAccount _ _ _ _) as [[[]|e] c]; [|done].
    destruct (callmessage content); [|done]. unfold enqueue, modify. cbn. by rewrite <- app_assoc.
  - unfold gets, push_work, modify, mbind, comp_bind. cbn. destruct (callmessage content); [done|].
    unfold enqueue. rewrite app_nil_r. by destruct i1.
Qed.

Lemma decryption_std e (Hlaws : DecryptorLaws) (Hid : forall b, std_outcome (service_id_string lib b)) :
  raises_only is_std (decryption e).
Proof.
  unfold decryption. destruct (bool_decide _); [apply sealed_std|].
  apply raises_bind; [apply raises_of_outcome; unfold resolveServiceId; destruct (env_source e) as [|z l]|].
  - done.
  - specialize (Hid (z :: l)). by destruct (service_id_string lib (z :: l)) as [?|[]].
  - intros sender. apply raises_bind; [apply identified_std|intros pt; apply raises_ret].
Qed.

Lemma onPush_unknown body e i :
  parse_envelope lib body = Some e -> known_type e = false ->
  forall verb path, onPush lib fault acct verb path body i = (Ok tt, i).
Proof.
  intros Hp Hk verb path. unfold onPush. rewrite Hp. destruct (_ || _); [done|].
  unfold known_type in Hk. unfold open_envelope, mbind, comp_bind.
  apply orb_false_iff in Hk as [Hk1 Hk3]. apply orb_false_iff in Hk1 as [Hk1 Hk2].
  by rewrite Hk1, Hk2, Hk3.
Qed.

(** A push that carries an envelope. *)
Lemma onPush_eq body e i :
  body <> [] -> parse_envelope lib body = Some e -> known_type e = true ->
  onPush lib fault acct "PUT" "/api/v1/message" body i =
  let '(r, c) := decryption e (prj i) in
  match r with
  | Ok (sender, device, plaintext) =>
    match parse_content lib plaintext with
    | None => (Ok tt, put c i)
    | Some content => dispatch lib fault acct sender device content (put c i)
    end
  | Throw (StdError _) => (Ok tt, enqueue (reply_for e) (put c i))
  | Throw x => (Throw x, put c i)
  end.
Proof.
  intros Hb Hp Hk. unfold onPush. rewrite (bool_decide_eq_false_2 (body = [])) by done. cbn [negb orb].
  change (str_eqb "PUT" "PUT") with true. change (str_eqb "/api/v1/message" "/api/v1/message") with true.
  cbn [negb orb]. rewrite Hp. unfold mbind, comp_bind. rewrite open_envelope_eq by done.
  destruct (decryption e (prj i)) as [[[[sender device] plaintext]|[w| |]] c]; [|done..].
  by destruct (parse_content lib plaintext).
Qed.

(** What a content does to the database beyond its decryption: a new entropy
    pool is written with the identity columns of the account's record, into the
    row that is there or a new one; the row's other columns, the other accounts
    and the other tables stay. *)
Definition content_db (content : InContent) (a : AccountRecord) (d : db) : db :=
  match sync_keys_pool content with
  | Some pool => set_account (fun m => <[acct := take_identity (set_pool pool a) (default column_defaults (m !! acct))]> m) d
  | None => d
  end.

(** C10: what a pushed envelope that decrypts does, in full, when the database
    takes a new entropy pool: a message of typed digits from the peer of the
    call, outside a group, is dialled into the bridged leg and nothing else is; a
    new entropy pool replaces the old one in the account's record and in its row
    of the database, and a contact sync is queued; and a call message is queued
    after it, with the sender libsignal authenticated.  Nothing else of the
    account and, beyond what decryption did, of the database changes. *)
Theorem decrypted_message_dispatched body e i sender device plaintext content c
    (Hdial : forall call s, pj_outcome (dialDtmf lib call s))
    (Hb : body <> []) (Hp : parse_envelope lib body = Some e) (Hk : known_type e = true)
    (Hd : decryption e (prj i) = (Ok (sender, device, plaintext), c))
    (Hc : parse_content lib plaintext = Some content)
    (Hs : forall pool, sync_keys_pool content = Some pool ->
       (saveAccount fault acct (set_pool pool (in_record i)) c).1 = Ok tt) :
  exists c', onPush lib fault acct "PUT" "/api/v1/message" body i =
    (Ok tt, mkInbox (put c' (in_account i)) (new_record content (in_record i))
              (in_queue i ++ deferred sender device content (in_record i))
              (in_dialled i ++ dtmf_dial sender content (in_account i))) /\
    cdb c' = content_db content (in_record i) (cdb c) /\ saved c' = saved c.
Proof.
  rewrite (onPush_eq body e) by done. rewrite Hd, Hc. rewrite dispatch_eq by done. unfold new_record, content_db.
  destruct (sync_keys_pool content) as [pool|].
  - specialize (Hs pool eq_refl). change (prj (put c i)) with c. cbn [in_record].
    change (in_record (put c i)) with (in_record i). unfold saveAccount in *.
    match goal with |- context [write fault ?w ?u c] => destruct (write_cases fault w u c) as (n & [(x & E)|(d' & Hd' & E)]) end;
      rewrite E in Hs |- *; [done|]. injection Hd' as <-. eexists. split_and!; done.
  - exists c. by split_and!.
Qed.

(** An envelope that cannot be decrypted never disturbs the account: the
    push ends normally, and the only thing queued is one reply to the sender
    of an identified message, with exactly the ciphertext, type and timestamp
    that arrived; a sealed-sender message, or one whose sender is not given or
    not readable, gets none. *)
Lemma undecryptable_envelope_answered body e i w c
    (Hb : body <> []) (Hp : parse_envelope lib body = Some e) (Hk : known_type e = true)
    (Hd : decryption e (prj i) = (Throw (StdError w), c)) :
  exists replies, onPush lib fault acct "PUT" "/api/v1/message" body i =
    (Ok tt, mkInbox (put c (in_account i)) (in_record i) (in_queue i ++ replies) (in_dialled i)) /\
    if bool_decide (env_type e = Envelope_Type_UNIDENTIFIED_SENDER) then replies = []
    else forall sender, resolveServiceId lib (env_source e) = Ok sender ->
      replies = if str_empty sender then []
                else [ReplyError sender (env_device e) (env_content e)
                        (if bool_decide (env_type e = Envelope_Type_PREKEY_MESSAGE) then 3 else 2)
                        (clientTimestamp e)].
Proof.
  exists (reply_for e). rewrite (onPush_eq body e) by done. rewrite Hd. split; [done|]. unfold reply_for.
  destruct (bool_decide (env_type e = Envelope_Type_UNIDENTIFIED_SENDER)); [done|].
  intros sender ->. unfold str_nonempty. by destruct (str_empty sender).
Qed.

(** [onPush] runs inside a callback libsignal makes, with no handler around
    it.  The only exception that leaves it, whatever is pushed, is the one
    [saveAccount] raises for a new entropy pool; and that one does leave it,
    whenever the database refuses the write, before the call message of the
    same envelope is queued. *)
Lemma push_throws_when_save_fails (Hlaws : DecryptorLaws)
    (Hdial : forall call s, pj_outcome (dialDtmf lib call s)) (Hid : forall b, std_outcome (service_id_string lib b)) :
  (forall verb path body i x, (onPush lib fault acct verb path body i).1 = Throw x ->
     exists pool c, (saveAccount fault acct (set_pool pool (in_record i)) c).1 = Throw x /\ is_std x) /\
  (forall body e i sender device plaintext content pool c x,
     body <> [] -> parse_envelope lib body = Some e -> known_type e = true ->
     decryption e (prj i) = (Ok (sender, device, plaintext), c) ->
     parse_content lib plaintext = Some content -> sync_keys_pool content = Some pool ->
     (saveAccount fault acct (set_pool pool (in_record i)) c).1 = Throw x ->
     let '(r, i') := onPush lib fault acct "PUT" "/api/v1/message" body i in
     r = Throw x /\ in_queue i' = in_queue i /\ account_entropy_pool (in_record i') = Some pool).
Proof.
  split.
  - intros verb path body i x. destruct (str_eqb verb "PUT") eqn:E1; [|unfold onPush; by rewrite E1].
    destruct (str_eqb path "/api/v1/message") eqn:E2; [|unfold onPush; by rewrite E1, E2].
    destruct (decide (body = [])) as [->|Hb]; [unfold onPush; by rewrite E1, E2|].
    apply bool_decide_eq_true_1 in E1 as ->. apply bool_decide_eq_true_1 in E2 as ->.
    destruct (parse_envelope lib body) as [e|] eqn:Hp.
    2: { unfold onPush. rewrite Hp. by destruct (_ || _). }
    destruct (known_type e) eqn:Hk; [|by rewrite (onPush_unknown body e)].
    rewrite (onPush_eq body e) by done. pose proof (decryption_std e Hlaws Hid (prj i)) as Hstd.
    destruct (decryption e (prj i)) as [[[[sender device] plaintext]|[w| |]] c]; [|done..].
    destruct (parse_content lib plaintext) as [content|]; [|done]. rewrite dispatch_eq by done.
    destruct (sync_keys_pool content) as [pool|]; [|done]. change (in_record (put c i)) with (in_record i).
    destruct (saveAccount_cases (set_pool pool (in_record i)) (prj (put c i))) as [(w & c' & E)|(c' & E & _)];
      rewrite E; [|done]. intros [= <-]. exists pool, (prj (put c i)). by rewrite E.
  - intros body e i sender device plaintext content pool c x Hb Hp Hk Hd Hc Hpool Hs.
    rewrite (onPush_eq body e) by done. rewrite Hd, Hc, dispatch_eq by done. rewrite Hpool.
    change (prj (put c i)) with c. change (in_record (put c i)) with (in_record i).
    destruct (saveAccount fault acct _ c) as [r c']. cbn in Hs. by rewrite Hs.
Qed.

(** The entropy pool, from which the keys of the account's storage are
    derived, is taken from anyone: for every sender whose message decrypts and
    carries one, whoever that is, the record in memory and the row in the
    database hold the sender's pool afterwards. *)
Lemma any_sender_replaces_entropy_pool body e i sender device plaintext content pool c
    (Hdial : forall call s, pj_outcome (dialDtmf lib call s))
    (Hb : body <> []) (Hp : parse_envelope lib body = Some e) (Hk : known_type e = true)
    (Hd : decryption e (prj i) = (Ok (sender, device, plaintext), c))
    (Hc : parse_content lib plaintext = Some content) (Hpool : sync_keys_pool content = Some pool) :
  let '(r, i') := onPush lib fault acct "PUT" "/api/v1/message" body i in
  r = Ok tt -> account_entropy_pool (in_record i') = Some pool /\ SyncContacts ∈ in_queue i' /\
    exists row, account (cdb (prj i')) !! acct = Some row /\ account_entropy_pool row = Some pool.
Proof.
  rewrite (onPush_eq body e) by done. rewrite Hd, Hc, dispatch_eq by done. rewrite Hpool.
  change (prj (put c i)) with c. change (in_record (put c i)) with (in_record i).
  destruct (saveAccount_cases (set_pool pool (in_record i)) c) as [(w & c' & ->)|(c' & -> & row & Hrow & Hpl)];
    [done|]. intros _. split; [done|]. split.
  - unfold enqueue. cbn. apply elem_of_app. right. unfold deferred. rewrite Hpool. by left.
  - by exists row.
Qed.
End push.

(** ** Examples *)

(** A message of each kind, told apart by its first byte; a digit dialled into
    leg 1 while a call with "peer" is bridged. *)
Definition keys_content : InContent := mkInContent None (Some "pool"%string) (Some empty_call).
Definition sample_content (p : Bytes) : option InContent :=
  match p with
  | [42] => Some (mkInContent (Some (mkData "1#" false)) None (Some empty_call))
  | [43] => Some keys_content
  | _ => None
  end.
Definition push_of (t : Z) (content : Bytes) : push_lib :=
  mkPushLib (fun _ => Some (mkEnvelope t content [5] 4 0 77)) sample_content (fun _ => Ok "sender"%string)
    (fun _ _ => Throw PjError).
Definition with_peer : inbox :=
  mkInbox (Calls.set_sipCall (Some 1%nat) ∅ (set_peer 9 "sender" sample_account)) column_defaults [] [].

Definition toy_decryptor : Decryptor := crypto_decryptor toy_lib ("me"%string, 1).

Lemma toy_std : lib_std toy_lib.
Proof.
  split; cbn; try done; intros m; repeat (destruct m as [|[|p|p] m]; try done); repeat (destruct p as [p|p|]; try done).
Qed.

Lemma toy_dials content t call s : pj_outcome (dialDtmf (push_of t content) call s).
Proof. done. Qed.

Lemma decrypted_message_dispatched_witness :
  exists c', @onPush toy_decryptor (push_of 1 [7; 43; 0x80; 0]) no_fault "a" "PUT" "/api/v1/message" [1] with_peer =
    (Ok tt, mkInbox (put c' (in_account with_peer)) (set_pool "pool" column_defaults)
              (in_queue with_peer ++ deferred "sender" 4 keys_content column_defaults) ([] ++ [])) /\
    cdb c' = content_db "a" keys_content column_defaults (cdb two_accounts) /\ saved c' = None.
Proof.
  apply (@decrypted_message_dispatched toy_decryptor (push_of 1 [7; 43; 0x80; 0]) no_fault "a" [1]
    (mkEnvelope 1 [7; 43; 0x80; 0] [5] 4 0 77) with_peer "sender" 4 [43] keys_content two_accounts).
  - apply toy_dials.
  - done.
  - reflexivity.
  - reflexivity.
  - vm_compute. reflexivity.
  - reflexivity.
  - intros pool _. reflexivity.
Defined.

(** The digits are dialled, and the call message queued. *)
Example digits_dialled :
  let '(r, i) := @onPush toy_decryptor (push_of 1 [7; 42; 0x80; 0]) no_fault "a" "PUT" "/api/v1/message" [1] with_peer in
  (r, in_queue i, in_dialled i) = (Ok tt, [HandleCall "sender" 4 0 empty_call], [(1%nat, "1#"%string)]).
Proof. vm_compute. reflexivity. Qed.

Lemma undecryptable_envelope_answered_witness :
  exists replies, @onPush toy_decryptor (push_of 3 [8]) no_fault "a" "PUT" "/api/v1/message" [1] with_peer =
    (Ok tt, mkInbox (put two_accounts (in_account with_peer)) column_defaults ([] ++ replies) []) /\
    if bool_decide (3 = Envelope_Type_UNIDENTIFIED_SENDER) then replies = []
    else forall sender, resolveServiceId (push_of 3 [8]) [5] = Ok sender ->
      replies = if str_empty sender then []
                else [ReplyError sender 4 [8] (if bool_decide (3 = Envelope_Type_PREKEY_MESSAGE) then 3 else 2) 77].
Proof.
  apply (@undecryptable_envelope_answered toy_decryptor (push_of 3 [8]) no_fault "a" [1]
    (mkEnvelope 3 [8] [5] 4 0 77) with_peer "invalid message" two_accounts).
  - done.
  - reflexivity.
  - reflexivity.
  - vm_compute. reflexivity.
Defined.

(** Every call into SQLite fails. *)
Lemma push_throws_when_save_fails_witness :
  let '(r, i') := @onPush toy_decryptor (push_of 1 [7; 43; 0x80; 0]) (fun _ => true) "a" "PUT" "/api/v1/message"
                    [1] with_peer in
  r = Throw (StdError "sqlite3_prepare_v2 failed") /\ in_queue i' = [] /\
  account_entropy_pool (in_record i') = Some "pool"%string.
Proof.
  apply (proj2 (@push_throws_when_save_fails toy_decryptor (push_of 1 [7; 43; 0x80; 0]) (fun _ => true) "a"
    (crypto_decryptor_laws toy_lib ("me"%string, 1) toy_std) (toy_dials _ _) (fun _ => I))
    [1] (mkEnvelope 1 [7; 43; 0x80; 0] [5] 4 0 77) with_peer "sender"%string 4 [43]
    (mkInContent None (Some "pool"%string) (Some empty_call)) "pool"%string two_accounts).
  - done.
  - reflexivity.
  - reflexivity.
  - vm_compute. reflexivity.
  - reflexivity.
  - reflexivity.
  - vm_compute. reflexivity.
Defined.

Lemma any_sender_replaces_entropy_pool_witness :
  let '(r, i') := @onPush toy_decryptor (push_of 1 [7; 43; 0x80; 0]) no_fault "a" "PUT" "/api/v1/message" [1]
                    with_peer in
  r = Ok tt -> account_entropy_pool (in_record i') = Some "pool"%string /\ SyncContacts ∈ in_queue i' /\
    exists row, account (cdb (prj i')) !! "a"%string = Some row /\ account_entropy_pool row = Some "pool"%string.
Proof.
  apply (@any_sender_replaces_entropy_pool toy_decryptor (push_of 1 [7; 43; 0x80; 0]) no_fault "a" [1]
    (mkEnvelope 1 [7; 43; 0x80; 0] [5] 4 0 77) with_peer "sender" 4 [43]
    (mkInContent None (Some "pool"%string) (Some empty_call)) "pool" two_accounts).
  - apply toy_dials.
  - done.
  - reflexivity.
  - reflexivity.
  - vm_compute. reflexivity.
  - reflexivity.
  - reflexivity.
Defined.
