(* ===== verification/EndToEnd.v ===== *)
(** A call message from one account to another: the sender's encryption
    (CallSignaling.v over Crypto.v), the wire format (Base64.v, the envelope
    types) and the receiver's [onPush] (Push.v over Crypto.v), composed. *)

From S2P Require Import Prelude Base64 Padding Storage ProtocolStores CallSignaling Crypto Calls Push.

Open Scope Z_scope.

Section wire.
Context (lib lib' : crypto_lib) (me you : string * Z).
Context (parse_json : Bytes -> outcome json) (content_bytes : Content -> Bytes).
Context (registration_id : Bytes -> outcome Z) (plib : push_lib).

(** The envelope the server makes of an entry of PUT /v1/messages. *)
Definition delivered (m : message) (source : Bytes) (device ts ts' : Z) : Envelope :=
  mkEnvelope (m_type m) (base64Decode (m_content m)) source device ts ts'.

(** The type of a message and back. *)
Lemma envelope_type_roundtrip t (Ht : t = 2 \/ t = 3) m source ts ts' :
  m_type m = (if bool_decide (t = kCiphertextPreKey) then 3 else 1) ->
  let e := delivered m source (me.2) ts ts' in
  known_type e = true /\ env_type e <> Envelope_Type_UNIDENTIFIED_SENDER /\ original_type e = t.
Proof. intros E. unfold known_type, original_type, delivered. cbn. rewrite E. by destruct Ht as [-> | ->]. Qed.

Lemma encrypt_content_inv fault acct plaintext device s m s' :
  encrypt_one (sender_libraries lib me parse_json content_bytes registration_id) fault acct you.1 plaintext
    device s = (Ok m, s') ->
  exists padded ct t c, padMessageBody plaintext = Some padded /\
    signal_encrypt_message lib padded (you.1, u32 device) me (stores s) = (Ok (ct, t), c) /\
    m_type m = (if bool_decide (t = kCiphertextPreKey) then 3 else 1) /\ m_content m = base64Encode ct.
Proof.
  intros (padded & ct & t & c & r & reg & Hp & He & _ & _ & ->)%encrypt_one_inv. by exists padded, ct, t, c.
Qed.
End wire.

(** What libsignal promises the pair: a message encrypted in the sender's
    session is a byte string of one of the two session types, and the
    receiver's session decrypts it to what was encrypted. *)
Definition sessions_agree (lib lib' : crypto_lib) (me you : string * Z) (c c' : conn) : Prop :=
  forall padded ct t c1, Forall is_byte padded -> signal_encrypt_message lib padded you me c = (Ok (ct, t), c1) ->
    Forall is_byte ct /\ (t = 2 \/ t = 3) /\ (decrypt_call lib' you me t ct c').1 = Ok padded.

Lemma padded_bytes m padded :
  Forall is_byte m -> fits_size_t m -> padMessageBody m = Some padded -> Forall is_byte padded.
Proof.
  intros Hm Hfit E. destruct (pad_shape m Hfit) as (k & E' & _). rewrite E in E'. injection E' as ->.
  apply Forall_app. split; [done|]. constructor; [unfold is_byte; lia|].
  apply Forall_replicate. unfold is_byte. lia.
Qed.

(** C9: a call message that one daemon encrypts for a device of the other, put
    on the wire as the sender puts it and delivered as the server delivers it,
    ends as exactly one item of the receiver's queue: this call message, from
    this sender and device.  Nothing else is queued, dialled or changed in the
    receiver's record; every layer between (padding, encryption, base64, the
    two numberings of message types) is undone by its counterpart. *)
Theorem call_message_delivered (lib lib' : crypto_lib) (me : string * Z) (you : string) (device : Z)
    (parse_json : Bytes -> outcome json) (content_bytes : Content -> Bytes)
    (registration_id : Bytes -> outcome Z) (plib : push_lib) (fault fault' : nat -> bool)
    (acct acct' : string) (m : CallMessage) (s s' : sender) (i : inbox) (entry : message)
    (body source : Bytes) (ts ts' : Z)
    (Hcb : Forall is_byte (content_bytes (CCall m))) (Hfit : fits_size_t (content_bytes (CCall m)))
    (Hsend : encrypt_one (sender_libraries lib me parse_json content_bytes registration_id) fault acct you
               (content_bytes (CCall m)) device s = (Ok entry, s'))
    (Hsessions : sessions_agree lib lib' me (you, u32 device) (stores s) (prj i))
    (Hbody : body <> []) (Hparse : parse_envelope plib body = Some (delivered entry source me.2 ts ts'))
    (Hsource : resolveServiceId plib source = Ok me.1)
    (Hproto : parse_content plib (content_bytes (CCall m)) = Some (mkInContent None None (Some m))) :
  let '(r, i') := @onPush (crypto_decryptor lib' (you, u32 device)) plib fault' acct'
                    "PUT" "/api/v1/message" body i in
  r = Ok tt /\ in_record i' = in_record i /\ in_dialled i' = in_dialled i /\
  in_queue i' = in_queue i ++ [HandleCall me.1 me.2 (u32 (device_id (in_record i))) m].
Proof.
  destruct (encrypt_content_inv lib me (you, device) parse_json content_bytes registration_id _ _ _ _ _ _ _ Hsend)
    as (padded & ct & t & c & Hpad & Henc & Htype & Hcontent).
  cbn [fst] in Henc. destruct (Hsessions padded ct t c (padded_bytes _ _ Hcb Hfit Hpad) Henc) as (Hbytes & Ht & Hdec).
  destruct (envelope_type_roundtrip me t Ht entry source ts ts' Htype) as (Hk & Hne & Ho).
  set (e := delivered entry source me.2 ts ts') in *.
  rewrite (onPush_eq plib fault' acct' body e) by done.
  assert (env_content e = ct) as Hct by (unfold e; cbn; rewrite Hcontent; by apply decode_encode_loop).
  unfold decryption. rewrite (bool_decide_eq_false_2 (env_type e = _)) by done. rewrite Ho, Hct.
  change (env_source e) with source. rewrite Hsource. change (env_device e) with me.2.
  unfold of_outcome. unfold mbind at 1, comp_bind at 1. unfold mbind at 1, comp_bind at 1.
  cbn [decrypt_identified crypto_decryptor]. unfold on_conn. rewrite decrypt_eq by done.
  rewrite <- (surjective_pairing me).
  destruct (decrypt_call lib' (you, u32 device) me t ct (prj i)) as [[buffer|x] c2]; [|done].
  cbn [fst] in Hdec. injection Hdec as ->. cbn [mret comp_ret].
  pose proof (pad_strip_roundtrip _ Hfit) as Hstrip. rewrite Hpad in Hstrip. injection Hstrip as ->.
  rewrite Hproto. by destruct me as [name dev].
Qed.

(** ** An example: the toy libsignal on both sides *)

Definition wire_content (c : Content) : Bytes :=
  match c with CCall _ => [1; 2; 3] | _ => [] end.
Definition busy_call : CallMessage := mkCall None None [] None (Some 77) None.

Definition sample_sender : sender := mkSender two_accounts ∅ [] [].
Definition sample_entry : message :=
  mkMessage 1 2 0 (base64Encode (7 :: 1 :: 2 :: 3 :: 0x80 :: replicate 75 0)).

Definition sample_push : push_lib :=
  mkPushLib (fun b => match b with [] => None | _ => Some (delivered sample_entry [5] 3 0 0) end)
    (fun p => if bool_decide (p = [1; 2; 3]) then Some (mkInContent None None (Some busy_call)) else None)
    (fun _ => Ok "me"%string) (fun _ _ => Ok tt).

Definition sample_inbox : inbox := mkInbox sample_account column_defaults [] [].

Lemma call_message_delivered_witness :
  let '(r, i') := @onPush (crypto_decryptor toy_lib ("you"%string, 2)) sample_push no_fault "a"
                    "PUT" "/api/v1/message" [9] sample_inbox in
  r = Ok tt /\ in_record i' = column_defaults /\ in_dialled i' = [] /\
  in_queue i' = [HandleCall "me" 3 0 busy_call].
Proof.
  apply (call_message_delivered toy_lib toy_lib ("me"%string, 3) "you" 2 (fun _ => Ok JNull) wire_content
    (fun _ => Ok 0) sample_push no_fault no_fault "a" "a" busy_call sample_sender
    (encrypt_one (sender_libraries toy_lib ("me"%string, 3) (fun _ => Ok JNull) wire_content (fun _ => Ok 0))
       no_fault "a" "you" [1; 2; 3] 2 sample_sender).2
    sample_inbox sample_entry [9] [5] 0 0).
  - cbn. repeat constructor; unfold is_byte; lia.
  - vm_compute. reflexivity.
  - vm_compute. reflexivity.
  - intros padded ct t c Hp H. injection H as <- <- <-.
    split; [constructor; [unfold is_byte; lia|done]|]. by split; [left|].
  - done.
  - reflexivity.
  - reflexivity.
  - reflexivity.
Defined.
