(* ===== verification/Watchdog.v ===== *)
(** The watchdogs of the daemon's main loop (src/daemon/main.cpp, [main] and
    [syncStorageContacts]): one account's Signal WebSocket, its SIP
    registration and its contact sync, looked at every 200 ms.

    The three loops of the source go over all accounts one after the other;
    an iteration only touches its own account, so one account's [tick] is the
    sequence of its three iterations.  Times are milliseconds of the steady
    clock.  PJSIP and the service answer through the arguments of each tick. *)

From S2P Require Import Prelude Storage Config AuthSocket CallSignaling Calls.

Open Scope Z_scope.

Definition kSocketReconnectIntervalMs : Z := 5000.

(** What the loop did, with the time of the tick. *)
Inductive action :=
| SetRegistration (on : bool) (t : Z)
| ReconnectSocket (t : Z)
| GiveUpAlert
| SyncStorage (t : Z).

#[export] Instance action_eq_dec : EqDecision action.
Proof. solve_decision. Defined.

(** The fields of [AccountState] the loop uses; [m_sip] is the entry of
    [g_sipAccounts]. *)
Record monitored := mkMonitored {
  m_socket : option Socket.sock;
  m_sip : option BridgeAccount;
  socketConnected : bool;
  lastSocketReconnectAttemptMs : Z;
  deauthorizedAlerted : bool;
  lastStorageSyncMs : Z;
  entropy_pool : option string;
  m_storage : conn;
  actions : list action;
}.

Definition set_socket v m := mkMonitored v (m_sip m) (socketConnected m)
  (lastSocketReconnectAttemptMs m) (deauthorizedAlerted m) (lastStorageSyncMs m) (entropy_pool m)
  (m_storage m) (actions m).
Definition set_m_sip v m := mkMonitored (m_socket m) v (socketConnected m)
  (lastSocketReconnectAttemptMs m) (deauthorizedAlerted m) (lastStorageSyncMs m) (entropy_pool m)
  (m_storage m) (actions m).
Definition set_socketConnected v m := mkMonitored (m_socket m) (m_sip m) v
  (lastSocketReconnectAttemptMs m) (deauthorizedAlerted m) (lastStorageSyncMs m) (entropy_pool m)
  (m_storage m) (actions m).
Definition set_lastReconnect v m := mkMonitored (m_socket m) (m_sip m) (socketConnected m)
  v (deauthorizedAlerted m) (lastStorageSyncMs m) (entropy_pool m) (m_storage m) (actions m).
Definition set_alerted v m := mkMonitored (m_socket m) (m_sip m) (socketConnected m)
  (lastSocketReconnectAttemptMs m) v (lastStorageSyncMs m) (entropy_pool m) (m_storage m) (actions m).
Definition set_lastSync v m := mkMonitored (m_socket m) (m_sip m) (socketConnected m)
  (lastSocketReconnectAttemptMs m) (deauthorizedAlerted m) v (entropy_pool m) (m_storage m) (actions m).
Definition set_storage v m := mkMonitored (m_socket m) (m_sip m) (socketConnected m)
  (lastSocketReconnectAttemptMs m) (deauthorizedAlerted m) (lastStorageSyncMs m) (entropy_pool m)
  v (actions m).
Definition log (a : action) : Comp monitored unit :=
  modify (fun m => mkMonitored (m_socket m) (m_sip m) (socketConnected m)
    (lastSocketReconnectAttemptMs m) (deauthorizedAlerted m) (lastStorageSyncMs m) (entropy_pool m)
    (m_storage m) (actions m ++ [a])).

#[export] Instance has_conn_monitored : Has conn monitored :=
  {| prj := m_storage; put := set_storage |}.
#[export] Instance has_conn_monitored_laws : HasLaws conn monitored.
Proof. split; intros; cbn; by try destruct w. Qed.

(** ** The contact sync *)

Record StorageContact := mkContact {
  c_e164 : string; c_aci : string; c_pni : string; c_profileKey : Bytes;
  c_givenName : string; c_familyName : string;
}.

Section Sync.
Context (fault : nat -> bool) (acct : string).

(** One contact: nothing without an identifier; a failing row only counts as
    not cached. *)
Definition sync_contact (now : Z) (c : StorageContact) : Comp monitored Z :=
  if str_empty (c_e164 c) && str_empty (c_aci c) then mret 0 else
  catch_std
    (lift (saveSyncedContact fault acct now (c_e164 c) (c_aci c) (c_pni c) (c_profileKey c)
             (c_givenName c) (c_familyName c)) ;; mret 1)
    (fun _ => mret 0).

(** [fetched] is what [fetchStorageContacts] gives; the result is the number
    of contacts cached, [None] when nothing was fetched. *)
Definition syncStorageContacts (nowMs now : Z) (fetched : outcome (list StorageContact)) :
    Comp monitored (option Z) :=
  modify (set_lastSync nowMs) ;;
  pool ← gets entropy_pool;
  match pool with
  | None => mret None
  | Some p =>
    if str_empty p then mret None else
    catch_std
      (contacts ← of_outcome fetched;
       counts ← map_each (sync_contact now) contacts;
       mret (Some (foldr Z.add 0 counts)))
      (fun _ => mret None)
  end.
End Sync.

(** ** The watchdogs *)

(** What the outside tick_answers during one tick: the re-registrations, the
    connection attempt, the fetch. *)
Record tick_answers := mkAnswers {
  registration : bool -> outcome unit;
  attempt : Socket.attempt_result;
  sync_time : Z; wall_time : Z;
  fetched : outcome (list StorageContact);
}.

Definition lift_socket {A} (d : A) (f : Comp Socket.sock A) : Comp monitored A := fun m =>
  match m_socket m with
  | None => (Ok d, m)
  | Some s => let '(r, s') := f s in (r, set_socket (Some s') m)
  end.

Section Loop.
Context (fault : nat -> bool) (acct : string) (g : GlobalConfig).

(** [setRegistration(on)] with its [catch (pj::Error&)]. *)
Definition setRegistration (w : tick_answers) (nowMs : Z) (on : bool) : Comp monitored unit :=
  catch_pj (log (SetRegistration on nowMs) ;; of_outcome (registration w on)) (mret tt).

Definition registration_watchdog (w : tick_answers) (nowMs : Z) : Comp monitored unit :=
  m ← get;
  match m_sip m with
  | None => mret tt
  | Some sip =>
    if match m_socket m with Some s => Socket.deauthorized s | None => false end then mret tt else
    let since := unregisteredSinceMs sip in
    when (negb (bool_decide (since = 0)) &&
          bool_decide (nowMs - since >= sipRegWatchdogSec g * 1000))
      (setRegistration w nowMs true ;;
       modify (fun m => set_m_sip ((fun s => mkBridgeAccount (registered s) nowMs) <$> m_sip m) m))
  end.

Definition when_sip (c : Comp monitored unit) : Comp monitored unit :=
  m ← get; match m_sip m with Some _ => c | None => mret tt end.

Definition socket_watchdog (w : tick_answers) (nowMs : Z) : Comp monitored unit :=
  m ← get;
  match m_socket m with
  | None => mret tt
  | Some s =>
    let nowConnected := Socket.connected s in
    when (socketConnected m && negb nowConnected) (when_sip (setRegistration w nowMs false)) ;;
    modify (set_socketConnected nowConnected) ;;
    if negb nowConnected && Socket.deauthorized s then
      when (negb (deauthorizedAlerted m)) (modify (set_alerted true) ;; log GiveUpAlert)
    else
      when (negb nowConnected &&
            bool_decide (nowMs - lastSocketReconnectAttemptMs m >= kSocketReconnectIntervalMs))
        (modify (set_lastReconnect nowMs) ;;
         log (ReconnectSocket nowMs) ;;
         catch_std
           (lift_socket tt (Socket.reconnect (attempt w)) ;;
            modify (set_socketConnected true) ;;
            modify (set_alerted false) ;;
            when_sip (setRegistration w nowMs true))
           (fun _ => mret tt))
  end.

Definition storage_sync_loop (w : tick_answers) (nowMs : Z) : Comp monitored unit :=
  m ← get;
  when (bool_decide (nowMs - lastStorageSyncMs m >= storageSyncIntervalSec g * 1000))
    (log (SyncStorage nowMs) ;;
     syncStorageContacts fault acct (sync_time w) (wall_time w) (fetched w) ;; mret tt).

Definition tick (w : tick_answers) (nowMs : Z) : Comp monitored unit :=
  registration_watchdog w nowMs ;; socket_watchdog w nowMs ;; storage_sync_loop w nowMs.

(** What can happen between two looks at the account. *)
Inductive happening :=
| Tick (w : tick_answers) (nowMs : Z)
| RegChange (active : bool) (now : Z)
| Interrupt (err : option Z).

Definition happen (h : happening) (m : monitored) : monitored :=
  match h with
  | Tick w nowMs => (tick w nowMs m).2
  | RegChange active now => set_m_sip (BridgeAccount_onRegState active now <$> m_sip m) m
  | Interrupt err => (lift_socket tt (Socket.onConnectionInterrupted err) m).2
  end.
Definition watch (hs : list happening) (m : monitored) : monitored := foldl (fun m h => happen h m) m hs.
End Loop.

(** ** Lemmas *)

(** Restores a state from its fields. *)
Lemma set_storage_eq st m : set_storage st m = set_storage st (set_lastSync (lastStorageSyncMs m) m).
Proof. by destruct m. Qed.

(** A computation that touches nothing but the database. *)
Definition storage_only {A} (f : Comp monitored A) : Prop :=
  forall m, exists r st, f m = (r, set_storage st m).

Lemma storage_only_ret {A} (a : A) : storage_only (mret a).
Proof. intros m. exists (Ok a), (m_storage m). by destruct m. Qed.

Lemma storage_only_bind {A B} (f : Comp monitored A) (k : A -> Comp monitored B) :
  storage_only f -> (forall a, storage_only (k a)) -> storage_only (f ≫= k).
Proof.
  intros Hf Hk m. destruct (Hf m) as (r & st & E). unfold mbind, comp_bind. rewrite E.
  destruct r as [a|e]; [|eauto]. destruct (Hk a (set_storage st m)) as (r & st' & E').
  exists r, st'. by rewrite E'.
Qed.

Lemma storage_only_catch {A} (f : Comp monitored A) h :
  storage_only f -> (forall w, storage_only (h w)) -> storage_only (catch_std f h).
Proof.
  intros Hf Hh m. destruct (Hf m) as (r & st & E). unfold catch_std. rewrite E.
  destruct r as [a|[w| |]]; [eauto| |eauto|eauto].
  destruct (Hh w (set_storage st m)) as (r & st' & E'). exists r, st'. by rewrite E'.
Qed.

Lemma storage_only_lift {A} (f : Comp conn A) : storage_only (lift f).
Proof. intros m. unfold lift. destruct (f (prj m)) as [r st]. by exists r, st. Qed.

Lemma storage_only_map_each {A B} (f : A -> Comp monitored B) l :
  (forall a, storage_only (f a)) -> storage_only (map_each f l).
Proof.
  intros Hf. induction l as [|a l IH]; [apply storage_only_ret|]. cbn [map_each].
  apply storage_only_bind; [done|]. intros b. apply storage_only_bind; [done|]. intros bs.
  apply storage_only_ret.
Qed.

Lemma sync_contact_only fault acct now c : storage_only (sync_contact fault acct now c).
Proof.
  unfold sync_contact. destruct (_ && _); [apply storage_only_ret|].
  apply storage_only_catch; [|intros w; apply storage_only_ret].
  apply storage_only_bind; [apply storage_only_lift|intros _; apply storage_only_ret].
Qed.

Lemma sync_frame fault acct t now f m :
  exists r st, syncStorageContacts fault acct t now f m = (r, set_storage st (set_lastSync t m)).
Proof.
  unfold syncStorageContacts, modify. unfold mbind at 1, comp_bind at 1.
  unfold gets. unfold mbind at 1, comp_bind at 1.
  change (entropy_pool (set_lastSync t m)) with (entropy_pool m).
  destruct (entropy_pool m) as [p|]; [|apply storage_only_ret].
  destruct (str_empty p); [apply storage_only_ret|].
  apply storage_only_catch; [|intros w; apply storage_only_ret].
  apply storage_only_bind.
  - intros x. exists f, (m_storage x). by destruct x.
  - intros cs. apply storage_only_bind; [apply storage_only_map_each; intros c; apply sync_contact_only|].
    intros counts. apply storage_only_ret.
Qed.

(** The sync loop only logs, and touches the database and its own clock. *)
Lemma storage_sync_loop_eq fault acct g w nowMs m :
  (storage_sync_loop fault acct g w nowMs m).2 = m \/
  exists st, (storage_sync_loop fault acct g w nowMs m).2 =
    set_storage st (set_lastSync (sync_time w) (log (SyncStorage nowMs) m).2).
Proof.
  assert (storage_sync_loop fault acct g w nowMs m =
    when (bool_decide (nowMs - lastStorageSyncMs m >= storageSyncIntervalSec g * 1000))
      (log (SyncStorage nowMs) ;;
       syncStorageContacts fault acct (sync_time w) (wall_time w) (fetched w) ;; mret tt) m) as -> by done.
  unfold when. destruct (bool_decide _); [right|by left].
  destruct (sync_frame fault acct (sync_time w) (wall_time w) (fetched w) (log (SyncStorage nowMs) m).2)
    as (r & st & E).
  exists st. rewrite (bind_ok (log (SyncStorage nowMs)) _ m tt (log (SyncStorage nowMs) m).2 eq_refl).
  cbv beta. unfold mbind, comp_bind. rewrite E. by destruct r.
Qed.

(** *** Deauthorized accounts *)

Definition refused (m : monitored) : Prop :=
  exists s, m_socket m = Some s /\ Socket.connected s = false /\ Socket.deauthorized s = true.

Definition alerts (l : list action) : nat := length (filter (fun a => a = GiveUpAlert) l).

(** Neither a reconnect nor a registration. *)
Definition passive (a : action) : Prop :=
  match a with ReconnectSocket _ | SetRegistration true _ => False | _ => True end.

(** What a stretch of the loop does to such an account. *)
Definition leaves_alone (m m' : monitored) : Prop :=
  refused m' /\ exists l, actions m' = actions m ++ l /\ Forall passive l /\
    (alerts l + (if deauthorizedAlerted m then 1 else 0) =
     if deauthorizedAlerted m' then 1 else 0)%nat.

Lemma leaves_alone_refl m : refused m -> leaves_alone m m.
Proof.
  intros Hm. split; [done|]. exists []. rewrite app_nil_r. split; [done|]. split; [constructor|].
  cbn. lia.
Qed.

Lemma leaves_alone_trans m1 m2 m3 : leaves_alone m1 m2 -> leaves_alone m2 m3 -> leaves_alone m1 m3.
Proof.
  intros [_ (l1 & H1 & P1 & A1)] [R (l2 & H2 & P2 & A2)]. split; [done|]. exists (l1 ++ l2).
  split; [by rewrite H2, H1, app_assoc|]. split; [by apply Forall_app|].
  unfold alerts in *. rewrite filter_app, length_app.
  destruct (deauthorizedAlerted m1), (deauthorizedAlerted m2), (deauthorizedAlerted m3); lia.
Qed.

Lemma registration_watchdog_refused g w nowMs m :
  refused m -> registration_watchdog g w nowMs m = (Ok tt, m).
Proof.
  intros (s & Hs & _ & Hd). unfold registration_watchdog, get. unfold mbind at 1, comp_bind at 1.
  destruct (m_sip m); [|done]. by rewrite Hs, Hd.
Qed.

Lemma catch_pj_log w nowMs on m :
  pj_outcome (registration w on) ->
  setRegistration w nowMs on m = (Ok tt, (log (SetRegistration on nowMs) m).2).
Proof.
  intros H. unfold setRegistration, catch_pj, of_outcome, mbind, comp_bind. cbn.
  by destruct (registration w on) as [[]|[| |]].
Qed.

Definition add_actions (l : list action) (m : monitored) : monitored :=
  mkMonitored (m_socket m) (m_sip m) (socketConnected m) (lastSocketReconnectAttemptMs m)
    (deauthorizedAlerted m) (lastStorageSyncMs m) (entropy_pool m) (m_storage m) (actions m ++ l).

(** Bringing SIP down, when there is a SIP account. *)
Lemma drop_registration w nowMs m :
  pj_outcome (registration w false) ->
  exists l, when_sip (setRegistration w nowMs false) m = (Ok tt, add_actions l m) /\
    Forall passive l /\ alerts l = 0%nat.
Proof.
  intros Hpj. unfold when_sip, get. unfold mbind at 1, comp_bind at 1. destruct (m_sip m) as [sip|] eqn:E.
  - exists [SetRegistration false nowMs]. rewrite catch_pj_log by done. split; [done|].
    split; [by repeat constructor|done].
  - exists []. split; [|by split]. unfold add_actions. rewrite app_nil_r. by destruct m.
Qed.

Lemma socket_watchdog_refused w nowMs m :
  (forall on, pj_outcome (registration w on)) -> refused m ->
  exists m', socket_watchdog w nowMs m = (Ok tt, m') /\ leaves_alone m m'.
Proof.
  intros Hpj (s & Hs & Hc & Hd). unfold socket_watchdog, get.
  unfold mbind at 1, comp_bind at 1. rewrite Hs, Hc, Hd. cbn [negb andb].
  assert (forall m1, m_socket m1 = m_socket m -> deauthorizedAlerted m1 = deauthorizedAlerted m ->
    forall l, actions m1 = actions m ++ l -> Forall passive l -> alerts l = 0%nat ->
    exists m', (modify (set_socketConnected false) ;;
      when (negb (deauthorizedAlerted m)) (modify (set_alerted true) ;; log GiveUpAlert)) m1 = (Ok tt, m') /\
      leaves_alone m m') as Hrest.
  { intros m1 H1 H2 l H3 H4 H5. unfold when, modify, log, mbind, comp_bind.
    destruct (deauthorizedAlerted m) eqn:Ha; cbn.
    - eexists. split; [reflexivity|]. split; [exists s; by rewrite <- Hs, <- H1|].
      exists l. cbn. rewrite H2, H5, Ha. auto.
    - eexists. split; [reflexivity|]. split; [exists s; by rewrite <- Hs, <- H1|].
      exists (l ++ [GiveUpAlert]). cbn. rewrite Ha, H3, <- app_assoc. split; [done|].
      split; [apply Forall_app; split; [done|by repeat constructor]|].
      unfold alerts in *. rewrite filter_app, length_app, H5. done. }
  destruct (socketConnected m); cbn [andb].
  - destruct (drop_registration w nowMs m (Hpj false)) as (l & E & Hl & Hal).
    change (when true ?c) with c. rewrite (bind_ok _ _ _ _ _ E).
    by apply (Hrest (add_actions l m)) with (l := l).
  - apply (Hrest m) with (l := []); try done; by rewrite app_nil_r.
Qed.

Lemma refused_frame m m' :
  m_socket m' = m_socket m -> deauthorizedAlerted m' = deauthorizedAlerted m ->
  (exists l, actions m' = actions m ++ l /\ Forall passive l /\ alerts l = 0%nat) ->
  refused m -> leaves_alone m m'.
Proof.
  intros Hs Ha (l & Hl & Hp & Hal) (s & H). split; [exists s; by rewrite Hs|]. exists l.
  split; [done|]. split; [done|]. by rewrite Hal, Ha.
Qed.

Lemma socket_watchdog_alerts w nowMs m m' :
  (forall on, pj_outcome (registration w on)) -> refused m ->
  socket_watchdog w nowMs m = (Ok tt, m') -> deauthorizedAlerted m' = true.
Proof.
  intros Hpj (s & Hs & Hc & Hd). unfold socket_watchdog, get. unfold mbind at 1, comp_bind at 1.
  rewrite Hs, Hc, Hd. cbn [negb andb].
  assert (exists l, when (socketConnected m && true) (when_sip (setRegistration w nowMs false)) m
    = (Ok tt, add_actions l m)) as (l & E).
  { destruct (socketConnected m); [|exists []; unfold add_actions; rewrite app_nil_r; by destruct m].
    destruct (drop_registration w nowMs m (Hpj false)) as (l & E & _). by exists l. }
  rewrite (bind_ok _ _ _ _ _ E). unfold when, modify, log, mbind, comp_bind.
  destruct (deauthorizedAlerted m) eqn:Ea; cbn; intros [= <-]; [exact Ea|done].
Qed.

Definition is_tick (h : happening) : bool := match h with Tick _ _ => true | _ => false end.
(** PJSIP fails only with its own error type. *)
Definition pj_only (h : happening) : Prop :=
  match h with Tick w _ => forall on, pj_outcome (registration w on) | _ => True end.

Lemma tick_refused fault acct g w nowMs m :
  (forall on, pj_outcome (registration w on)) -> refused m ->
  leaves_alone m (tick fault acct g w nowMs m).2 /\
  deauthorizedAlerted (tick fault acct g w nowMs m).2 = true.
Proof.
  intros Hpj Hm. unfold tick.
  rewrite (bind_ok _ _ _ _ _ (registration_watchdog_refused g w nowMs m Hm)).
  destruct (socket_watchdog_refused w nowMs m Hpj Hm) as (m1 & E1 & H1).
  rewrite (bind_ok _ _ _ _ _ E1).
  pose proof (socket_watchdog_alerts w nowMs m m1 Hpj Hm E1) as Ha.
  destruct (storage_sync_loop_eq fault acct g w nowMs m1) as [->|(st & ->)]; [done|].
  split; [|done]. eapply leaves_alone_trans; [exact H1|].
  apply refused_frame; [done|done| |apply H1].
  exists [SyncStorage nowMs]. split; [done|]. by split; [repeat constructor|].
Qed.

Lemma interrupt_alerted err m :
  deauthorizedAlerted (lift_socket tt (Socket.onConnectionInterrupted err) m).2 = deauthorizedAlerted m.
Proof.
  unfold lift_socket. destruct (m_socket m); [|done]. by destruct (Socket.onConnectionInterrupted err s).
Qed.

Lemma happen_refused fault acct g h m :
  pj_only h -> refused m ->
  leaves_alone m (happen fault acct g h m) /\
  deauthorizedAlerted (happen fault acct g h m) = deauthorizedAlerted m || is_tick h.
Proof.
  intros Hp Hm. destruct h as [w t|active now|err]; cbn [is_tick]; rewrite ?orb_true_r, ?orb_false_r.
  - by apply tick_refused.
  - split; [|done]. apply refused_frame; [done|done| |done].
    exists []. rewrite app_nil_r. by split_and!.
  - split; [|apply interrupt_alerted]. destruct Hm as (s & Hs & Hc & Hd). cbn [happen].
    unfold lift_socket. rewrite Hs. unfold Socket.onConnectionInterrupted, modify, mbind, comp_bind.
    assert (forall s', Socket.connected s' = false -> Socket.deauthorized s' = true ->
      leaves_alone m (set_socket (Some s') m)) as Hset.
    { intros s' H1 H2. split; [by exists s'|]. exists []. rewrite app_nil_r.
      split_and!; [done|constructor|done]. }
    destruct err as [code|]; [unfold when; destruct (bool_decide _)|]; cbn; by apply Hset.
Qed.

Lemma watch_refused fault acct g hs m :
  Forall pj_only hs -> refused m ->
  leaves_alone m (watch fault acct g hs m) /\
  deauthorizedAlerted (watch fault acct g hs m) = deauthorizedAlerted m || existsb is_tick hs.
Proof.
  intros Hpj. revert m. induction Hpj as [|h hs Hh _ IH]; intros m Hm.
  - split; [by apply leaves_alone_refl|]. cbn. by rewrite orb_false_r.
  - destruct (happen_refused fault acct g h m Hh Hm) as [H1 H2]. cbn [watch foldl existsb].
    destruct (IH _ (proj1 H1)) as [H3 H4]. split; [by eapply leaves_alone_trans|].
    unfold watch in H4. by rewrite H4, H2, orb_assoc.
Qed.

(** C32: once the service has refused the device, the loop leaves the account
    alone however long it runs and whatever registration changes and
    interruptions come in between: it never reconnects the socket, never
    registers with the PBX again, and says so exactly once (not again if it
    already had). *)
Theorem refused_account_left_alone (fault : nat -> bool) (acct : string) (g : GlobalConfig)
    (hs : list happening) (m : monitored) (s : Socket.sock)
    (Hs : m_socket m = Some s) (Hdown : Socket.connected s = false)
    (Hrefused : Socket.deauthorized s = true) (Hpj : Forall pj_only hs) :
  let m' := watch fault acct g hs m in
  exists s' l, m_socket m' = Some s' /\ Socket.connected s' = false /\ Socket.deauthorized s' = true /\
    actions m' = actions m ++ l /\
    (forall t, ReconnectSocket t ∉ l) /\ (forall t, SetRegistration true t ∉ l) /\
    alerts l = if deauthorizedAlerted m then 0%nat else if existsb is_tick hs then 1%nat else 0%nat.
Proof.
  destruct (watch_refused fault acct g hs m Hpj)
    as [[(s' & Hs' & Hc' & Hd') (l & Hl & Hp & Ha)] Hal]; [by exists s|].
  exists s', l. split_and!; try done.
  - intros t Ht. rewrite Forall_forall in Hp. by apply Hp in Ht.
  - intros t Ht. rewrite Forall_forall in Hp. by apply Hp in Ht.
  - rewrite Hal in Ha. destruct (deauthorizedAlerted m), (existsb is_tick hs); cbn in Ha; lia.
Qed.

Lemma refused_account_left_alone_witness :
  let sip := Some (mkBridgeAccount true 0) in
  let s := Socket.mkSock None false true false true ∅ 0 false in
  let m := mkMonitored (Some s) sip true 0 false 0 None two_accounts [] in
  let w := mkAnswers (fun _ => Throw PjError) Socket.TimedOut 100 0 (Ok []) in
  let hs := [Tick w 100; RegChange false 150; Tick w 90000; Interrupt (Some 3); Tick w 99999] in
  let m' := watch no_fault "a" (mkGlobal "" "" 60 60 60 60) hs m in
  exists s' l, m_socket m' = Some s' /\ Socket.connected s' = false /\ Socket.deauthorized s' = true /\
    actions m' = actions m ++ l /\
    (forall t, ReconnectSocket t ∉ l) /\ (forall t, SetRegistration true t ∉ l) /\ alerts l = 1%nat.
Proof.
  intros sip s m w hs.
  apply (refused_account_left_alone no_fault "a" (mkGlobal "" "" 60 60 60 60) hs m s).
  - reflexivity.
  - reflexivity.
  - reflexivity.
  - repeat constructor.
Defined.

(** *** An account whose socket is down for longer *)

Definition down (m : monitored) : Prop :=
  socketConnected m = false /\ exists s, m_socket m = Some s /\ Socket.connected s = false.

(** Not bringing SIP down. *)
Definition not_lowering (a : action) : Prop := match a with SetRegistration false _ => False | _ => True end.

Definition stays_down (m m' : monitored) : Prop :=
  down m' /\ exists l, actions m' = actions m ++ l /\ Forall not_lowering l.

Lemma stays_down_refl m : down m -> stays_down m m.
Proof. intros Hm. split; [done|]. exists []. by rewrite app_nil_r. Qed.

Lemma stays_down_trans m1 m2 m3 : stays_down m1 m2 -> stays_down m2 m3 -> stays_down m1 m3.
Proof.
  intros [_ (l1 & H1 & P1)] [D (l2 & H2 & P2)]. split; [done|]. exists (l1 ++ l2).
  split; [by rewrite H2, H1, app_assoc|by apply Forall_app].
Qed.

Lemma stays_down_frame m m' :
  m_socket m' = m_socket m -> socketConnected m' = socketConnected m ->
  (exists l, actions m' = actions m ++ l /\ Forall not_lowering l) -> down m -> stays_down m m'.
Proof. intros Hs Hc Hl [Hd (s & H)]. split; [|done]. split; [by rewrite Hc|]. exists s. by rewrite Hs. Qed.

(** The attempt does not open a session. *)
Definition no_session (r : Socket.attempt_result) : Prop :=
  match r with Socket.Opened _ _ => False | _ => True end.
Definition unreachable (h : happening) : Prop :=
  match h with
  | Tick w _ => no_session (attempt w) /\ forall on, pj_outcome (registration w on)
  | _ => True
  end.

Lemma reconnect_no_session r s :
  no_session r -> exists e s', Socket.reconnect r s = (Throw (StdError e), s') /\
    Socket.connected s' = false.
Proof.
  intros Hr. unfold Socket.reconnect, Socket.doConnect, Socket.disconnectAndDestroyBestEffort.
  destruct r as [code| |code|id e]; [| | |done]; destruct (Socket.chat s) eqn:Ec;
    unfold Socket.ffi_error; exec; rewrite ?Ec; cbn;
    try (destruct (bool_decide _); cbn); by eexists _, _.
Qed.

Lemma registration_watchdog_eq g w nowMs m :
  (forall on, pj_outcome (registration w on)) ->
  exists sip l, registration_watchdog g w nowMs m = (Ok tt, set_m_sip sip (add_actions l m)) /\
    (l = [] \/ l = [SetRegistration true nowMs]).
Proof.
  intros Hpj. unfold registration_watchdog, get. unfold mbind at 1, comp_bind at 1.
  assert (m = set_m_sip (m_sip m) (add_actions [] m)) as Hm
    by (destruct m; unfold add_actions; cbn; by rewrite app_nil_r).
  destruct (m_sip m) as [sip|] eqn:Es; [|exists None, []; split; [by rewrite <- Hm|by left]].
  destruct (match m_socket m with Some s => Socket.deauthorized s | None => false end);
    [exists (Some sip), []; split; [by rewrite <- Hm|by left]|].
  unfold when. destruct (_ && _); [|exists (Some sip), []; split; [by rewrite <- Hm|by left]].
  rewrite (bind_ok _ _ _ _ _ (catch_pj_log w nowMs true m (Hpj true))).
  eexists _, [SetRegistration true nowMs]. split; [reflexivity|by right].
Qed.

Lemma socket_watchdog_down w nowMs m :
  no_session (attempt w) -> down m ->
  exists m', socket_watchdog w nowMs m = (Ok tt, m') /\ stays_down m m'.
Proof.
  intros Hr [Hd (s & Hs & Hc)]. unfold socket_watchdog, get. unfold mbind at 1, comp_bind at 1.
  rewrite Hs, Hc, Hd. cbn [negb andb when]. unfold mbind at 1, comp_bind at 1.
  cbn [mret comp_ret]. unfold modify at 1. unfold mbind at 1, comp_bind at 1.
  assert (forall m', m_socket m' = m_socket m -> socketConnected m' = false ->
    (exists l, actions m' = actions m ++ l /\ Forall not_lowering l) -> stays_down m m') as Hfr.
  { intros m' H1 H2 H3. apply stays_down_frame; [done|congruence|done|]. split; [done|]. by exists s. }
  destruct (Socket.deauthorized s).
  - unfold when. destruct (negb _); unfold modify, log, mbind, comp_bind; cbn;
      (eexists; split; [reflexivity|]); apply Hfr; try done.
    + exists [GiveUpAlert]. by split; [|repeat constructor].
    + exists []. by rewrite app_nil_r.
  - unfold when. destruct (bool_decide _).
    2: { eexists. split; [reflexivity|]. apply Hfr; try done. exists []. by rewrite app_nil_r. }
    destruct (reconnect_no_session (attempt w) s Hr) as (e & s' & E & Hc').
    unfold modify, log, catch_std, lift_socket, mbind, comp_bind. cbn. rewrite Hs, E.
    eexists. split; [reflexivity|]. split; [split; [done|by exists s']|].
    exists [ReconnectSocket nowMs]. by split; [|repeat constructor].
Qed.

Lemma tick_down fault acct g w nowMs m :
  no_session (attempt w) -> (forall on, pj_outcome (registration w on)) -> down m ->
  stays_down m (tick fault acct g w nowMs m).2.
Proof.
  intros Hr Hpj Hm. unfold tick.
  destruct (registration_watchdog_eq g w nowMs m Hpj) as (sip & l & E1 & Hl).
  rewrite (bind_ok _ _ _ _ _ E1).
  assert (stays_down m (set_m_sip sip (add_actions l m))) as H1.
  { apply stays_down_frame; [done|done| |done]. exists l. split; [done|].
    destruct Hl as [->| ->]; by repeat constructor. }
  destruct (socket_watchdog_down w nowMs _ Hr (proj1 H1)) as (m2 & E2 & H2).
  rewrite (bind_ok _ _ _ _ _ E2). pose proof (stays_down_trans _ _ _ H1 H2) as H3.
  destruct (storage_sync_loop_eq fault acct g w nowMs m2) as [->|(st & ->)]; [done|].
  eapply stays_down_trans; [exact H3|]. apply stays_down_frame; [done|done| |apply H3].
  exists [SyncStorage nowMs]. by split; [|repeat constructor].
Qed.

Lemma happen_down fault acct g h m :
  unreachable h -> down m -> stays_down m (happen fault acct g h m).
Proof.
  intros Hu Hm. destruct h as [w t|active now|err]; cbn [happen].
  - destruct Hu. by apply tick_down.
  - apply stays_down_frame; [done|done| |done]. exists []. by rewrite app_nil_r.
  - destruct Hm as [Hd (s & Hs & Hc)]. unfold lift_socket. rewrite Hs.
    unfold Socket.onConnectionInterrupted, modify, when, mbind, comp_bind.
    destruct err as [code|]; [destruct (bool_decide _)|]; cbn;
      (split; [split; [done|by eexists]|]; exists []; by rewrite app_nil_r).
Qed.

(** The registration watchdog undoes what the WebSocket watchdog did: with
    the socket down (not refused, the drop noticed, the service unreachable)
    and the SIP account unregistered for [sipRegWatchdogSec], the next tick
    registers it again, and as long as the service stays unreachable no later
    tick brings it down, although no call can reach the account. *)
Lemma watchdog_reregisters_while_down (fault : nat -> bool) (acct : string) (g : GlobalConfig)
    (w : tick_answers) (nowMs : Z) (m : monitored) (s : Socket.sock) (sip : BridgeAccount)
    (hs : list happening)
    (Hs : m_socket m = Some s) (Hdown : Socket.connected s = false)
    (Hok : Socket.deauthorized s = false) (Hnoticed : socketConnected m = false)
    (Hsip : m_sip m = Some sip) (Hsince : unregisteredSinceMs sip <> 0)
    (Hlong : nowMs - unregisteredSinceMs sip >= sipRegWatchdogSec g * 1000)
    (Hw : unreachable (Tick w nowMs)) (Hhs : Forall unreachable hs) :
  exists l l', actions (tick fault acct g w nowMs m).2 = actions m ++ SetRegistration true nowMs :: l /\
    actions (watch fault acct g hs (tick fault acct g w nowMs m).2) =
      actions m ++ SetRegistration true nowMs :: l ++ l' /\
    (forall t, SetRegistration false t ∉ l ++ l') /\
    exists s', m_socket (watch fault acct g hs (tick fault acct g w nowMs m).2) = Some s' /\
      Socket.connected s' = false.
Proof.
  destruct Hw as [Hr Hpj]. assert (down m) as Hm by (split; [done|by exists s]).
  assert (exists l, actions (tick fault acct g w nowMs m).2 = actions m ++ SetRegistration true nowMs :: l)
    as (l & Hl).
  { unfold tick.
    assert (exists m1, registration_watchdog g w nowMs m = (Ok tt, m1) /\ down m1 /\
      actions m1 = actions m ++ [SetRegistration true nowMs]) as (m1 & E1 & H1 & Ha1).
    { unfold registration_watchdog, get. unfold mbind at 1, comp_bind at 1. rewrite Hsip, Hs, Hok.
      unfold when. rewrite bool_decide_eq_false_2 by done. rewrite bool_decide_eq_true_2 by done.
      cbn [negb andb]. rewrite (bind_ok _ _ _ _ _ (catch_pj_log w nowMs true m (Hpj true))).
      eexists. split; [reflexivity|]. by split. }
    rewrite (bind_ok _ _ _ _ _ E1).
    destruct (socket_watchdog_down w nowMs m1 Hr H1) as (m2 & E2 & _ & l2 & Ha2 & _).
    rewrite (bind_ok _ _ _ _ _ E2).
    destruct (storage_sync_loop_eq fault acct g w nowMs m2) as [->|(st & ->)]; cbn;
      rewrite Ha2, Ha1; [by exists l2; rewrite <- app_assoc|].
    exists (l2 ++ [SyncStorage nowMs]). by rewrite <- !app_assoc. }
  pose proof (tick_down fault acct g w nowMs m Hr Hpj Hm) as H1.
  assert (stays_down (tick fault acct g w nowMs m).2 (watch fault acct g hs (tick fault acct g w nowMs m).2))
    as [Hd (l' & Hl' & Hn')].
  { destruct H1 as [H1 _]. revert H1. generalize (tick fault acct g w nowMs m).2. clear -Hhs.
    induction Hhs as [|h hs Hh _ IH]; intros x Hx; [by apply stays_down_refl|].
    pose proof (happen_down fault acct g h x Hh Hx) as H1.
    eapply stays_down_trans; [exact H1|]. apply IH, H1. }
  destruct H1 as [_ (l0 & Hl0 & Hn0)]. rewrite Hl in Hl0. apply app_inv_head in Hl0 as <-.
  apply Forall_cons in Hn0 as [_ Hn0].
  exists l, l'. split; [done|]. split; [by rewrite Hl', Hl, <- app_assoc|]. split; [|apply Hd].
  intros t Ht. apply elem_of_app in Ht as [Ht|Ht].
  - rewrite Forall_forall in Hn0. by apply Hn0 in Ht.
  - rewrite Forall_forall in Hn'. by apply Hn' in Ht.
Qed.

Definition sample_global : GlobalConfig := mkGlobal "" "" 60 86400 43200 30.
Definition no_answers : tick_answers :=
  mkAnswers (fun _ => Ok tt) Socket.TimedOut 0 0 (Throw (StdError "offline")).

(** A healthy account, then: the connection drops, the loop notices and takes
    SIP down, PJSIP confirms. *)
Definition healthy : monitored :=
  mkMonitored (Some (Socket.mkSock (Some 0%nat) true false false true {[0%nat]} 0 false))
    (Some (mkBridgeAccount true 0)) true 0 false 0 None two_accounts [].
Definition dropped_account : monitored :=
  watch no_fault "a" sample_global
    [Interrupt None; Tick no_answers 10000; RegChange false 10050] healthy.

Example dropped_account_actions :
  actions dropped_account = [SetRegistration false 10000; ReconnectSocket 10000].
Proof. vm_compute. reflexivity. Qed.

Lemma watchdog_reregisters_while_down_witness :
  exists l l',
    actions (tick no_fault "a" sample_global no_answers 70100 dropped_account).2 =
      actions dropped_account ++ SetRegistration true 70100 :: l /\
    actions (watch no_fault "a" sample_global [Tick no_answers 75300; RegChange true 75400; Tick no_answers 90000]
        (tick no_fault "a" sample_global no_answers 70100 dropped_account).2) =
      actions dropped_account ++ SetRegistration true 70100 :: l ++ l' /\
    (forall t, SetRegistration false t ∉ l ++ l') /\
    exists s', m_socket (watch no_fault "a" sample_global
        [Tick no_answers 75300; RegChange true 75400; Tick no_answers 90000]
        (tick no_fault "a" sample_global no_answers 70100 dropped_account).2) = Some s' /\
      Socket.connected s' = false.
Proof.
  apply (watchdog_reregisters_while_down no_fault "a" sample_global no_answers 70100 dropped_account
    (Socket.mkSock None false false false true ∅ 0 false) (mkBridgeAccount false 10050)).
  - vm_compute. reflexivity.
  - reflexivity.
  - reflexivity.
  - vm_compute. reflexivity.
  - vm_compute. reflexivity.
  - vm_compute. discriminate.
  - vm_compute. discriminate.
  - split; [exact I|by intros on].
  - repeat constructor.
Defined.

(** *** The contact sync *)

(** A contact with something to key it by. *)
Definition keyed (c : StorageContact) : bool := str_nonempty (c_e164 c) || str_nonempty (c_aci c).

Definition save_contact (fault : nat -> bool) (acct : string) (now : Z) (c : StorageContact) :
    Comp conn unit :=
  saveSyncedContact fault acct now (c_e164 c) (c_aci c) (c_pni c) (c_profileKey c)
    (c_givenName c) (c_familyName c).

(** The database and the count after saving each keyed contact in turn,
    whatever happened to the ones before. *)
Fixpoint save_all (fault : nat -> bool) (acct : string) (now : Z) (cs : list StorageContact) (db : conn) :
    Z * conn :=
  match cs with
  | [] => (0, db)
  | c :: cs =>
    if keyed c
    then let '(r, db1) := save_contact fault acct now c db in
         let '(n, db2) := save_all fault acct now cs db1 in
         ((if is_ok r then 1 else 0) + n, db2)
    else save_all fault acct now cs db
  end.

Lemma std_select {A} fault (q : db -> option A) : std_comp (select fault q).
Proof. intros c. by destruct (select_cases fault q c) as [n [[w ->]|[->| ->]]]. Qed.
Lemma std_write fault what u : std_comp (write fault what u).
Proof. intros c. by destruct (write_cases fault what u c) as [n [[w ->]|(d & _ & ->)]]. Qed.
Lemma std_find_id fault acct p : std_comp (find_id fault acct p).
Proof. apply std_comp_bind; [apply std_select|]. intros r. by destruct r. Qed.

Lemma save_contact_std fault acct now c : std_comp (save_contact fault acct now c).
Proof.
  unfold save_contact, saveSyncedContact.
  apply std_comp_bind; [destruct (str_nonempty _); [apply std_find_id|done]|]. intros id.
  apply std_comp_bind; [destruct (_ && _); [apply std_find_id|done]|]. intros id'.
  destruct (bool_decide _); apply std_write.
Qed.

Lemma sync_contact_eq fault acct now c m :
  sync_contact fault acct now c m =
  if keyed c
  then let '(r, db) := save_contact fault acct now c (m_storage m) in
       (Ok (if is_ok r then 1 else 0), set_storage db m)
  else (Ok 0, m).
Proof.
  unfold sync_contact, keyed, str_nonempty.
  destruct (str_empty (c_e164 c)), (str_empty (c_aci c)); cbn [negb andb orb]; [done|..].
  all: unfold catch_std, lift, mbind, comp_bind; change (prj m : conn) with (m_storage m);
    pose proof (save_contact_std fault acct now c (m_storage m)) as Hs; unfold save_contact in *;
    destruct (saveSyncedContact _ _ _ _ _ _ _ _ _ _) as [[u|[w| |]] db]; done.
Qed.

Lemma sync_contacts_eq fault acct now cs m :
  exists counts, map_each (sync_contact fault acct now) cs m =
    (Ok counts, set_storage (save_all fault acct now cs (m_storage m)).2 m) /\
    foldr Z.add 0 counts = (save_all fault acct now cs (m_storage m)).1.
Proof.
  revert m. induction cs as [|c cs IH]; intros m; cbn [map_each save_all].
  { exists []. by destruct m. }
  unfold mbind at 1, comp_bind at 1. rewrite sync_contact_eq. destruct (keyed c).
  - destruct (save_contact fault acct now c (m_storage m)) as [r db1].
    destruct (IH (set_storage db1 m)) as (counts & E & Hn). rewrite (bind_ok _ _ _ _ _ E).
    cbn [m_storage set_storage] in *. destruct (save_all fault acct now cs db1) as [n db2].
    exists ((if is_ok r then 1 else 0) :: counts). split; [done|]. cbn. by rewrite Hn.
  - destruct (IH m) as (counts & E & Hn). rewrite (bind_ok _ _ _ _ _ E).
    exists (0 :: counts). split; [done|]. cbn. by rewrite Hn.
Qed.

(** The sync of an account, on every path of a fetch. *)
Lemma sync_cases (fault : nat -> bool) (acct : string) (t now : Z)
    (f : outcome (list StorageContact)) (m : monitored) (Hf : std_outcome f) :
  syncStorageContacts fault acct t now f m =
  match entropy_pool m, f with
  | Some (String _ _), Ok cs =>
    let '(n, db) := save_all fault acct now cs (m_storage m) in
    (Ok (Some n), set_storage db (set_lastSync t m))
  | _, _ => (Ok None, set_lastSync t m)
  end.
Proof.
  unfold syncStorageContacts, modify. unfold mbind at 1, comp_bind at 1.
  unfold gets. unfold mbind at 1, comp_bind at 1.
  change (entropy_pool (set_lastSync t m)) with (entropy_pool m).
  destruct (entropy_pool m) as [[|ch p]|]; [done| |done]. cbn [str_empty].
  unfold catch_std, of_outcome. destruct f as [cs|[w| |]]; [|done..].
  unfold mbind at 1, comp_bind at 1.
  destruct (sync_contacts_eq fault acct now cs (set_lastSync t m)) as (counts & E & Hn).
  rewrite (bind_ok _ _ _ _ _ E). cbn [mret comp_ret]. rewrite Hn.
  change (m_storage (set_lastSync t m)) with (m_storage m). by destruct (save_all _ _ _ _ _).
Qed.

(** The contact sync: it never throws when the fetch fails with a
    std::exception; its time is recorded whatever happens, so that the loop
    does not retry at once; without an entropy pool nothing is read or
    written; otherwise every fetched contact with a number or an ACI is saved,
    one bad row costing only itself, and the count is that of the rows saved. *)
Lemma sync_saves_each_contact (fault : nat -> bool) (acct : string) (t now : Z)
    (f : outcome (list StorageContact)) (m : monitored) (Hf : std_outcome f) :
  syncStorageContacts fault acct t now f m =
  match entropy_pool m, f with
  | Some (String _ _), Ok cs =>
    let '(n, db) := save_all fault acct now cs (m_storage m) in
    (Ok (Some n), set_storage db (set_lastSync t m))
  | _, _ => (Ok None, set_lastSync t m)
  end.
Proof. by apply sync_cases. Qed.

Lemma sync_saves_each_contact_witness :
  let cs := [mkContact "+1" "u" "" [] "Ann" ""; mkContact "" "" "p" [] "" ""; mkContact "" "v" "" [] "Bob" ""] in
  let m := mkMonitored None None true 0 false 0 (Some "pool"%string) two_accounts [] in
  syncStorageContacts (fun n => Nat.eqb n 3) "a" 500 9 (Ok cs) m =
  let '(n, db) := save_all (fun n => Nat.eqb n 3) "a" 9 cs (m_storage m) in
  (Ok (Some n), set_storage db (set_lastSync 500 m)).
Proof.
  intros cs m. apply (sync_saves_each_contact (fun n => Nat.eqb n 3) "a" 500 9 (Ok cs) m). exact I.
Defined.
