(* ===== verification/StorageSync.v ===== *)
(** Fetching the account's contacts from Signal's StorageService
    (src/daemon/StorageServiceSync.cpp).

    OpenSSL, libsignal's key derivation, protobuf and the JSON parser are
    parameters.  The account's WebSocket and the storage host answer each from
    a list of answers to come; the requests made are recorded. *)

From S2P Require Import Prelude Uuid Base64 Storage CallSignaling Watchdog.

Open Scope Z_scope.

(** ** Data *)

(** ContactRecord, the fields the source reads. *)
Record ContactRecord := mkContactRecord {
  r_aci : string; r_pni : string; r_e164 : string; acibinary : Bytes; pnibinary : Bytes;
  profilekey : Bytes; givenname : string; familyname : string;
}.

Record ManifestRecord := mkManifest { identifiers : list (Z * Bytes); recordikm : Bytes }.

(** ManifestRecord.Identifier.Type.CONTACT *)
Definition CONTACT : Z := 1.

Record sync_lib := mkSyncLib {
  HMAC_SHA256 : Bytes -> string -> option Bytes;
  EVP_aes_256_gcm_open : Bytes -> Bytes -> Bytes -> Bytes -> option Bytes;  (* key, iv, ciphertext, tag *)
  derive_svr_key : string -> outcome Bytes;
  derive_storage_service_key : Bytes -> outcome Bytes;
  hkdf_derive : Bytes -> Bytes -> outcome Bytes;                            (* ikm, info *)
  sync_json : Bytes -> outcome json;
  parse_manifest : Bytes -> option (Z * Bytes);                             (* version, value *)
  parse_manifest_record : Bytes -> option ManifestRecord;
  parse_items : Bytes -> option (list (Bytes * Bytes));                     (* key, value *)
  parse_record : Bytes -> option (option ContactRecord);                    (* of a parsed one, has_contact *)
}.

(** What is asked for. *)
Inductive sync_request :=
| StorageAuth
| StorageManifest (username password : string)
| StorageRead (keys : list Bytes) (username password : string).

Record syncer := mkSyncer {
  sync_answers : list (option Response);   (* None: the request fails *)
  asked : list sync_request;
}.

Definition ask (r : sync_request) : Comp syncer Response := fun s =>
  match sync_answers s with
  | Some a :: rest => (Ok a, mkSyncer rest (asked s ++ [r]))
  | rest => (Throw (StdError "request failed"), mkSyncer (tail rest) (asked s ++ [r]))
  end.

Section Sync.
Context (lib : sync_lib).

Definition hmacSha256 (key : Bytes) (data : string) : outcome Bytes :=
  match HMAC_SHA256 lib key data with Some out => Ok out | None => Throw (StdError "HMAC-SHA256 failed") end.

Definition kIvLen : nat := 12.
Definition kTagLen : nat := 16.

(** iv || ciphertext || tag *)
Definition aesGcmDecrypt (key blob : Bytes) : outcome Bytes :=
  if bool_decide (length blob < kIvLen + kTagLen)%nat
  then Throw (StdError "storage record too short to be a valid AES-GCM blob") else
  let iv := take kIvLen blob in
  let ciphertextLen := (length blob - kIvLen - kTagLen)%nat in
  let ciphertext := take ciphertextLen (drop kIvLen blob) in
  let tag := take kTagLen (drop (kIvLen + ciphertextLen) blob) in
  match EVP_aes_256_gcm_open lib key iv ciphertext tag with
  | Some plaintext => Ok plaintext
  | None => Throw (StdError "storage record AES-256-GCM decrypt/auth failed (wrong key, or tampered)")
  end.

Definition deriveStorageServiceKey (accountEntropyPool : string) : outcome Bytes :=
  svrKey ← derive_svr_key lib accountEntropyPool;
  derive_storage_service_key lib svrKey.

Definition deriveManifestKey (storageServiceKey : Bytes) (version : Z) : outcome Bytes :=
  hmacSha256 storageServiceKey (String.append "Manifest_" (to_string version)).

Definition deriveItemKey (storageServiceKey rawId : Bytes) : outcome Bytes :=
  hmacSha256 storageServiceKey (String.append "Item_" (base64Encode rawId)).

Definition bytes_of_string (s : string) : Bytes :=
  map (fun c => Z.of_nat (nat_of_ascii c)) (String.list_ascii_of_string s).
Definition kInfoPrefix : string := "20240801_SIGNAL_STORAGE_SERVICE_ITEM_".
Definition deriveItemKeyFromRecordIkm (recordIkm rawId : Bytes) : outcome Bytes :=
  hkdf_derive lib recordIkm (bytes_of_string kInfoPrefix ++ rawId).

Definition uuidBytesToStringOrEmpty (bytes : Bytes) : string :=
  if negb (bool_decide (length bytes = 16%nat)) then EmptyString else uuid_text bytes.

(** The binary id wins over the legacy text. *)
Definition id_of (binary : Bytes) (text : string) : string :=
  match binary with [] => text | _ => uuidBytesToStringOrEmpty binary end.

Definition contact_of (c : ContactRecord) : StorageContact :=
  mkContact (r_e164 c) (id_of (acibinary c) (r_aci c)) (id_of (pnibinary c) (r_pni c)) (profilekey c)
    (givenname c) (familyname c).

Definition item_key (storageServiceKey recordIkm rawId : Bytes) : outcome Bytes :=
  match recordIkm with
  | [] => deriveItemKey storageServiceKey rawId
  | _ => deriveItemKeyFromRecordIkm recordIkm rawId
  end.

(** One item: its key must derive; what does not decrypt, parse or hold a
    contact is skipped. *)
Definition item_contact (storageServiceKey recordIkm : Bytes) (item : Bytes * Bytes) :
    outcome (list StorageContact) :=
  itemKey ← item_key storageServiceKey recordIkm item.1;
  mret (match aesGcmDecrypt itemKey item.2 with
        | Ok plaintext =>
          match parse_record lib plaintext with
          | Some (Some c) => [contact_of c]
          | _ => []
          end
        | Throw _ => []
        end).

Fixpoint item_contacts (storageServiceKey recordIkm : Bytes) (items : list (Bytes * Bytes)) :
    outcome (list StorageContact) :=
  match items with
  | [] => Ok []
  | item :: rest =>
    cs ← item_contact storageServiceKey recordIkm item;
    more ← item_contacts storageServiceKey recordIkm rest;
    mret (cs ++ more)
  end.

Definition parsed {A} (what : string) (o : option A) : outcome A :=
  match o with Some a => Ok a | None => Throw (StdError what) end.

(** A request whose status must be 200. *)
Definition ask_200 (r : sync_request) (what : string) : Comp syncer Response :=
  response ← ask r;
  if bool_decide (status response = 200) then mret response
  else throw_std (String.append what (to_string (status response))).

Definition contact_keys (m : ManifestRecord) : list Bytes :=
  omap (fun i => if bool_decide (i.1 = CONTACT) then Some i.2 else None) (identifiers m).

Definition fetchStorageContacts (accountEntropyPool : string) : Comp syncer (list StorageContact) :=
  if str_empty accountEntropyPool then throw_std "no account_entropy_pool stored for this account - cannot derive storage key" else
  storageServiceKey ← of_outcome (deriveStorageServiceKey accountEntropyPool);
  authResp ← ask_200 StorageAuth "GET /v1/storage/auth -> status ";
  credentials ← of_outcome (
    j ← sync_json lib (body authResp);
    username ← (at_ j "username" ≫= get_string);
    password ← (at_ j "password" ≫= get_string);
    mret (username, password));
  manifestResp ← ask_200 (StorageManifest credentials.1 credentials.2) "GET /v1/storage/manifest -> status ";
  manifest ← of_outcome (parsed "failed to parse StorageManifest protobuf" (parse_manifest lib (body manifestResp)));
  manifestKey ← of_outcome (deriveManifestKey storageServiceKey manifest.1);
  manifestPlaintext ← of_outcome (aesGcmDecrypt manifestKey manifest.2);
  manifestRecord ← of_outcome (parsed "failed to parse ManifestRecord protobuf"
                                 (parse_manifest_record lib manifestPlaintext));
  match contact_keys manifestRecord with
  | [] => mret []
  | keys =>
    itemsResp ← ask_200 (StorageRead keys credentials.1 credentials.2) "PUT /v1/storage/read -> status ";
    items ← of_outcome (parsed "failed to parse StorageItems protobuf" (parse_items lib (body itemsResp)));
    of_outcome (item_contacts storageServiceKey (recordikm manifestRecord) items)
  end.
End Sync.

(** ** Lemmas *)

(** A blob put together from its three parts is taken apart into them. *)
Lemma aesGcmDecrypt_parts lib key iv ciphertext tag :
  length iv = kIvLen -> length tag = kTagLen ->
  aesGcmDecrypt lib key (iv ++ ciphertext ++ tag) =
  match EVP_aes_256_gcm_open lib key iv ciphertext tag with
  | Some plaintext => Ok plaintext
  | None => Throw (StdError "storage record AES-256-GCM decrypt/auth failed (wrong key, or tampered)")
  end.
Proof.
  intros Hiv Htag. unfold aesGcmDecrypt. rewrite !length_app, bool_decide_eq_false_2 by lia.
  rewrite take_app_length' by done. rewrite drop_app_length' by done.
  replace (length iv + (length ciphertext + length tag) - kIvLen - kTagLen)%nat with (length ciphertext) by lia.
  rewrite take_app_length. replace (kIvLen + length ciphertext)%nat with (length (iv ++ ciphertext)).
  2: { rewrite length_app. lia. }
  rewrite app_assoc, drop_app_length, take_ge by lia. done.
Qed.

(** Every blob that is long enough has these parts, a shorter one none. *)
Lemma aesGcmDecrypt_long (blob : Bytes) :
  (kIvLen + kTagLen <= length blob)%nat ->
  exists iv ciphertext tag, blob = iv ++ ciphertext ++ tag /\ length iv = kIvLen /\ length tag = kTagLen.
Proof.
  intros H. exists (take kIvLen blob), (take (length blob - kIvLen - kTagLen) (drop kIvLen blob)),
    (drop (length blob - kIvLen - kTagLen) (drop kIvLen blob)).
  rewrite !take_drop, length_take, !length_drop. split_and!; [done|lia|lia].
Qed.

(** What one item holds, if it can be read. *)
Definition readable (lib : sync_lib) (storageServiceKey recordIkm : Bytes) (item : Bytes * Bytes) :
    option StorageContact :=
  match item_key lib storageServiceKey recordIkm item.1 with
  | Ok key =>
    match aesGcmDecrypt lib key item.2 with
    | Ok plaintext => c ← mjoin (parse_record lib plaintext); Some (contact_of c)
    | Throw _ => None
    end
  | Throw _ => None
  end.

Lemma item_contacts_readable lib k ikm items :
  Forall (fun item => exists key, item_key lib k ikm item.1 = Ok key) items ->
  item_contacts lib k ikm items = Ok (omap (readable lib k ikm) items).
Proof.
  induction 1 as [|item items [key Hk] _ IH]; [done|]. cbn [item_contacts omap list_omap].
  unfold item_contact, readable. rewrite Hk. cbn. rewrite IH. cbn.
  destruct (aesGcmDecrypt lib key item.2) as [plain|e]; [|done].
  by destruct (parse_record lib plain) as [[c|]|].
Qed.

(** An answer of the list is used up, and its request recorded. *)
Lemma ask_200_ok r what b rest sent :
  ask_200 r what (mkSyncer (Some (mkResponse 200 b) :: rest) sent) = (Ok (mkResponse 200 b), mkSyncer rest (sent ++ [r])).
Proof. done. Qed.

(** The contacts fetched are those of the manifest that can be read: when
    the three requests answer 200, the request for the items names exactly the
    manifest's CONTACT identifiers, and the result is, in the server's order,
    one contact for each item that decrypts under its own key, parses and
    holds a contact; any other item costs only itself.  A manifest without
    such identifiers gives no contacts and no third request. *)
Lemma readable_contacts_fetched lib pool k b1 b2 b3 j u p version value mk plain m items sent
    (Hpool : str_empty pool = false) (Hk : deriveStorageServiceKey lib pool = Ok k)
    (Hjson : sync_json lib b1 = Ok j)
    (Hu : (at_ j "username" ≫= get_string) = Ok u) (Hp : (at_ j "password" ≫= get_string) = Ok p)
    (Hmanifest : parse_manifest lib b2 = Some (version, value))
    (Hmk : deriveManifestKey lib k version = Ok mk) (Hplain : aesGcmDecrypt lib mk value = Ok plain)
    (Hrecord : parse_manifest_record lib plain = Some m)
    (Hitems : parse_items lib b3 = Some items)
    (Hkeys : Forall (fun item => exists key, item_key lib k (recordikm m) item.1 = Ok key) items) :
  let answers := [Some (mkResponse 200 b1); Some (mkResponse 200 b2); Some (mkResponse 200 b3)] in
  fetchStorageContacts lib pool (mkSyncer answers sent) =
  match contact_keys m with
  | [] => (Ok [], mkSyncer [Some (mkResponse 200 b3)] (sent ++ [StorageAuth; StorageManifest u p]))
  | keys => (Ok (omap (readable lib k (recordikm m)) items),
             mkSyncer [] (sent ++ [StorageAuth; StorageManifest u p; StorageRead keys u p]))
  end.
Proof.
  intros answers; subst answers. unfold fetchStorageContacts. rewrite Hpool, Hk.
  erewrite bind_ok; [|reflexivity]. cbv beta. rewrite (bind_ok _ _ _ _ _ (ask_200_ok _ _ _ _ _)). cbv beta.
  cbn [body]. rewrite Hjson. cbn [mbind outcome_bind]. rewrite Hu. cbn [mbind outcome_bind]. rewrite Hp.
  erewrite bind_ok; [|reflexivity]. cbv beta. rewrite (bind_ok _ _ _ _ _ (ask_200_ok _ _ _ _ _)). cbv beta.
  cbn [body]. rewrite Hmanifest. erewrite bind_ok; [|reflexivity]. cbv beta. cbn [fst snd]. rewrite Hmk.
  erewrite bind_ok; [|reflexivity]. cbv beta. rewrite Hplain. erewrite bind_ok; [|reflexivity]. cbv beta.
  rewrite Hrecord. erewrite bind_ok; [|reflexivity]. cbv beta. rewrite <- app_assoc. cbn [app].
  destruct (contact_keys m) as [|key keys]; [done|].
  rewrite (bind_ok _ _ _ _ _ (ask_200_ok _ _ _ _ _)). cbv beta. cbn [body]. rewrite Hitems.
  erewrite bind_ok; [|reflexivity]. cbv beta. rewrite (item_contacts_readable _ _ _ _ Hkeys).
  by rewrite <- app_assoc.
Qed.

(** libsignal's wrapper and nlohmann::json raise std::exceptions only. *)
Record std_sync_lib (lib : sync_lib) : Prop := {
  std_svr : forall p, std_outcome (derive_svr_key lib p);
  std_storage : forall k, std_outcome (derive_storage_service_key lib k);
  std_hkdf : forall k i, std_outcome (hkdf_derive lib k i);
  std_sync_json : forall b, std_outcome (sync_json lib b);
}.

Lemma std_hmac lib k d : std_outcome (hmacSha256 lib k d).
Proof. unfold hmacSha256. by destruct (HMAC_SHA256 lib k d). Qed.
Lemma std_gcm lib k b : std_outcome (aesGcmDecrypt lib k b).
Proof. unfold aesGcmDecrypt. case_bool_decide; [done|]. by destruct (EVP_aes_256_gcm_open _ _ _ _ _). Qed.
Lemma std_parsed {A} w (o : option A) : std_outcome (parsed w o).
Proof. by destruct o. Qed.
Lemma std_at_string j k : std_outcome (at_ j k ≫= get_string).
Proof. apply std_bind; [apply std_at|]. intros v. by destruct v. Qed.
Lemma std_items lib k ikm items : std_sync_lib lib -> std_outcome (item_contacts lib k ikm items).
Proof.
  intros Hl. induction items as [|item items IH]; [done|]. cbn [item_contacts].
  apply std_bind; [|intros cs; apply std_bind; [done|by intros more]].
  apply std_bind; [|done]. unfold item_key, deriveItemKey, deriveItemKeyFromRecordIkm.
  destruct ikm; [apply std_hmac|apply Hl].
Qed.
Lemma ask_200_raises r w : raises_only is_std (ask_200 r w).
Proof.
  apply raises_bind; [by intros [[|[a|] rest] sent]|]. intros a. by case_bool_decide.
Qed.
#[local] Hint Resolve std_hmac std_gcm std_parsed std_at_string std_items std_bind ask_200_raises : signal.

Lemma fetch_raises lib pool : std_sync_lib lib -> raises_only is_std (fetchStorageContacts lib pool).
Proof.
  intros Hl. unfold fetchStorageContacts. destruct (str_empty pool); [done|].
  assert (forall A (o : outcome A), std_outcome o -> match o with Ok _ => True | Throw e => is_std e end) as H
    by (intros A [a|[w| |]]; done).
  raises; apply H; unfold deriveStorageServiceKey, deriveManifestKey; eauto with signal.
  - apply std_bind; intros; apply Hl.
  - apply std_bind; [apply Hl|]. intros j. apply std_bind; [apply std_at_string|]. intros u. by apply std_bind; [apply std_at_string|].
Qed.

(** The sync of an account survives every failure of the fetch: whatever
    the two servers answer or fail to answer, and whatever does not parse or
    decrypt, [syncStorageContacts] returns normally and its time is recorded;
    a fetch that throws leaves the database alone, one that succeeds has its
    contacts saved one by one. *)
Lemma sync_contains_fetch_failures lib fault acct t now s m pool
    (Hl : std_sync_lib lib) (Hpool : entropy_pool m = Some pool) :
  syncStorageContacts fault acct t now (fetchStorageContacts lib pool s).1 m =
  match (fetchStorageContacts lib pool s).1 with
  | Ok cs =>
    let '(n, db) := save_all fault acct now cs (m_storage m) in
    (Ok (Some n), set_storage db (set_lastSync t m))
  | Throw _ => (Ok None, set_lastSync t m)
  end.
Proof.
  pose proof (fetch_raises lib pool Hl s) as Hr.
  assert (str_empty pool = true -> exists w, (fetchStorageContacts lib pool s).1 = Throw w) as He.
  { intros E. unfold fetchStorageContacts. rewrite E. by eexists. }
  destruct (fetchStorageContacts lib pool s).1 as [cs|[w| |]]; [|by rewrite sync_cases, Hpool; destruct pool|done..].
  rewrite sync_cases, Hpool by done. destruct pool; [|done]. by destruct (He eq_refl).
Qed.

(** *** Service ids as text *)

(** No two service ids are written alike: the text of a 16-byte id is read
    back byte for byte, anything else is written as the empty string. *)
Lemma uuid_text_roundtrip bytes (Hb : Forall (fun b => 0 <= b < 256) bytes) :
  uuidBytesToStringOrEmpty bytes = EmptyString /\ length bytes <> 16%nat \/
  unhex (uuidBytesToStringOrEmpty bytes) = Some bytes /\ length bytes = 16%nat.
Proof.
  unfold uuidBytesToStringOrEmpty. case_bool_decide as Hlen; [right|by left]. split; [|done].
  by apply unhex_uuid_text.
Qed.

(** ** Examples *)

(** A storage server whose tags end in 0 when they are right. *)
Definition toy_sync : sync_lib := mkSyncLib
  (fun key data => Some (key ++ [Z.of_nat (String.length data)]))
  (fun key iv ciphertext tag => if bool_decide (last tag = Some 0) then Some ciphertext else None)
  (fun _ => Ok [3]) (fun k => Ok (4 :: k)) (fun ikm info => Ok (ikm ++ info))
  (fun _ => Ok (JObj [("username", JStr "u"); ("password", JStr "p")]))
  (fun b => match b with v :: value => Some (v, value) | [] => None end)
  (fun plain => match plain with [] => None | _ => Some (mkManifest [(1, [1]); (2, [9]); (1, [3])] [5]) end)
  (fun b => Some [([1], [1; 2; 3]); ([2], repeat 1 29); ([3], repeat 0 12 ++ b ++ repeat 0 16); ([4], repeat 0 28)])
  (fun plain => match plain with
                | [] => Some None
                | _ => Some (Some (mkContactRecord "old" "pni" "+1" plain [] [] "Ann" "B"))
                end).

Lemma readable_contacts_fetched_witness :
  fetchStorageContacts toy_sync "pool"
    (mkSyncer [Some (mkResponse 200 [1]); Some (mkResponse 200 (8 :: repeat 0 29)); Some (mkResponse 200 (repeat 171 16))] []) =
  (Ok [mkContact "+1" "abababab-abab-abab-abab-abababababab" "pni" [] "Ann" "B"],
   mkSyncer [] [StorageAuth; StorageManifest "u" "p"; StorageRead [[1]; [3]] "u" "p"]).
Proof.
  rewrite (readable_contacts_fetched toy_sync "pool" [4; 3] [1] (8 :: repeat 0 29) (repeat 171 16)
    (JObj [("username", JStr "u"); ("password", JStr "p")]) "u" "p" 8 (repeat 0 29) [4; 3; 10] [0]
    (mkManifest [(1, [1]); (2, [9]); (1, [3])] [5])
    [([1], [1; 2; 3]); ([2], repeat 1 29); ([3], repeat 0 12 ++ repeat 171 16 ++ repeat 0 16); ([4], repeat 0 28)] []);
    [vm_compute; reflexivity|reflexivity..|].
  repeat constructor; by eexists.
Defined.

Lemma sync_contains_fetch_failures_witness :
  let m := mkMonitored None None true 0 false 0 (Some "pool"%string) two_accounts [] in
  syncStorageContacts (fun n => Nat.eqb n 3) "a" 500 9
    (fetchStorageContacts toy_sync "pool" (mkSyncer [Some (mkResponse 200 [1]); Some (mkResponse 503 [])] [])).1 m =
  (Ok None, set_lastSync 500 m).
Proof.
  intros m. rewrite (sync_contains_fetch_failures toy_sync (fun n => Nat.eqb n 3) "a" 500 9
    (mkSyncer [Some (mkResponse 200 [1]); Some (mkResponse 503 [])] []) m "pool"); [reflexivity| |reflexivity].
  split; done.
Defined.

Lemma uuid_text_roundtrip_witness :
  unhex "01000000-0000-0000-0000-0000000000ff" = Some (1 :: repeat 0 14 ++ [255]).
Proof.
  destruct (uuid_text_roundtrip (1 :: repeat 0 14 ++ [255])) as [[_ H]|[H _]];
    [repeat (apply Forall_cons; split; [lia|]); apply Forall_nil_2|by destruct H|exact H].
Defined.
