(* ===== verification/Lifecycle.v ===== *)
(** Bringing accounts up and down (src/daemon/main.cpp: [setupAccount],
    [teardownAccount], [reloadConfig], [ensureSharedEndpoint] and the
    transports).

    The process-wide maps and what of each account decides whether setting up
    and tearing down is safe: its queue, its call manager, its socket.  The
    database, libsignal, RingRTC and PJSIP answer through one [bringup] per
    account.  A handler can end in more than one way: normally, with an
    exception nothing catches, or by dereferencing a null pointer. *)

From S2P Require Import Prelude Storage Config AuthSocket CallSignaling Calls.
From stdpp Require Import sorting.

Open Scope Z_scope.

(** One [AccountState]; [incarnation] is its address. *)
Record account := mkLive {
  incarnation : nat;
  config : AccountConfig;
  queue_started : bool;
  handle : bool;                       (* the RingRTC call manager exists *)
  socket : option Socket.sock;
  calls : AccountState;                (* the bridge and the legs *)
}.

(** A [BridgeAccount] with its transport. *)
Record sip_account := mkSip { bridge_account : BridgeAccount; transport : nat }.

(** What the handlers ask of PJSIP, how long they wait for it, and what
    setting up an account asks of StorageService and RingRTC. *)
Inductive step :=
| Unregister (n : string)
| Slept (ms : nat)
| ContactSync (n : string)             (* syncStorageContacts; lastStorageSyncMs is set *)
| StartOutgoing (n target : string) (device : Z) (placed : bool).

(** The globals; [transports] are the slots in use in PJSIP's table,
    [managers] the RingRTC call managers that exist. *)
Record daemon := mkDaemonState {
  g_accounts : gmap string account;
  g_sipAccounts : gmap string sip_account;
  g_portToAccount : gmap Z nat;
  g_ep : bool;
  transports : gset nat;
  managers : gset nat;
  next_address : nat;
  steps : list step;
}.

Definition set_accounts v d := mkDaemonState v (g_sipAccounts d) (g_portToAccount d) (g_ep d)
  (transports d) (managers d) (next_address d) (steps d).
Definition set_sips v d := mkDaemonState (g_accounts d) v (g_portToAccount d) (g_ep d)
  (transports d) (managers d) (next_address d) (steps d).
Definition set_ports v d := mkDaemonState (g_accounts d) (g_sipAccounts d) v (g_ep d)
  (transports d) (managers d) (next_address d) (steps d).
Definition set_ep v d := mkDaemonState (g_accounts d) (g_sipAccounts d) (g_portToAccount d) v
  (transports d) (managers d) (next_address d) (steps d).
Definition set_transports v d := mkDaemonState (g_accounts d) (g_sipAccounts d) (g_portToAccount d)
  (g_ep d) v (managers d) (next_address d) (steps d).
Definition set_managers v d := mkDaemonState (g_accounts d) (g_sipAccounts d) (g_portToAccount d)
  (g_ep d) (transports d) v (next_address d) (steps d).
Definition set_next_address v d := mkDaemonState (g_accounts d) (g_sipAccounts d) (g_portToAccount d)
  (g_ep d) (transports d) (managers d) v (steps d).
Definition set_steps v d := mkDaemonState (g_accounts d) (g_sipAccounts d) (g_portToAccount d)
  (g_ep d) (transports d) (managers d) (next_address d) v.
Definition record_step (x : step) : Comp daemon unit := modify (fun d => set_steps (steps d ++ [x]) d).

Definition initial : daemon := mkDaemonState ∅ ∅ ∅ false ∅ ∅ 0 [].

(** What the libraries and the service answer while one account is set up or
    torn down. *)
Record bringup := mkBringup {
  open_storage : outcome AccountRecord;    (* Storage, loadAccount, ProtocolStores *)
  stores_opened : sender;                  (* what the sender is built over *)
  call_manager : bool;                     (* signal2sip_call_manager_create gave a handle *)
  socket_options : outcome unit;           (* libsignal's answers in the constructor *)
  connection : Socket.attempt_result;
  refresh : outcome unit;                  (* refreshPrekeys, refreshAccountAttributes *)
  contacts_synced : outcome unit;          (* fetchStorageContacts, and what it found saved *)
  keys_request : outcome unit;             (* sendKeysRequest *)
  endpoint : bool;                         (* libCreate, libInit, libStart succeed *)
  transport_created : option nat;          (* None: PJSUA_INVALID_ID *)
  local_address : outcome string;          (* transportGetInfo(id).localAddress *)
  sip_create : outcome unit;               (* pj::Account::create *)
  registered_at : nat -> bool;             (* [registered] at the i-th look of a wait *)
  unregistered_since : Z;
  resolved_target : outcome string;        (* resolveOutgoingTarget *)
  call_placed : bool;                      (* signal2sip_call_start_outgoing gave a call id *)
  legs : environment;                      (* PJSIP, while the calls are stopped *)
  unregister : outcome unit;               (* setRegistration(false) *)
  unregistered_at : nat -> bool;
  transport_close : outcome unit;          (* transportClose *)
}.

(** How a handler ends. *)
Inductive ended (A : Type) :=
| Returned (a : A)
| Uncaught (e : exn)        (* leaves main: std::terminate *)
| NullDereference.
Arguments Returned {A} a.
Arguments Uncaught {A} e.
Arguments NullDereference {A}.

(** [for (int i = 0; i < n && !done; i++) sleep_for(100ms)]: how many sleeps. *)
Fixpoint polls (n i : nat) (finished : nat -> bool) : nat :=
  match n with
  | O => O
  | S n' => if finished i then O else S (polls n' (S i) finished)
  end.

Section Setup.
Context (cfg : AccountConfig) (b : bringup).

(** [ensureSharedEndpoint] *)
Definition ensureSharedEndpoint : Comp daemon unit :=
  modify (fun d => set_ep (g_ep d || endpoint b) d).

(** Change this account's entry. *)
Definition on_account (f : account -> account) : Comp daemon unit :=
  modify (fun d => set_accounts (alter f (name cfg) (g_accounts d)) d).

(** [*(g_accounts[name] = std::make_unique<AccountState>())], with the config. *)
Definition new_account : Comp daemon nat := fun d =>
  (Ok (next_address d),
   set_next_address (S (next_address d))
     (set_accounts (<[name cfg := mkLive (next_address d) cfg false false None
                                    (fresh_account (stores_opened b) None)]> (g_accounts d)) d)).

(** The port after the last colon goes into [g_portToAccount]. *)
Definition record_port (address : nat) : Comp daemon unit :=
  catch_pj (catch_std
    (localAddr ← of_outcome (local_address b);
     match split_last ":"%char localAddr with
     | None => mret tt
     | Some (_, suffix) =>
       port ← of_outcome (stoi suffix);
       modify (fun d => set_ports (<[port := address]> (g_portToAccount d)) d)
     end) (fun _ => mret tt)) (mret tt).

(** [createAccountUdpTransport] and [createAccountTlsTransport] *)
Definition create_transport : Comp daemon (option nat) :=
  ep ← gets g_ep;
  if negb (ep : bool) then mret None else
  match transport_created b with
  | Some id => modify (fun d => set_transports (transports d ∪ {[ id ]}) d) ;; mret (Some id)
  | None => mret None
  end.

Definition setup_sip (address : nat) : Comp daemon unit :=
  ensureSharedEndpoint ;;
  transportId ← create_transport;
  match transportId with
  | None => mret tt
  | Some id =>
    record_port address ;;
    of_outcome (sip_create b) ;;
    let slept := polls 100 0 (registered_at b) in
    record_step (Slept (100 * slept)) ;;
    modify (fun d => set_sips (<[name cfg := mkSip
      (let up := registered_at b slept in mkBridgeAccount up (if up then 0 else unregistered_since b))
      id]> (g_sipAccounts d)) d)
  end.

(** The connection, on this account's socket. *)
Definition connect_socket : Comp daemon unit := fun d =>
  let '(r, s) := Socket.connect (connection b) Socket.fresh_sock in
  (r, set_accounts (alter (fun a => mkLive (incarnation a) (config a) (queue_started a) (handle a) (Some s) (calls a))
        (name cfg) (g_accounts d)) d).

(** Up to [dispatchQueue.start()]. *)
Definition setup_before_queue : Comp daemon (nat * AccountRecord) :=
  when (hasSip cfg) ensureSharedEndpoint ;;
  address ← new_account;
  record ← of_outcome (open_storage b);
  (if call_manager b
   then on_account (fun a => mkLive (incarnation a) (config a) (queue_started a) true (socket a) (calls a)) ;;
        modify (fun d => set_managers (managers d ∪ {[ address ]}) d)
   else throw_std "could not create RingRTC call manager") ;;
  of_outcome (Socket.applyProxyConfig (signalProxy cfg)) ;;
  of_outcome (socket_options b) ;;
  on_account (fun a => mkLive (incarnation a) (config a) (queue_started a) (handle a)
                       (Some Socket.fresh_sock) (calls a)) ;;
  mret (address, record).

Definition has_pool (record : AccountRecord) : bool :=
  match account_entropy_pool record with Some p => str_nonempty p | None => false end.

(** [syncStorageContacts(acct)]; its effect on the account's own fields and
    contacts is Watchdog.syncStorageContacts. *)
Definition initial_sync (record : AccountRecord) : Comp daemon unit :=
  record_step (ContactSync (name cfg)) ;;
  when (has_pool record) (catch_std (of_outcome (contacts_synced b)) (fun _ => mret tt)).

(** The call to [outgoing_call_target]. *)
Definition place_call (record : AccountRecord) : Comp daemon unit :=
  when (str_nonempty (outgoingCallTarget cfg))
    (resolvedTarget ← catch_std (of_outcome (resolved_target b)) (fun _ => mret EmptyString);
     when (str_nonempty resolvedTarget)
       (record_step (StartOutgoing (name cfg) resolvedTarget (u32 (device_id record)) (call_placed b)))).

Definition setup_after_queue (address : nat) (record : AccountRecord) : Comp daemon unit :=
  connect_socket ;;
  of_outcome (refresh b) ;;
  initial_sync record ;;
  when (has_pool record) (catch_std (of_outcome (keys_request b)) (fun _ => mret tt)) ;;
  when (hasSip cfg) (setup_sip address) ;;
  place_call record.

(** The body of the [try] block. *)
Definition setup_body : Comp daemon unit :=
  r ← setup_before_queue;
  on_account (fun a => mkLive (incarnation a) (config a) true (handle a) (socket a) (calls a)) ;;
  setup_after_queue r.1 r.2.

(** [dispatchQueue.stopAndJoin()] locks the mutex of a state that only
    [start()] allocates. *)
Definition stopAndJoin {A} (a : account) (k : ended A * daemon) (d : daemon) : ended A * daemon :=
  if queue_started a then k else (NullDereference, d).

(** [if (handle) signal2sip_call_manager_destroy(handle)] *)
Definition destroy_manager (a : account) (d : daemon) : daemon :=
  if handle a then set_managers (managers d ∖ {[ incarnation a ]}) d else d.

(** [if (socket) socket->close()], on a socket that goes away with its account. *)
Definition close_socket (a : account) : outcome unit :=
  match socket a with Some s => (Socket.close s).1 | None => Ok tt end.

Definition setupAccount (d : daemon) : ended bool * daemon :=
  match setup_body d with
  | (Ok _, d') => (Returned true, d')
  | (Throw (StdError _), d') =>
    let erase d := (Returned false, set_accounts (delete (name cfg) (g_accounts d)) d) in
    match g_accounts d' !! name cfg with
    | Some a =>
      stopAndJoin a (match close_socket a with
                     | Ok _ => erase (destroy_manager a d')
                     | Throw e => (Uncaught e, destroy_manager a d')
                     end) d'
    | None => erase d'
    end
  | (Throw e, d') => (Uncaught e, d')
  end.
End Setup.

(** The account's SIP side: a graceful unregister, then its transport. *)
Definition release_sip (b : bringup) (nm : string) : Comp daemon unit :=
  d ← get;
  match g_sipAccounts d !! nm with
  | Some sip =>
    when (g_ep d)
      (when (registered (bridge_account sip))
         (catch_pj (record_step (Unregister nm) ;; of_outcome (unregister b) ;;
                    record_step (Slept (100 * polls 20 0 (unregistered_at b)))) (mret tt)) ;;
       catch_pj (of_outcome (transport_close b) ;;
                 modify (fun d => set_transports (transports d ∖ {[ transport sip ]}) d)) (mret tt))
  | None => mret tt
  end.

(** From a handler's computation to how it ends. *)
Definition ends_as {A} (r : outcome A * daemon) : ended A * daemon :=
  match r with
  | (Ok x, d) => (Returned x, d)
  | (Throw e, d) => (Uncaught e, d)
  end.

(** What follows the join: RingRTC, the WebSocket (which is there from the
    moment the account is), SIP, and the two maps. *)
Definition release_account (b : bringup) (nm : string) (a : account) (d : daemon) : ended unit * daemon :=
  match socket a with
  | None => (NullDereference, d)
  | Some _ =>
    ends_as ((modify (destroy_manager a) ;; of_outcome (close_socket a) ;; release_sip b nm ;;
              modify (fun d => set_accounts (delete nm (g_accounts d))
                (set_sips (delete nm (g_sipAccounts d)) d))) d)
  end.

Definition teardownAccount (b : bringup) (nm : string) (d : daemon) : ended unit * daemon :=
  match g_accounts d !! nm with
  | None => (Returned tt, d)
  | Some a =>
    match (stopSipBridge (legs b) ;; stopIncomingSipCall (legs b)) (calls a) with
    | (Throw e, _) => (Uncaught e, d)
    | (Ok _, _) => stopAndJoin a (release_account b nm a d) d
    end
  end.

(** A std::map is iterated in the order of its keys. *)
Definition key_le {A} (x y : string * A) : Prop := String.le x.1 y.1.
#[export] Instance key_le_dec {A} : RelDecision (@key_le A) := fun x y => String.le_dec x.1 y.1.
Definition in_order {A} (m : gmap string A) : list (string * A) := merge_sort key_le (map_to_list m).

(** A loop that goes on while its body returns. *)
Fixpoint loop {A} (f : A -> daemon -> ended unit * daemon) (l : list A) (d : daemon) :
    ended unit * daemon :=
  match l with
  | [] => (Returned tt, d)
  | x :: l => match f x d with
              | (Returned _, d') => loop f l d'
              | r => r
              end
  end.

Section Reload.
Context (libs : string -> bringup).

Definition remove_account (newByName : gmap string AccountConfig) (x : string * account)
    (d : daemon) : ended unit * daemon :=
  match newByName !! x.1 with
  | Some _ => (Returned tt, d)
  | None => teardownAccount (libs x.1) x.1 d
  end.

Definition as_unit (r : ended bool * daemon) : ended unit * daemon :=
  match r with
  | (Returned _, d) => (Returned tt, d)
  | (Uncaught e, d) => (Uncaught e, d)
  | (NullDereference, d) => (NullDereference, d)
  end.

Definition update_account (x : string * AccountConfig) (d : daemon) : ended unit * daemon :=
  let '(nm, cfg) := x in
  match g_accounts d !! nm with
  | None => as_unit (setupAccount cfg (libs nm) d)
  | Some a =>
    if bool_decide (configVersion (config a) = configVersion cfg) then (Returned tt, d)
    else match teardownAccount (libs nm) nm d with
         | (Returned _, d') => as_unit (setupAccount cfg (libs nm) d')
         | r => r
         end
  end.

Definition by_name (accounts : list AccountConfig) : gmap string AccountConfig :=
  list_to_map (map (fun c => (name c, c)) accounts).

Definition reloadConfig (loaded : outcome DaemonConfig) (d : daemon) : ended unit * daemon :=
  match loaded with
  | Throw (StdError _) => (Returned tt, d)
  | Throw e => (Uncaught e, d)
  | Ok newConfig =>
    let newByName := by_name (accounts newConfig) in
    match loop (remove_account newByName) (in_order (g_accounts d)) d with
    | (Returned _, d') => loop update_account (in_order newByName) d'
    | r => r
    end
  end.

(** [main] up to its loop: every configured account, none of them fatal. *)
Definition start_all (l : list AccountConfig) (d : daemon) : ended unit * daemon :=
  loop (fun cfg d => as_unit (setupAccount cfg (libs (name cfg)) d)) l d.

(** [main]'s shutdown. *)
Definition shutdown (d : daemon) : ended unit * daemon :=
  loop (fun x => teardownAccount (libs x.1) x.1) (in_order (g_accounts d)) d.
End Reload.

(** ** Lemmas *)

(** The libraries fail with std::exceptions, PJSIP with its own error. *)
Record documented (b : bringup) : Prop := {
  doc_storage : std_outcome (open_storage b);
  doc_socket : std_outcome (socket_options b);
  doc_refresh : std_outcome (refresh b);
  doc_sync : std_outcome (contacts_synced b);
  doc_keys : std_outcome (keys_request b);
  doc_address : pj_outcome (local_address b);
  doc_create : pj_outcome (sip_create b);
  doc_target : std_outcome (resolved_target b);
  doc_unregister : pj_outcome (unregister b);
  doc_close : pj_outcome (transport_close b);
}.

(** Something fails before the queue is started. *)
Definition early_failure (cfg : AccountConfig) (b : bringup) : bool :=
  negb (is_ok (open_storage b) && call_manager b && is_ok (Socket.applyProxyConfig (signalProxy cfg)) &&
        is_ok (socket_options b)).

Definition others_kept (nm : string) (d0 d : daemon) : Prop :=
  forall n, n <> nm -> g_accounts d !! n = g_accounts d0 !! n /\ g_sipAccounts d !! n = g_sipAccounts d0 !! n.

Lemma others_kept_refl nm d : others_kept nm d d.
Proof. by intros n. Qed.

Lemma others_kept_trans nm d1 d2 d3 : others_kept nm d1 d2 -> others_kept nm d2 d3 -> others_kept nm d1 d3.
Proof. intros H1 H2 n Hn. destruct (H1 n Hn) as [<- <-], (H2 n Hn) as [<- <-]. done. Qed.

Section setup.
#[local] Set Default Proof Using "All".
Context (cfg : AccountConfig) (b : bringup) (Hb : documented b).

(** The state before the queue is started: the entry is there, without a
    queue; nothing else changed but the endpoint and the call manager. *)
Lemma before_queue_spec d :
  let '(r, d') := setup_before_queue cfg b d in
  exists a, g_accounts d' = <[name cfg := a]> (g_accounts d) /\ g_sipAccounts d' = g_sipAccounts d /\
    g_portToAccount d' = g_portToAccount d /\ transports d' = transports d /\
    managers d' = managers d ∪ (if handle a then {[ next_address d ]} else ∅) /\
    (g_ep d = true -> g_ep d' = true) /\
    queue_started a = false /\ config a = cfg /\ incarnation a = next_address d /\
    match r with
    | Ok (address, record) => early_failure cfg b = false /\ address = next_address d /\
        open_storage b = Ok record /\ socket a = Some Socket.fresh_sock /\ handle a = true
    | Throw e => early_failure cfg b = true /\ exists w, e = StdError w
    end.
Proof.
  unfold setup_before_queue, early_failure.
  assert (exists d1, when (hasSip cfg) (ensureSharedEndpoint b) d = (Ok tt, d1) /\
    g_accounts d1 = g_accounts d /\ g_sipAccounts d1 = g_sipAccounts d /\
    g_portToAccount d1 = g_portToAccount d /\ transports d1 = transports d /\
    managers d1 = managers d /\ (g_ep d = true -> g_ep d1 = true) /\ next_address d1 = next_address d)
    as (d1 & E1 & Ha & Hs & Hp & Ht & Hm & Hg & Hn).
  { destruct (hasSip cfg); eexists; split; [reflexivity|..|reflexivity|]; split_and!; try done.
    cbn. by intros ->. }
  rewrite (bind_ok _ _ _ _ _ E1). clear E1.
  pose proof (doc_storage b Hb) as Hst. pose proof (doc_socket b Hb) as Hso.
  pose proof (applyProxy_std (signalProxy cfg)) as Hpr.
  unfold new_account, on_account, throw_std, throw, modify, of_outcome, mbind, comp_bind, mret, comp_ret.
  cbn. destruct (open_storage b) as [record|[w| |]]; [|clear Hst|done|done]; cbn.
  2: { rewrite Hn, Ha, Hm. eexists. split; [reflexivity|]. cbn. rewrite union_empty_r_L. split_and!; eauto. }
  destruct (call_manager b); cbn.
  2: { rewrite Hn, Ha, Hm. eexists. split; [reflexivity|]. cbn. rewrite union_empty_r_L. split_and!; eauto. }
  rewrite Hn, Ha, Hm, alter_insert_eq. cbn.
  destruct (Socket.applyProxyConfig (signalProxy cfg)) as [p|[w| |]]; [|clear Hpr|done|done]; cbn.
  2: { eexists. split_and!; eauto. }
  destruct (socket_options b) as [u|[w| |]]; [|clear Hso|done|done]; cbn.
  2: { eexists. split_and!; eauto. }
  rewrite alter_insert_eq. cbn. eexists. split_and!; eauto.
Qed.

Lemma connect_fresh r :
  match Socket.connect r Socket.fresh_sock with
  | (Ok _, s) => Socket.connected s = true
  | (Throw e, _) => exists w, e = StdError w
  end.
Proof using.
  unfold Socket.connect, Socket.doConnect, Socket.ffi_error. exec.
  destruct r as [code| |code|id [code|]]; cbn; try by eexists.
  destruct (bool_decide _); cbn; by eexists.
Qed.

Lemma record_port_ok address d : exists p, record_port b address d = (Ok tt, set_ports p d).
Proof.
  pose proof (doc_address b Hb) as Ha. unfold record_port, catch_pj, catch_std, of_outcome.
  assert (d = set_ports (g_portToAccount d) d) as Hd by (by destruct d).
  destruct (local_address b) as [l|[w| |]]; [|done| |done]; unfold mbind, comp_bind; cbn.
  2: { exists (g_portToAccount d). by rewrite <- Hd. }
  destruct (split_last _ l) as [[h p]|]; [|exists (g_portToAccount d); by rewrite <- Hd].
  pose proof (std_stoi p) as Hp. destruct (stoi p) as [port|[w| |]]; [|clear Hp|done|done].
  - by eexists.
  - exists (g_portToAccount d). by rewrite <- Hd.
Qed.

Lemma create_transport_eq d :
  create_transport b d =
  if g_ep d then match transport_created b with
                 | Some id => (Ok (Some id), set_transports (transports d ∪ {[ id ]}) d)
                 | None => (Ok None, d)
                 end
  else (Ok None, d).
Proof using.
  unfold create_transport, gets. unfold mbind at 1, comp_bind at 1. cbn beta iota.
  destruct (g_ep d); [|done]. cbn [negb]. by destruct (transport_created b).
Qed.

(** SIP changes nothing, or adds this account with a transport of its own. *)
Definition sip_added (d d' : daemon) : Prop :=
  g_sipAccounts d' = g_sipAccounts d /\ transports d' = transports d \/
  exists sip, g_sipAccounts d' = <[name cfg := sip]> (g_sipAccounts d) /\
    transports d' = transports d ∪ {[ transport sip ]} /\ g_ep d' = true.

(** Either it ends well, or [create] threw. *)
Lemma setup_sip_spec address d :
  let '(r, d') := setup_sip cfg b address d in
  g_accounts d' = g_accounts d /\ managers d' = managers d /\ (g_ep d = true -> g_ep d' = true) /\
  (forall n, n <> name cfg -> g_sipAccounts d' !! n = g_sipAccounts d !! n) /\
  match r with
  | Ok _ => sip_added d d'
  | Throw e => e = PjError /\ sip_create b = Throw PjError
  end.
Proof.
  unfold setup_sip. set (d1 := set_ep (g_ep d || endpoint b) d).
  assert (ensureSharedEndpoint b d = (Ok tt, d1)) as E1 by done. rewrite (bind_ok _ _ _ _ _ E1).
  unfold mbind at 1, comp_bind at 1. rewrite create_transport_eq.
  assert (g_ep d = true -> g_ep d1 = true) as Hg by (cbn; by intros ->).
  assert (sip_added d d1) as Hsa by by left.
  destruct (g_ep d1) eqn:Hep; [|cbn -[d1]; rewrite ?Hep; by split_and!].
  destruct (transport_created b) as [id|]; [|cbn -[d1]; rewrite ?Hep; by split_and!].
  destruct (record_port_ok address (set_transports (transports d1 ∪ {[id]}) d1)) as (p & E).
  rewrite (bind_ok _ _ _ _ _ E). pose proof (doc_create b Hb) as Hc.
  unfold record_step, of_outcome, modify, mbind, comp_bind.
  destruct (sip_create b) as [u|[w| |]]; [|done| |done]; cbn.
  - split_and!; [done..| |].
    + intros n Hn. by rewrite lookup_insert_ne.
    + right. by eexists.
  - by split_and!.
Qed.

Lemma set_steps_same d : set_steps (steps d) d = d.
Proof using. by destruct d. Qed.

(** The contact sync, the key request and the outgoing call end normally and
    leave nothing but their steps. *)
Lemma initial_sync_eq record d :
  initial_sync cfg b record d = (Ok tt, set_steps (steps d ++ [ContactSync (name cfg)]) d).
Proof.
  pose proof (doc_sync b Hb) as H. unfold initial_sync, when, catch_std, of_outcome, record_step, modify, mbind, comp_bind.
  cbn. destruct (has_pool record); [|done]. by destruct (contacts_synced b) as [[]|[w| |]].
Qed.

Lemma keys_request_eq (c : bool) (d : daemon) :
  when c (catch_std (of_outcome (keys_request b)) (fun _ => mret tt)) d = (Ok tt, d).
Proof.
  pose proof (doc_keys b Hb) as H. unfold when, catch_std, of_outcome. destruct c; [|done].
  cbn. by destruct (keys_request b) as [[]|[w| |]].
Qed.

Lemma place_call_eq record d : place_call cfg b record d = (Ok tt, set_steps (steps d ++
  if str_nonempty (outgoingCallTarget cfg) then
    match resolved_target b with
    | Ok target => if str_nonempty target then [StartOutgoing (name cfg) target (u32 (device_id record)) (call_placed b)] else []
    | Throw _ => []
    end
  else []) d).
Proof.
  pose proof (doc_target b Hb) as H.
  unfold place_call, when, catch_std, of_outcome, record_step, modify, mbind, comp_bind.
  destruct (str_nonempty _); [|by rewrite app_nil_r, set_steps_same].
  destruct (resolved_target b) as [target|[w| |]]; cbn; [|by rewrite app_nil_r, set_steps_same|done..].
  destruct (str_nonempty target); [done|]. by rewrite app_nil_r, set_steps_same.
Qed.

(** An account whose queue runs. *)
Definition queued (d : daemon) (address : nat) : Prop :=
  exists a, g_accounts d !! name cfg = Some a /\ queue_started a = true /\ config a = cfg /\
    incarnation a = address /\ handle a = true.

Lemma after_queue_spec address record d :
  queued d address ->
  let '(r, d') := setup_after_queue cfg b address record d in
  others_kept (name cfg) d d' /\ queued d' address /\ managers d' = managers d /\
  (g_ep d = true -> g_ep d' = true) /\
  match r with
  | Ok _ => sip_added d d' /\
      exists a s, g_accounts d' !! name cfg = Some a /\ socket a = Some s /\ Socket.connected s = true
  | Throw (StdError _) => g_sipAccounts d' = g_sipAccounts d /\ g_portToAccount d' = g_portToAccount d /\
      transports d' = transports d
  | Throw e => e = PjError /\ hasSip cfg = true /\ sip_create b = Throw PjError
  end.
Proof.
  intros (a & Ha & Hq & Hc & Hi & Hh). unfold setup_after_queue.
  pose proof (connect_fresh (connection b)) as Hcon. unfold mbind at 1, comp_bind at 1.
  unfold connect_socket. destruct (Socket.connect (connection b) Socket.fresh_sock) as [rc s].
  set (d1 := set_accounts _ d).
  assert (exists c, g_accounts d1 !! name cfg =
    Some (mkLive (incarnation a) (config a) (queue_started a) (handle a) (Some s) c)) as [c Ha1]
    by (eexists; cbn; by rewrite lookup_alter_eq, Ha).
  assert (queued d1 address) as Hq1 by (by eexists).
  assert (others_kept (name cfg) d d1) as Hk1 by (intros n Hn; cbn; by rewrite lookup_alter_ne).
  destruct rc as [u|e]; [|destruct Hcon as [w ->]; done].
  pose proof (doc_refresh b Hb) as Hr. unfold mbind at 1, comp_bind at 1. unfold of_outcome at 1.
  destruct (refresh b) as [u'|[w| |]]; [|done..].
  rewrite (bind_ok _ _ _ _ _ (initial_sync_eq _ _)). set (d1' := set_steps _ d1).
  rewrite (bind_ok _ _ _ _ _ (keys_request_eq _ _)).
  unfold mbind at 1, comp_bind at 1. unfold when at 1. destruct (hasSip cfg).
  2: { cbn [mret comp_ret]. rewrite place_call_eq. split_and!; [done..|by left|]. by eexists _, s. }
  pose proof (setup_sip_spec address d1') as Hsip. destruct (setup_sip cfg b address d1') as [rs d2].
  destruct Hsip as (Hacc & Hm & Hg & Hk2 & Hrs).
  assert (queued d2 address) as Hq2.
  { destruct Hq1 as (a1 & H1). exists a1. by rewrite Hacc. }
  assert (others_kept (name cfg) d d2) as Hk.
  { intros n Hn. rewrite Hacc, Hk2 by done. by apply Hk1. }
  destruct rs as [u''|e]; [|destruct Hrs as [-> ?]; done].
  rewrite place_call_eq. split_and!; [done..|].
  exists (mkLive (incarnation a) (config a) (queue_started a) (handle a) (Some s) c), s.
  split; [|done]. cbn [g_accounts set_steps]. rewrite Hacc. exact Ha1.
Qed.

Lemma close_never : raises_only never Socket.close.
Proof using.
  unfold Socket.close, Socket.disconnectAndDestroyBestEffort. raises.
Qed.

Lemma close_socket_ok a : close_socket a = Ok tt.
Proof using.
  unfold close_socket. destruct (socket a) as [s|]; [|done].
  destruct (raises_never Socket.close s close_never) as ([] & s' & E). by rewrite E.
Qed.

(** Everything setting up an account can do. *)
Lemma setup_spec d :
  let '(r, d') := setupAccount cfg b d in
  others_kept (name cfg) d d' /\ (g_ep d = true -> g_ep d' = true) /\
  match r with
  | Returned true => early_failure cfg b = false /\ queued d' (next_address d) /\
      (exists a s, g_accounts d' !! name cfg = Some a /\ socket a = Some s /\ Socket.connected s = true) /\
      managers d' = managers d ∪ {[ next_address d ]} /\ sip_added d d'
  | Returned false => early_failure cfg b = false /\ g_accounts d' !! name cfg = None /\
      g_sipAccounts d' = g_sipAccounts d /\ g_portToAccount d' = g_portToAccount d /\
      managers d' ⊆ managers d /\ transports d' = transports d
  | Uncaught e => early_failure cfg b = false /\ e = PjError /\ hasSip cfg = true /\
      sip_create b = Throw PjError
  | NullDereference => early_failure cfg b = true
  end.
Proof.
  unfold setupAccount, setup_body. unfold mbind at 1, comp_bind at 1.
  pose proof (before_queue_spec d) as H1. destruct (setup_before_queue cfg b d) as [r1 d1].
  destruct H1 as (a & Ha & Hs1 & Hp1 & Ht1 & Hm1 & Hg1 & Hq & Hc & Hi & Hr1).
  assert (others_kept (name cfg) d d1) as Hk1.
  { intros n Hn. by rewrite Ha, Hs1, lookup_insert_ne. }
  destruct r1 as [[address record]|e].
  2: { destruct Hr1 as [Hearly [w ->]]. rewrite Ha, lookup_insert_eq. unfold stopAndJoin. by rewrite Hq. }
  destruct Hr1 as (Hearly & -> & _ & Hsock & Hh). cbn [fst snd]. rewrite Hh in Hm1.
  unfold mbind at 1, comp_bind at 1. unfold on_account at 1, modify at 1. set (d2 := set_accounts _ d1).
  assert (queued d2 (next_address d)) as Hq2.
  { eexists. cbn. rewrite Ha, lookup_alter_eq, lookup_insert_eq. by split_and!. }
  assert (others_kept (name cfg) d1 d2) as Hk2 by (intros n Hn; cbn; by rewrite lookup_alter_ne).
  pose proof (after_queue_spec (next_address d) record d2 Hq2) as H3.
  destruct (setup_after_queue cfg b (next_address d) record d2) as [r3 d3].
  destruct H3 as (Hk3 & Hq3 & Hm3 & Hg3 & Hr3). change (managers d2) with (managers d1) in Hm3.
  pose proof (others_kept_trans _ _ _ _ (others_kept_trans _ _ _ _ Hk1 Hk2) Hk3) as Hk.
  assert (g_ep d = true -> g_ep d3 = true) as Hg by (intros H; by apply Hg3, Hg1).
  destruct r3 as [u|[w| |]]; [..|by destruct Hr3 as [? _]].
  - destruct Hr3 as [Hs3 Hlive]. split_and!; [done..|by rewrite Hm3|].
    unfold sip_added in *. cbn in Hs3. by rewrite Hs1, Ht1 in Hs3.
  - destruct Hq3 as (a3 & Ha3 & Hq3 & _ & Hi3 & Hh3). rewrite Ha3. unfold stopAndJoin.
    rewrite Hq3, close_socket_ok. unfold destroy_manager. rewrite Hh3, Hi3.
    destruct Hr3 as (Hs3 & Hp3 & Ht3). split_and!; cbn.
    + intros n Hn. cbn. rewrite lookup_delete_ne by done. by apply Hk.
    + done.
    + done.
    + apply lookup_delete_eq.
    + by rewrite Hs3.
    + by rewrite Hp3.
    + rewrite Hm3, Hm1. set_solver.
    + by rewrite Ht3.
  - split; [done|]. split; [done|]. by destruct Hr3 as (_ & ? & ?).
Qed.
End setup.

(** C25: what setting up an account can do: nothing of any other account
    changes; on success it is there with its own configuration, its queue
    running and its socket connected; on the failure it reports it has left no
    trace (in the SIP accounts, the port map, the transports and the call
    managers); an exception escapes only from [pj::Account::create], which
    the catch clause does not cover; and it dereferences a null pointer exactly
    when something fails before the queue is started, because the clean-up
    stops the queue unconditionally. *)
Theorem setup_account_cases (cfg : AccountConfig) (b : bringup) (d : daemon) (Hb : documented b) :
  let '(r, d') := setupAccount cfg b d in
  others_kept (name cfg) d d' /\
  match r with
  | Returned true => early_failure cfg b = false /\ exists a s, g_accounts d' !! name cfg = Some a /\
      config a = cfg /\ incarnation a = next_address d /\ queue_started a = true /\
      socket a = Some s /\ Socket.connected s = true
  | Returned false => early_failure cfg b = false /\ g_accounts d' !! name cfg = None /\
      g_sipAccounts d' = g_sipAccounts d /\ g_portToAccount d' = g_portToAccount d /\
      transports d' = transports d /\ managers d' ⊆ managers d
  | Uncaught e => early_failure cfg b = false /\ e = PjError /\ hasSip cfg = true /\
      sip_create b = Throw PjError
  | NullDereference => early_failure cfg b = true
  end.
Proof.
  pose proof (setup_spec cfg b Hb d) as H. destruct (setupAccount cfg b d) as [[[]|e|] d']; [|naive_solver..].
  destruct H as (Hk & _ & He & (a & Ha & Hq & Hc & Hi & _) & (a' & s & Ha' & Hs & Hcon) & _).
  rewrite Ha in Ha'. injection Ha' as <-. split; [done|]. split; [done|]. by exists a, s.
Qed.

(** *** The daemon as a whole *)

Lemma loop_app {A} (f : A -> daemon -> ended unit * daemon) l1 l2 d d1 :
  loop f l1 d = (Returned tt, d1) -> loop f (l1 ++ l2) d = loop f l2 d1.
Proof.
  revert d. induction l1 as [|x l1 IH]; intros d; cbn [loop app]; [by intros [= <-]|].
  destruct (f x d) as [[[]|e|] d']; [apply IH|done|done].
Qed.

Lemma loop_app_fails {A} (f : A -> daemon -> ended unit * daemon) l1 l2 d :
  (forall d1, (loop f l2 d1).1 <> Returned tt) -> (loop f (l1 ++ l2) d).1 <> Returned tt.
Proof.
  intros H2. revert d. induction l1 as [|x l1 IH]; intros d; cbn [loop app]; [apply H2|].
  destruct (f x d) as [[[]|e|] d']; [apply IH|done|done].
Qed.

(** One account that fails before its queue is started (its row cannot be
    read, RingRTC gives no call manager, its [signal_proxy] has a port that is
    not a number, libsignal rejects it) takes the whole daemon down at
    start-up, wherever it is in the list: [main] never reaches its loop, and
    if the accounts before it come up or are skipped it is this one that
    dereferences the null pointer. *)
Lemma early_failure_kills_daemon (libs : string -> bringup) (l1 l2 : list AccountConfig)
    (cfg : AccountConfig) (d : daemon)
    (Hb : documented (libs (name cfg))) (Hearly : early_failure cfg (libs (name cfg)) = true) :
  (start_all libs (l1 ++ cfg :: l2) d).1 <> Returned tt /\
  forall d1, start_all libs l1 d = (Returned tt, d1) ->
    (start_all libs (l1 ++ cfg :: l2) d).1 = NullDereference.
Proof.
  assert (forall d1, (setupAccount cfg (libs (name cfg)) d1).1 = NullDereference) as Hnull.
  { intros d1. pose proof (setup_spec cfg _ Hb d1) as H.
    destruct (setupAccount cfg (libs (name cfg)) d1) as [[[]|e|] d2]; destruct H as (_ & _ & H); [..|done];
      destruct H; congruence. }
  assert (forall d1, (start_all libs (cfg :: l2) d1).1 = NullDereference) as Hcons.
  { intros d1. unfold start_all. cbn [loop]. specialize (Hnull d1).
    destruct (setupAccount cfg (libs (name cfg)) d1) as [[]]; cbn in *; by inversion Hnull. }
  split.
  - apply loop_app_fails. intros d1 H. specialize (Hcons d1). unfold start_all in Hcons. congruence.
  - intros d1 E. unfold start_all in *. rewrite (loop_app _ _ _ _ _ E). apply Hcons.
Qed.

(** *** Tearing down *)

(** What a set-up account has. *)
Definition running (d : daemon) : Prop :=
  forall n a, g_accounts d !! n = Some a ->
    queue_started a = true /\ handle a = true /\ is_Some (socket a).

(** Every resource belongs to an account. *)
Record accounted (d : daemon) : Prop := {
  acc_sips : forall n sip, g_sipAccounts d !! n = Some sip -> is_Some (g_accounts d !! n) /\ g_ep d = true;
  acc_managers : forall i, i ∈ managers d -> exists n a, g_accounts d !! n = Some a /\ incarnation a = i;
  acc_transports : forall t, t ∈ transports d -> exists n sip, g_sipAccounts d !! n = Some sip /\ transport sip = t;
}.

Lemma release_sip_spec b nm d :
  documented b ->
  exists d', release_sip b nm d = (Ok tt, d') /\
    g_accounts d' = g_accounts d /\ g_sipAccounts d' = g_sipAccounts d /\ g_ep d' = g_ep d /\
    managers d' = managers d /\
    (transport_close b = Ok tt -> (is_Some (g_sipAccounts d !! nm) -> g_ep d = true) -> transports d' =
       match g_sipAccounts d !! nm with
       | Some sip => transports d ∖ {[ transport sip ]}
       | None => transports d
       end).
Proof.
  intros Hb. unfold release_sip, get. unfold mbind at 1, comp_bind at 1. cbn beta iota.
  destruct (g_sipAccounts d !! nm) as [sip|]; [|exists d; by split_and!].
  destruct (g_ep d) eqn:Hg.
  2: { exists d. split_and!; [done..|]. intros _ H. by discriminate H. }
  pose proof (doc_unregister b Hb) as Hu. pose proof (doc_close b Hb) as Hc.
  assert (exists d1, when (registered (bridge_account sip))
         (catch_pj (record_step (Unregister nm) ;; of_outcome (unregister b) ;;
                    record_step (Slept (100 * polls 20 0 (unregistered_at b)))) (mret tt)) d = (Ok tt, d1) /\
     g_accounts d1 = g_accounts d /\ g_sipAccounts d1 = g_sipAccounts d /\ g_ep d1 = g_ep d /\
     managers d1 = managers d /\ transports d1 = transports d) as (d1 & E & H1 & H2 & H3 & H4 & H5).
  { unfold when, catch_pj, record_step, of_outcome, modify, mbind, comp_bind, mret, comp_ret.
    destruct (registered _); [|by exists d]. cbn. destruct (unregister b) as [[]|[w| |]]; [|done| |done];
      eexists; (split; [reflexivity|]); by split_and!. }
  cbn [when]. rewrite (bind_ok _ _ _ _ _ E).
  unfold catch_pj, of_outcome, modify, mbind, comp_bind, mret, comp_ret.
  destruct (transport_close b) as [[]|[w| |]]; [|done| |done]; eexists; (split; [reflexivity|]);
    cbn; rewrite ?H5; split_and!; try done; congruence.
Qed.

Lemma teardown_spec b nm d :
  documented b -> running d ->
  exists d', teardownAccount b nm d = (Returned tt, d') /\
    g_accounts d' = delete nm (g_accounts d) /\ g_ep d' = g_ep d /\
    (accounted d -> transport_close b = Ok tt -> accounted d').
Proof.
  intros Hb Hr. unfold teardownAccount. destruct (g_accounts d !! nm) as [a|] eqn:Ha.
  2: { exists d. by rewrite delete_id. }
  destruct (Hr nm a Ha) as (Hq & Hh & s & Hs).
  destruct (raises_never _ (calls a) (stop_calls_never (legs b))) as ([] & c' & ->).
  unfold stopAndJoin, release_account. rewrite Hq, Hs. unfold of_outcome, modify. unfold mbind at 1, comp_bind at 1.
  rewrite close_socket_ok. unfold mbind at 1, comp_bind at 1. unfold mbind at 1, comp_bind at 1.
  destruct (release_sip_spec b nm (destroy_manager a d) Hb) as (d' & -> & H1 & H2 & H3 & H4 & H5).
  unfold destroy_manager in *. rewrite Hh in *. cbn in *.
  eexists. split; [reflexivity|]. cbn. split; [by rewrite H1|]. split; [done|].
  intros [Hsip Hman Htr] Hc. split; cbn; rewrite ?H1, ?H2, ?H3, ?H4.
  - intros n sip [Hn Hl]%lookup_delete_Some. rewrite lookup_delete_ne by done. by apply Hsip with sip.
  - intros i [Hi Hni]%elem_of_difference. destruct (Hman i Hi) as (n & a' & Ha' & <-).
    exists n, a'. split; [|done]. rewrite lookup_delete_ne; [done|]. intros <-. set_solver.
  - intros t Ht. assert (is_Some (g_sipAccounts d !! nm) -> g_ep d = true) as Hg
      by (intros [sip Hl]; by apply (Hsip nm sip Hl)).
    rewrite (H5 Hc Hg) in Ht. destruct (g_sipAccounts d !! nm) as [sip|] eqn:Hl.
    + apply elem_of_difference in Ht as [Ht Hnt]. destruct (Htr t Ht) as (n & sip' & Hl' & <-).
      exists n, sip'. split; [|done]. rewrite lookup_delete_ne; [done|]. intros <-. set_solver.
    + destruct (Htr t Ht) as (n & sip' & Hl' & <-). exists n, sip'. split; [|done].
      rewrite lookup_delete_ne; [done|]. intros <-. congruence.
Qed.

(** *** Reloading *)

Lemma running_delete nm d d' :
  running d -> g_accounts d' = delete nm (g_accounts d) -> running d'.
Proof. intros Hr E n a. rewrite E. intros [_ H]%lookup_delete_Some. by eapply Hr. Qed.

Lemma loop_teardown libs newByName l d :
  Forall (fun x => documented (libs x)) l.*1 -> running d ->
  exists d', loop (remove_account libs newByName) l d = (Returned tt, d') /\ running d' /\
    (accounted d -> Forall (fun x => transport_close (libs x) = Ok tt) l.*1 -> accounted d') /\
    forall n, g_accounts d' !! n =
      if bool_decide (n ∈ l.*1 /\ newByName !! n = None) then None else g_accounts d !! n.
Proof.
  revert d. induction l as [|[nm a] l IH]; intros d Hdoc Hr; cbn [loop].
  { exists d. split; [done|]. split; [done|]. split; [done|]. intros n. case_bool_decide as H; [|done].
    destruct H as [H _]. by apply elem_of_nil in H. }
  cbn in Hdoc. apply Forall_cons in Hdoc as [Hb Hdoc].
  unfold remove_account at 1. cbn [fst]. destruct (newByName !! nm) as [c|] eqn:Hn.
  - destruct (IH d Hdoc Hr) as (d' & E & Hr' & Hacc & Hd'). exists d'. split; [done|]. split; [done|].
    split; [intros H [_ H2]%Forall_cons; by apply Hacc|].
    intros n. rewrite Hd'. cbn. destruct (bool_decide (n ∈ l.*1 /\ newByName !! n = None)) eqn:H; bdec.
    + rewrite bool_decide_eq_true_2; [done|]. destruct H. split; [by right|done].
    + rewrite bool_decide_eq_false_2; [done|]. intros [[->|Hl]%elem_of_cons H']; [congruence|by apply H].
  - destruct (teardown_spec (libs nm) nm d Hb Hr) as (d1 & -> & E1 & _ & Hacc1).
    destruct (IH d1 Hdoc (running_delete nm d d1 Hr E1)) as (d' & E & Hr' & Hacc & Hd').
    exists d'. split; [done|]. split; [done|].
    split; [intros H [H1 H2]%Forall_cons; apply Hacc; auto|]. intros n. rewrite Hd', E1. cbn.
    destruct (bool_decide (n ∈ l.*1 /\ newByName !! n = None)) eqn:H; bdec.
    + rewrite bool_decide_eq_true_2; [done|]. destruct H. split; [by right|done].
    + destruct (decide (n = nm)) as [->|Hne].
      * rewrite lookup_delete_eq. rewrite bool_decide_eq_true_2; [done|]. split; [by left|done].
      * rewrite lookup_delete_ne by done. rewrite bool_decide_eq_false_2; [done|].
        intros [[->|Hl]%elem_of_cons H']; [done|by apply H].
Qed.

(** Setting up the configured account of a name cannot kill the process. *)
Definition safe_setup (cfg : AccountConfig) (b : bringup) : Prop :=
  documented b /\ early_failure cfg b = false /\ sip_create b <> Throw PjError.

(** What becomes of a configured account. *)
Definition updated (cfg : AccountConfig) (before after : option account) : Prop :=
  match before with
  | Some a =>
    if bool_decide (configVersion (config a) = configVersion cfg) then after = Some a
    else after = None \/ exists a' s, after = Some a' /\ config a' = cfg /\ socket a' = Some s /\
           Socket.connected s = true
  | None => after = None \/ exists a' s, after = Some a' /\ config a' = cfg /\ socket a' = Some s /\
              Socket.connected s = true
  end.

(** Why a handler did not return: the account whose [create] threw, or that
    failed before its queue was started. *)
Definition killed_by {A} (P : AccountConfig -> bringup -> Prop) (r : ended A) : Prop :=
  match r with
  | Returned _ => False
  | Uncaught e => e = PjError /\ exists cfg b, P cfg b /\ hasSip cfg = true /\ sip_create b = Throw PjError
  | NullDereference => exists cfg b, P cfg b /\ early_failure cfg b = true
  end.

Lemma killed_weaken {A} (P Q : AccountConfig -> bringup -> Prop) (r : ended A) :
  (forall cfg b, P cfg b -> Q cfg b) -> killed_by P r -> killed_by Q r.
Proof. intros H. destruct r; cbn; [done|..]; naive_solver. Qed.

Lemma not_killed {A} (P : AccountConfig -> bringup -> Prop) (r : ended A) :
  (forall cfg b, P cfg b -> safe_setup cfg b) -> ~ killed_by P r.
Proof.
  intros H. destruct r; cbn; [by intros []| |].
  - intros (_ & cfg & b & (_ & _ & Hc)%H & _ & E). done.
  - intros (cfg & b & (_ & He & _)%H & E). congruence.
Qed.

Lemma setup_cases cfg b d :
  documented b -> running d -> g_accounts d !! name cfg = None ->
  (exists r d', setupAccount cfg b d = (Returned r, d') /\ running d' /\
    (accounted d -> accounted d') /\
    (forall n, n <> name cfg -> g_accounts d' !! n = g_accounts d !! n) /\
    updated cfg None (g_accounts d' !! name cfg)) \/
  killed_by (fun c b' => c = cfg /\ b' = b) (setupAccount cfg b d).1.
Proof.
  intros Hb Hr Hnone. pose proof (setup_spec cfg b Hb d) as H.
  destruct (setupAccount cfg b d) as [[[]|e|] d'];
    [left|left|right; cbn; naive_solver..].
  - destruct H as (Hk & Hg & _ & (a & Ha & Hq & Hc & Hi & Hh) & (a' & s & Ha' & Hs & Hcon) & Hm & Hsip).
    rewrite Ha in Ha'. injection Ha' as <-. exists true, d'. split; [done|]. split_and!.
    + intros n x Hx. destruct (decide (n = name cfg)) as [->|Hn].
      * rewrite Ha in Hx. injection Hx as <-. by rewrite Hs.
      * destruct (Hk n Hn) as [E _]. apply (Hr n). by rewrite <- E.
    + intros [As Am At]. split.
      * intros n sip Hl. destruct (decide (n = name cfg)) as [->|Hn].
        { rewrite Ha. split; [done|]. destruct Hsip as [[E _]|(sip' & _ & _ & E)]; [|done].
          rewrite E in Hl. apply Hg. by apply (As _ _ Hl). }
        destruct (Hk n Hn) as [E1 E2]. rewrite E2 in Hl. destruct (As n sip Hl) as [H1 H2].
        rewrite E1. auto.
      * rewrite Hm. intros i [Hin|Hin]%elem_of_union.
        { destruct (Am i Hin) as (n & x & Hx & <-). exists n, x. split; [|done].
          destruct (Hk n) as [E _]; [by intros ->; congruence|]. by rewrite E. }
        apply elem_of_singleton in Hin as ->. by exists (name cfg), a.
      * assert (forall t, t ∈ transports d -> exists n sip, g_sipAccounts d' !! n = Some sip /\ transport sip = t) as Hold.
        { intros t Ht. destruct (At t Ht) as (n & sip & Hl & <-). exists n, sip. split; [|done].
          destruct (Hk n) as [_ E]; [|by rewrite E]. intros ->. destruct (As _ _ Hl) as [[? ?] _]. congruence. }
        destruct Hsip as [[_ E]|(sip & E1 & E2 & _)]; [by rewrite E|].
        rewrite E2. intros t [Ht|Ht]%elem_of_union; [by apply Hold|]. apply elem_of_singleton in Ht as ->.
        exists (name cfg), sip. by rewrite E1, lookup_insert_eq.
    + intros n Hn. by apply Hk.
    + right. by exists a, s.
  - destruct H as (Hk & Hg & _ & Hnone' & Hs & _ & Hm & Ht). exists false, d'. split; [done|]. split_and!.
    + intros n x Hx. destruct (decide (n = name cfg)) as [->|Hn]; [congruence|].
      destruct (Hk n Hn) as [E _]. apply (Hr n). by rewrite <- E.
    + intros [As Am At]. split.
      * rewrite Hs. intros n sip Hl. destruct (As n sip Hl) as [H1 H2]. split; [|auto].
        destruct (Hk n) as [E _]; [|by rewrite E]. intros ->. destruct H1. congruence.
      * intros i Hi. destruct (Am i (Hm i Hi)) as (n & x & Hx & <-). exists n, x. split; [|done].
        destruct (Hk n) as [E _]; [by intros ->; congruence|]. by rewrite E.
      * by rewrite Hs, Ht.
    + intros n Hn. by apply Hk.
    + by left.
Qed.

Lemma killed_as_unit P (r : ended bool * daemon) : killed_by P r.1 -> killed_by P (as_unit r).1.
Proof. by destruct r as [[[]|e|] d]. Qed.

Lemma update_cases libs nm cfg d :
  name cfg = nm -> documented (libs nm) -> running d ->
  (exists d', update_account libs (nm, cfg) d = (Returned tt, d') /\ running d' /\
    (accounted d -> transport_close (libs nm) = Ok tt -> accounted d') /\
    (forall n, n <> nm -> g_accounts d' !! n = g_accounts d !! n) /\
    updated cfg (g_accounts d !! nm) (g_accounts d' !! nm)) \/
  killed_by (fun c b => c = cfg /\ b = libs nm) (update_account libs (nm, cfg) d).1.
Proof.
  intros <- Hs Hr. unfold update_account. destruct (g_accounts d !! name cfg) as [a|] eqn:Ha.
  - cbn [updated]. case_bool_decide; [left; by exists d|].
    destruct (teardown_spec _ (name cfg) d Hs Hr) as (d1 & -> & E1 & _ & Hacc1).
    destruct (setup_cases cfg _ d1 Hs (running_delete _ _ _ Hr E1)) as [(r & d2 & -> & Hr2 & Hacc2 & Ho & Hu)|Hk].
    { rewrite E1. apply lookup_delete_eq. }
    2: { right. by apply killed_as_unit. }
    left. exists d2. split; [done|]. split; [done|]. split; [auto|]. split; [|done]. intros n Hn. rewrite Ho by done.
    by rewrite E1, lookup_delete_ne.
  - destruct (setup_cases cfg _ d Hs Hr Ha) as [(r & d2 & -> & Hr2 & Hacc2 & Ho & Hu)|Hk].
    + left. exists d2. split_and!; auto.
    + right. by apply killed_as_unit.
Qed.

Lemma update_loop libs l d :
  NoDup l.*1 -> Forall (fun x => name x.2 = x.1 /\ documented (libs x.1)) l -> running d ->
  (exists d', loop (update_account libs) l d = (Returned tt, d') /\ running d' /\
    (accounted d -> Forall (fun x => transport_close (libs x) = Ok tt) l.*1 -> accounted d') /\
    (forall n, n ∉ l.*1 -> g_accounts d' !! n = g_accounts d !! n) /\
    forall n cfg, (n, cfg) ∈ l -> updated cfg (g_accounts d !! n) (g_accounts d' !! n)) \/
  killed_by (fun c b => (name c, c) ∈ l /\ b = libs (name c)) (loop (update_account libs) l d).1.
Proof.
  intros Hnd Hl. revert d Hnd. induction Hl as [|[nm cfg] l [Hn Hs] _ IH]; intros d Hnd Hr; cbn [loop].
  { left. exists d. do 4 (split; [done|]). intros n c H. by apply elem_of_nil in H. }
  cbn in Hn, Hs. apply NoDup_cons in Hnd as [Hnew Hnd].
  destruct (update_cases libs nm cfg d Hn Hs Hr) as [(d1 & -> & Hr1 & Hacc1 & Ho & Hu)|Hk].
  2: { right. destruct (update_account libs (nm, cfg) d) as [[[]|e|] d1]; [done|..]; revert Hk; apply killed_weaken;
       intros c b [-> ->]; rewrite Hn; (split; [by left|done]). }
  destruct (IH d1 Hnd Hr1) as [(d' & E & Hr' & Hacc & Ho' & Hu')|Hk].
  2: { right. revert Hk. apply killed_weaken. intros c b [H ->]. split; [by right|done]. }
  left. exists d'. split; [done|]. split; [done|].
  split; [intros H [H1 H2]%Forall_cons; auto|]. cbn in Hnew. split.
  - intros n Hni. cbn in Hni. apply not_elem_of_cons in Hni as [Hne Hni]. rewrite Ho', Ho by done. done.
  - intros n c [[= -> ->]|Hin]%elem_of_cons.
    + by rewrite Ho'.
    + rewrite <- (Ho n); [by apply Hu'|]. intros ->. apply Hnew. apply list_elem_of_fmap. by exists (nm, c).
Qed.

Lemma in_order_elem {A} (m : gmap string A) x : x ∈ in_order m <-> m !! x.1 = Some x.2.
Proof.
  unfold in_order. rewrite (merge_sort_Permutation key_le (map_to_list m)).
  destruct x as [k v]. apply elem_of_map_to_list.
Qed.

Lemma in_order_nodup {A} (m : gmap string A) : NoDup (in_order m).*1.
Proof.
  unfold in_order. rewrite (merge_sort_Permutation key_le (map_to_list m)). apply NoDup_fst_map_to_list.
Qed.

Lemma by_name_spec l n cfg : by_name l !! n = Some cfg -> name cfg = n /\ cfg ∈ l.
Proof.
  unfold by_name. intros H. apply elem_of_list_to_map_2 in H. apply list_elem_of_In, in_map_iff in H as (c & [= <- <-] & Hin).
  split; [done|]. by apply list_elem_of_In.
Qed.

Lemma reload_cases libs c d :
  running d -> (forall n, is_Some (g_accounts d !! n) -> documented (libs n)) ->
  (forall cfg, cfg ∈ accounts c -> documented (libs (name cfg))) ->
  (exists d', reloadConfig libs (Ok c) d = (Returned tt, d') /\ running d' /\
    (accounted d -> (forall n, transport_close (libs n) = Ok tt) -> accounted d') /\
    forall n, match by_name (accounts c) !! n with
              | None => g_accounts d' !! n = None
              | Some cfg => updated cfg (g_accounts d !! n) (g_accounts d' !! n)
              end) \/
  killed_by (fun cfg b => cfg ∈ accounts c /\ b = libs (name cfg)) (reloadConfig libs (Ok c) d).1.
Proof.
  intros Hr Hdoc Hcfg. unfold reloadConfig. set (newByName := by_name (accounts c)).
  destruct (loop_teardown libs newByName (in_order (g_accounts d)) d) as (d1 & -> & Hr1 & Hacc1 & Hd1).
  { apply Forall_forall. intros n Hin. apply list_elem_of_fmap in Hin as (x & -> & Hin).
    apply in_order_elem in Hin. apply Hdoc. by eexists. }
  { done. }
  destruct (update_loop libs (in_order newByName) d1) as [(d2 & E & Hr2 & Hacc2 & Ho & Hu)|Hk].
  - apply in_order_nodup.
  - apply Forall_forall. intros [n cfg] Hin. apply in_order_elem in Hin.
    destruct (by_name_spec _ _ _ Hin) as [<- Hc]. split; [done|]. by apply Hcfg.
  - done.
  - left. exists d2. split; [done|]. split; [done|].
    split; [intros H Hc; apply Hacc2; [apply Hacc1; [done|]|]; by apply Forall_true|].
    intros n. destruct (newByName !! n) as [cfg|] eqn:Hn.
    + assert (g_accounts d !! n = g_accounts d1 !! n) as ->.
      { rewrite Hd1, bool_decide_eq_false_2; [done|]. intros [_ H]. congruence. }
      apply Hu. by apply in_order_elem.
    + rewrite Ho.
      * rewrite Hd1. case_bool_decide as H; [done|]. apply eq_None_not_Some. intros [a Ha].
        apply H. split; [|done]. apply list_elem_of_fmap. exists (n, a). split; [done|]. by apply in_order_elem.
      * intros Hin. apply list_elem_of_fmap in Hin as ([k v] & -> & Hin). apply in_order_elem in Hin.
        cbn in *. congruence.
  - right. revert Hk. apply killed_weaken. intros cfg b [Hin ->]. apply in_order_elem in Hin.
    by destruct (by_name_spec _ _ _ Hin) as [_ H].
Qed.


(** Without those two cases it returns. *)
Lemma reload_spec libs c d :
  running d -> (forall n, is_Some (g_accounts d !! n) -> documented (libs n)) ->
  (forall cfg, cfg ∈ accounts c -> safe_setup cfg (libs (name cfg))) ->
  exists d', reloadConfig libs (Ok c) d = (Returned tt, d') /\ running d' /\
    (accounted d -> (forall n, transport_close (libs n) = Ok tt) -> accounted d') /\
    forall n, match by_name (accounts c) !! n with
              | None => g_accounts d' !! n = None
              | Some cfg => updated cfg (g_accounts d !! n) (g_accounts d' !! n)
              end.
Proof.
  intros Hr Hdoc Hsafe. destruct (reload_cases libs c d Hr Hdoc (fun cfg H => proj1 (Hsafe cfg H))) as [H|Hk]; [done|].
  exfalso. revert Hk. apply not_killed. intros cfg b [H ->]. by apply Hsafe.
Qed.

(** *** From start to shutdown *)

Lemma initial_ok : running initial /\ accounted initial.
Proof. split; [by intros n a|]. split; [by intros n a|set_solver..]. Qed.

Lemma start_spec libs l d :
  NoDup (map name l) -> (forall cfg, cfg ∈ l -> g_accounts d !! name cfg = None) ->
  (forall cfg, cfg ∈ l -> safe_setup cfg (libs (name cfg))) -> running d -> accounted d ->
  exists d', start_all libs l d = (Returned tt, d') /\ running d' /\ accounted d'.
Proof.
  unfold start_all. revert d. induction l as [|cfg l IH]; intros d Hnd Hnew Hsafe Hr Ha; cbn [loop].
  { by exists d. }
  cbn in Hnd. apply NoDup_cons in Hnd as [Hfresh Hnd].
  pose proof (Hsafe cfg ltac:(by left)) as Hsc.
  destruct (setup_cases cfg _ d (proj1 Hsc) Hr (Hnew cfg ltac:(by left)))
    as [(r & d1 & -> & Hr1 & Hacc1 & Ho & _)|Hk]; [|exfalso; revert Hk; apply not_killed; by intros c b [-> ->]].
  cbn [as_unit].
  apply IH; [done| | |done|auto].
  - intros cfg' Hin. rewrite Ho; [apply Hnew; by right|]. intros E. apply Hfresh.
    rewrite <- E. apply list_elem_of_In, in_map, list_elem_of_In, Hin.
  - intros cfg' Hin. apply Hsafe. by right.
Qed.

Lemma shutdown_spec libs d :
  (forall n, documented (libs n) /\ transport_close (libs n) = Ok tt) -> running d -> accounted d ->
  exists d', shutdown libs d = (Returned tt, d') /\ g_accounts d' = ∅ /\ accounted d'.
Proof.
  intros Hl Hr Ha. destruct (loop_teardown libs ∅ (in_order (g_accounts d)) d) as (d' & E & _ & Hacc & Hd').
  { apply Forall_true. intros n. apply Hl. }
  { done. }
  exists d'. split; [exact E|]. split; [|apply Hacc; [done|]; apply Forall_true; intros n; apply Hl].
  apply map_empty. intros n. rewrite Hd'. case_bool_decide as H; [done|].
  apply eq_None_not_Some. intros [a Hn]. apply H. split; [|done]. apply list_elem_of_fmap.
  exists (n, a). split; [done|]. by apply in_order_elem.
Qed.

(** An empty account map leaves nothing else. *)
Lemma accounted_empty d :
  accounted d -> g_accounts d = ∅ -> g_sipAccounts d = ∅ /\ managers d = ∅ /\ transports d = ∅.
Proof.
  intros [As Am At] E.
  assert (g_sipAccounts d = ∅) as Hs.
  { apply map_empty. intros n. apply eq_None_not_Some. intros [sip Hl]. destruct (As n sip Hl) as [[a Hn] _].
    rewrite E in Hn. done. }
  split_and!; [done| |].
  - apply set_eq. intros i. split; [|set_solver]. intros Hi. destruct (Am i Hi) as (n & a & Hn & _).
    by rewrite E in Hn.
  - apply set_eq. intros t. split; [|set_solver]. intros Ht. destruct (At t Ht) as (n & sip & Hn & _).
    by rewrite Hs in Hn.
Qed.

(** The life of the daemon, from its start through any number of reloads
    to its shutdown, when the libraries keep to their documentation, no
    bring-up fails before its queue is started or in [create], and PJSIP
    closes the transports it is asked to: every phase ends, and after the
    shutdown no account, no SIP account, no RingRTC call manager and no
    transport is left. *)
Lemma shutdown_releases_everything (l : list AccountConfig) (libs : string -> bringup)
    (reloads : list ((string -> bringup) * DaemonConfig)) (libs' : string -> bringup)
    (Hnd : NoDup (map name l)) (Hsafe : forall cfg, cfg ∈ l -> safe_setup cfg (libs (name cfg)))
    (Hreload : forall libs c, (libs, c) ∈ reloads ->
       (forall n, documented (libs n) /\ transport_close (libs n) = Ok tt) /\
       forall cfg, cfg ∈ accounts c -> safe_setup cfg (libs (name cfg)))
    (Hdown : forall n, documented (libs' n) /\ transport_close (libs' n) = Ok tt) :
  exists d1 d2 d3, start_all libs l initial = (Returned tt, d1) /\
    loop (fun x => reloadConfig x.1 (Ok x.2)) reloads d1 = (Returned tt, d2) /\
    shutdown libs' d2 = (Returned tt, d3) /\
    g_accounts d3 = ∅ /\ g_sipAccounts d3 = ∅ /\ managers d3 = ∅ /\ transports d3 = ∅.
Proof.
  destruct (start_spec libs l initial Hnd ltac:(done) Hsafe (proj1 initial_ok) (proj2 initial_ok))
    as (d1 & E1 & Hr1 & Ha1).
  assert (exists d2, loop (fun x => reloadConfig x.1 (Ok x.2)) reloads d1 = (Returned tt, d2) /\
    running d2 /\ accounted d2) as (d2 & E2 & Hr2 & Ha2).
  { clear E1. revert d1 Hr1 Ha1 Hreload. induction reloads as [|[lb c] rs IH]; intros d1 Hr1 Ha1 Hre; cbn [loop fst snd].
    { by exists d1. }
    destruct (Hre lb c) as [Hl Hs]; [by left|].
    destruct (reload_spec lb c d1 Hr1 (fun n _ => proj1 (Hl n)) Hs) as (d' & -> & Hr' & Ha' & _).
    apply IH; [done|apply Ha'; [done|]; intros n; apply Hl|]. intros lb' c' Hin. apply Hre. by right. }
  destruct (shutdown_spec libs' d2 Hdown Hr2 Ha2) as (d3 & E3 & He & Ha3).
  exists d1, d2, d3. do 4 (split; [done|]). by apply accounted_empty.
Qed.

(** ** Examples *)

Definition sample_record : AccountRecord := column_defaults.

(** Everything answers well. *)
Definition good : bringup :=
  mkBringup (Ok sample_record) (a_sender sample_account) true (Ok tt) (Socket.Opened 0 None) (Ok tt) (Ok tt) (Ok tt)
    true (Some 4%nat) (Ok "192.0.2.1:39445"%string) (Ok tt) (fun i => bool_decide (3 <= i)%nat) 0
    (Ok "aci"%string) true sample_env (Ok tt) (fun _ => true) (Ok tt).

Definition account_named (n proxy : string) (version : Z) : AccountConfig :=
  mkAccountConfig n version "+1" "" "pbx" "100" "secret" "200" "" "disabled" "udp" "" false "" proxy false.

Lemma good_documented : documented good.
Proof. by split. Qed.

Example good_setup :
  let '(r, d) := setupAccount (account_named "a" "" 1) good initial in
  r = Returned true /\ g_portToAccount d !! 39445 = Some 0%nat /\ transports d = {[ 4%nat ]}.
Proof. vm_compute. by split_and!. Qed.

Lemma setup_account_cases_witness :
  let '(r, d') := setupAccount (account_named "a" "proxy:tls" 1) good initial in
  others_kept "a" initial d' /\
  match r with
  | Returned true => early_failure (account_named "a" "proxy:tls" 1) good = false /\
      exists a s, g_accounts d' !! "a"%string = Some a /\
      config a = account_named "a" "proxy:tls" 1 /\ incarnation a = 0%nat /\ queue_started a = true /\
      socket a = Some s /\ Socket.connected s = true
  | Returned false => early_failure (account_named "a" "proxy:tls" 1) good = false /\
      g_accounts d' !! "a"%string = None /\
      g_sipAccounts d' = ∅ /\ g_portToAccount d' = ∅ /\ transports d' = ∅ /\ managers d' ⊆ ∅
  | Uncaught e => early_failure (account_named "a" "proxy:tls" 1) good = false /\ e = PjError /\
      hasSip (account_named "a" "proxy:tls" 1) = true /\ sip_create good = Throw PjError
  | NullDereference => early_failure (account_named "a" "proxy:tls" 1) good = true
  end.
Proof.
  apply (setup_account_cases (account_named "a" "proxy:tls" 1) good initial). by split.
Defined.

(** The port of the proxy of the second account is not a number. *)
Lemma early_failure_kills_daemon_witness :
  (start_all (fun _ => good) [account_named "a" "" 1; account_named "b" "proxy:tls" 1; account_named "c" "" 1]
     initial).1 <> Returned tt /\
  forall d1, start_all (fun _ => good) [account_named "a" "" 1] initial = (Returned tt, d1) ->
    (start_all (fun _ => good) [account_named "a" "" 1; account_named "b" "proxy:tls" 1; account_named "c" "" 1]
     initial).1 = NullDereference.
Proof.
  apply (early_failure_kills_daemon (fun _ => good) [account_named "a" "" 1] [account_named "c" "" 1]
    (account_named "b" "proxy:tls" 1) initial).
  - by split.
  - vm_compute. reflexivity.
Defined.

Definition running_daemon : daemon :=
  (start_all (fun _ => good) [account_named "a" "" 1; account_named "b" "" 1] initial).2.

(** Account "a" is removed, "b" changed, "c" added. *)
Definition new_config : DaemonConfig :=
  mkDaemon (mkGlobal "" "" 60 86400 43200 30) [account_named "b" "" 2; account_named "c" "" 1].

Lemma new_config_safe cfg : cfg ∈ accounts new_config -> safe_setup cfg good.
Proof.
  intros H. split; [by split|]. cbn in H.
  repeat (apply elem_of_cons in H as [->|H]; [by split; [vm_compute|discriminate]|]).
  by apply elem_of_nil in H.
Defined.


(** A proxy whose port is not a number kills the daemon in a reload too; the
    call to [outgoing_call_target] is placed once the account is up. *)
Example reload_killed_by_proxy :
  (reloadConfig (fun _ => good) (Ok (mkDaemon (global new_config) [account_named "b" "proxy:tls" 2])) running_daemon).1 =
  NullDereference.
Proof. vm_compute. reflexivity. Qed.

Example outgoing_placed :
  steps (setupAccount (mkAccountConfig "a" 1 "+1" "" "pbx" "100" "secret" "200" "" "disabled" "udp" "" false "+2" "" false)
    good initial).2 = [ContactSync "a"; Slept 300; StartOutgoing "a" "aci" 0 true].
Proof. vm_compute. reflexivity. Qed.

Lemma shutdown_releases_everything_witness :
  exists d1 d2 d3, start_all (fun _ => good) [account_named "a" "" 1; account_named "b" "" 1] initial =
      (Returned tt, d1) /\
    loop (fun x => reloadConfig x.1 (Ok x.2)) [(fun _ => good, new_config)] d1 = (Returned tt, d2) /\
    shutdown (fun _ => good) d2 = (Returned tt, d3) /\
    g_accounts d3 = ∅ /\ g_sipAccounts d3 = ∅ /\ managers d3 = ∅ /\ transports d3 = ∅.
Proof.
  apply shutdown_releases_everything.
  - by vm_compute; repeat constructor; intros H; repeat (apply elem_of_cons in H as [[=]|H]); apply elem_of_nil in H.
  - intros cfg H. split; [by split|].
    repeat (apply elem_of_cons in H as [->|H]; [by split; [vm_compute|discriminate]|]). by apply elem_of_nil in H.
  - intros libs c H. apply list_elem_of_singleton in H as [= -> ->]. split; [by split|apply new_config_safe].
  - by split.
Defined.
