(* ===== verification/I18n.v ===== *)
(** The texts of the terminal interface (src/tui/i18n.h): the languages, the
    message keys, the table of translations, the choice of the language from
    the environment, and the messages with one argument. *)

From S2P Require Import Prelude.
From stdpp Require Import finite.

Inductive Lang := EN | UK | RU | PL | DE | FR | IT | ES | PT.
Definition kLangCount : nat := 9.

#[export] Instance lang_eq_dec : EqDecision Lang.
Proof. solve_decision. Defined.
#[export] Program Instance lang_finite : Finite Lang := {| enum := [EN; UK; RU; PL; DE; FR; IT; ES; PT] |}.
Next Obligation. apply (bool_decide_unpack _). vm_compute. exact I. Qed.
Next Obligation. intros x. destruct x; apply (bool_decide_unpack _); vm_compute; exact I. Qed.

Inductive Key :=
| ColName | ColType | ColStatus | ColMedia | DbReadError | NoAccounts | FooterSelect | FooterDetails | FooterNew |
FooterRefresh | FooterQuit | TypeLinked | TypePrimary | StatusEnabled | StatusDisabled | SrtpMandatory | SrtpOptional
| DetailLinkedAt | DetailRegisteredAt | DetailEnabled | YesWord | NoWord | DetailSipNone | DetailSignaling |
DetailMedia | AccountReadError | SectionIdentity | SectionStatus | DetailTitlebar | FooterConfigureSip | FooterDisable
| FooterEnable | FooterSignalSettings | FooterDeleteAccount | FooterBack | SignalingUdpInsecure |
MediaSrtpNotGuaranteedPrefix | ActionEnableTitle | ActionDisableTitle | ActionDeactivateTitle | ActionDeleteTitle |
ActionEnableBody | ActionDisableBody | ActionDeactivateBody | ActionDeleteBody | ResultDone | ResultError |
AnyKeyToList | TypeAccountName | ConfirmAccountLabel | FooterCancel | EnterDelete | TypeNameInFull | FooterConfirm |
ErrSipHostRequired | ErrSipExtensionRequired | ErrSipPasswordRequired | ErrTlsRequiresCa | WarnBridgeBothSet |
ConfigSaved | ConfigSaveError | NoChanges | AnyKeyBackToAccount | ConfigTitlebar | FooterField | FooterTextType |
FooterListCycles | FooterSave | SignalConfigTitlebar | SignalConfigTypeText | WizardNewAccount | FieldAccountName |
FieldMethod | MethodRegister | WizardNameHint | ErrEnterAccountName | ErrAccountExists | FooterToggleMethod |
FooterNext | WizardRegistration | FieldCodeMethod | ErrEnterE164 | FooterToggleCodeMethod | FooterRegister |
WizardResult | FooterEnterCode | FooterToList | CaptchaInstructions | FieldToken | FooterTypeToken | FooterSubmit |
WizardVerify | FieldSmsCode | FooterTypeCode | WizardLinking | LinkWaitingInstructions | FooterCancelWaiting |
ResultErrorCancelled | WizardTitlebar | StartupNoDbConfig.

(** The number of a key: [static_cast<int>]. *)
Definition key_index (k : Key) : nat :=
  match k with
  | ColName => 0 | ColType => 1 | ColStatus => 2 | ColMedia => 3 | DbReadError => 4 | NoAccounts => 5
  | FooterSelect => 6 | FooterDetails => 7 | FooterNew => 8 | FooterRefresh => 9 | FooterQuit => 10 | TypeLinked => 11
  | TypePrimary => 12 | StatusEnabled => 13 | StatusDisabled => 14 | SrtpMandatory => 15 | SrtpOptional => 16
  | DetailLinkedAt => 17 | DetailRegisteredAt => 18 | DetailEnabled => 19 | YesWord => 20 | NoWord => 21
  | DetailSipNone => 22 | DetailSignaling => 23 | DetailMedia => 24 | AccountReadError => 25 | SectionIdentity => 26
  | SectionStatus => 27 | DetailTitlebar => 28 | FooterConfigureSip => 29 | FooterDisable => 30 | FooterEnable => 31
  | FooterSignalSettings => 32 | FooterDeleteAccount => 33 | FooterBack => 34 | SignalingUdpInsecure => 35
  | MediaSrtpNotGuaranteedPrefix => 36 | ActionEnableTitle => 37 | ActionDisableTitle => 38
  | ActionDeactivateTitle => 39 | ActionDeleteTitle => 40 | ActionEnableBody => 41 | ActionDisableBody => 42
  | ActionDeactivateBody => 43 | ActionDeleteBody => 44 | ResultDone => 45 | ResultError => 46 | AnyKeyToList => 47
  | TypeAccountName => 48 | ConfirmAccountLabel => 49 | FooterCancel => 50 | EnterDelete => 51 | TypeNameInFull => 52
  | FooterConfirm => 53 | ErrSipHostRequired => 54 | ErrSipExtensionRequired => 55 | ErrSipPasswordRequired => 56
  | ErrTlsRequiresCa => 57 | WarnBridgeBothSet => 58 | ConfigSaved => 59 | ConfigSaveError => 60 | NoChanges => 61
  | AnyKeyBackToAccount => 62 | ConfigTitlebar => 63 | FooterField => 64 | FooterTextType => 65
  | FooterListCycles => 66 | FooterSave => 67 | SignalConfigTitlebar => 68 | SignalConfigTypeText => 69
  | WizardNewAccount => 70 | FieldAccountName => 71 | FieldMethod => 72 | MethodRegister => 73 | WizardNameHint => 74
  | ErrEnterAccountName => 75 | ErrAccountExists => 76 | FooterToggleMethod => 77 | FooterNext => 78
  | WizardRegistration => 79 | FieldCodeMethod => 80 | ErrEnterE164 => 81 | FooterToggleCodeMethod => 82
  | FooterRegister => 83 | WizardResult => 84 | FooterEnterCode => 85 | FooterToList => 86 | CaptchaInstructions => 87
  | FieldToken => 88 | FooterTypeToken => 89 | FooterSubmit => 90 | WizardVerify => 91 | FieldSmsCode => 92
  | FooterTypeCode => 93 | WizardLinking => 94 | LinkWaitingInstructions => 95 | FooterCancelWaiting => 96
  | ResultErrorCancelled => 97 | WizardTitlebar => 98 | StartupNoDbConfig => 99
  end.

Definition all_keys : list Key := [
  ColName; ColType; ColStatus; ColMedia; DbReadError; NoAccounts; FooterSelect; FooterDetails; FooterNew;
  FooterRefresh; FooterQuit; TypeLinked; TypePrimary; StatusEnabled; StatusDisabled; SrtpMandatory; SrtpOptional;
  DetailLinkedAt; DetailRegisteredAt; DetailEnabled; YesWord; NoWord; DetailSipNone; DetailSignaling; DetailMedia;
  AccountReadError; SectionIdentity; SectionStatus; DetailTitlebar; FooterConfigureSip; FooterDisable; FooterEnable;
  FooterSignalSettings; FooterDeleteAccount; FooterBack; SignalingUdpInsecure; MediaSrtpNotGuaranteedPrefix;
  ActionEnableTitle; ActionDisableTitle; ActionDeactivateTitle; ActionDeleteTitle; ActionEnableBody;
  ActionDisableBody; ActionDeactivateBody; ActionDeleteBody; ResultDone; ResultError; AnyKeyToList; TypeAccountName;
  ConfirmAccountLabel; FooterCancel; EnterDelete; TypeNameInFull; FooterConfirm; ErrSipHostRequired;
  ErrSipExtensionRequired; ErrSipPasswordRequired; ErrTlsRequiresCa; WarnBridgeBothSet; ConfigSaved; ConfigSaveError;
  NoChanges; AnyKeyBackToAccount; ConfigTitlebar; FooterField; FooterTextType; FooterListCycles; FooterSave;
  SignalConfigTitlebar; SignalConfigTypeText; WizardNewAccount; FieldAccountName; FieldMethod; MethodRegister;
  WizardNameHint; ErrEnterAccountName; ErrAccountExists; FooterToggleMethod; FooterNext; WizardRegistration;
  FieldCodeMethod; ErrEnterE164; FooterToggleCodeMethod; FooterRegister; WizardResult; FooterEnterCode; FooterToList;
  CaptchaInstructions; FieldToken; FooterTypeToken; FooterSubmit; WizardVerify; FieldSmsCode; FooterTypeCode;
  WizardLinking; LinkWaitingInstructions; FooterCancelWaiting; ResultErrorCancelled; WizardTitlebar;
  StartupNoDbConfig].

Lemma all_keys_index k : all_keys !! key_index k = Some k.
Proof. by destruct k. Qed.
Lemma all_keys_seq : key_index <$> all_keys = seq 0 (length all_keys).
Proof. reflexivity. Qed.
#[export] Instance key_index_inj : Inj (=) (=) key_index.
Proof. intros x y H. pose proof (all_keys_index x) as Hx. rewrite H, all_keys_index in Hx. congruence. Qed.
#[export] Instance key_eq_dec : EqDecision Key.
Proof. intros x y. destruct (decide (key_index x = key_index y)) as [H|H]; [left; by apply (inj key_index)|right; congruence]. Defined.
#[export] Program Instance key_finite : Finite Key := {| enum := all_keys |}.
Next Obligation. apply (NoDup_fmap_1 key_index). rewrite all_keys_seq. apply NoDup_seq. Qed.
Next Obligation. intros x. exact (list_elem_of_lookup_2 _ _ _ (all_keys_index x)). Qed.

Definition lang_index (l : Lang) : nat :=
  match l with EN => 0 | UK => 1 | RU => 2 | PL => 3 | DE => 4 | FR => 5 | IT => 6 | ES => 7 | PT => 8 end.

(** ** The table *)

Local Open Scope string_scope.

Definition rows_accounts : list (list string) := [
  (* ColName *) ["Name"; "Ім'я"; "Имя"; "Nazwa"; "Name"; "Nom"; "Nome"; "Nombre"; "Nome"];
  (* ColType *) ["Type"; "Тип"; "Тип"; "Typ"; "Typ"; "Type"; "Tipo"; "Tipo"; "Tipo"];
  (* ColStatus *) ["Status"; "Статус"; "Статус"; "Status"; "Status"; "Statut"; "Stato"; "Estado"; "Estado"];
  (* ColMedia *) ["Media"; "Медіа"; "Медиа"; "Media"; "Medien"; "Média"; "Media"; "Medios"; "Mídia"];
  (* DbReadError *) ["database read error: "; "помилка читання БД: "; "ошибка чтения БД: ";
    "błąd odczytu bazy danych: "; "Fehler beim Lesen der Datenbank: "; "erreur de lecture de la base de données : ";
    "errore di lettura del database: "; "error al leer la base de datos: "; "erro ao ler o banco de dados: "];
  (* NoAccounts *) ["(no accounts - signal2sip-gendb <name> register/link)";
    "(немає акаунтів - signal2sip-gendb <name> register/link)";
    "(нет аккаунтов - signal2sip-gendb <name> register/link)"; "(brak kont - signal2sip-gendb <name> register/link)";
    "(keine Konten - signal2sip-gendb <name> register/link)";
    "(aucun compte - signal2sip-gendb <name> register/link)";
    "(nessun account - signal2sip-gendb <name> register/link)";
    "(sin cuentas - signal2sip-gendb <name> register/link)";
    "(nenhuma conta - signal2sip-gendb <name> register/link)"];
  (* FooterSelect *) ["select"; "вибір"; "выбор"; "wybór"; "auswählen"; "sélection"; "seleziona"; "seleccionar";
    "selecionar"];
  (* FooterDetails *) ["details"; "деталі"; "детали"; "szczegóły"; "Details"; "détails"; "dettagli"; "detalles";
    "detalhes"];
  (* FooterNew *) ["new"; "новий"; "новый"; "nowe"; "neu"; "nouveau"; "nuovo"; "nuevo"; "novo"];
  (* FooterRefresh *) ["refresh"; "оновити"; "обновить"; "odśwież"; "aktualisieren"; "actualiser"; "aggiorna";
    "actualizar"; "atualizar"];
  (* FooterQuit *) ["quit"; "вихід"; "выход"; "wyjście"; "beenden"; "quitter"; "esci"; "salir"; "sair"];
  (* TypeLinked *) ["linked"; "прив'язаний"; "привязан"; "powiązane"; "verknüpft"; "lié"; "collegato"; "vinculado";
    "vinculado"];
  (* TypePrimary *) ["primary"; "основний"; "основной"; "główne"; "primär"; "principal"; "primario"; "principal";
    "principal"];
  (* StatusEnabled *) ["enabled"; "увімкнено"; "включён"; "włączone"; "aktiviert"; "activé"; "abilitato";
    "habilitado"; "habilitado"];
  (* StatusDisabled *) ["disabled"; "вимкнено"; "выключен"; "wyłączone"; "deaktiviert"; "désactivé"; "disabilitato";
    "deshabilitado"; "desabilitado"];
  (* SrtpMandatory *) ["mandatory"; "обов'язково"; "обязательно"; "wymagane"; "erforderlich"; "obligatoire";
    "obbligatorio"; "obligatorio"; "obrigatório"];
  (* SrtpOptional *) ["optional"; "необов'язково"; "опционально"; "opcjonalne"; "optional"; "facultatif";
    "opzionale"; "opcional"; "opcional"];
  (* DetailLinkedAt *) ["Linked"; "Прив'язано"; "Привязан"; "Powiązano"; "Verknüpft"; "Lié"; "Collegato";
    "Vinculado"; "Vinculado"];
  (* DetailRegisteredAt *) ["Registered"; "Зареєстровано"; "Зарегистрирован"; "Zarejestrowano"; "Registriert";
    "Enregistré"; "Registrato"; "Registrado"; "Registrado"];
  (* DetailEnabled *) ["Enabled"; "Увімкнено"; "Включён"; "Włączone"; "Aktiviert"; "Activé"; "Abilitato";
    "Habilitado"; "Habilitado"];
  (* YesWord *) ["yes"; "так"; "да"; "tak"; "ja"; "oui"; "sì"; "sí"; "sim"];
  (* NoWord *) ["no"; "ні"; "нет"; "nie"; "nein"; "non"; "no"; "no"; "não"];
  (* DetailSipNone *) ["— Signal-only, no SIP"; "— лише Signal, без SIP"; "— только Signal, без SIP";
    "— tylko Signal, bez SIP"; "— nur Signal, kein SIP"; "— Signal uniquement, sans SIP"; "— solo Signal, senza SIP";
    "— solo Signal, sin SIP"; "— somente Signal, sem SIP"];
  (* DetailSignaling *) ["Signaling"; "Сигналізація"; "Сигнализация"; "Sygnalizacja"; "Signalisierung";
    "Signalisation"; "Segnalazione"; "Señalización"; "Sinalização"];
  (* DetailMedia *) ["Media (RTP)"; "Медіа (RTP)"; "Медиа (RTP)"; "Media (RTP)"; "Medien (RTP)"; "Média (RTP)";
    "Media (RTP)"; "Medios (RTP)"; "Mídia (RTP)"];
  (* AccountReadError *) ["account read error: "; "помилка читання акаунта: "; "ошибка чтения аккаунта: ";
    "błąd odczytu konta: "; "Fehler beim Lesen des Kontos: "; "erreur de lecture du compte : ";
    "errore di lettura dell'account: "; "error al leer la cuenta: "; "erro ao ler a conta: "];
  (* SectionIdentity *) ["IDENTITY"; "ІДЕНТИЧНІСТЬ"; "ИДЕНТИЧНОСТЬ"; "TOŻSAMOŚĆ"; "IDENTITÄT"; "IDENTITÉ";
    "IDENTITÀ"; "IDENTIDAD"; "IDENTIDADE"];
  (* SectionStatus *) ["STATUS (from DB - not live connection)"; "СТАТУС (з БД - не поточне з'єднання)";
    "СТАТУС (из БД - не live-соединение)"; "STATUS (z bazy danych - nie na żywo)";
    "STATUS (aus DB - keine Live-Verbindung)"; "STATUT (depuis la BD - pas une connexion en direct)";
    "STATO (dal DB - non connessione in tempo reale)"; "ESTADO (desde la BD - no conexión en vivo)";
    "STATUS (do BD - não é conexão ao vivo)"];
  (* DetailTitlebar *) ["  Account: "; "  Акаунт: "; "  Аккаунт: "; "  Konto: "; "  Konto: "; "  Compte : ";
    "  Account: "; "  Cuenta: "; "  Conta: "];
  (* FooterConfigureSip *) ["configure SIP"; "налаштувати SIP"; "настроить SIP"; "konfiguruj SIP";
    "SIP konfigurieren"; "configurer SIP"; "configura SIP"; "configurar SIP"; "configurar SIP"];
  (* FooterDisable *) ["disable"; "вимкнути"; "выключить"; "wyłącz"; "deaktivieren"; "désactiver"; "disabilita";
    "deshabilitar"; "desabilitar"];
  (* FooterEnable *) ["enable"; "увімкнути"; "включить"; "włącz"; "aktivieren"; "activer"; "abilita"; "habilitar";
    "habilitar"];
  (* FooterSignalSettings *) ["Signal settings"; "налаштування Signal"; "настройки Signal"; "ustawienia Signal";
    "Signal-Einstellungen"; "paramètres Signal"; "impostazioni Signal"; "configuración de Signal";
    "configurações do Signal"];
  (* FooterDeleteAccount *) ["delete account  "; "видалити акаунт  "; "удалить аккаунт  "; "usuń konto  ";
    "Konto löschen  "; "supprimer le compte  "; "elimina account  "; "eliminar cuenta  "; "excluir conta  "];
  (* FooterBack *) ["back"; "назад"; "назад"; "wstecz"; "zurück"; "retour"; "indietro"; "atrás"; "voltar"];
  (* SignalingUdpInsecure *) ["⚠ UDP (not encrypted)"; "⚠ UDP (не шифровано)"; "⚠ UDP (не шифровано)";
    "⚠ UDP (nieszyfrowane)"; "⚠ UDP (nicht verschlüsselt)"; "⚠ UDP (non chiffré)"; "⚠ UDP (non cifrato)";
    "⚠ UDP (no cifrado)"; "⚠ UDP (não criptografado)"];
  (* MediaSrtpNotGuaranteedPrefix *) ["⚠ SRTP not guaranteed "; "⚠ SRTP не гарантовано "; "⚠ SRTP не гарант. ";
    "⚠ SRTP niegwarantowane "; "⚠ SRTP nicht garantiert "; "⚠ SRTP non garanti "; "⚠ SRTP non garantito ";
    "⚠ SRTP no garantizado "; "⚠ SRTP não garantido "];
  (* ActionEnableTitle *) ["enable {}?"; "увімкнути {}?"; "включить {}?"; "włączyć {}?"; "{} aktivieren?";
    "activer {} ?"; "abilitare {}?"; "¿habilitar {}?"; "habilitar {}?"];
  (* ActionDisableTitle *) ["disable {}?"; "вимкнути {}?"; "выключить {}?"; "wyłączyć {}?"; "{} deaktivieren?";
    "désactiver {} ?"; "disabilitare {}?"; "¿deshabilitar {}?"; "desabilitar {}?"];
  (* ActionDeactivateTitle *) ["deactivate {}?"; "deactivate {}?"; "deactivate {}?"; "deactivate {}?";
    "deactivate {}?"; "deactivate {}?"; "deactivate {}?"; "deactivate {}?"; "deactivate {}?"];
  (* ActionDeleteTitle *) ["⚠ delete account {}"; "⚠ видалити акаунт {}"; "⚠ удалить аккаунт {}"; "⚠ usuń konto {}";
    "⚠ Konto {} löschen"; "⚠ supprimer le compte {}"; "⚠ elimina l'account {}"; "⚠ eliminar la cuenta {}";
    "⚠ excluir a conta {}"];
  (* ActionEnableBody *) [
    "The daemon will bring the Signal session and SIP for this account back up within 30s (or immediately on SIGHUP).";
    "Демон знову підніме Signal-сесію та SIP для цього акаунта протягом 30с (або одразу по SIGHUP).";
    "Демон снова поднимет Signal-сессию и SIP для этого аккаунта в течение 30с (или сразу по SIGHUP).";
    "Demon ponownie uruchomi sesję Signal i SIP dla tego konta w ciągu 30s (lub natychmiast po SIGHUP).";
    "Der Daemon bringt die Signal-Sitzung und SIP für dieses Konto innerhalb von 30s wieder hoch (oder sofort bei SIGHUP).";
    "Le démon relancera la session Signal et le SIP pour ce compte dans les 30s (ou immédiatement sur SIGHUP).";
    "Il demone riattiverà la sessione Signal e il SIP per questo account entro 30s (o subito con SIGHUP).";
    "El demonio volverá a levantar la sesión de Signal y el SIP para esta cuenta en 30s (o de inmediato con SIGHUP).";
    "O daemon vai reerguer a sessão do Signal e o SIP desta conta em até 30s (ou imediatamente com SIGHUP)."];
  (* ActionDisableBody *) [
    "The daemon will stop bringing up SIP and the Signal session for this account within 30s (or immediately on SIGHUP). Incoming calls will stop arriving. Reversible - enable will restore it.";
    "Демон перестане піднімати SIP та Signal-сесію для цього акаунта протягом 30с (або одразу по SIGHUP). Вхідні дзвінки перестануть надходити. Оборотно - enable поверне як було.";
    "Демон перестанет поднимать SIP и Signal-сессию для этого аккаунта в течение 30с (или сразу по SIGHUP). Входящие звонки перестанут доходить. Обратимо - enable вернёт как было.";
    "Demon przestanie uruchamiać SIP i sesję Signal dla tego konta w ciągu 30s (lub natychmiast po SIGHUP). Połączenia przychodzące przestaną docierać. Odwracalne - enable przywróci poprzedni stan.";
    "Der Daemon stellt SIP und die Signal-Sitzung für dieses Konto innerhalb von 30s ein (oder sofort bei SIGHUP). Eingehende Anrufe kommen nicht mehr an. Reversibel - enable stellt den vorherigen Zustand wieder her.";
    "Le démon arrêtera le SIP et la session Signal pour ce compte dans les 30s (ou immédiatement sur SIGHUP). Les appels entrants cesseront d'arriver. Réversible - enable rétablira l'état précédent.";
    "Il demone smetterà di attivare il SIP e la sessione Signal per questo account entro 30s (o subito con SIGHUP). Le chiamate in arrivo smetteranno di arrivare. Reversibile - enable ripristinerà lo stato precedente.";
    "El demonio dejará de levantar el SIP y la sesión de Signal para esta cuenta en 30s (o de inmediato con SIGHUP). Las llamadas entrantes dejarán de llegar. Reversible - enable restaurará el estado anterior.";
    "O daemon vai parar de erguer o SIP e a sessão do Signal desta conta em até 30s (ou imediatamente com SIGHUP). As chamadas recebidas vão parar de chegar. Reversível - enable restaura o estado anterior."];
  (* ActionDeactivateBody *) [
    "A real but reversible server-side flag (fetchesMessages=false) - the number becomes unreachable for incoming Signal messages until reactivate. Doesn't touch local data.";
    "Реальний, але оборотний серверний прапорець (fetchesMessages=false) - номер стане недоступним для вхідних Signal-повідомлень до reactivate. Локальні дані не зачіпає.";
    "Реальный, но обратимый серверный флаг (fetchesMessages=false) - номер станет недоступен для входящих Signal-сообщений до reactivate. Локальные данные не трогает.";
    "Prawdziwa, ale odwracalna flaga po stronie serwera (fetchesMessages=false) - numer stanie się niedostępny dla przychodzących wiadomości Signal do czasu reactivate. Nie dotyka danych lokalnych.";
    "Ein echtes, aber reversibles serverseitiges Flag (fetchesMessages=false) - die Nummer wird bis zur Reaktivierung für eingehende Signal-Nachrichten unerreichbar. Lokale Daten bleiben unberührt.";
    "Un indicateur côté serveur réel mais réversible (fetchesMessages=false) - le numéro deviendra injoignable pour les messages Signal entrants jusqu'à la réactivation. Ne touche pas aux données locales.";
    "Un flag lato server reale ma reversibile (fetchesMessages=false) - il numero diventerà irraggiungibile per i messaggi Signal in arrivo fino alla riattivazione. Non tocca i dati locali.";
    "Un indicador real pero reversible del lado del servidor (fetchesMessages=false) - el número quedará inaccesible para los mensajes de Signal entrantes hasta la reactivación. No afecta los datos locales.";
    "Uma flag real, porém reversível, do lado do servidor (fetchesMessages=false) - o número ficará inacessível para mensagens do Signal recebidas até a reativação. Não afeta os dados locais."]].

Definition rows_dialogs : list (list string) := [
  (* ActionDeleteBody *) [
    "Irreversible. A real DELETE /v1/accounts/me on the Signal server - the number is freed up for someone else to register, local keys are wiped on success.";
    "Незворотно. Реальний DELETE /v1/accounts/me на сервері Signal - номер звільняється для чужої реєстрації, локальні ключі стираються при успіху.";
    "Необратимо. Реальный DELETE /v1/accounts/me на сервере Signal - номер освобождается для чужой регистрации, локальные ключи стираются при успехе.";
    "Nieodwracalne. Prawdziwe DELETE /v1/accounts/me na serwerze Signal - numer zostaje zwolniony do rejestracji przez kogoś innego, lokalne klucze są usuwane po powodzeniu.";
    "Unwiderruflich. Ein echtes DELETE /v1/accounts/me auf dem Signal-Server - die Nummer wird für die Registrierung durch jemand anderen freigegeben, lokale Schlüssel werden bei Erfolg gelöscht.";
    "Irréversible. Un vrai DELETE /v1/accounts/me sur le serveur Signal - le numéro est libéré pour l'enregistrement par quelqu'un d'autre, les clés locales sont effacées en cas de succès.";
    "Irreversibile. Una vera DELETE /v1/accounts/me sul server Signal - il numero viene liberato per la registrazione da parte di qualcun altro, le chiavi locali vengono cancellate in caso di successo.";
    "Irreversible. Un DELETE /v1/accounts/me real en el servidor de Signal - el número queda liberado para que otra persona lo registre, las claves locales se borran si tiene éxito.";
    "Irreversível. Um DELETE /v1/accounts/me real no servidor do Signal - o número é liberado para que outra pessoa o registre, as chaves locais são apagadas em caso de sucesso."];
  (* ResultDone *) ["done"; "виконано"; "выполнено"; "wykonano"; "erledigt"; "terminé"; "eseguito"; "hecho";
    "concluído"];
  (* ResultError *) ["error (code {})"; "помилка (код {})"; "ошибка (код {})"; "błąd (kod {})"; "Fehler (Code {})";
    "erreur (code {})"; "errore (codice {})"; "error (código {})"; "erro (código {})"];
  (* AnyKeyToList *) ["any key - back to list"; "будь-яка клавіша - до списку"; "любая клавиша - к списку";
    "dowolny klawisz - wróć do listy"; "beliebige Taste - zurück zur Liste";
    "n'importe quelle touche - retour à la liste"; "qualsiasi tasto - torna alla lista";
    "cualquier tecla - volver a la lista"; "qualquer tecla - voltar à lista"];
  (* TypeAccountName *) ["type account name: "; "введіть ім'я акаунта: "; "введите имя аккаунта: ";
    "wpisz nazwę konta: "; "Kontoname eingeben: "; "saisissez le nom du compte : "; "digita il nome dell'account: ";
    "escriba el nombre de la cuenta: "; "digite o nome da conta: "];
  (* ConfirmAccountLabel *) ["Account: "; "Акаунт: "; "Аккаунт: "; "Konto: "; "Konto: "; "Compte : "; "Account: ";
    "Cuenta: "; "Conta: "];
  (* FooterCancel *) ["cancel"; "скасувати"; "отмена"; "anuluj"; "abbrechen"; "annuler"; "annulla"; "cancelar";
    "cancelar"];
  (* EnterDelete *) ["delete"; "видалити"; "удалить"; "usuń"; "löschen"; "supprimer"; "elimina"; "eliminar";
    "excluir"];
  (* TypeNameInFull *) ["(type the full name)"; "(введіть ім'я повністю)"; "(наберите имя полностью)";
    "(wpisz pełną nazwę)"; "(vollständigen Namen eingeben)"; "(saisissez le nom complet)";
    "(digita il nome completo)"; "(escriba el nombre completo)"; "(digite o nome completo)"];
  (* FooterConfirm *) ["confirm"; "підтвердити"; "подтвердить"; "potwierdź"; "bestätigen"; "confirmer"; "conferma";
    "confirmar"; "confirmar"];
  (* ErrSipHostRequired *) ["sip_host is required once SIP is being configured";
    "sip_host обов'язковий, якщо налаштовується SIP"; "sip_host обязателен, раз настраивается SIP";
    "sip_host jest wymagane, skoro konfigurowane jest SIP";
    "sip_host ist erforderlich, sobald SIP konfiguriert wird";
    "sip_host est requis dès lors que le SIP est configuré"; "sip_host è obbligatorio se si configura il SIP";
    "sip_host es obligatorio si se está configurando SIP";
    "sip_host é obrigatório quando o SIP está sendo configurado"];
  (* ErrSipExtensionRequired *) ["sip_extension is required once SIP is being configured";
    "sip_extension обов'язковий, якщо налаштовується SIP"; "sip_extension обязателен, раз настраивается SIP";
    "sip_extension jest wymagane, skoro konfigurowane jest SIP";
    "sip_extension ist erforderlich, sobald SIP konfiguriert wird";
    "sip_extension est requis dès lors que le SIP est configuré";
    "sip_extension è obbligatorio se si configura il SIP";
    "sip_extension es obligatorio si se está configurando SIP";
    "sip_extension é obrigatório quando o SIP está sendo configurado"];
  (* ErrSipPasswordRequired *) ["sip_password is required once SIP is being configured";
    "sip_password обов'язковий, якщо налаштовується SIP"; "sip_password обязателен, раз настраивается SIP";
    "sip_password jest wymagane, skoro konfigurowane jest SIP";
    "sip_password ist erforderlich, sobald SIP konfiguriert wird";
    "sip_password est requis dès lors que le SIP est configuré";
    "sip_password è obbligatorio se si configura il SIP"; "sip_password es obligatorio si se está configurando SIP";
    "sip_password é obrigatório quando o SIP está sendo configurado"];
  (* ErrTlsRequiresCa *) ["sip_transport=tls requires sip_tls_ca_file or sip_tls_insecure=yes";
    "sip_transport=tls потребує sip_tls_ca_file або sip_tls_insecure=yes";
    "sip_transport=tls требует sip_tls_ca_file или sip_tls_insecure=yes";
    "sip_transport=tls wymaga sip_tls_ca_file lub sip_tls_insecure=yes";
    "sip_transport=tls erfordert sip_tls_ca_file oder sip_tls_insecure=yes";
    "sip_transport=tls nécessite sip_tls_ca_file ou sip_tls_insecure=yes";
    "sip_transport=tls richiede sip_tls_ca_file o sip_tls_insecure=yes";
    "sip_transport=tls requiere sip_tls_ca_file o sip_tls_insecure=yes";
    "sip_transport=tls requer sip_tls_ca_file ou sip_tls_insecure=yes"];
  (* WarnBridgeBothSet *) ["both sip_bridge_destination and sip_bridge_did are set - only sip_bridge_did will apply";
    "задані і sip_bridge_destination, і sip_bridge_did - застосується лише sip_bridge_did";
    "заданы и sip_bridge_destination, и sip_bridge_did - применится только sip_bridge_did";
    "ustawione są zarówno sip_bridge_destination, jak i sip_bridge_did - zastosowane zostanie tylko sip_bridge_did";
    "sowohl sip_bridge_destination als auch sip_bridge_did sind gesetzt - nur sip_bridge_did wird angewendet";
    "sip_bridge_destination et sip_bridge_did sont tous deux définis - seul sip_bridge_did sera appliqué";
    "sono impostati sia sip_bridge_destination che sip_bridge_did - verrà applicato solo sip_bridge_did";
    "están definidos tanto sip_bridge_destination como sip_bridge_did - solo se aplicará sip_bridge_did";
    "tanto sip_bridge_destination quanto sip_bridge_did estão definidos - apenas sip_bridge_did será aplicado"];
  (* ConfigSaved *) ["saved"; "збережено"; "сохранено"; "zapisano"; "gespeichert"; "enregistré"; "salvato";
    "guardado"; "salvo"];
  (* ConfigSaveError *) ["save error"; "помилка збереження"; "ошибка сохранения"; "błąd zapisu";
    "Fehler beim Speichern"; "erreur d'enregistrement"; "errore di salvataggio"; "error al guardar"; "erro ao salvar"];
  (* NoChanges *) ["(no changes)"; "(без змін)"; "(изменений нет)"; "(brak zmian)"; "(keine Änderungen)";
    "(aucun changement)"; "(nessuna modifica)"; "(sin cambios)"; "(sem alterações)"];
  (* AnyKeyBackToAccount *) ["any key - back to account"; "будь-яка клавіша - назад до акаунта";
    "любая клавиша - назад к аккаунту"; "dowolny klawisz - wróć do konta"; "beliebige Taste - zurück zum Konto";
    "n'importe quelle touche - retour au compte"; "qualsiasi tasto - torna all'account";
    "cualquier tecla - volver a la cuenta"; "qualquer tecla - voltar à conta"];
  (* ConfigTitlebar *) ["  SIP configuration: "; "  Налаштування SIP: "; "  Настройка SIP: "; "  Konfiguracja SIP: ";
    "  SIP-Konfiguration: "; "  Configuration SIP : "; "  Configurazione SIP: "; "  Configuración SIP: ";
    "  Configuração SIP: "];
  (* FooterField *) ["field"; "поле"; "поле"; "pole"; "Feld"; "champ"; "campo"; "campo"; "campo"];
  (* FooterTextType *) ["text: type  "; "текст: вводьте  "; "текст: вводите  "; "tekst: wpisz  "; "Text: eingeben  ";
    "texte : saisissez  "; "testo: digita  "; "texto: escriba  "; "texto: digite  "];
  (* FooterListCycles *) ["list: cycles"; "список: перемикає"; "список: переключает"; "lista: przełącza";
    "Liste: wechselt"; "liste : change"; "elenco: cambia"; "lista: cambia"; "lista: alterna"];
  (* FooterSave *) ["save"; "зберегти"; "сохранить"; "zapisz"; "speichern"; "enregistrer"; "salva"; "guardar";
    "salvar"];
  (* SignalConfigTitlebar *) ["  Signal settings: "; "  Налаштування Signal: "; "  Настройки Signal: ";
    "  Ustawienia Signal: "; "  Signal-Einstellungen: "; "  Paramètres Signal : "; "  Impostazioni Signal: ";
    "  Configuración de Signal: "; "  Configurações do Signal: "];
  (* SignalConfigTypeText *) [" type text  "; " вводьте текст  "; " вводите текст  "; " wpisz tekst  ";
    " Text eingeben  "; " saisissez le texte  "; " digita il testo  "; " escriba el texto  "; " digite o texto  "];
  (* WizardNewAccount *) ["new account"; "новий акаунт"; "новый аккаунт"; "nowe konto"; "neues Konto";
    "nouveau compte"; "nuovo account"; "nueva cuenta"; "nova conta"];
  (* FieldAccountName *) ["account name"; "ім'я акаунта"; "имя аккаунта"; "nazwa konta"; "Kontoname";
    "nom du compte"; "nome account"; "nombre de la cuenta"; "nome da conta"];
  (* FieldMethod *) ["method"; "спосіб"; "способ"; "metoda"; "Methode"; "méthode"; "metodo"; "método"; "método"];
  (* MethodRegister *) ["register (SMS/call)"; "register (SMS/дзвінок)"; "register (SMS/звонок)";
    "register (SMS/połączenie)"; "register (SMS/Anruf)"; "register (SMS/appel)"; "register (SMS/chiamata)";
    "register (SMS/llamada)"; "register (SMS/chamada)"];
  (* WizardNameHint *) ["name is an arbitrary label (letters/digits/-/_), Signal/SIP never see it";
    "ім'я - довільна мітка (літери/цифри/-/_), Signal/SIP її не бачать";
    "имя - произвольная метка (буквы/цифры/-/_), Signal/SIP её не видят";
    "nazwa to dowolna etykieta (litery/cyfry/-/_), Signal/SIP jej nie widzą";
    "der Name ist ein frei wählbares Label (Buchstaben/Zahlen/-/_), Signal/SIP sehen ihn nie";
    "le nom est une étiquette libre (lettres/chiffres/-/_), Signal/SIP ne le voient jamais";
    "il nome è un'etichetta arbitraria (lettere/numeri/-/_), Signal/SIP non lo vedono mai";
    "el nombre es una etiqueta arbitraria (letras/dígitos/-/_), Signal/SIP nunca lo ven";
    "o nome é um rótulo arbitrário (letras/dígitos/-/_), Signal/SIP nunca o veem"];
  (* ErrEnterAccountName *) ["enter an account name"; "вкажіть ім'я акаунта"; "укажите имя аккаунта";
    "podaj nazwę konta"; "Kontoname eingeben"; "indiquez un nom de compte"; "inserisci un nome account";
    "indique un nombre de cuenta"; "informe um nome de conta"];
  (* ErrAccountExists *) ["an account with this name already exists"; "акаунт з таким ім'ям вже існує";
    "аккаунт с таким именем уже существует"; "konto o tej nazwie już istnieje";
    "ein Konto mit diesem Namen existiert bereits"; "un compte portant ce nom existe déjà";
    "esiste già un account con questo nome"; "ya existe una cuenta con ese nombre";
    "já existe uma conta com esse nome"]].

Definition rows_wizard : list (list string) := [
  (* FooterToggleMethod *) ["toggle method"; "перемкнути спосіб"; "переключить способ"; "przełącz metodę";
    "Methode wechseln"; "changer de méthode"; "cambia metodo"; "cambiar método"; "alternar método"];
  (* FooterNext *) ["next"; "далі"; "далее"; "dalej"; "weiter"; "suivant"; "avanti"; "siguiente"; "próximo"];
  (* WizardRegistration *) ["registration: "; "реєстрація: "; "регистрация: "; "rejestracja: "; "Registrierung: ";
    "inscription : "; "registrazione: "; "registro: "; "registro: "];
  (* FieldCodeMethod *) ["code method"; "спосіб коду"; "способ кода"; "metoda kodu"; "Code-Methode";
    "méthode du code"; "metodo del codice"; "método del código"; "método do código"];
  (* ErrEnterE164 *) ["enter e164"; "вкажіть e164"; "укажите e164"; "podaj e164"; "e164 eingeben";
    "indiquez le e164"; "inserisci e164"; "indique el e164"; "informe o e164"];
  (* FooterToggleCodeMethod *) ["toggle code method"; "перемкнути спосіб коду"; "переключить способ кода";
    "przełącz metodę kodu"; "Code-Methode wechseln"; "changer la méthode du code"; "cambia metodo del codice";
    "cambiar método del código"; "alternar método do código"];
  (* FooterRegister *) ["register"; "register"; "register"; "register"; "register"; "register"; "register";
    "register"; "register"];
  (* WizardResult *) ["result: "; "результат: "; "результат: "; "wynik: "; "Ergebnis: "; "résultat : ";
    "risultato: "; "resultado: "; "resultado: "];
  (* FooterEnterCode *) ["enter code"; "ввести код"; "ввести код"; "wpisz kod"; "Code eingeben"; "saisir le code";
    "inserisci codice"; "ingresar código"; "inserir código"];
  (* FooterToList *) ["to list"; "до списку"; "к списку"; "do listy"; "zur Liste"; "vers la liste"; "alla lista";
    "a la lista"; "para a lista"];
  (* CaptchaInstructions *) [
    "Open in a browser: https://signalcaptchas.org/registration/generate.html - solve the captcha; it will try to navigate to signalcaptcha://<token> (the navigation won't work in a normal browser, but the token stays visible in the address bar).";
    "Відкрийте в браузері: https://signalcaptchas.org/registration/generate.html - розв'яжіть капчу; вона спробує перейти на signalcaptcha://<token> (перехід не спрацює у звичайному браузері, але токен залишиться видимим в адресному рядку).";
    "Откройте в браузере: https://signalcaptchas.org/registration/generate.html - решите капчу; она попробует перейти на signalcaptcha://<token> (переход не сработает в обычном браузере, но токен останется виден в адресной строке).";
    "Otwórz w przeglądarce: https://signalcaptchas.org/registration/generate.html - rozwiąż captchę; spróbuje ona przejść do signalcaptcha://<token> (przejście nie zadziała w zwykłej przeglądarce, ale token pozostanie widoczny w pasku adresu).";
    "Im Browser öffnen: https://signalcaptchas.org/registration/generate.html - Captcha lösen; es versucht, zu signalcaptcha://<token> zu navigieren (funktioniert in einem normalen Browser nicht, aber das Token bleibt in der Adressleiste sichtbar).";
    "Ouvrez dans un navigateur : https://signalcaptchas.org/registration/generate.html - résolvez le captcha ; il essaiera de naviguer vers signalcaptcha://<token> (la navigation ne fonctionnera pas dans un navigateur normal, mais le jeton restera visible dans la barre d'adresse).";
    "Apri nel browser: https://signalcaptchas.org/registration/generate.html - risolvi il captcha; proverà a passare a signalcaptcha://<token> (la navigazione non funzionerà in un browser normale, ma il token rimarrà visibile nella barra degli indirizzi).";
    "Abra en un navegador: https://signalcaptchas.org/registration/generate.html - resuelva el captcha; intentará navegar a signalcaptcha://<token> (la navegación no funcionará en un navegador normal, pero el token seguirá visible en la barra de direcciones).";
    "Abra no navegador: https://signalcaptchas.org/registration/generate.html - resolva o captcha; ele tentará navegar para signalcaptcha://<token> (a navegação não vai funcionar em um navegador normal, mas o token continuará visível na barra de endereço)."];
  (* FieldToken *) ["token"; "токен"; "токен"; "token"; "Token"; "jeton"; "token"; "token"; "token"];
  (* FooterTypeToken *) [" type the token  "; " вводьте токен  "; " вводите токен  "; " wpisz token  ";
    " Token eingeben  "; " saisissez le jeton  "; " digita il token  "; " escriba el token  "; " digite o token  "];
  (* FooterSubmit *) ["submit"; "надіслати"; "отправить"; "wyślij"; "senden"; "envoyer"; "invia"; "enviar"; "enviar"];
  (* WizardVerify *) ["verification code: "; "код підтвердження: "; "код подтверждения: "; "kod weryfikacyjny: ";
    "Bestätigungscode: "; "code de vérification : "; "codice di verifica: "; "código de verificación: ";
    "código de verificação: "];
  (* FieldSmsCode *) ["code from SMS/call"; "код з SMS/дзвінка"; "код из SMS/звонка"; "kod z SMS/połączenia";
    "Code aus SMS/Anruf"; "code reçu par SMS/appel"; "codice da SMS/chiamata"; "código de SMS/llamada";
    "código do SMS/chamada"];
  (* FooterTypeCode *) [" type the code  "; " вводьте код  "; " вводите код  "; " wpisz kod  "; " Code eingeben  ";
    " saisissez le code  "; " digita il codice  "; " escriba el código  "; " digite o código  "];
  (* WizardLinking *) ["linking: "; "лінкування: "; "линковка: "; "łączenie: "; "Verknüpfung: "; "liaison : ";
    "collegamento: "; "vinculación: "; "vinculação: "];
  (* LinkWaitingInstructions *) [
    "Waiting for the QR to be scanned (up to ~90s) - on the phone's Signal: Settings → Linked Devices → Link New Device";
    "Очікування сканування QR (до ~90с) - Signal на телефоні: Налаштування → Пов'язані пристрої → Пов'язати пристрій";
    "Ожидание сканирования QR (до ~90с) - Signal на телефоне: Настройки → Связанные устройства → Связать устройство";
    "Oczekiwanie na zeskanowanie kodu QR (do ~90s) - Signal na telefonie: Ustawienia → Połączone urządzenia → Połącz urządzenie";
    "Warten auf das Scannen des QR-Codes (bis zu ~90s) - Signal auf dem Telefon: Einstellungen → Verknüpfte Geräte → Gerät verknüpfen";
    "En attente du scan du QR (jusqu'à ~90s) - Signal sur le téléphone : Paramètres → Appareils liés → Lier un appareil";
    "In attesa della scansione del QR (fino a ~90s) - Signal sul telefono: Impostazioni → Dispositivi collegati → Collega dispositivo";
    "Esperando a que se escanee el QR (hasta ~90s) - Signal en el teléfono: Configuración → Dispositivos vinculados → Vincular nuevo dispositivo";
    "Aguardando a leitura do QR (até ~90s) - Signal no telefone: Configurações → Dispositivos vinculados → Vincular novo dispositivo"];
  (* FooterCancelWaiting *) ["cancel waiting"; "скасувати очікування"; "отменить ожидание"; "anuluj oczekiwanie";
    "Warten abbrechen"; "annuler l'attente"; "annulla attesa"; "cancelar espera"; "cancelar espera"];
  (* ResultErrorCancelled *) ["error/cancelled (code {})"; "помилка/скасовано (код {})"; "ошибка/отменено (код {})";
    "błąd/anulowano (kod {})"; "Fehler/abgebrochen (Code {})"; "erreur/annulé (code {})";
    "errore/annullato (codice {})"; "error/cancelado (código {})"; "erro/cancelado (código {})"];
  (* WizardTitlebar *) ["  New account: "; "  Новий акаунт: "; "  Новый аккаунт: "; "  Nowe konto: ";
    "  Neues Konto: "; "  Nouveau compte : "; "  Nuovo account: "; "  Nueva cuenta: "; "  Nova conta: "];
  (* StartupNoDbConfig *) [
    " has no usable [global] db_path/db_key - run signal2sip-gendb once first (it bootstraps [global] on a clean setup).
";
    " не має придатних [global] db_path/db_key - спочатку один раз запустіть signal2sip-gendb (він ініціалізує [global] на чистій установці).
";
    " не содержит пригодных [global] db_path/db_key - сначала один раз запустите signal2sip-gendb (он инициализирует [global] на чистой установке).
";
    " nie zawiera użytecznych [global] db_path/db_key - najpierw uruchom raz signal2sip-gendb (inicjuje [global] przy czystej instalacji).
";
    " enthält kein nutzbares [global] db_path/db_key - führen Sie zuerst einmal signal2sip-gendb aus (es initialisiert [global] bei einer sauberen Installation).
";
    " ne contient pas de [global] db_path/db_key utilisable - lancez d'abord signal2sip-gendb une fois (il initialise [global] sur une installation vierge).
";
    " non contiene un [global] db_path/db_key utilizzabile - esegui prima signal2sip-gendb una volta (inizializza [global] su un'installazione pulita).
";
    " no tiene un [global] db_path/db_key utilizable - ejecute primero signal2sip-gendb una vez (inicializa [global] en una instalación limpia).
";
    " não tem um [global] db_path/db_key utilizável - execute o signal2sip-gendb uma vez primeiro (ele inicializa o [global] numa instalação limpa).
"]].

Definition kTable : list (list string) := (rows_accounts ++ rows_dialogs ++ rows_wizard)%list.

(** What [kTable[k][l]] reads; [None] outside the array. *)
Definition table_entry (k : Key) (l : Lang) : option string := row ← kTable !! key_index k; row !! lang_index l.
Definition tr (l : Lang) (k : Key) : string := default EmptyString (table_entry k l).

(** ** The language *)

(** std::tolower in the C locale. *)
Definition tolower (c : ascii) : ascii :=
  if bool_decide (65 <= nat_of_ascii c <= 90)%nat then ch (nat_of_ascii c + 32) else c.

Definition ends_code (c : ascii) : bool := bool_decide (c = "_"%char \/ c = "."%char \/ c = "@"%char).
Fixpoint lang_code (v : string) : string :=
  match v with
  | EmptyString => EmptyString
  | String c v' => if ends_code c then EmptyString else String (tolower c) (lang_code v')
  end.

Definition lang_names : list (string * Lang) :=
  [("en", EN); ("uk", UK); ("ru", RU); ("pl", PL); ("de", DE); ("fr", FR); ("it", IT); ("es", ES); ("pt", PT);
   ("c", EN); ("posix", EN)].

(** One variable: its language, if it names one there are texts for. *)
Definition lang_of (v : option string) : option Lang :=
  match v with
  | None | Some EmptyString => None
  | Some v => snd <$> List.find (fun p => bool_decide (p.1 = lang_code v)) lang_names
  end.

(** [vars]: LC_ALL, LC_MESSAGES and LANG. *)
Fixpoint detectLang (vars : list (option string)) : Lang :=
  match vars with
  | [] => EN
  | v :: vars' => match lang_of v with Some l => l | None => detectLang vars' end
  end.

(** ** Messages with an argument *)

(** [s.find("{}")]: what is before and behind the first one. *)
Fixpoint split_hole (s : string) : option (string * string) :=
  match s with
  | String "{" (String "}" s') => Some (EmptyString, s')
  | String c s' => match split_hole s' with Some (p, q) => Some (String c p, q) | None => None end
  | EmptyString => None
  end.

Definition format1 (l : Lang) (k : Key) (arg : string) : string :=
  match split_hole (tr l k) with
  | Some (p, q) => String.append p (String.append arg q)
  | None => tr l k
  end.

(** ** Every message there is *)

(** Keys whose text takes an argument, and no others. *)
Definition takes_argument (k : Key) : bool :=
  bool_decide (k ∈ [ActionEnableTitle; ActionDisableTitle; ActionDeactivateTitle; ActionDeleteTitle; ResultError; ResultErrorCancelled]).

Definition well_formed_message (k : Key) (l : Lang) : bool :=
  match table_entry k l with
  | None | Some EmptyString => false
  | Some s =>
    match split_hole s with
    | None => negb (takes_argument k)
    | Some (_, q) => takes_argument k && bool_decide (split_hole q = None)
    end
  end.

Lemma messages_checked : forallb (fun k => forallb (well_formed_message k) (enum Lang)) (enum Key) = true.
Proof. vm_compute. reflexivity. Qed.

Lemma message_checked k l : well_formed_message k l = true.
Proof.
  pose proof messages_checked as H. rewrite forallb_forall in H.
  specialize (H k (proj1 (list_elem_of_In _ _) (elem_of_enum k))). rewrite forallb_forall in H.
  exact (H l (proj1 (list_elem_of_In _ _) (elem_of_enum l))).
Qed.

Lemma split_hole_eq s p q : split_hole s = Some (p, q) -> s = String.append p (String.append "{}" q).
Proof.
  revert p q. induction s as [|c s IH]; intros p q; [done|].
  assert (forall p q, match split_hole s with Some (p, q) => Some (String c p, q) | None => None end = Some (p, q) ->
    String c s = String.append p (String.append "{}" q)) as Hrest.
  { intros p' q'. destruct (split_hole s) as [[p0 q0]|]; [|done]. intros [= <- <-]. by rewrite (IH p0 q0 eq_refl). }
  cbn [split_hole].
  destruct (decide (c = "{"%char)) as [->|Hc].
  - destruct s as [|c' s']; [done|]. destruct (decide (c' = "}"%char)) as [->|Hc'].
    + intros [= <- <-]. done.
    + intros H. apply Hrest. rewrite <- H. clear -Hc'. destruct c' as [[] [] [] [] [] [] [] []]; done.
  - intros H. apply Hrest. rewrite <- H. clear -Hc. destruct c as [[] [] [] [] [] [] [] []]; done.
Qed.

(** C40: the table of texts is complete and its placeholders are right: for
    every key and language the array has an entry at the place that is read
    and it is not empty; a text shown as it is has no placeholder, and a text
    that takes an argument is shown, in every language, with the argument in
    the place of its only placeholder. *)
Theorem messages_complete k l arg :
  table_entry k l = Some (tr l k) /\ tr l k <> EmptyString /\
  if takes_argument k
  then exists p q, tr l k = String.append p (String.append "{}" q) /\ split_hole q = None /\
         format1 l k arg = String.append p (String.append arg q)
  else split_hole (tr l k) = None.
Proof.
  pose proof (message_checked k l) as H. unfold well_formed_message in H. unfold format1, tr.
  destruct (table_entry k l) as [[|c s]|]; [done| |done]. change (default EmptyString (Some (String c s))) with (String c s).
  split; [done|]. split; [done|]. destruct (split_hole (String c s)) as [[p q]|] eqn:E.
  - apply andb_prop in H as [-> H]. apply bool_decide_eq_true in H. exists p, q. by split; [apply split_hole_eq|].
  - by apply negb_true_iff in H as ->.
Qed.

(** What follows the language code, and its case, make no difference. *)
Lemma lang_code_prefix code c rest : ends_code c = true -> lang_code (String.append code (String c rest)) = lang_code code.
Proof.
  intros Hc. induction code as [|a code IH]; [rewrite str_app_nil_l|rewrite str_app_cons]; cbn [lang_code]; [by rewrite Hc|]. by rewrite IH.
Qed.

Example ukrainian : detectLang [Some ""; Some "ja_JP.UTF-8"; Some "UK_UA.UTF-8"] = UK.
Proof. vm_compute. reflexivity. Qed.

Example locale_less : detectLang [Some "C.UTF-8"; None; Some "de_DE"] = EN.
Proof. vm_compute. reflexivity. Qed.
