(* ===== verification/TuiLink.v ===== *)
(** The thread of the terminal interface that links a device
    (src/tui/main.cpp, [startLinkThread] and [cancelLinkThread]): it runs
    signal2sip-gendb as a child and passes its output on as it comes, while the
    interface goes on; the interface may cancel it at any moment.

    The thread's critical sections and system calls are its steps; the child's
    behaviour is a script, [plan]. *)

From S2P Require Import Prelude.

Open Scope Z_scope.

(** How a child ended, as waitpid reports it. *)
Inductive wait_status := Exited (code : Z) | Signaled (signal : Z).

(** What will happen to one link child: whether pipe() and fork() succeed, its
    pid, the reads its output takes, how it ends, and what is still read after
    a SIGTERM. *)
Record plan := mkPlan {
  p_pipe : bool; p_fork : bool; p_pid : Z;
  p_chunks : list string; p_status : wait_status;
  p_killed_chunks : list string; p_killed_status : wait_status }.

(** Where the thread is; from [Forked] on, the child exists until [Reaped]. *)
Inductive thread_pc :=
| AtPipe | AtFork | Forked | Reading (chunks : list string) (status : wait_status)
| Reaped | SetDone | Returned.
#[export] Instance wait_status_eq_dec : EqDecision wait_status.
Proof. solve_decision. Defined.

Record thread := mkThread { th_pc : thread_pc; th_plan : plan; th_args : list string; th_killed : bool }.

(** The shared variables, the thread handle ([None]: not joinable), the wake-ups
    posted to the interface and not yet handled, and the pids that got SIGTERM
    with whether the child was still there. *)
Record link := mkLink {
  linkOutput : string; linkDone : bool; linkExitCode : Z; linkPid : Z;
  linkThread : option thread; posted : nat; kills : list (Z * bool) }.

Definition no_link : link := mkLink "" false (-1) (-1) None 0 [].

Definition link_args (configPath name : string) : list string := ["--config"; configPath; name; "link"]%string.

(** ** Steps of the thread *)

Definition at_pc (t : thread) (pc : thread_pc) : option thread := Some (mkThread pc (th_plan t) (th_args t) (th_killed t)).

(** The early returns: the message and the flag under the mutex, then the
    wake-up. *)
Definition failed_start (l : link) (t : thread) (what : string) : link :=
  mkLink what true (linkExitCode l) (linkPid l) (at_pc t Returned) (S (posted l)) (kills l).

Definition wexit (st : wait_status) : Z := match st with Exited c => c | Signaled _ => -1 end.

(** One step; a child that was told to terminate follows the rest of its
    script. *)
Definition thread_step (l : link) : option link :=
  match linkThread l with
  | None => None
  | Some t =>
    match th_pc t with
    | AtPipe =>
      Some (if p_pipe (th_plan t)
            then mkLink (linkOutput l) (linkDone l) (linkExitCode l) (linkPid l) (at_pc t AtFork) (posted l) (kills l)
            else failed_start l t "pipe() failed")
    | AtFork =>
      Some (if p_fork (th_plan t)
            then mkLink (linkOutput l) (linkDone l) (linkExitCode l) (linkPid l) (at_pc t Forked) (posted l) (kills l)
            else failed_start l t "fork() failed")
    | Forked =>
      Some (mkLink (linkOutput l) (linkDone l) (linkExitCode l) (p_pid (th_plan t))
        (at_pc t (Reading (p_chunks (th_plan t)) (p_status (th_plan t)))) (posted l) (kills l))
    | Reading (c :: cs) st =>
      Some (mkLink (String.append (linkOutput l) c) (linkDone l) (linkExitCode l) (linkPid l)
        (at_pc t (Reading cs st)) (S (posted l)) (kills l))
    | Reading [] st =>
      Some (mkLink (linkOutput l) (linkDone l) (wexit st) (linkPid l) (at_pc t Reaped) (posted l) (kills l))
    | Reaped => Some (mkLink (linkOutput l) true (linkExitCode l) (linkPid l) (at_pc t SetDone) (posted l) (kills l))
    | SetDone => Some (mkLink (linkOutput l) (linkDone l) (linkExitCode l) (linkPid l) (at_pc t Returned) (S (posted l)) (kills l))
    | Returned => None
    end
  end.

(** ** The interface's side *)

(** An upper bound on the steps a thread has left. *)
Definition thread_left (t : thread) : nat :=
  let longest := (length (p_chunks (th_plan t)) + length (p_killed_chunks (th_plan t)))%nat in
  match th_pc t with
  | AtPipe => 7 + longest | AtFork => 6 + longest | Forked => 5 + longest
  | Reading cs _ => 4 + length cs | Reaped => 2 | SetDone => 1 | Returned => 0
  end%nat.

Fixpoint run_thread (fuel : nat) (l : link) : link :=
  match fuel with
  | O => l
  | S fuel' => match thread_step l with Some l' => run_thread fuel' l' | None => l end
  end.

(** [if (linkThread.joinable()) linkThread.join()] *)
Definition join (l : link) : link :=
  match linkThread l with
  | None => l
  | Some t =>
    let l' := run_thread (thread_left t) l in
    mkLink (linkOutput l') (linkDone l') (linkExitCode l') (linkPid l') None (posted l') (kills l')
  end.

(** [startLinkThread]; [pl] is what its child will do. *)
Definition startLinkThread (pl : plan) (configPath name : string) (l : link) : link :=
  let cleared := join (mkLink "" false (-1) (-1) (linkThread l) (posted l) (kills l)) in
  mkLink (linkOutput cleared) (linkDone cleared) (linkExitCode cleared) (linkPid cleared)
    (Some (mkThread AtPipe pl (link_args configPath name) false)) (posted cleared) (kills cleared).

(** kill(pid, SIGTERM): the running child of that pid, if it is still there,
    goes on as the rest of its script says. *)
Definition sigterm (pid : Z) (l : link) : link :=
  match linkThread l with
  | Some t =>
    let alive := match th_pc t with Reading _ _ => bool_decide (p_pid (th_plan t) = pid) | _ => false end in
    mkLink (linkOutput l) (linkDone l) (linkExitCode l) (linkPid l)
      (if alive then Some (mkThread (Reading (p_killed_chunks (th_plan t)) (p_killed_status (th_plan t))) (th_plan t) (th_args t) true)
       else Some t) (posted l) (kills l ++ [(pid, alive)])
  | None => mkLink (linkOutput l) (linkDone l) (linkExitCode l) (linkPid l) None (posted l) (kills l ++ [(pid, false)])
  end.

Definition cancelLinkThread (l : link) : link :=
  join (if bool_decide (0 < linkPid l) then sigterm (linkPid l) l else l).

(** The end of [main], after the screen's loop. *)
Definition leave (l : link) : link := match linkThread l with Some _ => cancelLinkThread l | None => l end.

(** ** The link thread comes to its end *)

Lemma thread_step_left l l' t :
  linkThread l = Some t -> thread_step l = Some l' ->
  exists t', linkThread l' = Some t' /\ (thread_left t' < thread_left t)%nat.
Proof.
  unfold thread_step. intros Ht. rewrite Ht. destruct t as [pc pl a k]. cbn [th_pc th_plan].
  destruct pc as [| | |[|c cs] st| | |]; try done; try destruct (p_pipe pl); try destruct (p_fork pl);
    intros [= <-]; eexists; (split; [reflexivity|]); unfold thread_left; cbn; lia.
Qed.

Lemma thread_step_none l t : linkThread l = Some t -> thread_step l = None -> th_pc t = Returned.
Proof. unfold thread_step. intros ->. by destruct (th_pc t) as [| | |[|c cs] st| | |]. Qed.

Lemma run_thread_returns n l t : linkThread l = Some t -> (thread_left t <= n)%nat ->
  exists t', linkThread (run_thread n l) = Some t' /\ th_pc t' = Returned.
Proof.
  revert l t. induction n as [|n IH]; intros l t Ht Hn; cbn [run_thread].
  - exists t. split; [done|]. destruct t as [pc pl a k]. unfold thread_left in Hn. cbn in *. destruct pc; try done; exfalso; lia.
  - destruct (thread_step l) as [l'|] eqn:E; [|exists t; split; [done|by eapply thread_step_none]].
    destruct (thread_step_left l l' t Ht E) as (t' & Ht' & Hlt). eapply IH; [done|lia].
Qed.

Lemma run_thread_none n l : linkThread l = None -> run_thread n l = l.
Proof. intros H. destruct n; [done|]. cbn. unfold thread_step. by rewrite H. Qed.

Lemma join_none l : linkThread (join l) = None.
Proof. unfold join. by destruct (linkThread l) eqn:E. Qed.

Lemma cancel_none l : linkThread (cancelLinkThread l) = None.
Proof. apply join_none. Qed.

Lemma start_some pl c nm l : linkThread (startLinkThread pl c nm l) = Some (mkThread AtPipe pl (link_args c nm) false).
Proof. done. Qed.

(** ** What a link leaves behind *)

Definition joined (cs : list string) : string := foldr String.append EmptyString cs.

(** The thread that has read its child to the end. *)
Lemma read_to_end cs st l t n : linkThread l = Some t -> th_pc t = Reading cs st -> (4 + length cs <= n)%nat ->
  run_thread n l = mkLink (String.append (linkOutput l) (joined cs)) true (wexit st) (linkPid l) (at_pc t Returned)
    (S (length cs) + posted l) (kills l).
Proof.
  revert l t n. induction cs as [|c cs IH]; intros l [pc pl a k] n Ht Hpc Hn; cbn in Hpc; subst pc.
  - destruct n as [|[|[|[|n]]]]; cbn in Hn; try lia. cbn. unfold thread_step. rewrite Ht. cbn. by rewrite str_app_nil_r.
  - destruct n as [|n]; cbn in Hn; [lia|]. cbn [run_thread]. unfold thread_step at 1. rewrite Ht. cbn [th_pc].
    rewrite (IH _ (mkThread (Reading cs st) pl a k)) by (done || lia). cbn. rewrite str_app_assoc. f_equal. lia.
Qed.

(** From before the child exists: all of what it does, or the failed call. *)
Definition whole_run (l : link) (t : thread) : link :=
  let pl := th_plan t in
  if negb (p_pipe pl) then failed_start l t "pipe() failed"
  else if negb (p_fork pl) then failed_start l t "fork() failed"
  else mkLink (String.append (linkOutput l) (joined (p_chunks pl))) true (wexit (p_status pl)) (p_pid pl) (at_pc t Returned)
         (S (length (p_chunks pl)) + posted l) (kills l).

Lemma whole_run_facts l t : kills (whole_run l t) = kills l /\
  (p_pipe (th_plan t) = true -> p_fork (th_plan t) = true ->
   linkOutput (whole_run l t) = String.append (linkOutput l) (joined (p_chunks (th_plan t))) /\
   linkExitCode (whole_run l t) = wexit (p_status (th_plan t))).
Proof. unfold whole_run. by destruct (p_pipe (th_plan t)), (p_fork (th_plan t)). Qed.

Lemma run_forked n l t : linkThread l = Some t -> th_pc t = Forked -> (thread_left t <= n)%nat ->
  run_thread n l = mkLink (String.append (linkOutput l) (joined (p_chunks (th_plan t)))) true (wexit (p_status (th_plan t)))
    (p_pid (th_plan t)) (at_pc t Returned) (S (length (p_chunks (th_plan t))) + posted l) (kills l).
Proof.
  intros Ht Hpc Hn. destruct t as [pc pl a k]. cbn in *. subst. unfold thread_left in Hn. cbn in Hn.
  destruct n as [|n]; [lia|]. cbn [run_thread]. unfold thread_step. rewrite Ht. cbn [th_pc].
  by rewrite (read_to_end (p_chunks pl) (p_status pl) _ (mkThread (Reading (p_chunks pl) (p_status pl)) pl a k)) by (done || lia).
Qed.

Lemma run_at_fork n l t : linkThread l = Some t -> th_pc t = AtFork -> p_pipe (th_plan t) = true -> (thread_left t <= n)%nat ->
  run_thread n l = whole_run l t.
Proof.
  intros Ht Hpc Hp Hn. destruct t as [pc pl a k]. cbn in *. subst. unfold thread_left in Hn. cbn in Hn. unfold whole_run. cbn. rewrite Hp.
  destruct n as [|n]; [lia|]. cbn [run_thread]. unfold thread_step. rewrite Ht. cbn [th_pc th_plan].
  destruct (p_fork pl); cbn [negb]; [|by destruct n].
  by rewrite (run_forked n _ (mkThread Forked pl a k)) by (done || (unfold thread_left; cbn; lia)).
Qed.

Lemma run_at_pipe n l t : linkThread l = Some t -> th_pc t = AtPipe -> (thread_left t <= n)%nat -> run_thread n l = whole_run l t.
Proof.
  intros Ht Hpc Hn. destruct t as [pc pl a k]. cbn in *. subst. unfold thread_left in Hn. cbn in Hn.
  destruct n as [|n]; [lia|]. cbn [run_thread]. unfold thread_step. rewrite Ht. cbn [th_pc th_plan]. destruct (p_pipe pl) eqn:Hp.
  - rewrite (run_at_fork n _ (mkThread AtFork pl a k)) by (done || (unfold thread_left; cbn; lia)). by unfold whole_run; cbn; rewrite Hp.
  - unfold whole_run. cbn. rewrite Hp. by destruct n.
Qed.

(** What holds of a link that was not cancelled: the pid is set from the
    moment the thread has published it, also after the child was waited for. *)
Definition link_inv (pl : plan) (ks : list (Z * bool)) (l : link) : Prop := exists t, linkThread l = Some t /\ th_plan t = pl /\ kills l = ks /\
  match th_pc t with
  | AtPipe => linkPid l = -1 /\ linkOutput l = EmptyString
  | AtFork => linkPid l = -1 /\ linkOutput l = EmptyString /\ p_pipe pl = true
  | Forked => linkPid l = -1 /\ linkOutput l = EmptyString /\ p_pipe pl = true /\ p_fork pl = true
  | Reading cs st => linkPid l = p_pid pl /\ st = p_status pl /\ String.append (linkOutput l) (joined cs) = joined (p_chunks pl) /\
      p_pipe pl = true /\ p_fork pl = true
  | Reaped => linkPid l = p_pid pl /\ linkOutput l = joined (p_chunks pl) /\ linkExitCode l = wexit (p_status pl) /\
      p_pipe pl = true /\ p_fork pl = true
  | SetDone => linkDone l = true /\ linkPid l = p_pid pl /\ linkOutput l = joined (p_chunks pl) /\ linkExitCode l = wexit (p_status pl) /\
      p_pipe pl = true /\ p_fork pl = true
  | Returned => linkDone l = true /\
      if p_pipe pl && p_fork pl
      then linkPid l = p_pid pl /\ linkOutput l = joined (p_chunks pl) /\ linkExitCode l = wexit (p_status pl)
      else linkPid l = -1
  end.

Lemma link_inv_step pl ks l l' : link_inv pl ks l -> thread_step l = Some l' -> link_inv pl ks l'.
Proof.
  intros (t & Ht & Hp & Hk & H) Hs. unfold thread_step in Hs. rewrite Ht in Hs. destruct t as [pc pl' a k]. cbn in *. subst pl'.
  destruct pc as [| | |[|c cs] st| | |]; try done; injection Hs as <-;
    try (destruct (p_pipe pl) eqn:Ep); try (destruct (p_fork pl) eqn:Ef);
    (eexists; split; [reflexivity|]); (split; [done|]); (split; [done|]); cbn; rewrite ?Ep, ?Ef; cbn; try naive_solver.
  - destruct H as (_ & -> & _). by rewrite str_app_nil_l.
  - destruct H as (? & -> & Ho & _). rewrite str_app_nil_r in Ho. by repeat split.
  - destruct H as (? & ? & Ho & _). by rewrite str_app_assoc.
Qed.

Lemma link_inv_run pl ks n l : link_inv pl ks l -> link_inv pl ks (run_thread n l).
Proof.
  revert l. induction n as [|n IH]; intros l H; [done|]. cbn [run_thread]. destruct (thread_step l) as [l'|] eqn:E; [|done].
  apply IH. by eapply link_inv_step.
Qed.

Lemma link_inv_start pl cfg nm l : linkThread l = None -> link_inv pl (kills l) (startLinkThread pl cfg nm l).
Proof.
  intros H. eexists. split; [apply start_some|]. unfold startLinkThread, join. cbn. rewrite H. cbn. by repeat split.
Qed.

(** A thread whose child has ended only finishes. *)
Lemma run_ended n l t : linkThread l = Some t -> th_pc t ∈ [Reaped; SetDone; Returned] ->
  linkOutput (run_thread n l) = linkOutput l /\ linkExitCode (run_thread n l) = linkExitCode l /\ kills (run_thread n l) = kills l.
Proof.
  revert l t. induction n as [|n IH]; intros l t Ht Hin; [done|]. cbn [run_thread].
  destruct (thread_step l) as [l'|] eqn:E; [|done]. unfold thread_step in E. rewrite Ht in E. destruct t as [pc pl a k]. cbn in *.
  rewrite !elem_of_cons, elem_of_nil in Hin. destruct Hin as [->|[->|[->|[]]]]; [..|done]; injection E as <-;
    (edestruct IH as (-> & -> & ->); [reflexivity|repeat constructor|done]).
Qed.

(** Cancelling a link at any moment [n] steps after its start ends the
    thread; what that does to the child depends on where it was. Once its pid
    is published it gets SIGTERM and the wait is for the rest of its output.
    Before that nothing is signalled: the interface waits while the child runs
    to its own end, and the account is linked in spite of the cancellation.
    After the child was waited for, the signal goes to a pid that is no longer
    its own. Without a cancellation the output and the exit code are the
    child's. *)
Lemma cancel_link_cases pl cfg nm l0 n (Hidle : linkThread l0 = None) (Hpid : 0 < p_pid pl) :
  let l := run_thread n (startLinkThread pl cfg nm l0) in let l' := cancelLinkThread l in
  linkThread l' = None /\ exists t, linkThread l = Some t /\
  match th_pc t with
  | AtPipe | AtFork | Forked => kills l' = kills l0 /\
      (p_pipe pl = true -> p_fork pl = true -> linkOutput l' = joined (p_chunks pl) /\ linkExitCode l' = wexit (p_status pl))
  | Reading _ _ => kills l' = kills l0 ++ [(p_pid pl, true)] /\
      linkOutput l' = String.append (linkOutput l) (joined (p_killed_chunks pl)) /\ linkExitCode l' = wexit (p_killed_status pl)
  | Reaped | SetDone => kills l' = kills l0 ++ [(p_pid pl, false)] /\
      linkOutput l' = joined (p_chunks pl) /\ linkExitCode l' = wexit (p_status pl)
  | Returned => linkDone l = true /\ linkOutput l' = linkOutput l /\
      (p_pipe pl = true -> p_fork pl = true ->
       linkOutput l = joined (p_chunks pl) /\ linkExitCode l = wexit (p_status pl) /\ kills l' = kills l0 ++ [(p_pid pl, false)])
  end.
Proof.
  intros l l'. split; [apply cancel_none|].
  destruct (link_inv_run pl (kills l0) n _ (link_inv_start pl cfg nm l0 Hidle)) as (t & Ht & Hp & Hk & H). fold l in Ht, Hk, H.
  exists t. split; [done|]. unfold l', cancelLinkThread. clearbody l. clear l'.
  assert (forall l1, linkThread l1 = Some t -> join l1 =
    mkLink (linkOutput (run_thread (thread_left t) l1)) (linkDone (run_thread (thread_left t) l1)) (linkExitCode (run_thread (thread_left t) l1))
      (linkPid (run_thread (thread_left t) l1)) None (posted (run_thread (thread_left t) l1)) (kills (run_thread (thread_left t) l1))) as Hjoin
    by (intros l1 H1; unfold join; by rewrite H1).
  assert (th_pc t ∈ [Reaped; SetDone; Returned] -> 0 < linkPid l ->
    let l' := cancelLinkThread l in
    linkOutput l' = linkOutput l /\ linkExitCode l' = linkExitCode l /\ kills l' = kills l ++ [(linkPid l, false)]) as Hended.
  { intros Hin Hpos. unfold cancelLinkThread. rewrite bool_decide_eq_true_2 by done. unfold sigterm. rewrite Ht.
    replace (match th_pc t with Reading _ _ => _ | _ => false end) with false
      by (rewrite !elem_of_cons, elem_of_nil in Hin; destruct Hin as [->|[->|[->|[]]]]; done).
    rewrite Hjoin by done. cbn.
    exact (run_ended _ (mkLink (linkOutput l) (linkDone l) (linkExitCode l) (linkPid l) (Some t) (posted l) (kills l ++ [(linkPid l, false)])) t eq_refl Hin). }
  destruct (th_pc t) as [| | |cs st| | |] eqn:Hpc.
  1-3: assert (linkPid l = -1 /\ linkOutput l = EmptyString) as [-> Ho] by naive_solver;
    rewrite bool_decide_eq_false_2 by lia; rewrite Hjoin by done; cbn [kills linkOutput linkExitCode].
  - rewrite (run_at_pipe _ _ t) by done. destruct (whole_run_facts l t) as [-> Hw]. by rewrite Hp, Ho in Hw.
  - rewrite (run_at_fork _ _ t) by (rewrite ?Hp; naive_solver). destruct (whole_run_facts l t) as [-> Hw]. by rewrite Hp, Ho in Hw.
  - rewrite (run_forked _ _ t) by done. cbn. rewrite Hp, Ho, str_app_nil_l. by split.
  - destruct H as (Hpid' & _). rewrite bool_decide_eq_true_2 by lia. unfold sigterm. rewrite Ht, Hpc, Hp, Hpid', bool_decide_eq_true_2 by done.
    unfold join. cbn [linkThread].
    rewrite (read_to_end (p_killed_chunks pl) (p_killed_status pl) _ (mkThread (Reading (p_killed_chunks pl) (p_killed_status pl)) pl (th_args t) true));
      [cbn; by rewrite Hk|done|done|unfold thread_left; cbn; lia].
  - destruct H as (Hpid' & Ho & He & _). destruct Hended as (H1 & H2 & H3); [repeat constructor|lia|].
    unfold cancelLinkThread in *. by rewrite H1, H2, H3, Hk, Hpid'.
  - destruct H as (_ & Hpid' & Ho & He & _). destruct Hended as (H1 & H2 & H3); [repeat constructor|lia|].
    unfold cancelLinkThread in *. by rewrite H1, H2, H3, Hk, Hpid'.
  - destruct H as (Hdone & Hif). split; [done|]. destruct (decide (0 < linkPid l)) as [Hpos|Hneg].
    + destruct Hended as (H1 & H2 & H3); [repeat constructor|done|]. unfold cancelLinkThread in *. rewrite H1, H3, Hk.
      split; [done|]. intros E1 E2. rewrite E1, E2 in Hif. destruct Hif as (-> & Ho & He). by repeat split.
    + rewrite bool_decide_eq_false_2 by done. rewrite Hjoin by done. cbn.
      destruct (run_ended (thread_left t) l t Ht) as (-> & _ & _); [rewrite Hpc; repeat constructor|]. split; [done|].
      intros E1 E2. rewrite E1, E2 in Hif. destruct Hif as (Hpid' & _). lia.
Qed.

(** *** Witness: cancelled before the pid is published, the link completes *)

Definition two_reads : plan := mkPlan true true 77 ["a"; "b"]%string (Exited 0) [] (Signaled 15).

Lemma cancel_link_cases_witness :
  let l := run_thread 2 (startLinkThread two_reads "/c" "n" no_link) in let l' := cancelLinkThread l in
  (linkOutput l' = "ab"%string /\ linkExitCode l' = 0 /\ kills l' = []) /\
  linkThread l' = None /\ exists t, linkThread l = Some t /\
  match th_pc t with
  | AtPipe | AtFork | Forked => kills l' = kills no_link /\
      (p_pipe two_reads = true -> p_fork two_reads = true ->
       linkOutput l' = joined (p_chunks two_reads) /\ linkExitCode l' = wexit (p_status two_reads))
  | Reading _ _ => kills l' = kills no_link ++ [(p_pid two_reads, true)] /\
      linkOutput l' = String.append (linkOutput l) (joined (p_killed_chunks two_reads)) /\ linkExitCode l' = wexit (p_killed_status two_reads)
  | Reaped | SetDone => kills l' = kills no_link ++ [(p_pid two_reads, false)] /\
      linkOutput l' = joined (p_chunks two_reads) /\ linkExitCode l' = wexit (p_status two_reads)
  | Returned => linkDone l = true /\ linkOutput l' = linkOutput l /\
      (p_pipe two_reads = true -> p_fork two_reads = true ->
       linkOutput l = joined (p_chunks two_reads) /\ linkExitCode l = wexit (p_status two_reads) /\
       kills l' = kills no_link ++ [(p_pid two_reads, false)])
  end.
Proof. split; [by vm_compute|]. exact (cancel_link_cases two_reads "/c" "n" no_link 2 eq_refl eq_refl). Defined.
