(* ===== verification/Tui.v ===== *)
(** The terminal interface (src/tui/main.cpp): what it shows of the accounts,
    its configuration editors, its confirmation dialogs and its wizard, as a
    state machine over the keys that arrive.

    Every change goes through the signal2sip-gendb program, run as a child;
    the child program, and which of the operating system's and the database's
    answers are failures, are parameters.  The child that links a device runs
    beside the interface: TuiLink.v. *)

From S2P Require Import Prelude Storage Config GendbConfig I18n TuiLink.

Open Scope Z_scope.

(** ** Accounts as shown *)

Record ViewAccount := mkView {
  v_name : string; v_e164 : string; v_flow : string; v_enabled : bool;
  v_sip_host : string; v_sip_transport : string; v_sip_srtp : string }.

(** A row of which only the summary could be read. *)
Definition summary_view (s : AccountSummary) : ViewAccount :=
  mkView (sum_account_name s) (sum_e164 s) "" (sum_enabled s) "" "" "".
Definition record_view (s : AccountSummary) (a : AccountRecord) : ViewAccount :=
  mkView (sum_account_name s) (sum_e164 s) (default EmptyString (flow a)) (sum_enabled s)
    (sip_host a) (sip_transport a) (sip_srtp a).

(** ** Fields of the editors *)

Inductive Kind := Text | Masked | Enum | Bool.
#[export] Instance kind_eq_dec : EqDecision Kind.
Proof. solve_decision. Defined.

Record ConfigFieldDef := mkFieldDef { key : string; label : string; kind : Kind; options : list string }.

Definition kConfigFields : list ConfigFieldDef := [
  mkFieldDef "sip_host" "sip_host" Text [];
  mkFieldDef "sip_extension" "sip_extension" Text [];
  mkFieldDef "sip_password" "sip_password" Masked [];
  mkFieldDef "sip_bridge_destination" "sip_bridge_destination" Text [];
  mkFieldDef "sip_bridge_did" "sip_bridge_did" Text [];
  mkFieldDef "sip_srtp" "sip_srtp" Enum ["disabled"; "optional"; "mandatory"];
  mkFieldDef "sip_transport" "sip_transport" Enum ["udp"; "tls"];
  mkFieldDef "sip_tls_ca_file" "sip_tls_ca_file" Text [];
  mkFieldDef "sip_tls_insecure" "sip_tls_insecure" Bool [];
  mkFieldDef "outgoing_call_target" "outgoing_call_target" Text []].

Definition kSignalConfigFields : list ConfigFieldDef := [
  mkFieldDef "server_url" "server_url" Text [];
  mkFieldDef "signal_proxy" "signal_proxy" Text [];
  mkFieldDef "signal_censorship_circumvention" "signal_censorship_circumvention" Bool []].

(** std::map<std::string, std::string>; [at_key] is [at], which throws
    std::out_of_range; [get_or_new] is what reading through operator[] gives
    (the entry it makes is empty). *)
Abbreviation values := (gmap string string).
Definition at_key (v : values) (k : string) : outcome string :=
  match v !! k with Some s => Ok s | None => Throw (StdError "map::at") end.
Definition get_or_new (v : values) (k : string) : string := default EmptyString (v !! k).

Definition sipFieldsInUse (v : values) : outcome bool :=
  host ← at_key v "sip_host";
  if str_nonempty host then mret true else
  extension ← at_key v "sip_extension";
  if str_nonempty extension then mret true else
  password ← at_key v "sip_password";
  mret (str_nonempty password).

(** [if (v.at(k).empty()) errs.push_back(tr(e))] *)
Definition required (v : values) (k : string) (e : Key) : outcome (list Key) :=
  s ← at_key v k; mret (if str_empty s then [e] else []).

(** The texts are in the order of the checks; [tr] is applied where they are
    shown. *)
Definition configErrors (v : values) : outcome (list Key) :=
  used ← sipFieldsInUse v;
  errs ← (if used : bool then
            e1 ← required v "sip_host" ErrSipHostRequired;
            e2 ← required v "sip_extension" ErrSipExtensionRequired;
            e3 ← required v "sip_password" ErrSipPasswordRequired;
            mret (e1 ++ e2 ++ e3)
          else mret []);
  transport ← at_key v "sip_transport";
  if negb (str_eqb transport "tls") then mret errs else
  ca ← at_key v "sip_tls_ca_file";
  if str_nonempty ca then mret errs else
  insecure ← at_key v "sip_tls_insecure";
  mret (if str_eqb insecure "yes" then errs else errs ++ [ErrTlsRequiresCa]).

Definition configWarnings (v : values) : outcome (list Key) :=
  destination ← at_key v "sip_bridge_destination";
  if str_empty destination then mret [] else
  did ← at_key v "sip_bridge_did";
  mret (if str_nonempty did then [WarnBridgeBothSet] else []).

(** ** Running signal2sip-gendb *)

Record GendbResult := mkResult { exitCode : Z; output : string }.

(** What pipe() and fork() answer, and whether execvp() starts the program. *)
Inductive spawn := PipeFails | ForkFails | ExecFails | Starts.

Definition exit_code (st : wait_status) : Z := match st with Exited c => c | Signaled _ => -1 end.

(** ** The state *)

Inductive WizardStep :=
| ChooseType | RegisterForm | RegisterResult | CaptchaForm | CaptchaResult | VerifyForm | VerifyResult | LinkWaiting | LinkResult.
#[export] Instance wizard_step_eq_dec : EqDecision WizardStep.
Proof. solve_decision. Defined.

Inductive PendingAction := NoAction | Enable | Disable | Deactivate | DeleteAccount.
#[export] Instance pending_eq_dec : EqDecision PendingAction.
Proof. solve_decision. Defined.

Record listing := mkListing { accounts : list ViewAccount; loadError : string; selected : Z; quit : bool }.
Record detailing := mkDetailing { detail : AccountRecord; detailName : string; detailError : string }.
Record editor := mkEditor {
  editValues : values; originalValues : values; editField : Z;
  saveDone : bool; saveOutput : string; saveOk : bool }.
Record confirming := mkConfirming { pending : PendingAction; typedConfirm : string; lastResult : option GendbResult }.
Record wizard := mkWizard {
  wizardStep : WizardStep; wizField : Z; wizName : string; wizLink : bool; wizE164 : string; wizTransport : string;
  wizCaptchaToken : string; wizVerifyCode : string; wizResult : option GendbResult; wizError : option Key }.

(** The machine beside the interface: the database, how often it was opened,
    and the arguments of every child that was to run. *)
Record machine := mkMachine { m_db : db; m_opened : nat; m_runs : list (list string) }.

Record tui := mkTui {
  t_list : listing; t_screen : Z; t_detail : detailing; t_sip : editor; t_signal : editor;
  t_confirm : confirming; t_wizard : wizard; t_link : link; t_machine : machine }.

(** *** Components of the state *)

#[export] Instance has_t_list : Has listing tui := {|
  prj := t_list;
  put x t := mkTui x (t_screen t) (t_detail t) (t_sip t) (t_signal t) (t_confirm t) (t_wizard t) (t_link t) (t_machine t) |}.
#[export] Instance has_t_detail : Has detailing tui := {|
  prj := t_detail;
  put x t := mkTui (t_list t) (t_screen t) x (t_sip t) (t_signal t) (t_confirm t) (t_wizard t) (t_link t) (t_machine t) |}.
#[export] Instance has_t_confirm : Has confirming tui := {|
  prj := t_confirm;
  put x t := mkTui (t_list t) (t_screen t) (t_detail t) (t_sip t) (t_signal t) x (t_wizard t) (t_link t) (t_machine t) |}.
#[export] Instance has_t_wizard : Has wizard tui := {|
  prj := t_wizard;
  put x t := mkTui (t_list t) (t_screen t) (t_detail t) (t_sip t) (t_signal t) (t_confirm t) x (t_link t) (t_machine t) |}.
#[export] Instance has_t_link : Has link tui := {|
  prj := t_link;
  put x t := mkTui (t_list t) (t_screen t) (t_detail t) (t_sip t) (t_signal t) (t_confirm t) (t_wizard t) x (t_machine t) |}.
#[export] Instance has_t_machine : Has machine tui := {|
  prj := t_machine;
  put x t := mkTui (t_list t) (t_screen t) (t_detail t) (t_sip t) (t_signal t) (t_confirm t) (t_wizard t) (t_link t) x |}.

Definition goto (n : Z) : Comp tui unit := modify (fun t =>
  mkTui (t_list t) n (t_detail t) (t_sip t) (t_signal t) (t_confirm t) (t_wizard t) (t_link t) (t_machine t)).

(** The two editors have variables of their own. *)
Inductive page := SipPage | SignalPage.
Definition editor_of (p : page) (t : tui) : editor := match p with SipPage => t_sip t | SignalPage => t_signal t end.
Definition fields_of (p : page) : list ConfigFieldDef := match p with SipPage => kConfigFields | SignalPage => kSignalConfigFields end.
Definition screen_of (p : page) : Z := match p with SipPage => 3 | SignalPage => 5 end.
Definition set_editor (p : page) (e : editor) : Comp tui unit := modify (fun t =>
  match p with
  | SipPage => mkTui (t_list t) (t_screen t) (t_detail t) e (t_signal t) (t_confirm t) (t_wizard t) (t_link t) (t_machine t)
  | SignalPage => mkTui (t_list t) (t_screen t) (t_detail t) (t_sip t) e (t_confirm t) (t_wizard t) (t_link t) (t_machine t)
  end).

Definition ask {S A} `{!Has S tui} (f : S -> A) : Comp tui A := gets (fun t => f (prj t)).
Definition upd {S} `{!Has S tui} (f : S -> S) : Comp tui unit := modify (fun t => put (f (prj t)) t).

(** ** Operations *)

(** Where the companion program is; [exe] is what readlink("/proc/self/exe")
    gave. *)
Definition findGendbPath (exe : option string) (executable : string -> bool) : string :=
  match exe ≫= split_last "/"%char with
  | Some (dir, _) =>
    let candidate := String.append dir "/signal2sip-gendb" in
    if executable candidate then candidate else "signal2sip-gendb"
  | None => "signal2sip-gendb"
  end.

Section Operations.
(** The database's answers per opening, the operating system's per child, and
    what the gendb program does with its arguments and the database. *)
Context (lang : Lang) (configPath : string).
Context (opens : nat -> bool) (db_fault : nat -> nat -> bool).
Context (spawns : nat -> spawn) (program : nat -> list string -> db -> string * wait_status * db) (plans : nat -> plan).

Definition opening {A} (q : nat -> conn -> outcome A) : Comp machine A :=
  n ← gets m_opened;
  modify (fun m => mkMachine (m_db m) (S (m_opened m)) (m_runs m)) ;;
  d ← gets m_db;
  of_outcome (if opens n then q n (connection d) else Throw (StdError "failed to open database")).

Definition list_rows : Comp machine (list AccountSummary) := opening (fun n c => (listAllAccounts (db_fault n) c).1).
Definition load_row (nm : string) : Comp machine AccountRecord := opening (fun n c => (loadAccount (db_fault n) nm c).1).

Definition view_of (s : AccountSummary) : Comp machine ViewAccount :=
  catch_std (a ← load_row (sum_account_name s); mret (record_view s a)) (fun _ => mret (summary_view s)).

(** The accounts, and the text for [errorOut] when the list could not be read. *)
Definition loadAccounts : Comp machine (list ViewAccount * option string) :=
  catch_std (l ← list_rows; vs ← map_each view_of l; mret (vs, None)) (fun what => mret ([], Some what)).

Definition reload : Comp tui unit :=
  r ← lift loadAccounts;
  upd (fun s : listing =>
    let n := Z.of_nat (length r.1) in
    mkListing r.1 (default (loadError s) r.2)
      (if bool_decide (n <= selected s) then (if bool_decide (n = 0) then 0 else n - 1) else selected s) (quit s)).

(** [accounts[selected]] outside the vector is undefined. *)
Definition selected_account : Comp tui ViewAccount :=
  s ← ask (fun s : listing => s);
  if bool_decide (selected s < 0) then throw ForeignError else
  match accounts s !! Z.to_nat (selected s) with Some a => mret a | None => throw ForeignError end.

(** Reading the row again: [detail] stays as it was when that fails. *)
Definition refresh_detail : Comp tui unit :=
  nm ← ask detailName;
  catch_std (a ← lift (load_row nm); upd (fun x : detailing => mkDetailing a (detailName x) (detailError x)))
            (fun what => upd (fun x : detailing => mkDetailing (detail x) (detailName x) what)).

Definition openDetail : Comp tui unit :=
  l ← ask accounts;
  if bool_decide (l = []) then mret tt else
  a ← selected_account;
  upd (fun x : detailing => mkDetailing (detail x) (v_name a) EmptyString) ;;
  refresh_detail ;;
  goto 1.

(** The form of an account, as [openConfig] fills it in. *)
Definition form_of (d : AccountRecord) : values := list_to_map [
  ("sip_host", sip_host d); ("sip_extension", sip_extension d); ("sip_password", sip_password d);
  ("sip_bridge_destination", sip_bridge_destination d); ("sip_bridge_did", sip_bridge_did d);
  ("sip_srtp", if str_empty (sip_srtp d) then "disabled" else sip_srtp d);
  ("sip_transport", if str_empty (sip_transport d) then "udp" else sip_transport d);
  ("sip_tls_ca_file", sip_tls_ca_file d); ("sip_tls_insecure", yes_no (sip_tls_insecure d));
  ("outgoing_call_target", outgoing_call_target d)]%string.

Definition openConfig : Comp tui unit :=
  d ← ask detail;
  e ← gets (editor_of SipPage);
  set_editor SipPage (mkEditor (form_of d) (form_of d) 0 false EmptyString (saveOk e)) ;;
  goto 3.

Definition openSignalConfig : Comp tui unit :=
  d ← ask detail;
  e ← gets (editor_of SignalPage);
  let v := <["signal_censorship_circumvention" := yes_no (signal_censorship_circumvention d)]>
    (<["signal_proxy" := signal_proxy d]> (<["server_url" := server_url d]> (editValues e)))%string in
  set_editor SignalPage (mkEditor v v 0 false EmptyString (saveOk e)) ;;
  goto 5.

Definition log_run (args : list string) : Comp machine nat :=
  n ← gets (fun m => length (m_runs m));
  modify (fun m => mkMachine (m_db m) (m_opened m) (m_runs m ++ [args])) ;;
  mret n.

Definition runGendb (args : list string) : Comp machine GendbResult :=
  n ← log_run args;
  match spawns n with
  | PipeFails => mret (mkResult (-1) "pipe() failed")
  | ForkFails => mret (mkResult (-1) "fork() failed")
  | ExecFails => mret (mkResult 127 EmptyString)
  | Starts =>
    m ← get;
    let '(text, status, d) := program n args (m_db m) in
    modify (fun m => mkMachine d (m_opened m) (m_runs m)) ;;
    mret (mkResult (exit_code status) text)
  end.

(** The loop over the fields: one [config set] for each that changed. *)
Fixpoint save_fields (nm : string) (v original : values) (fs : list ConfigFieldDef) (combined : string) (allOk : bool) :
    Comp machine (string * bool) :=
  match fs with
  | [] => mret (combined, allOk)
  | f :: fs =>
    let value := get_or_new v (key f) in
    if str_eqb value (get_or_new original (key f)) then save_fields nm v original fs combined allOk else
    res ← runGendb ["--config"; configPath; nm; "config"; "set"; key f; value]%string;
    save_fields nm v original fs (String.append combined (output res)) (allOk && bool_decide (exitCode res = 0))
  end.

Definition save_page (p : page) : Comp tui unit :=
  e ← gets (editor_of p);
  nm ← ask detailName;
  r ← lift (save_fields nm (editValues e) (originalValues e) (fields_of p) EmptyString true);
  let combined := if str_empty r.1 then tr lang NoChanges else r.1 in
  set_editor p (mkEditor (editValues e) (originalValues e) (editField e) true combined r.2).

Definition saveConfig : Comp tui unit :=
  e ← gets (editor_of SipPage);
  errs ← of_outcome (configErrors (editValues e));
  if bool_decide (errs = []) then save_page SipPage else mret tt.

Definition saveSignalConfig : Comp tui unit := save_page SignalPage.

Definition openWizard : Comp tui unit :=
  upd (fun _ : wizard => mkWizard ChooseType 0 EmptyString false EmptyString "sms" EmptyString EmptyString None None) ;;
  goto 4.

Definition openConfirm (action : PendingAction) : Comp tui unit :=
  upd (fun _ : confirming => mkConfirming action EmptyString None) ;;
  goto 2.

Definition verb_of (action : PendingAction) : option string :=
  match action with
  | Enable => Some "enable" | Disable => Some "disable" | Deactivate => Some "deactivate"
  | DeleteAccount => Some "delete-account" | NoAction => None
  end%string.

Definition runPendingAction : Comp tui unit :=
  c ← ask (fun c : confirming => c);
  nm ← ask detailName;
  match verb_of (pending c) with
  | None => mret tt
  | Some verb =>
    res ← lift (runGendb ["--config"; configPath; nm; verb]%string);
    upd (fun c : confirming => mkConfirming (pending c) (typedConfirm c) (Some res))
  end.
End Operations.

(** ** Keys *)

(** FTXUI's events, as the source tells them apart: [Character s] is a typed
    character in UTF-8, [CtrlO] is Event::Special of byte 15, [Other] are the
    events with no case of their own (mouse, other control keys). *)
Inductive Event :=
| ArrowDown | ArrowUp | Tab | TabReverse | Return | Escape | Backspace | CtrlO | Custom
| Character (s : string) | Other.
#[export] Instance event_eq_dec : EqDecision Event.
Proof. solve_decision. Defined.

Definition moves (e : Event) : bool := bool_decide (e ∈ [ArrowDown; Tab; ArrowUp; TabReverse]).
Definition is_key (e : Event) (c : string) : bool := bool_decide (e = Character c).

(** [s.pop_back()] when [s] is not empty: the last byte goes. *)
Definition pop_back (s : string) : string := String.substring 0 (String.length s - 1) s.

(** A line of text under the keys: the new text, when the key is one for it. *)
Definition type_key (e : Event) (s : string) : option string :=
  match e with Backspace => Some (pop_back s) | Character c => Some (String.append s c) | _ => None end.

(** std::find in the options, then the next one, cyclically. *)
Definition next_option (options : list string) (value : string) : string :=
  let idx := match list_find (eq value) options with None => 0%nat | Some (i, _) => (S i mod length options)%nat end in
  default EmptyString (options !! idx).

(** A key on the active field of an editor. *)
Definition edit_value (f : ConfigFieldDef) (e : Event) (value : string) : option string :=
  match kind f with
  | Enum => if bool_decide (e = Return) then Some (next_option (options f) value) else None
  | Bool => if bool_decide (e = Return) then Some (if str_eqb value "yes" then "no"%string else "yes"%string) else None
  | _ => type_key e value
  end.

Section Handlers.
Context (lang : Lang) (configPath : string).
Context (opens : nat -> bool) (db_fault : nat -> nat -> bool).
Context (spawns : nat -> spawn) (program : nat -> list string -> db -> string * wait_status * db) (plans : nat -> plan).

Local Abbreviation reload := (reload opens db_fault).
Local Abbreviation refresh_detail := (refresh_detail opens db_fault).
Local Abbreviation openDetail := (openDetail opens db_fault).
Local Abbreviation run_gendb args := (lift (runGendb spawns program args)).
Local Abbreviation runPendingAction := (runPendingAction configPath spawns program).
Local Abbreviation save p := (match p with
  | SipPage => saveConfig lang configPath spawns program
  | SignalPage => saveSignalConfig lang configPath spawns program end).

Definition to_list : Comp tui bool := goto 0 ;; reload ;; mret true.

(** *** Screen 5: the wizard *)

Definition wizard_step (s : WizardStep) : Comp tui unit := upd (fun w =>
  mkWizard s (wizField w) (wizName w) (wizLink w) (wizE164 w) (wizTransport w) (wizCaptchaToken w) (wizVerifyCode w) (wizResult w) (wizError w)).
Definition wizard_error (e : option Key) : Comp tui unit := upd (fun w =>
  mkWizard (wizardStep w) (wizField w) (wizName w) (wizLink w) (wizE164 w) (wizTransport w) (wizCaptchaToken w) (wizVerifyCode w) (wizResult w) e).
Definition wizard_field (n : Z) : Comp tui unit := upd (fun w =>
  mkWizard (wizardStep w) n (wizName w) (wizLink w) (wizE164 w) (wizTransport w) (wizCaptchaToken w) (wizVerifyCode w) (wizResult w) (wizError w)).
Definition wizard_result (r : GendbResult) : Comp tui unit := upd (fun w =>
  mkWizard (wizardStep w) (wizField w) (wizName w) (wizLink w) (wizE164 w) (wizTransport w) (wizCaptchaToken w) (wizVerifyCode w) (Some r) (wizError w)).

Definition start_link (nm : string) : Comp tui unit :=
  n ← lift (log_run (link_args configPath nm));
  upd (startLinkThread (plans n) configPath nm).

Definition onLinkWaiting (e : Event) : Comp tui bool :=
  match e with
  | Custom =>
    l ← ask (fun l : link => l);
    (if linkDone l then
       wizard_result (mkResult (linkExitCode l) (linkOutput l)) ;;
       upd join ;;
       wizard_step LinkResult
     else mret tt) ;;
    mret true
  | Escape => upd cancelLinkThread ;; goto 0 ;; reload ;; mret true
  | _ => mret false
  end.

Definition onChooseType (e : Event) : Comp tui bool :=
  w ← ask (fun w : wizard => w);
  if bool_decide (e = CtrlO) then
    if str_empty (wizName w) then wizard_error (Some ErrEnterAccountName) ;; mret true else
    l ← ask accounts;
    if existsb (fun a => str_eqb (v_name a) (wizName w)) l then wizard_error (Some ErrAccountExists) ;; mret true else
    wizard_error None ;;
    (if wizLink w then start_link (wizName w) ;; wizard_step LinkWaiting
     else wizard_field 0 ;; wizard_step RegisterForm) ;;
    mret true
  else if moves e then wizard_field (1 - wizField w) ;; mret true
  else if bool_decide (wizField w = 1) then
    if bool_decide (e = Return) then
      upd (fun w => mkWizard (wizardStep w) (wizField w) (wizName w) (negb (wizLink w)) (wizE164 w) (wizTransport w)
        (wizCaptchaToken w) (wizVerifyCode w) (wizResult w) (wizError w)) ;; mret true
    else mret false
  else
    match type_key e (wizName w) with
    | Some s => upd (fun w => mkWizard (wizardStep w) (wizField w) s (wizLink w) (wizE164 w) (wizTransport w)
        (wizCaptchaToken w) (wizVerifyCode w) (wizResult w) None) ;; mret true
    | None => mret false
    end.

Definition onRegisterForm (e : Event) : Comp tui bool :=
  w ← ask (fun w : wizard => w);
  if bool_decide (e = CtrlO) then
    if str_empty (wizE164 w) then wizard_error (Some ErrEnterE164) ;; mret true else
    wizard_error None ;;
    res ← run_gendb ["--config"; configPath; wizName w; "register"; "--e164"; wizE164 w; wizTransport w]%string;
    wizard_result res ;;
    wizard_step RegisterResult ;; mret true
  else if moves e then wizard_field (1 - wizField w) ;; mret true
  else if bool_decide (wizField w = 1) then
    if bool_decide (e = Return) then
      upd (fun w => mkWizard (wizardStep w) (wizField w) (wizName w) (wizLink w) (wizE164 w)
        (if str_eqb (wizTransport w) "sms" then "voice" else "sms") (wizCaptchaToken w) (wizVerifyCode w) (wizResult w)
        (wizError w)) ;; mret true
    else mret false
  else
    match type_key e (wizE164 w) with
    | Some s => upd (fun w => mkWizard (wizardStep w) (wizField w) (wizName w) (wizLink w) s (wizTransport w)
        (wizCaptchaToken w) (wizVerifyCode w) (wizResult w) None) ;; mret true
    | None => mret false
    end.

Definition onCaptchaForm (e : Event) : Comp tui bool :=
  w ← ask (fun w : wizard => w);
  if bool_decide (e = CtrlO) then
    res ← run_gendb ["--config"; configPath; wizName w; "register-captcha"; wizCaptchaToken w]%string;
    wizard_result res ;;
    wizard_step CaptchaResult ;; mret true
  else
    match type_key e (wizCaptchaToken w) with
    | Some s => upd (fun w => mkWizard (wizardStep w) (wizField w) (wizName w) (wizLink w) (wizE164 w) (wizTransport w)
        s (wizVerifyCode w) (wizResult w) (wizError w)) ;; mret true
    | None => mret false
    end.

Definition onVerifyForm (e : Event) : Comp tui bool :=
  w ← ask (fun w : wizard => w);
  if bool_decide (e = CtrlO) then
    res ← run_gendb ["--config"; configPath; wizName w; "verify"; wizVerifyCode w]%string;
    wizard_result res ;;
    wizard_step VerifyResult ;; mret true
  else
    match type_key e (wizVerifyCode w) with
    | Some s => upd (fun w => mkWizard (wizardStep w) (wizField w) (wizName w) (wizLink w) (wizE164 w) (wizTransport w)
        (wizCaptchaToken w) s (wizResult w) (wizError w)) ;; mret true
    | None => mret false
    end.

Definition onWizard (e : Event) : Comp tui bool :=
  s ← ask wizardStep;
  match s with
  | LinkWaiting => onLinkWaiting e
  | VerifyResult | LinkResult => to_list
  | _ =>
    if bool_decide (e = Escape) then to_list else
    match s with
    | ChooseType => onChooseType e
    | RegisterForm => onRegisterForm e
    | RegisterResult =>
      if is_key e "g" then wizard_step CaptchaForm ;; mret true
      else if is_key e "v" then wizard_step VerifyForm ;; mret true else mret false
    | CaptchaForm => onCaptchaForm e
    | CaptchaResult => if is_key e "v" then wizard_step VerifyForm ;; mret true else mret false
    | VerifyForm => onVerifyForm e
    | _ => mret false
    end
  end.

(** *** Screens 4 and 6: the editors *)

(** [kConfigFields[editField]]; outside the vector it is undefined. *)
Definition active_field (p : page) (n : Z) : Comp tui ConfigFieldDef :=
  if bool_decide (n < 0) then throw ForeignError else
  match fields_of p !! Z.to_nat n with Some f => mret f | None => throw ForeignError end.

Definition onEditor (p : page) (e : Event) : Comp tui bool :=
  ed ← gets (editor_of p);
  let count := Z.of_nat (length (fields_of p)) in
  let field n := set_editor p (mkEditor (editValues ed) (originalValues ed) n (saveDone ed) (saveOutput ed) (saveOk ed)) in
  if saveDone ed then
    set_editor p (mkEditor (editValues ed) (originalValues ed) (editField ed) false (saveOutput ed) (saveOk ed)) ;;
    goto 1 ;; refresh_detail ;; reload ;; mret true
  else if bool_decide (e = Escape) then goto 1 ;; mret true
  else if bool_decide (e = CtrlO) then save p ;; mret true
  else if bool_decide (e = ArrowDown \/ e = Tab) then field ((editField ed + 1) mod count) ;; mret true
  else if bool_decide (e = ArrowUp \/ e = TabReverse) then field ((editField ed - 1 + count) mod count) ;; mret true
  else
    f ← active_field p (editField ed);
    match edit_value f e (get_or_new (editValues ed) (key f)) with
    | Some s =>
      set_editor p (mkEditor (<[key f := s]> (editValues ed)) (originalValues ed) (editField ed) (saveDone ed) (saveOutput ed) (saveOk ed)) ;;
      mret true
    | None => mret false
    end.

(** *** Screen 3: the confirmation *)

Definition onConfirm (e : Event) : Comp tui bool :=
  c ← ask (fun c : confirming => c);
  nm ← ask detailName;
  match lastResult c with
  | Some _ => upd (fun c => mkConfirming NoAction (typedConfirm c) None) ;; to_list
  | None =>
    if bool_decide (e = Escape) then upd (fun c => mkConfirming NoAction (typedConfirm c) (lastResult c)) ;; goto 1 ;; mret true
    else if bool_decide (pending c = DeleteAccount) then
      if bool_decide (e = Return) then (if str_eqb (typedConfirm c) nm then runPendingAction else mret tt) ;; mret true else
      match type_key e (typedConfirm c) with
      | Some s => upd (fun c => mkConfirming (pending c) s (lastResult c)) ;; mret true
      | None => mret false
      end
    else if is_key e "y" then runPendingAction ;; mret true
    else mret false
  end.

(** *** Screens 1 and 2 *)

Definition select (f : Z -> Z -> Z) : Comp tui unit := upd (fun s : listing =>
  if bool_decide (accounts s = []) then s
  else mkListing (accounts s) (loadError s) (f (selected s) (Z.of_nat (length (accounts s)) - 1)) (quit s)).

Definition onList (e : Event) : Comp tui bool :=
  if bool_decide (e = ArrowDown) || is_key e "j" then select (fun s last => Z.min (s + 1) last) ;; mret true
  else if bool_decide (e = ArrowUp) || is_key e "k" then select (fun s _ => Z.max (s - 1) 0) ;; mret true
  else if bool_decide (e = Return) then openDetail ;; mret true
  else if is_key e "n" then openWizard ;; mret true
  else if is_key e "r" then reload ;; mret true
  else if is_key e "q" || bool_decide (e = Escape) then
    upd (fun s : listing => mkListing (accounts s) (loadError s) (selected s) true) ;; mret true
  else mret false.

Definition onDetail (e : Event) : Comp tui bool :=
  d ← ask detail;
  if bool_decide (e = Escape) then goto 0 ;; mret true
  else if is_key e "d" then openConfirm (if enabled d then Disable else Enable) ;; mret true
  else if is_key e "u" then openConfirm Deactivate ;; mret true
  else if is_key e "x" then openConfirm DeleteAccount ;; mret true
  else if is_key e "c" then openConfig ;; mret true
  else if is_key e "s" then openSignalConfig ;; mret true
  else mret false.

Definition onEvent (e : Event) : Comp tui bool :=
  n ← gets t_screen;
  if bool_decide (n = 4) then onWizard e
  else if bool_decide (n = 3) then onEditor SipPage e
  else if bool_decide (n = 5) then onEditor SignalPage e
  else if bool_decide (n = 2) then onConfirm e
  else if bool_decide (n = 0) then onList e
  else onDetail e.

(** ** What can happen next

    A key reaches the interface, the link thread takes a step, or somebody
    else (the daemon, a gendb in another terminal, the link child) changes
    the database. After [quit] no more keys are handled. *)
Inductive tui_step : tui -> tui -> Prop :=
| StepKey e t : quit (t_list t) = false -> is_ok (onEvent e t).1 = true -> tui_step t (onEvent e t).2
| StepThread t l : thread_step (t_link t) = Some l -> tui_step t (put l t)
| StepDatabase t d : tui_step t (put (mkMachine d (m_opened (t_machine t)) (m_runs (t_machine t))) t).

(** [main] up to the loop. *)
Definition blank_tui (d : db) : tui :=
  mkTui (mkListing [] EmptyString 0 false) 0 (mkDetailing column_defaults EmptyString EmptyString)
    (mkEditor ∅ ∅ 0 false EmptyString true) (mkEditor ∅ ∅ 0 false EmptyString true)
    (mkConfirming NoAction EmptyString None)
    (mkWizard ChooseType 0 EmptyString false EmptyString "sms" EmptyString EmptyString None None)
    no_link (mkMachine d 0 []).
Definition start (d : db) : tui := (reload (blank_tui d)).2.
End Handlers.

(** [main] before: whether the interface starts at all. *)
Definition usable (g : string * string) : bool := str_nonempty g.1 && str_nonempty g.2.
