(* ===== verification/TuiSafety.v ===== *)
(** The terminal interface never fails: in every state it can get into,
    nothing is read outside a vector or a map, no exception leaves a handler,
    and no thread is left behind; and what makes it run gendb. *)

From S2P Require Import Prelude Storage Config GendbConfig I18n TuiLink Tui.

Open Scope Z_scope.

(** ** What the operations do to the state *)

Section ops.
Context (lang : Lang) (configPath : string).
Context (opens : nat -> bool) (db_fault : nat -> nat -> bool).
Context (spawns : nat -> spawn) (program : nat -> list string -> db -> string * wait_status * db) (plans : nat -> plan).

Lemma opening_std {A} (q : nat -> conn -> outcome A) :
  (forall n c, std_outcome (q n c)) -> raises_only is_std (opening opens q).
Proof.
  intros Hq m. unfold opening, mbind, comp_bind, gets, modify, of_outcome. cbn. destruct (opens (m_opened m)); cbn; [|exact I].
  specialize (Hq (m_opened m) (connection (m_db m))). by destruct (q _ _) as [|[]].
Qed.

Lemma load_row_std nm : raises_only is_std (load_row opens db_fault nm).
Proof.
  apply opening_std. intros n c. unfold loadAccount. unfold mbind, comp_bind.
  destruct (select_cases (db_fault n) (fun d => account d !! nm) c) as [k [[w ->]|[->| ->]]]; try done.
  cbn. by destruct (account (cdb c) !! nm).
Qed.

Lemma list_rows_std : raises_only is_std (list_rows opens db_fault).
Proof.
  apply opening_std. intros n c. apply listAllAccounts_std.
Qed.

Lemma view_of_returns s : raises_only never (view_of opens db_fault s).
Proof.
  apply raises_catch_std; [|by intros]. apply raises_bind; [|by intros].
  eapply raises_mono; [|apply load_row_std]. by left.
Qed.

Lemma map_each_returns {A B} (f : A -> Comp machine B) l :
  (forall x, raises_only never (f x)) -> raises_only never (map_each f l).
Proof.
  intros Hf. induction l as [|x l IH]; [done|]. cbn. apply raises_bind; [apply Hf|]. intros y.
  apply raises_bind; [apply IH|done].
Qed.

Lemma loadAccounts_returns : raises_only never (loadAccounts opens db_fault).
Proof.
  apply raises_catch_std; [|by intros]. apply raises_bind; [eapply raises_mono; [|apply list_rows_std]; by left|].
  intros l. apply raises_bind; [|by intros].
  eapply raises_mono; [|apply map_each_returns, view_of_returns]. by right.
Qed.

(** Reading the database opens it and changes nothing else of the machine. *)
Definition only_read (m m' : machine) : Prop := m_db m' = m_db m /\ m_runs m' = m_runs m.
#[local] Instance only_read_preorder : PreOrder only_read.
Proof. split; [done|]. intros x y z [] []. split; congruence. Qed.

Lemma opening_reads {A} (q : nat -> conn -> outcome A) m0 : preserves (only_read m0) (opening opens q).
Proof. intros m [Hd Hr]. unfold opening. by destruct m. Qed.
Lemma view_of_reads s m0 : preserves (only_read m0) (view_of opens db_fault s).
Proof. apply preserves_catch_std; [|intros; apply preserves_ret]. apply preserves_bind; [apply opening_reads|intros; apply preserves_ret]. Qed.
Lemma loadAccounts_reads m0 : preserves (only_read m0) (loadAccounts opens db_fault).
Proof.
  apply preserves_catch_std; [|intros; apply preserves_ret]. apply preserves_bind; [apply opening_reads|]. intros l.
  apply preserves_bind; [|intros; apply preserves_ret]. apply preserves_map_each. intros x. apply view_of_reads.
Qed.

(** The cursor of the list is on an account, if there is one. *)
Definition listing_ok (s : listing) : Prop :=
  0 <= selected s /\ selected s < Z.max 1 (Z.of_nat (length (accounts s))).

Lemma reload_reads t : 0 <= selected (t_list t) ->
  exists s m, reload opens db_fault t = (Ok tt, put m (put s t)) /\ listing_ok s /\ quit s = quit (t_list t) /\
    only_read (t_machine t) m.
Proof.
  intros Hs. pose proof (loadAccounts_reads (t_machine t) (t_machine t) (reflexivity _)) as Hr.
  destruct (raises_never _ (t_machine t) loadAccounts_returns) as (r & m & E). rewrite E in Hr.
  unfold reload. erewrite bind_ok; [|unfold lift; cbn [prj has_t_machine]; rewrite E; reflexivity].
  destruct t as [[l e n q] z d a b c w k mm]. unfold upd, modify. cbn in *. eexists _, m. split; [reflexivity|].
  split; [|done]. unfold listing_ok. cbn. repeat case_bool_decide; cbn; lia.
Qed.

Lemma refresh_spec t :
  exists x m, refresh_detail opens db_fault t = (Ok tt, put m (put x t)) /\ detailName x = detailName (t_detail t) /\
    only_read (t_machine t) m.
Proof.
  unfold refresh_detail, catch_std. cbn.
  destruct t as [l z [d nm er] a b c w k m]. unfold mbind, comp_bind, lift, ask, gets. cbn.
  pose proof (load_row_std nm m) as Hstd. unfold load_row in *.
  pose proof (opening_reads (fun n c => (loadAccount (db_fault n) nm c).1) m m (reflexivity _)) as Hr.
  destruct (opening opens _ m) as [[a'|e] m'].
  - eexists _, m'. split; [reflexivity|done].
  - cbn in Hstd. destruct e as [what| |]; [|done..]. eexists _, m'. split; [reflexivity|done].
Qed.

Lemma run_spec args m :
  exists r m', runGendb spawns program args m = (Ok r, m') /\ m_runs m' = m_runs m ++ [args].
Proof.
  unfold runGendb, log_run. destruct m as [d n runs]. cbn. unfold mbind, comp_bind. cbn.
  destruct (spawns (length runs)); try (eexists _, _; split; reflexivity).
  cbn. destruct (program (length runs) args d) as [[text st] d1]. eexists _, _; split; reflexivity.
Qed.

(** One [config set] per changed field, in the order of the fields. *)
Definition set_args (nm : string) (v : values) (f : ConfigFieldDef) : list string :=
  ["--config"; configPath; nm; "config"; "set"; key f; get_or_new v (key f)]%string.
Definition changed (v original : values) (f : ConfigFieldDef) : bool :=
  negb (str_eqb (get_or_new v (key f)) (get_or_new original (key f))).

Lemma save_fields_spec nm v o fs combined ok m :
  exists r m', save_fields configPath spawns program nm v o fs combined ok m = (Ok r, m') /\
    m_runs m' = m_runs m ++ (set_args nm v <$> List.filter (changed v o) fs) /\ (List.filter (changed v o) fs = [] -> m' = m).
Proof.
  revert combined ok m. induction fs as [|f fs IH]; intros combined ok m; cbn [save_fields].
  - eexists _, m. split; [reflexivity|]. cbn. by rewrite app_nil_r.
  - cbn [List.filter]. destruct (changed v o f) eqn:Ec; unfold changed in Ec; [|apply negb_false_iff in Ec; rewrite Ec; apply IH].
    apply negb_true_iff in Ec. rewrite Ec.
    destruct (run_spec (set_args nm v f) m) as (r & m1 & E & Hr). erewrite bind_ok by exact E.
    destruct (IH (String.append combined (output r)) (ok && bool_decide (exitCode r = 0)) m1) as (r' & m' & E' & Hr' & _).
    exists r', m'. split; [done|]. split; [|done]. cbn [fmap list_fmap]. by rewrite Hr', Hr, <- app_assoc.
Qed.
End ops.

(** ** The invariant *)

Definition editor_ok (p : page) (e : editor) : Prop :=
  0 <= editField e < Z.of_nat (length (fields_of p)) /\ forall f, f ∈ fields_of p -> is_Some (editValues e !! key f).

(** A thread is there exactly while the wizard waits for it. *)
Definition waiting (t : tui) : Prop := t_screen t = 4 /\ wizardStep (t_wizard t) = LinkWaiting.

Record tui_ok (t : tui) : Prop := mkTuiOk {
  ok_list : listing_ok (t_list t);
  ok_screen : 0 <= t_screen t <= 5;
  ok_editor : forall p, t_screen t = screen_of p -> editor_ok p (editor_of p t);
  ok_link : is_Some (linkThread (t_link t)) <-> waiting t;
}.

(** The computation returns normally from [t], with [Q]. *)
Definition does {A} (m : Comp tui A) (t : tui) (Q : A -> tui -> Prop) : Prop :=
  match m t with (Ok a, t') => Q a t' | (Throw _, _) => False end.

Lemma does_ret {A} (a : A) t (Q : A -> tui -> Prop) : Q a t -> does (mret a) t Q.
Proof. done. Qed.
Lemma does_bind {A B} (m : Comp tui A) (k : A -> Comp tui B) t Q :
  does m t (fun a t' => does (k a) t' Q) -> does (m ≫= k) t Q.
Proof. unfold does, mbind, comp_bind. by destruct (m t) as [[a|e] t']. Qed.
Lemma does_mono {A} (m : Comp tui A) t (Q Q' : A -> tui -> Prop) : does m t Q -> (forall a t', Q a t' -> Q' a t') -> does m t Q'.
Proof. unfold does. destruct (m t) as [[a|e] t']; [auto|done]. Qed.
Lemma does_ask {S A} `{!Has S tui} (f : S -> A) t (Q : A -> tui -> Prop) : Q (f (prj t)) t -> does (ask f) t Q.
Proof. done. Qed.
Lemma does_gets {A} (f : tui -> A) t (Q : A -> tui -> Prop) : Q (f t) t -> does (gets f) t Q.
Proof. done. Qed.
Lemma does_upd {S} `{!Has S tui} (f : S -> S) t (Q : unit -> tui -> Prop) : Q tt (put (f (prj t)) t) -> does (upd f) t Q.
Proof. done. Qed.
Lemma does_modify (f : tui -> tui) t (Q : unit -> tui -> Prop) : Q tt (f t) -> does (modify f) t Q.
Proof. done. Qed.

(** One step of a handler, down to the operations with lemmas of their own. *)
Ltac walk := cbn beta iota zeta; match goal with
  | |- does (mret _) _ _ => apply does_ret
  | |- does (_ ≫= _) _ _ => apply does_bind
  | |- does (ask _) _ _ => apply does_ask
  | |- does (gets _) _ _ => apply does_gets
  | |- does (upd _) _ _ => apply does_upd
  | |- does (modify _) _ _ => apply does_modify
  | |- does (goto _) _ _ => apply does_modify
  | |- does (set_editor _ _) _ _ => apply does_modify
  | |- does (if ?b then _ else _) _ _ => destruct b eqn:?
  | |- does (match ?x with Some _ => _ | None => _ end) _ _ => destruct x eqn:?
  end.

Section safety.
Context (lang : Lang) (configPath : string).
Context (opens : nat -> bool) (db_fault : nat -> nat -> bool).
Context (spawns : nat -> spawn) (program : nat -> list string -> db -> string * wait_status * db) (plans : nat -> plan).

Local Abbreviation onEvent := (onEvent lang configPath opens db_fault spawns program plans).
Local Abbreviation tui_step := (tui_step lang configPath opens db_fault spawns program plans).

Lemma does_reload t Q : 0 <= selected (t_list t) ->
  (forall s m, listing_ok s -> quit s = quit (t_list t) -> only_read (t_machine t) m -> Q tt (put m (put s t))) ->
  does (reload opens db_fault) t Q.
Proof. intros Hs HQ. destruct (reload_reads opens db_fault t Hs) as (s & m & E & H1 & H2 & H3). unfold does. rewrite E. by apply HQ. Qed.

Lemma does_refresh t Q :
  (forall x m, detailName x = detailName (t_detail t) -> only_read (t_machine t) m -> Q tt (put m (put x t))) ->
  does (refresh_detail opens db_fault) t Q.
Proof. intros HQ. destruct (refresh_spec opens db_fault t) as (s & m & E & H1 & H2). unfold does. rewrite E. by apply HQ. Qed.

Lemma does_run args t Q :
  (forall r m, m_runs m = m_runs (t_machine t) ++ [args] -> Q r (put m t)) -> does (lift (runGendb spawns program args)) t Q.
Proof.
  intros HQ. destruct (run_spec spawns program args (t_machine t)) as (r & m & E & H). unfold does, lift.
  cbn [prj has_t_machine]. rewrite E. by apply HQ.
Qed.

Lemma does_save nm v o fs combined ok t Q :
  (forall r m, m_runs m = m_runs (t_machine t) ++ (set_args configPath nm v <$> List.filter (changed v o) fs) ->
     (List.filter (changed v o) fs = [] -> m = t_machine t) -> Q r (put m t)) ->
  does (lift (save_fields configPath spawns program nm v o fs combined ok)) t Q.
Proof.
  intros HQ. destruct (save_fields_spec configPath spawns program nm v o fs combined ok (t_machine t)) as (r & m & E & H & H').
  unfold does, lift. cbn [prj has_t_machine]. rewrite E. by apply HQ.
Qed.

Lemma does_log args t Q :
  (forall n m, n = length (m_runs (t_machine t)) -> m_db m = m_db (t_machine t) -> m_runs m = m_runs (t_machine t) ++ [args] ->
    Q n (put m t)) -> does (lift (log_run args)) t Q.
Proof. intros HQ. unfold does, lift, log_run. cbn. by apply HQ. Qed.

Lemma errors_ok v : (forall f, f ∈ kConfigFields -> is_Some (v !! key f)) -> exists errs, configErrors v = Ok errs.
Proof.
  intros Hv. assert (forall k, k ∈ (key <$> kConfigFields) -> exists s, at_key v k = Ok s) as Hk.
  { intros k (f & -> & Hf)%list_elem_of_fmap. destruct (Hv f Hf) as [s Hs]. exists s. unfold at_key. by rewrite Hs. }
  unfold configErrors, sipFieldsInUse, required.
  destruct (Hk "sip_host"%string) as [h ->]; [repeat constructor|].
  destruct (Hk "sip_extension"%string) as [x ->]; [repeat constructor|]. destruct (Hk "sip_password"%string) as [p ->]; [repeat constructor|].
  destruct (Hk "sip_transport"%string) as [r ->]; [repeat constructor|]. destruct (Hk "sip_tls_ca_file"%string) as [c ->]; [repeat constructor|].
  destruct (Hk "sip_tls_insecure"%string) as [i ->]; [repeat constructor|].
  unfold mbind, outcome_bind, mret, outcome_ret.
  repeat match goal with |- context [if ?b then _ else _] => destruct b end; eexists; reflexivity.
Qed.

(** The state without the parts the invariant speaks about. *)
Lemma ok_machine t m : tui_ok t -> tui_ok (put (m : machine) t).
Proof. intros [? ? Hed ?]. by split. Qed.
Lemma ok_detail t x : tui_ok t -> tui_ok (put (x : detailing) t).
Proof. intros [? ? Hed ?]. by split. Qed.
Lemma ok_confirm t x : tui_ok t -> tui_ok (put (x : confirming) t).
Proof. intros [? ? Hed ?]. by split. Qed.
Lemma ok_listing t s : tui_ok t -> listing_ok s -> tui_ok (put (s : listing) t).
Proof. intros [? ? Hed ?] ?. by split. Qed.
Lemma ok_reloaded t s m : tui_ok t -> listing_ok s -> tui_ok (put (m : machine) (put (s : listing) t)).
Proof. intros. by apply ok_machine, ok_listing. Qed.

(** The wizard's variables, as long as it neither starts nor stops waiting. *)
Lemma ok_wizard t w : tui_ok t ->
  (wizardStep w = LinkWaiting <-> wizardStep (t_wizard t) = LinkWaiting) -> tui_ok (put (w : wizard) t).
Proof.
  intros [? ? Hed Hl] Hw. split; try done.
  rewrite Hl. unfold waiting. cbn. by rewrite Hw.
Qed.

Lemma ok_wizard_ran t w m : tui_ok t -> (wizardStep w = LinkWaiting <-> wizardStep (t_wizard t) = LinkWaiting) ->
  tui_ok (mkTui (t_list t) (t_screen t) (t_detail t) (t_sip t) (t_signal t) (t_confirm t) w (t_link t) m).
Proof. intros H Hw. exact (ok_wizard (put m t) w (ok_machine _ _ H) Hw). Qed.

(** Leaving for a screen without a thread and without an editor. *)
Definition plain_screen (n : Z) : Prop := n = 0 \/ n = 1 \/ n = 2.
Lemma ok_goto t n : listing_ok (t_list t) -> plain_screen n -> linkThread (t_link t) = None ->
  tui_ok (mkTui (t_list t) n (t_detail t) (t_sip t) (t_signal t) (t_confirm t) (t_wizard t) (t_link t) (t_machine t)).
Proof.
  intros Hl Hn Hk. split; [done|cbn; unfold plain_screen in Hn; lia|..].
  - intros p Hp. exfalso. cbn in Hp. unfold plain_screen in Hn. destruct p; cbn in Hp; lia.
  - unfold waiting. cbn. rewrite Hk. split; [by intros []|]. intros [? ?]. unfold plain_screen in Hn. lia.
Qed.

Lemma ok_no_thread t : tui_ok t -> ~ waiting t -> linkThread (t_link t) = None.
Proof. intros [? ? ? Hl] Hw. destruct (linkThread _) eqn:E; [|done]. destruct Hw. by apply Hl. Qed.

Lemma to_list_ok t : listing_ok (t_list t) -> linkThread (t_link t) = None -> does (to_list opens db_fault) t (fun _ => tui_ok).
Proof.
  intros Hl Hk. unfold to_list. repeat walk. apply does_reload; [apply Hl|]. intros s m Hs _ _. repeat walk.
  apply ok_reloaded; [|done]. apply ok_goto; [done|by left|done].
Qed.

Lemma ok_waiting_ends t s w l m : tui_ok t -> t_screen t = 4 -> listing_ok s -> wizardStep w = LinkResult -> linkThread l = None ->
  tui_ok (mkTui s 4 (t_detail t) (t_sip t) (t_signal t) (t_confirm t) w l m).
Proof.
  intros [? ? Hed _] Hs Hl Hw Hk. split; try done; [intros []; done|]. unfold waiting. cbn. rewrite Hk, Hw.
  split; [by intros []|by intros []].
Qed.

Lemma onLinkWaiting_ok e t : tui_ok t -> waiting t -> does (onLinkWaiting opens db_fault e) t (fun _ => tui_ok).
Proof.
  intros Hok Hw. unfold onLinkWaiting. destruct e; try by (apply does_ret).
  - repeat walk. apply does_reload; [apply Hok|]. intros s m Hs _ _. repeat walk.
    apply ok_reloaded; [|done]. apply ok_goto; [apply Hok|by left|apply cancel_none].
  - repeat walk; [|done]. destruct Hw as [Hw _]. destruct t as [l z d a b c w k m]; cbn in *; subst.
    apply (ok_waiting_ends _ l _ _ m Hok); [done|apply Hok|done|apply join_none].
Qed.

Lemma ok_start_link t w l m : tui_ok t -> t_screen t = 4 -> wizardStep w = LinkWaiting -> is_Some (linkThread l) ->
  tui_ok (mkTui (t_list t) (t_screen t) (t_detail t) (t_sip t) (t_signal t) (t_confirm t) w l m).
Proof. intros [Hl Hsc Hed _] Hs Hw Hk. by split. Qed.

Ltac form H := unfold start_link, wizard_error, wizard_field, wizard_step, wizard_result; repeat walk; try done;
  try (match goal with Hok : tui_ok ?t |- tui_ok (put ?w _) => refine (ok_wizard t w Hok _); cbn; by rewrite H end).

Lemma onChooseType_ok e t : tui_ok t -> t_screen t = 4 -> wizardStep (t_wizard t) = ChooseType ->
  does (onChooseType configPath plans e) t (fun _ => tui_ok).
Proof.
  intros Hok Hs Hw. unfold onChooseType. form Hw.
  apply does_log. intros n m _ _ _. repeat walk. apply (ok_start_link t); [done..|]. by eexists.
Qed.

Lemma onRegisterForm_ok e t : tui_ok t -> wizardStep (t_wizard t) = RegisterForm ->
  does (onRegisterForm configPath spawns program e) t (fun _ => tui_ok).
Proof.
  intros Hok Hw. unfold onRegisterForm. form Hw.
  apply does_run. intros r m _. repeat walk. apply (ok_wizard_ran t); [done|cbn; by rewrite Hw].
Qed.

Lemma onCaptchaForm_ok e t : tui_ok t -> wizardStep (t_wizard t) = CaptchaForm ->
  does (onCaptchaForm configPath spawns program e) t (fun _ => tui_ok).
Proof.
  intros Hok Hw. unfold onCaptchaForm. form Hw.
  apply does_run. intros r m _. repeat walk. apply (ok_wizard_ran t); [done|cbn; by rewrite Hw].
Qed.

Lemma onVerifyForm_ok e t : tui_ok t -> wizardStep (t_wizard t) = VerifyForm ->
  does (onVerifyForm configPath spawns program e) t (fun _ => tui_ok).
Proof.
  intros Hok Hw. unfold onVerifyForm. form Hw.
  apply does_run. intros r m _. repeat walk. apply (ok_wizard_ran t); [done|cbn; by rewrite Hw].
Qed.

Lemma onWizard_ok e t : tui_ok t -> t_screen t = 4 ->
  does (onWizard configPath opens db_fault spawns program plans e) t (fun _ => tui_ok).
Proof.
  intros Hok Hs. unfold onWizard. walk. walk. cbn.
  assert (wizardStep (t_wizard t) <> LinkWaiting -> linkThread (t_link t) = None) as Hno
    by (intros ?; apply ok_no_thread; [done|]; by intros []).
  destruct (wizardStep (t_wizard t)) eqn:Hw; try (by apply onLinkWaiting_ok);
    try (by apply to_list_ok; [apply Hok|apply Hno]);
    destruct (bool_decide (e = Escape)); try (by apply to_list_ok; [apply Hok|apply Hno]).
  all: auto using onChooseType_ok, onRegisterForm_ok, onCaptchaForm_ok, onVerifyForm_ok.
  all: form Hw.
Qed.

Lemma ok_set_editor p t e : tui_ok t -> (t_screen t = screen_of p -> editor_ok p e) ->
  tui_ok (set_editor p e t).2.
Proof.
  intros [? ? Hed ?] He. unfold set_editor, modify. destruct p; cbn; (split; [done..| |done]);
    intros [] Hp; first [exact (He Hp)|exact (Hed SipPage Hp)|exact (Hed SignalPage Hp)].
Qed.

Lemma ok_open p t e n m : tui_ok t -> n = screen_of p -> linkThread (t_link t) = None -> editor_ok p e ->
  tui_ok (match p with
    | SipPage => mkTui (t_list t) n (t_detail t) e (t_signal t) (t_confirm t) (t_wizard t) (t_link t) m
    | SignalPage => mkTui (t_list t) n (t_detail t) (t_sip t) e (t_confirm t) (t_wizard t) (t_link t) m
    end).
Proof.
  intros [? ? Hed Hl] -> Hk He. unfold waiting in *.
  destruct p; (split; [done|cbn; lia|intros [] Hp; first [exact He|cbn in Hp; lia]|cbn; rewrite Hk; split; [by intros []|intros [H4 _]; cbn in H4; lia]]).
Qed.

Lemma edit_keeps p ed k s n done_ out ok : 0 <= n < Z.of_nat (length (fields_of p)) -> editor_ok p ed ->
  editor_ok p (mkEditor (<[k := s]> (editValues ed)) (originalValues ed) n done_ out ok).
Proof.
  intros Hn [_ Hk]. split; [done|]. intros f Hf. cbn. destruct (decide (k = key f)) as [->|Hne];
    [rewrite lookup_insert_eq; by eexists|rewrite lookup_insert_ne by done; by apply Hk].
Qed.

Lemma onEditor_ok p e t : tui_ok t -> t_screen t = screen_of p ->
  does (onEditor lang configPath opens db_fault spawns program p e) t (fun _ => tui_ok).
Proof.
  intros Hok Hs. pose proof (ok_editor t Hok p Hs) as Hed.
  assert (linkThread (t_link t) = None) as Hk.
  { apply ok_no_thread; [done|]. intros [H4 _]. rewrite Hs in H4. destruct p; cbn in H4; lia. }
  assert (forall n, 0 <= n mod Z.of_nat (length (fields_of p)) < Z.of_nat (length (fields_of p))) as Hmod
    by (intros; apply Z.mod_pos_bound; destruct p; cbn; lia).
  pose proof (ok_list t Hok) as Hlist. unfold onEditor. walk. walk.
  destruct (saveDone (editor_of p t)) eqn:Edone.
  { walk. walk. walk. walk. walk. apply does_refresh. intros x m _ _. walk. apply does_reload; [destruct p; apply Hlist|].
    intros s m' Hl _ _. walk.
    assert (tui_ok (mkTui s 1 x (t_sip t) (t_signal t) (t_confirm t) (t_wizard t) (t_link t) m')) as Hplain
      by (apply (ok_goto (mkTui s 1 x (t_sip t) (t_signal t) (t_confirm t) (t_wizard t) (t_link t) m') 1); auto; by right; left).
    destruct Hplain as [? ? _ Hl2]. destruct p; (split; [done|done|intros [] Hp; cbn in Hp; lia|exact Hl2]). }
  destruct (bool_decide (e = Escape)) eqn:Eesc; [repeat walk; apply ok_goto; [apply Hok|by right; left|done]|].
  destruct (bool_decide (e = CtrlO)) eqn:Esave.
  { walk.
    assert (does (save_page lang configPath spawns program p) t (fun _ => tui_ok)) as Hsave.
    { unfold save_page. repeat walk. apply does_save. intros r m _ _. walk.
      change (tui_ok (set_editor p (mkEditor (editValues (editor_of p t)) (originalValues (editor_of p t)) (editField (editor_of p t)) true
        (if str_empty r.1 then tr lang NoChanges else r.1) r.2) (put m t)).2).
      apply ok_set_editor; [by apply ok_machine|]. intros _. exact Hed. }
    assert (does (match p with SipPage => saveConfig lang configPath spawns program
                  | SignalPage => saveSignalConfig lang configPath spawns program end) t (fun _ => tui_ok)) as H.
    { destruct p; [|exact Hsave]. unfold saveConfig. walk. walk. walk.
      destruct (errors_ok (editValues (t_sip t)) (proj2 Hed)) as [errs E]. unfold does, of_outcome. cbn [editor_of]. rewrite E.
      destruct (bool_decide (errs = [])); [exact Hsave|done]. }
    eapply does_mono; [exact H|done]. }
  destruct (bool_decide (e = ArrowDown \/ e = Tab)) eqn:Edown;
    [|destruct (bool_decide (e = ArrowUp \/ e = TabReverse)) eqn:Eup].
  1,2: walk; apply does_modify, does_ret; eapply (ok_set_editor p t); [done|]; intros _; split; [apply Hmod|apply Hed].
  walk. destruct Hed as [Hf Hkeys]. unfold active_field.
  rewrite bool_decide_eq_false_2 by lia.
  destruct (lookup_lt_is_Some_2 (fields_of p) (Z.to_nat (editField (editor_of p t)))) as [f Ef]; [lia|]. rewrite Ef. walk. walk; [|done].
  walk. apply does_modify, does_ret. eapply (ok_set_editor p t); [done|]. intros _. by apply edit_keeps.
Qed.

Lemma does_pending t Q :
  (forall r m verb, verb_of (pending (t_confirm t)) = Some verb ->
     m_runs m = m_runs (t_machine t) ++ [["--config"; configPath; detailName (t_detail t); verb]%string] ->
     Q tt (put (mkConfirming (pending (t_confirm t)) (typedConfirm (t_confirm t)) (Some r)) (put m t))) ->
  (verb_of (pending (t_confirm t)) = None -> Q tt t) ->
  does (runPendingAction configPath spawns program) t Q.
Proof.
  intros HQ HN. unfold runPendingAction. walk. walk. walk. walk. cbn. destruct (verb_of _) as [verb|] eqn:E; [|by apply HN].
  walk. apply does_run. intros r m Hm. walk. by apply (HQ r m verb).
Qed.

Lemma onConfirm_ok e t : tui_ok t -> t_screen t = 2 ->
  does (onConfirm configPath opens db_fault spawns program e) t (fun _ => tui_ok).
Proof.
  intros Hok Hs. assert (linkThread (t_link t) = None) as Hk by (apply ok_no_thread; [done|]; intros []; lia).
  unfold onConfirm. repeat walk; try done; try (by apply ok_confirm).
  - apply (to_list_ok (put (mkConfirming NoAction (typedConfirm (t_confirm t)) None) t)); [apply Hok|done].
  - apply ok_goto; [apply Hok|by right; left|done].
  - apply does_pending; [|by intros; repeat walk]. intros r m verb _ _. repeat walk.
    exact (ok_confirm (put m t) _ (ok_machine _ _ Hok)).
  - apply does_pending; [|by intros; repeat walk]. intros r m verb _ _. repeat walk.
    exact (ok_confirm (put m t) _ (ok_machine _ _ Hok)).
Qed.

Lemma list_to_map_some (l : list (string * string)) k : k ∈ l.*1 -> is_Some ((list_to_map l : values) !! k).
Proof.
  intros Hk. destruct (list_to_map l !! k) eqn:E; [by eexists|]. by apply not_elem_of_list_to_map in E.
Qed.

Lemma openConfig_ok t : tui_ok t -> linkThread (t_link t) = None -> does openConfig t (fun _ => tui_ok).
Proof.
  intros Hok Hk. unfold openConfig. repeat walk. apply (ok_open SipPage t _ 3 (t_machine t) Hok eq_refl Hk).
  split; [done|]. intros f Hf. apply list_to_map_some. apply (list_elem_of_fmap_2 key) in Hf. exact Hf.
Qed.

Lemma openSignalConfig_ok t : tui_ok t -> linkThread (t_link t) = None -> does openSignalConfig t (fun _ => tui_ok).
Proof.
  intros Hok Hk. unfold openSignalConfig. repeat walk. apply (ok_open SignalPage t _ 5 (t_machine t) Hok eq_refl Hk).
  split; [done|]. intros f Hf. unfold fields_of, kSignalConfigFields in Hf. cbn [editValues].
  assert (forall k k' x (v : values), k = k' \/ is_Some (v !! k') -> is_Some (<[k := x]> v !! k')) as Hins.
  { intros k k' x v [->|Hv]; [rewrite lookup_insert_eq; by eexists|]. destruct (decide (k = k')) as [->|];
      [rewrite lookup_insert_eq; by eexists|by rewrite lookup_insert_ne]. }
  apply list_elem_of_In in Hf. cbn in Hf.
  destruct Hf as [<-|[<-|[<-|[]]]]; cbn [key]; repeat (apply Hins; first [by left|right]).
Qed.

Lemma onDetail_ok e t : tui_ok t -> t_screen t = 1 -> does (onDetail e) t (fun _ => tui_ok).
Proof.
  intros Hok Hs. assert (linkThread (t_link t) = None) as Hk by (apply ok_no_thread; [done|]; intros []; lia).
  assert (forall a, does (openConfirm a) t (fun _ => tui_ok)) as Hconfirm.
  { intros a. unfold openConfirm. repeat walk.
    apply (ok_goto (put (mkConfirming a EmptyString None) t) 2); [apply Hok|by right; right|done]. }
  unfold onDetail. repeat walk; try done; try (eapply does_mono; [by apply Hconfirm|done]).
  - apply ok_goto; [apply Hok|by left|done].
  - eapply does_mono; [by apply openConfig_ok|done].
  - eapply does_mono; [by apply openSignalConfig_ok|done].
Qed.

Lemma selected_ok t : tui_ok t -> accounts (t_list t) <> [] -> exists a, selected_account t = (Ok a, t).
Proof.
  intros [[H0 H1] _ _ _] Hne. unfold selected_account, mbind, comp_bind, ask, gets. cbn.
  rewrite bool_decide_eq_false_2 by (cbn; lia).
  destruct (lookup_lt_is_Some_2 (accounts (t_list t)) (Z.to_nat (selected (t_list t)))) as [a E].
  { destruct (accounts (t_list t)); [done|]. cbn in *. lia. }
  exists a. by rewrite E.
Qed.

Lemma openDetail_ok t : tui_ok t -> t_screen t = 0 -> does (openDetail opens db_fault) t (fun _ => tui_ok).
Proof.
  intros Hok Hs. assert (linkThread (t_link t) = None) as Hk by (apply ok_no_thread; [done|]; intros []; lia).
  unfold openDetail. walk. walk. cbn. walk; [by apply does_ret|]. bdec. walk.
  destruct (selected_ok t Hok) as [a E]; [done|]. unfold does at 1. rewrite E. repeat walk. apply does_refresh. intros x m _ _.
  repeat walk. exact (ok_goto (put m (put x t)) 1 (ok_list t Hok) (or_intror (or_introl eq_refl)) Hk).
Qed.

Lemma onList_ok e t : tui_ok t -> t_screen t = 0 -> does (onList opens db_fault e) t (fun _ => tui_ok).
Proof.
  intros Hok Hs. pose proof (ok_list t Hok) as [H0 H1].
  assert (forall f, (accounts (t_list t) <> [] -> 0 <= f (selected (t_list t)) (Z.of_nat (length (accounts (t_list t))) - 1) < Z.of_nat (length (accounts (t_list t)))) ->
    does (select f) t (fun _ => tui_ok)) as Hselect.
  { intros f Hf. unfold select. walk. apply ok_listing; [done|]. cbn. case_bool_decide as Hl; [by split|]. specialize (Hf Hl).
    unfold listing_ok. cbn. lia. }
  unfold onList. repeat walk; try done.
  - eapply does_mono; [apply Hselect|done]. intros Hl. destruct (accounts (t_list t)); [done|]. cbn in *. lia.
  - eapply does_mono; [apply Hselect|done]. intros Hl. destruct (accounts (t_list t)); [done|]. cbn in *. lia.
  - eapply does_mono; [by apply openDetail_ok|done].
  - unfold openWizard. repeat walk. destruct Hok as [? ? ? Hl]. split; [done|cbn; lia|intros []; cbn; intros; lia|].
    unfold waiting in *. cbn. rewrite Hl. split; intros []; [lia|done].
  - apply does_reload; [done|]. intros s m Hl _ _. repeat walk. by apply ok_reloaded.
  - by apply ok_listing.
Qed.

Lemma onEvent_ok e t : tui_ok t -> does (onEvent e) t (fun _ => tui_ok).
Proof.
  intros Hok. pose proof (ok_screen t Hok). unfold Tui.onEvent. walk. walk.
  repeat (walk; bdec); [by apply onWizard_ok|by apply (onEditor_ok SipPage)|by apply (onEditor_ok SignalPage)|by apply onConfirm_ok|by apply onList_ok|].
  apply onDetail_ok; [done|lia].
Qed.

Lemma thread_step_some l l' : thread_step l = Some l' -> is_Some (linkThread l) /\ is_Some (linkThread l').
Proof.
  destruct (linkThread l) as [t|] eqn:E; [|unfold thread_step; by rewrite E]. intros H.
  destruct (thread_step_left l l' t E H) as (t' & -> & _). split; by eexists.
Qed.

Lemma step_ok t t' : tui_ok t -> tui_step t t' -> tui_ok t'.
Proof.
  intros Hok Hst. destruct Hst as [e t _ _|t l Hl|t d].
  - pose proof (onEvent_ok e t Hok) as H. unfold does in H. by destruct (onEvent e t) as [[] ?].
  - apply thread_step_some in Hl as [H1 H2]. destruct Hok as [? ? ? Hk]. split; try done.
    split; [intros _; by apply Hk|]. by intros _.
  - by apply ok_machine.
Qed.

Lemma start_ok d : tui_ok (start opens db_fault d).
Proof.
  unfold start. destruct (reload_reads opens db_fault (blank_tui d)) as (s & m & -> & Hl & _ & _); [done|].
  cbn [snd]. apply ok_machine. destruct Hl. split; [done|cbn; lia|intros []; cbn; intros; lia|].
  unfold waiting. cbn. split; [by intros []|intros []; lia].
Qed.

Lemma reachable_ok d t : rtc tui_step (start opens db_fault d) t -> tui_ok t.
Proof. apply (rtc_invariant _ tui_ok); [apply step_ok|apply start_ok]. Qed.

(** ** What is run, and why *)

(** The arguments of a gendb child that the key [e] asks for on the screen. *)
Definition asked_for (t : tui) (e : Event) (args : list string) : Prop :=
  (t_screen t = 2 /\ lastResult (t_confirm t) = None /\ exists verb, verb_of (pending (t_confirm t)) = Some verb /\
     args = ["--config"; configPath; detailName (t_detail t); verb]%string /\
     if bool_decide (pending (t_confirm t) = DeleteAccount)
     then e = Return /\ typedConfirm (t_confirm t) = detailName (t_detail t) else e = Character "y") \/
  (exists p f, t_screen t = screen_of p /\ e = CtrlO /\ f ∈ fields_of p /\
     changed (editValues (editor_of p t)) (originalValues (editor_of p t)) f = true /\
     args = set_args configPath (detailName (t_detail t)) (editValues (editor_of p t)) f /\
     (p = SipPage -> configErrors (editValues (t_sip t)) = Ok [])) \/
  (t_screen t = 4 /\ e = CtrlO /\ exists rest, args = "--config"%string :: configPath :: wizName (t_wizard t) :: rest /\
     match wizardStep (t_wizard t) with
     | ChooseType => rest = ["link"]%string /\ forall a, a ∈ accounts (t_list t) -> v_name a <> wizName (t_wizard t)
     | RegisterForm => rest = ["register"; "--e164"; wizE164 (t_wizard t); wizTransport (t_wizard t)]%string
     | CaptchaForm => rest = ["register-captcha"; wizCaptchaToken (t_wizard t)]%string
     | VerifyForm => rest = ["verify"; wizVerifyCode (t_wizard t)]%string
     | _ => False
     end).

(** What one key made run, and that the database changes no other way. *)
Definition ran (t : tui) (e : Event) (t' : tui) : Prop := exists new,
  m_runs (t_machine t') = m_runs (t_machine t) ++ new /\ Forall (asked_for t e) new /\
  (new = [] -> m_db (t_machine t') = m_db (t_machine t)).

Lemma ran_none t e t' : only_read (t_machine t) (t_machine t') -> ran t e t'.
Proof. intros [Hd Hr]. exists []. by rewrite app_nil_r. Qed.
Lemma ran_one t e t' args : m_runs (t_machine t') = m_runs (t_machine t) ++ [args] -> asked_for t e args -> ran t e t'.
Proof. intros Hr Ha. exists [args]. split; [done|]. split; [by apply Forall_singleton|done]. Qed.

Ltac quiet := repeat walk; try (apply ran_none; done).

Lemma reload_quiet t e u : 0 <= selected (t_list u) -> only_read (t_machine t) (t_machine u) ->
  does (reload opens db_fault) u (fun _ t' => ran t e t').
Proof. intros Hs [Hd Hr]. apply does_reload; [done|]. intros s m _ _ [Hd' Hr']. apply ran_none. split; cbn; congruence. Qed.

Lemma to_list_quiet t e u : 0 <= selected (t_list u) -> only_read (t_machine t) (t_machine u) ->
  does (to_list opens db_fault) u (fun _ t' => ran t e t').
Proof. intros Hs Hr. unfold to_list. repeat walk. apply (does_mono _ _ (fun _ t2 => ran t e t2)); [by apply reload_quiet|done]. Qed.

Lemma onConfirm_ran e t : tui_ok t -> t_screen t = 2 ->
  does (onConfirm configPath opens db_fault spawns program e) t (fun _ t' => ran t e t').
Proof.
  intros Hok Hs. pose proof (ok_list t Hok) as [H0 _]. unfold onConfirm. quiet.
  - by apply to_list_quiet.
  - apply does_pending; [|by intros; quiet]. intros r m verb Hv Hm. quiet. bdec. eapply ran_one; [exact Hm|]. left.
    unfold str_eqb in *. bdec. split; [done|]. split; [done|]. exists verb. rewrite bool_decide_eq_true_2 by done. by repeat split.
  - apply does_pending; [|by intros; quiet]. intros r m verb Hv Hm. quiet. eapply ran_one; [exact Hm|]. left.
    unfold is_key in *. split; [done|]. split; [done|]. exists verb.
    change (pending (prj t)) with (pending (t_confirm t)) in *. bdec. rewrite bool_decide_eq_false_2 by done. by repeat split.
Qed.

Lemma onEditor_ran p e t : tui_ok t -> t_screen t = screen_of p ->
  does (onEditor lang configPath opens db_fault spawns program p e) t (fun _ t' => ran t e t').
Proof.
  intros Hok Hs. pose proof (ok_editor t Hok p Hs) as Hed. pose proof (ok_list t Hok) as [H0 _].
  assert (forall x, only_read (t_machine t) (t_machine (set_editor p x t).2)) as Hset by (by destruct p).
  unfold onEditor. walk. walk.
  destruct (saveDone (editor_of p t)) eqn:Edone.
  { walk. walk. walk. walk. walk. apply does_refresh. intros x m _ [Hd Hr]. walk.
    apply (does_mono _ _ (fun _ t2 => ran t e t2)); [|done]. apply reload_quiet; [by destruct p|].
    destruct p; split; [exact Hd|exact Hr|exact Hd|exact Hr]. }
  destruct (bool_decide (e = Escape)) eqn:Eesc; [by quiet|].
  destruct (bool_decide (e = CtrlO)) eqn:Esave.
  { walk. bdec. subst e.
    assert ((p = SipPage -> configErrors (editValues (t_sip t)) = Ok []) ->
      does (save_page lang configPath spawns program p) t (fun _ t' => ran t CtrlO t')) as Hsave.
    { intros Herr. unfold save_page. repeat walk. apply does_save. intros r m Hm Hnone. walk.
      eexists. split; [destruct p; exact Hm|]. split.
      - apply Forall_fmap, Forall_forall. intros f Hf. apply list_elem_of_In, filter_In in Hf as [Hf Hc].
        right; left. exists p, f. split; [done|]. repeat split; [by apply list_elem_of_In|done|done].
      - intros Hnil. apply fmap_nil_inv in Hnil. rewrite (Hnone Hnil). by destruct p. }
    apply (does_mono _ _ (fun _ t2 => ran t CtrlO t2)); [|done].
    destruct p; [|by apply Hsave]. unfold saveConfig. walk. walk. walk.
    destruct (errors_ok (editValues (t_sip t)) (proj2 Hed)) as [errs E]. unfold does, of_outcome. cbn [editor_of]. rewrite E.
    destruct (bool_decide (errs = [])) eqn:Enil; [|by apply ran_none]. bdec. apply Hsave. intros _. by rewrite E, Enil. }
  destruct (bool_decide (e = ArrowDown \/ e = Tab)) eqn:Edown; [walk; apply does_modify, does_ret, ran_none; by destruct p|].
  destruct (bool_decide (e = ArrowUp \/ e = TabReverse)) eqn:Eup; [walk; apply does_modify, does_ret, ran_none; by destruct p|].
  walk. destruct Hed as [Hf Hkeys]. unfold active_field. rewrite bool_decide_eq_false_2 by lia.
  destruct (lookup_lt_is_Some_2 (fields_of p) (Z.to_nat (editField (editor_of p t)))) as [f Ef]; [lia|]. rewrite Ef.
  walk. walk; [|by apply ran_none]. walk. apply does_modify, does_ret, ran_none. by destruct p.
Qed.

Lemma onWizard_ran e t : tui_ok t -> t_screen t = 4 ->
  does (onWizard configPath opens db_fault spawns program plans e) t (fun _ t' => ran t e t').
Proof.
  intros Hok Hs. pose proof (ok_list t Hok) as [H0 _]. unfold onWizard. walk. walk. cbn.
  destruct (wizardStep (t_wizard t)) eqn:Hw.
  - destruct (bool_decide (e = Escape)); [by apply to_list_quiet|]. unfold onChooseType, wizard_error, start_link, wizard_field, wizard_step. quiet.
    bdec. subst e. apply does_log. intros n m _ Hd Hr. quiet. eapply ran_one; [exact Hr|]. right; right. split; [done|]. split; [done|].
    eexists. split; [reflexivity|]. rewrite Hw. split; [done|]. intros a Ha Heq.
    assert (existsb (fun a => str_eqb (v_name a) (wizName (t_wizard t))) (accounts (t_list t)) = true) as Hx; [|cbn in *; congruence].
    apply existsb_exists. exists a. split; [by apply list_elem_of_In|]. unfold str_eqb. by apply bool_decide_eq_true_2.
  - destruct (bool_decide (e = Escape)); [by apply to_list_quiet|]. unfold onRegisterForm, wizard_error, wizard_result, wizard_field, wizard_step. quiet.
    bdec. subst e. apply does_run. intros r m Hr. quiet. eapply ran_one; [exact Hr|]. right; right. repeat (split; [done|]).
    eexists. split; [reflexivity|]. by rewrite Hw.
  - destruct (bool_decide (e = Escape)); [by apply to_list_quiet|]. unfold wizard_step. by quiet.
  - destruct (bool_decide (e = Escape)); [by apply to_list_quiet|]. unfold onCaptchaForm, wizard_result, wizard_step. quiet.
    bdec. subst e. apply does_run. intros r m Hr. quiet. eapply ran_one; [exact Hr|]. right; right. repeat (split; [done|]).
    eexists. split; [reflexivity|]. by rewrite Hw.
  - destruct (bool_decide (e = Escape)); [by apply to_list_quiet|]. unfold wizard_step. by quiet.
  - destruct (bool_decide (e = Escape)); [by apply to_list_quiet|]. unfold onVerifyForm, wizard_result, wizard_step. quiet.
    bdec. subst e. apply does_run. intros r m Hr. quiet. eapply ran_one; [exact Hr|]. right; right. repeat (split; [done|]).
    eexists. split; [reflexivity|]. by rewrite Hw.
  - by apply to_list_quiet.
  - unfold onLinkWaiting, wizard_result, wizard_step. destruct e; try (by apply does_ret, ran_none); quiet.
    apply (does_mono _ _ (fun _ t2 => ran t Escape t2)); [|done]. by apply reload_quiet.
  - by apply to_list_quiet.
Qed.

Lemma onList_ran e t : tui_ok t -> t_screen t = 0 -> does (onList opens db_fault e) t (fun _ t' => ran t e t').
Proof.
  intros Hok Hs. pose proof (ok_list t Hok) as [H0 _]. unfold onList, select, openWizard. quiet.
  - unfold openDetail. walk. walk. cbn. walk; [by apply does_ret, ran_none|]. bdec. walk.
    destruct (selected_ok t Hok) as [a E]; [done|]. unfold does at 1. rewrite E. repeat walk. apply does_refresh. intros x m _ [Hd Hr].
    by quiet.
  - apply (does_mono _ _ (fun _ t2 => ran t e t2)); [|done]. by apply reload_quiet.
Qed.

Lemma onDetail_ran e t : does (onDetail e) t (fun _ t' => ran t e t').
Proof. unfold onDetail, openConfirm, openConfig, openSignalConfig. by quiet. Qed.

Lemma onEvent_ran e t : tui_ok t -> does (onEvent e) t (fun _ t' => ran t e t').
Proof.
  intros Hok. pose proof (ok_screen t Hok). unfold Tui.onEvent. walk. walk.
  repeat (walk; bdec); [by apply onWizard_ran|by apply (onEditor_ran SipPage)|by apply (onEditor_ran SignalPage)|by apply onConfirm_ran
    |by apply onList_ran|by apply onDetail_ran].
Qed.

(** *** Quitting *)

(** Once the interface has quit there is no link thread. *)
Definition quits_clean (t : tui) : Prop := quit (t_list t) = true -> linkThread (t_link t) = None.

Lemma no_quit_clean t : quit (t_list t) = false -> quits_clean t.
Proof. unfold quits_clean. by intros ->. Qed.

(** A key handled without touching [quit]. *)
Ltac stays Hq := repeat walk; try (apply no_quit_clean; exact Hq).

Lemma reload_stays t : 0 <= selected (t_list t) -> quit (t_list t) = false -> does (reload opens db_fault) t (fun _ => quits_clean).
Proof. intros Hl Hq. apply does_reload; [done|]. intros s m _ Hs _. apply no_quit_clean. cbn. by rewrite Hs. Qed.
Lemma to_list_stays t : 0 <= selected (t_list t) -> quit (t_list t) = false -> does (to_list opens db_fault) t (fun _ => quits_clean).
Proof.
  intros Hl Hq. unfold to_list. repeat walk. apply does_reload; [done|]. intros s m _ Hs _. repeat walk. apply no_quit_clean. cbn. by rewrite Hs.
Qed.

Lemma onWizard_stays e t : tui_ok t -> quit (t_list t) = false ->
  does (onWizard configPath opens db_fault spawns program plans e) t (fun _ => quits_clean).
Proof.
  intros Hok Hq. pose proof (ok_list t Hok) as [H0 _]. unfold onWizard. walk. walk. cbn.
  destruct (wizardStep (t_wizard t)) eqn:Hw; try (by apply to_list_stays);
    try (destruct (bool_decide (e = Escape)); [by apply to_list_stays|]).
  - unfold onChooseType, wizard_error, start_link, wizard_field, wizard_step. by stays Hq.
  - unfold onRegisterForm, wizard_error, wizard_result, wizard_field, wizard_step. stays Hq. apply does_run. intros r m _. by stays Hq.
  - unfold wizard_step. by stays Hq.
  - unfold onCaptchaForm, wizard_result, wizard_step. stays Hq. apply does_run. intros r m _. by stays Hq.
  - unfold wizard_step. by stays Hq.
  - unfold onVerifyForm, wizard_result, wizard_step. stays Hq. apply does_run. intros r m _. by stays Hq.
  - unfold onLinkWaiting, wizard_result, wizard_step. destruct e; stays Hq.
    eapply does_mono; [by apply reload_stays|]. intros []. done.
Qed.

(** On the other screens there is no thread, and none is started. *)
Local Abbreviation threadless := (fun _ t' => linkThread (t_link t') = None).
Ltac idle Hk := repeat walk; try exact Hk; try (match goal with p : page |- _ => destruct p end; exact Hk).

Lemma reload_idle t : 0 <= selected (t_list t) -> linkThread (t_link t) = None -> does (reload opens db_fault) t threadless.
Proof. intros Hl Hk. by apply does_reload. Qed.

Lemma onEditor_idle p e t : tui_ok t -> t_screen t = screen_of p -> linkThread (t_link t) = None ->
  does (onEditor lang configPath opens db_fault spawns program p e) t threadless.
Proof.
  intros Hok Hs Hk. pose proof (ok_editor t Hok p Hs) as Hed. pose proof (ok_list t Hok) as [H0 _]. unfold onEditor. walk. walk.
  destruct (saveDone (editor_of p t)).
  { do 5 walk. apply does_refresh. intros x m _ _. walk. apply does_reload; [by destruct p|]. intros s m' _ _ _. by idle Hk. }
  destruct (bool_decide (e = Escape)); [by idle Hk|]. destruct (bool_decide (e = CtrlO)).
  { walk. assert (does (save_page lang configPath spawns program p) t threadless) as Hsave.
    { unfold save_page. repeat walk. apply does_save. intros r m _ _. by idle Hk. }
    apply (does_mono _ _ (fun _ t2 => linkThread (t_link t2) = None)); [|done].
    destruct p; [|exact Hsave]. unfold saveConfig. do 3 walk.
    destruct (errors_ok (editValues (t_sip t)) (proj2 Hed)) as [errs E]. unfold does, of_outcome. cbn [editor_of]. rewrite E.
    destruct (bool_decide (errs = [])); [exact Hsave|exact Hk]. }
  destruct (bool_decide (e = ArrowDown \/ e = Tab)); [walk; apply does_modify, does_ret; by destruct p|].
  destruct (bool_decide (e = ArrowUp \/ e = TabReverse)); [walk; apply does_modify, does_ret; by destruct p|].
  walk. destruct Hed as [Hf _]. unfold active_field. rewrite bool_decide_eq_false_2 by lia.
  destruct (lookup_lt_is_Some_2 (fields_of p) (Z.to_nat (editField (editor_of p t)))) as [f Ef]; [lia|]. rewrite Ef.
  walk. walk; [|exact Hk]. walk. apply does_modify, does_ret. by destruct p.
Qed.

Lemma onConfirm_idle e t : tui_ok t -> linkThread (t_link t) = None ->
  does (onConfirm configPath opens db_fault spawns program e) t threadless.
Proof.
  intros Hok Hk. pose proof (ok_list t Hok) as [H0 _]. unfold onConfirm, to_list. repeat walk; try exact Hk.
  - apply does_reload; [done|]. intros s m _ _ _. by repeat walk.
  - apply does_pending; [intros r m verb _ _|intros _]; by repeat walk.
  - apply does_pending; [intros r m verb _ _|intros _]; by repeat walk.
Qed.

Lemma onList_idle e t : tui_ok t -> t_screen t = 0 -> linkThread (t_link t) = None -> does (onList opens db_fault e) t threadless.
Proof.
  intros Hok Hs Hk. pose proof (ok_list t Hok) as [H0 _]. unfold onList, select, openWizard. repeat walk; try exact Hk.
  - unfold openDetail. walk. walk. cbn. walk; [by apply does_ret|]. bdec. walk.
    destruct (selected_ok t Hok) as [a E]; [done|]. unfold does at 1. rewrite E. repeat walk. apply does_refresh. intros x m _ _. by repeat walk.
  - apply does_reload; [done|]. intros s m _ _ _. by repeat walk.
Qed.

Lemma onDetail_idle e t : linkThread (t_link t) = None -> does (onDetail e) t threadless.
Proof. intros Hk. unfold onDetail, openConfirm, openConfig, openSignalConfig. by repeat walk. Qed.

Lemma onEvent_clean e t : tui_ok t -> quit (t_list t) = false -> does (onEvent e) t (fun _ => quits_clean).
Proof.
  intros Hok Hq. unfold Tui.onEvent. walk. walk. walk; [by apply onWizard_stays|]. bdec.
  assert (linkThread (t_link t) = None) as Hk by (apply ok_no_thread; [done|]; by intros []).
  apply (does_mono _ _ threadless); [|by intros ? ? H _]. pose proof (ok_screen t Hok).
  repeat (walk; bdec); [by apply (onEditor_idle SipPage)|by apply (onEditor_idle SignalPage)|by apply onConfirm_idle|by apply onList_idle|by apply onDetail_idle].
Qed.

Lemma step_clean t t' : tui_ok t -> quits_clean t -> tui_step t t' -> quits_clean t'.
Proof.
  intros Hok Hc Hst. destruct Hst as [e u Hq _|u l Hl|u d].
  - pose proof (onEvent_clean e u Hok Hq) as H. unfold does in H. by destruct (onEvent e u) as [[] ?].
  - intros Hq. apply thread_step_some in Hl as [[x Hx] _]. by rewrite (Hc Hq) in Hx.
  - exact Hc.
Qed.

Lemma reachable_clean d t : rtc tui_step (start opens db_fault d) t -> quits_clean t.
Proof.
  intros H. assert (tui_ok t /\ quits_clean t) as [_ Hc]; [|done]. revert H.
  apply (rtc_invariant _ (fun t => tui_ok t /\ quits_clean t)).
  - intros t1 t2 [H1 H2] Hst. split; [by eapply step_ok|by eapply step_clean].
  - split; [apply start_ok|]. intros _. unfold start. destruct (reload_reads opens db_fault (blank_tui d)) as (s & m & -> & _); done.
Qed.

(** Keys pressed one after the other. *)
Fixpoint press (es : list Event) (t : tui) : tui :=
  match es with [] => t | e :: es => press es (onEvent e t).2 end.
Fixpoint pressable (es : list Event) (t : tui) : bool :=
  match es with
  | [] => true
  | e :: es => negb (quit (t_list t)) && is_ok (onEvent e t).1 && pressable es (onEvent e t).2
  end.
Lemma press_reaches es t : pressable es t = true -> rtc tui_step t (press es t).
Proof.
  revert t. induction es as [|e es IH]; intros t H; [apply rtc_refl|]. cbn [pressable] in H.
  apply andb_prop in H as [[Hq Hok]%andb_prop Hrest]. eapply rtc_l; [|by apply IH].
  apply StepKey; [by apply negb_true_iff|done].
Qed.

(** C20: what the interface makes gendb do is what the user asked for on the
    screen shown: one key runs nothing, the confirmed action on the account
    shown, one [config set] per field of an editor that was changed and has no
    errors, or the wizard's step; the database changes in no other way; and an
    account is deleted only by Return after its whole name was typed. *)
Theorem commands_are_asked_for d t e (Hreach : rtc tui_step (start opens db_fault d) t) :
  exists new, m_runs (t_machine (onEvent e t).2) = m_runs (t_machine t) ++ new /\
    Forall (asked_for t e) new /\ (new = [] -> m_db (t_machine (onEvent e t).2) = m_db (t_machine t)) /\
    forall args, args ∈ new -> args !! 3%nat = Some "delete-account"%string ->
      e = Return /\ pending (t_confirm t) = DeleteAccount /\ typedConfirm (t_confirm t) = detailName (t_detail t) /\
      args !! 2%nat = Some (detailName (t_detail t)).
Proof.
  pose proof (onEvent_ran e t (reachable_ok d t Hreach)) as H. unfold does in H.
  destruct (onEvent e t) as [[b|] t'] eqn:E; [|done]. destruct H as (new & Hr & Hall & Hdb).
  exists new. repeat (split; [done|]). intros args Hin Hverb.
  apply (proj1 (Forall_forall _ _) Hall) in Hin as [(_ & _ & verb & Hv & -> & Hif)|[(p & f & _ & _ & _ & _ & -> & _)|(_ & _ & rest & -> & Hrest)]].
  - cbn in Hverb. injection Hverb as ->. assert (pending (t_confirm t) = DeleteAccount) as Hp by (by destruct (pending _)).
    rewrite bool_decide_eq_true_2 in Hif by done. destruct Hif as [-> Ht]. by repeat split.
  - done.
  - destruct (wizardStep _); try done; [destruct Hrest as [-> _]|subst rest..]; done.
Qed.
End safety.

(** ** Witnesses *)

(** gendb succeeds and changes nothing; nothing fails. *)
Definition still (n : nat) (args : list string) (d : db) : string * wait_status * db := ("done"%string, Exited 0, d).
Definition calm (n : nat) : plan := mkPlan true true 77 ["a"; "b"]%string (Exited 0) [] (Signaled 15).
Definition one_row : db := set_account (insert "ab"%string column_defaults) empty_db.

Abbreviation pressed es := (press EN "/c" (fun _ => true) (fun _ _ => false) (fun _ => Starts) still calm es
  (start (fun _ => true) (fun _ _ => false) one_row)).
Abbreviation pressable_from_start es := (pressable EN "/c" (fun _ => true) (fun _ _ => false) (fun _ => Starts) still calm es
  (start (fun _ => true) (fun _ _ => false) one_row)).

(** Opening the account, asking to delete it and typing its name. *)
Definition to_delete : list Event := [Return; Character "x"; Character "a"; Character "b"].

Lemma commands_are_asked_for_witness :
  let t := pressed to_delete in
  let t' := (Tui.onEvent EN "/c" (fun _ => true) (fun _ _ => false) (fun _ => Starts) still calm Return t).2 in
  m_runs (t_machine t') = m_runs (t_machine t) ++ [["--config"; "/c"; "ab"; "delete-account"]%string] /\
  exists new, m_runs (t_machine t') = m_runs (t_machine t) ++ new /\
    Forall (asked_for "/c" t Return) new /\ (new = [] -> m_db (t_machine t') = m_db (t_machine t)) /\
    forall args, args ∈ new -> args !! 3%nat = Some "delete-account"%string ->
      Return = Return /\ pending (t_confirm t) = DeleteAccount /\ typedConfirm (t_confirm t) = detailName (t_detail t) /\
      args !! 2%nat = Some (detailName (t_detail t)).
Proof.
  split; [vm_compute; reflexivity|].
  eapply (commands_are_asked_for EN "/c" (fun _ => true) (fun _ _ => false) (fun _ => Starts) still calm one_row).
  apply press_reaches. vm_compute. reflexivity.
Defined.

(** ** What the interface does that it should not *)

(** The read of a row fails on the third opening: the screen shows the error
    under the new name, and the previous account's record is still what the
    editor takes its values from. *)
Definition two_rows : db := set_account (fun m => insert "cd"%string column_defaults
  (insert "ab"%string (with_config column_defaults "" "pbx" "100" "pw" "" "" "disabled" "udp" "" false "" "" false) m)) empty_db.

Example stale_record :
  let t := press EN "/c" (fun n => negb (bool_decide (n = 4)%nat)) (fun _ _ => false) (fun _ => Starts) still calm
    [Return; Escape; ArrowDown; Return; Character "c"] (start (fun n => negb (bool_decide (n = 4)%nat)) (fun _ _ => false) two_rows) in
  detailName (t_detail t) = "cd"%string /\ str_nonempty (detailError (t_detail t)) = true /\
  editValues (t_sip t) !! "sip_host"%string = Some "pbx"%string /\ t_screen t = 3.
Proof. vm_compute. repeat split. Qed.

(** An error of the list stays on the screen after a reload that succeeds. *)
Example error_stays :
  let opens n := negb (bool_decide (n = 0)%nat) in
  let t := press EN "/c" opens (fun _ _ => false) (fun _ => Starts) still calm [Character "r"] (start opens (fun _ _ => false) one_row) in
  length (accounts (t_list t)) = 1%nat /\ str_nonempty (loadError (t_list t)) = true.
Proof. vm_compute. repeat split. Qed.

(** Backspace takes one byte: half of a character of two bytes stays. *)
Example half_a_character : type_key Backspace "é" <> Some EmptyString.
Proof. done. Qed.
