(* ===== verification/TuiScreens.v ===== *)
(** What the terminal interface draws (the [render...] functions of
    src/tui/main.cpp).

    A screen is a term of [Element], one constructor per FTXUI function the
    source calls; what FTXUI makes of it is not modelled. *)

From S2P Require Import Prelude Storage Config LinkCiphers QrLink GendbConfig I18n TuiLink Tui TuiSafety.


(** ** Elements and colours *)

Inductive Color := RGB (r g b : Z) | Black | White.
Definition kBg : Color := RGB 0x0f 0x12 0x18.
Definition kBgAlt : Color := RGB 0x17 0x1b 0x22.
Definition kBorder : Color := RGB 0x2b 0x32 0x3d.
Definition kFg : Color := RGB 0xda 0xdd 0xe3.
Definition kDim : Color := RGB 0x7e 0x87 0x99.
Definition kAccent : Color := RGB 0xe8 0xa3 0x3d.
Definition kGood : Color := RGB 0x5c 0xc9 0xa7.
Definition kBad : Color := RGB 0xe8 0x68 0x7a.
Definition kLinked : Color := RGB 0x9e 0xa6 0xc9.
Definition kActiveRow : Color := RGB 0x1c 0x22 0x2c.

Inductive Constraint := WidthEqual (n : Z) | WidthLess (n : Z) | HeightGreater (n : Z).

Inductive Element :=
| text (s : string) | paragraphAlignLeft (s : string) | separator | filler
| hbox (l : list Element) | vbox (l : list Element) | hflow (l : list Element)
| color (c : Color) (e : Element) | bgcolor (c : Color) (e : Element)
| size (c : Constraint) (e : Element) | flex (e : Element) | border (e : Element) | center (e : Element).

Local Open Scope string_scope.
Local Open Scope Z_scope.

(** std::toupper in the C locale; the bytes of other characters stay. *)
Definition toupper (c : ascii) : ascii :=
  if bool_decide (97 <= nat_of_ascii c <= 122)%nat then ch (nat_of_ascii c - 32) else c.
Fixpoint upper (s : string) : string :=
  match s with EmptyString => EmptyString | String c s' => String (toupper c) (upper s') end.

Definition keyHint_in (keyColor : Color) (k desc : string) : Element :=
  hbox [color keyColor (text ("[" +:+ upper k +:+ "]")); color kDim (text (" " +:+ desc +:+ "  "))].
Definition keyHint : string -> string -> Element := keyHint_in kAccent.

(** ** Dates *)

Definition leap (y : Z) : bool := (y mod 4 =? 0) && (negb (y mod 100 =? 0) || (y mod 400 =? 0)).

(** gmtime's year, month and day of a day counted from 1970-01-01. *)
Definition civil_of_days (z0 : Z) : Z * Z * Z :=
  let z := z0 + 719468 in
  let era := z / 146097 in
  let doe := z mod 146097 in
  let yoe := (doe - doe / 1460 + doe / 36524 - doe / 146096) / 365 in
  let doy := doe - (365 * yoe + yoe / 4 - yoe / 100) in
  let mp := (5 * doy + 2) / 153 in
  let m := if mp <? 10 then mp + 3 else mp - 9 in
  (yoe + era * 400 + (if m <=? 2 then 1 else 0), m, doy - (153 * mp + 2) / 5 + 1).

Definition two_digits (n : Z) : string := if n <? 10 then "0" +:+ to_string n else to_string n.

(** strftime's "%Y-%m-%d" in a buffer of 16 bytes; [None] when it does not fit
    (the buffer's content is unspecified then). *)
Definition date_text (epoch : Z) : option string :=
  let '(y, m, d) := civil_of_days (epoch / 86400) in
  let s := to_string y +:+ "-" +:+ two_digits m +:+ "-" +:+ two_digits d in
  if (String.length s <? 16)%nat then Some s else None.

Definition formatDate (epochSeconds : option Z) : string :=
  match epochSeconds with None => "—" | Some t => default "" (date_text t) end.

Section Screens.
Context (lang : Lang) (global : GlobalConfig).
Local Abbreviation t_ := (tr lang).

(** ** Cells *)

Definition mediaCell (a : ViewAccount) : Element :=
  if str_empty (v_sip_host a) then color kDim (text "—")
  else if str_eqb (v_sip_srtp a) "mandatory" then color kGood (text ("✓ " +:+ t_ SrtpMandatory))
  else if str_eqb (v_sip_srtp a) "optional" then color kAccent (text ("⚠ " +:+ t_ SrtpOptional))
  else color kAccent (text ("⚠ " +:+ t_ StatusDisabled)).

Definition enabledCell (a : ViewAccount) : Element :=
  if v_enabled a then color kFg (hbox [color kGood (text "● "); text (t_ StatusEnabled)])
  else color kDim (hbox [color kBorder (text "● "); text (t_ StatusDisabled)]).

Definition typeCell_of (flow : string) : Element :=
  if str_eqb flow "linked" then color kLinked (text (t_ TypeLinked))
  else if str_eqb flow "standalone" then color kFg (text (t_ TypePrimary))
  else color kDim (text "?").
Definition typeCell (a : ViewAccount) : Element := typeCell_of (v_flow a).

Definition signalingRow (a : AccountRecord) : Element :=
  if str_empty (sip_host a) then color kDim (text "—")
  else if str_eqb (sip_transport a) "tls" then color kGood (text "✓ TLS (sips:)")
  else color kAccent (text (t_ SignalingUdpInsecure)).

Definition mediaRow (a : AccountRecord) : Element :=
  if str_empty (sip_host a) then color kDim (text "—")
  else if str_eqb (sip_srtp a) "mandatory" then color kGood (text ("✓ SRTP " +:+ t_ SrtpMandatory))
  else let word := if str_eqb (sip_srtp a) "optional" then t_ SrtpOptional else t_ StatusDisabled in
       color kAccent (text (t_ MediaSrtpNotGuaranteedPrefix +:+ "(" +:+ word +:+ ")")).

(** ** Frames *)

Definition titlebar (title : string) : Element :=
  bgcolor kBgAlt (hbox [color kBorder (text "● "); color kBorder (text "● "); color kBorder (text "● "); color kDim (text title)]).
Definition rule : Element := color kBorder separator.
Definition footer_of (hints : list Element) : Element := bgcolor kBgAlt (hflow hints).
Definition body_of (b : Element) : Element := color kFg (bgcolor kBg (size (HeightGreater 3) (flex b))).
Definition frame (edge : Color) (parts : list Element) : Element := bgcolor kBg (color edge (border (vbox parts))).
Definition cursor_of (active : bool) : Element := color kAccent (text (if active then "▸ " else "  ")).
Definition row_of (active : bool) (row : Element) : Element := if active then bgcolor kActiveRow row else row.

(** ** Screen 1 *)

Definition list_row (selected : Z) (i : nat) (a : ViewAccount) : Element :=
  let sel := bool_decide (Z.of_nat i = selected) in
  row_of sel (hbox [cursor_of sel;
    color (if sel then kAccent else kFg) (size (WidthEqual 18) (text (v_name a)));
    color kFg (size (WidthEqual 16) (text (v_e164 a)));
    size (WidthEqual 9) (typeCell a); size (WidthEqual 12) (enabledCell a); flex (mediaCell a)]).

Definition renderList (s : listing) : Element :=
  let head := color kDim (hbox [size (WidthEqual 2) (text ""); size (WidthEqual 18) (text (t_ ColName)); size (WidthEqual 16) (text "E.164");
    size (WidthEqual 9) (text (t_ ColType)); size (WidthEqual 12) (text (t_ ColStatus)); flex (text (t_ ColMedia))]) in
  let notice := if str_nonempty (loadError s) then [color kBad (text (t_ DbReadError +:+ loadError s))]
    else if bool_decide (accounts s = []) then [color kDim (text (t_ NoAccounts))] else [] in
  frame kBorder [titlebar ("  signal2sip-tui — " +:+ dbPath global); rule;
    body_of (color kFg (vbox ([head; rule] ++ notice ++ imap (list_row (selected s)) (accounts s))%list)); rule;
    footer_of [text " "; keyHint "↑↓" (t_ FooterSelect); keyHint "↵" (t_ FooterDetails); keyHint "n" (t_ FooterNew);
      keyHint "r" (t_ FooterRefresh); keyHint "q" (t_ FooterQuit)]].

(** ** Screen 2 *)

Definition kv (label : string) (value : Element) : Element := hbox [color kDim (size (WidthEqual 16) (text label)); value].

Definition is_linked (a : AccountRecord) : bool := bool_decide (flow a = Some "linked").

Definition id_rows (a : AccountRecord) : list Element := [
  kv "E.164" (color kFg (text (e164 a))); kv "ACI" (color kDim (text (aci a)));
  kv (t_ ColType) (typeCell_of (default "" (flow a)));
  kv (if is_linked a then t_ DetailLinkedAt else t_ DetailRegisteredAt)
     (color kFg (text (formatDate (if is_linked a then linked_at a else registered_at a))))].

Definition status_rows (a : AccountRecord) : list Element :=
  (kv (t_ DetailEnabled) (if enabled a then color kFg (hbox [color kGood (text "● "); text (t_ YesWord)])
                          else color kDim (hbox [color kBorder (text "● "); text (t_ NoWord)])) ::
   if str_empty (sip_host a) then [kv "SIP" (color kDim (text (t_ DetailSipNone)))]
   else [kv "SIP" (color kFg (text (sip_extension a +:+ "@" +:+ sip_host a)));
         kv (t_ DetailSignaling) (signalingRow a); kv (t_ DetailMedia) (mediaRow a)])%list.

Definition renderDetail (x : detailing) : Element :=
  let a := detail x in
  let body := if str_nonempty (detailError x) then [color kBad (text (t_ AccountReadError +:+ detailError x))]
    else [color kDim (text (t_ SectionIdentity)); vbox (id_rows a); text "";
          color kDim (text (t_ SectionStatus)); vbox (status_rows a)] in
  frame kBorder [titlebar (t_ DetailTitlebar +:+ detailName x); rule; body_of (vbox body); rule;
    footer_of [text " "; keyHint "c" (t_ FooterConfigureSip); keyHint "s" (t_ FooterSignalSettings);
      keyHint "d" (if enabled a then t_ FooterDisable else t_ FooterEnable); keyHint "u" "deactivate"];
    footer_of [text " "; hbox [color kBad (text "[X]"); color kBad (text (" " +:+ t_ FooterDeleteAccount))];
      keyHint "esc" (t_ FooterBack)]].

(** ** Screen 3 *)

Definition actionTitle (action : PendingAction) (nm : string) : string :=
  match action with
  | Enable => format1 lang ActionEnableTitle nm | Disable => format1 lang ActionDisableTitle nm
  | Deactivate => format1 lang ActionDeactivateTitle nm | DeleteAccount => format1 lang ActionDeleteTitle nm
  | NoAction => ""
  end.
Definition actionBody (action : PendingAction) : string :=
  match action with
  | Enable => t_ ActionEnableBody | Disable => t_ ActionDisableBody | Deactivate => t_ ActionDeactivateBody
  | DeleteAccount => t_ ActionDeleteBody | NoAction => ""
  end.

Definition clipped (n : nat) (out : string) : string :=
  if (n <? String.length out)%nat then String.substring 0 n out +:+ "…" else out.

(** The line with the exit code; [failed] is the text for a failure. *)
Definition result_line (failed : Key) (r : GendbResult) : Element :=
  color (if bool_decide (exitCode r = 0) then kGood else kBad)
    (text (if bool_decide (exitCode r = 0) then t_ ResultDone else format1 lang failed (to_string (exitCode r)))).

Definition renderConfirm (nm : string) (c : confirming) : Element :=
  let severe := bool_decide (pending c = DeleteAccount) in
  let body := match lastResult c with
    | Some r => [result_line ResultError r; text ""; color kDim (paragraphAlignLeft (clipped 2000 (output r))); text "";
                 color kDim (text (t_ AnyKeyToList))]
    | None => (color kFg (paragraphAlignLeft (actionBody (pending c))) ::
        if severe then [text ""; hbox [color kDim (text (t_ TypeAccountName)); color kAccent (text (typedConfirm c));
                                       color kAccent (text "█")]] else [])%list
    end in
  let head := bgcolor kBgAlt (color (if severe then kBad else kAccent)
    (text (" " +:+ match lastResult c with Some _ => t_ ConfirmAccountLabel +:+ nm | None => actionTitle (pending c) nm end))) in
  let footer := match lastResult c with
    | Some _ => bgcolor kBgAlt (color kDim (text (" " +:+ t_ AnyKeyToList +:+ " ")))
    | None =>
      if severe then footer_of [text " "; keyHint "esc" (t_ FooterCancel);
        if str_eqb (typedConfirm c) nm then keyHint_in kBad "enter" (t_ EnterDelete) else color kDim (text (t_ TypeNameInFull))]
      else footer_of [text " "; keyHint "esc" (t_ FooterCancel); keyHint "y" (t_ FooterConfirm)]
    end in
  bgcolor kBgAlt (center (bgcolor kBg (color (if severe then kBad else kBorder) (border
    (vbox [head; rule; size (WidthEqual 60) (vbox body); rule; footer]))))).

(** ** Screens 4 and 6 *)

Definition required_field (k : string) : bool := one_of k ["sip_host"; "sip_extension"; "sip_password"].

(** What is shown of a value. *)
Definition shown_value (f : ConfigFieldDef) (active : bool) (value : string) : string :=
  let display := if bool_decide (kind f = Masked) && str_nonempty value
    then String.string_of_list_ascii (replicate (String.length value) "*"%char) else value in
  (if str_empty display then "—" else display) +:+ (if active then "█" else "").

Definition config_row (inUse : bool) (v : values) (active_index : Z) (i : nat) (f : ConfigFieldDef) : outcome Element :=
  let active := bool_decide (Z.of_nat i = active_index) in
  let req := inUse && required_field (key f) in
  value ← at_key v (key f);
  let missing := req && str_empty value in
  mret (row_of active (hbox [cursor_of active; color (if missing then kBad else kDim) (text (if req then "* " else "  "));
    color kDim (size (WidthEqual 24) (text (label f)));
    color (if active then kAccent else kFg) (text (shown_value f active value))])).

Fixpoint each_row (row : nat -> ConfigFieldDef -> outcome Element) (i : nat) (fs : list ConfigFieldDef) : outcome (list Element) :=
  match fs with
  | [] => mret []
  | f :: fs => r ← row i f; rs ← each_row row (S i) fs; mret (r :: rs)
  end.

Definition saved_notice (e : editor) : list Element :=
  if saveDone e then
    [text ""; color (if saveOk e then kGood else kBad) (text (if saveOk e then t_ ConfigSaved else t_ ConfigSaveError));
     color kDim (paragraphAlignLeft (clipped 1500 (saveOutput e))); text ""; color kDim (text (t_ AnyKeyBackToAccount))]
  else [].

Definition spaced (l : list Element) : list Element := match l with [] => [] | _ => text "" :: l end.

Definition renderConfig (nm : string) (e : editor) : outcome Element :=
  inUse ← sipFieldsInUse (editValues e);
  errs ← configErrors (editValues e);
  warns ← configWarnings (editValues e);
  rows ← each_row (config_row inUse (editValues e) (editField e)) 0 kConfigFields;
  mret (frame (if bool_decide (errs = []) then kBorder else kBad) [titlebar (t_ ConfigTitlebar +:+ nm); rule;
    body_of (vbox ([vbox rows] ++ spaced (map (fun k => color kBad (text ("✗ " +:+ t_ k))) errs) ++
      spaced (map (fun k => color kAccent (text ("⚠ " +:+ t_ k))) warns) ++ saved_notice e)%list); rule;
    footer_of [text " "; keyHint "↑↓/tab" (t_ FooterField); color kDim (text (t_ FooterTextType));
      keyHint "↵" (t_ FooterListCycles); keyHint "^o" (t_ FooterSave); keyHint "esc" (t_ FooterBack)]]).

Definition signal_row (v : values) (active_index : Z) (i : nat) (f : ConfigFieldDef) : outcome Element :=
  let active := bool_decide (Z.of_nat i = active_index) in
  value ← at_key v (key f);
  mret (row_of active (hbox [cursor_of active; color kDim (size (WidthEqual 32) (text (label f)));
    color (if active then kAccent else kFg) (text ((if str_empty value then "—" else value) +:+ (if active then "█" else "")))])).

Definition renderSignalConfig (nm : string) (e : editor) : outcome Element :=
  rows ← each_row (signal_row (editValues e) (editField e)) 0 kSignalConfigFields;
  mret (frame kBorder [titlebar (t_ SignalConfigTitlebar +:+ nm); rule;
    body_of (vbox (vbox rows :: saved_notice e)); rule;
    footer_of [keyHint "↑↓/tab" (t_ FooterField); color kDim (text (t_ SignalConfigTypeText));
      keyHint "↵" (t_ FooterListCycles); keyHint "^o" (t_ FooterSave); keyHint "esc" (t_ FooterBack)]]).

(** ** Screen 5: the output of the link child *)

Definition esc : ascii := ch 27.
Definition newline_ : ascii := ch 10.

(** The loop over the bytes; [skipping] is the inner loop up to the 'm'. *)
Fixpoint strip_ansi (skipping : bool) (s : string) : string :=
  match s with
  | EmptyString => EmptyString
  | String c s' =>
    if skipping then strip_ansi (negb (bool_decide (c = "m"%char))) s'
    else match s' with
         | String "[" s'' => if bool_decide (c = esc) then strip_ansi true s'' else String c (strip_ansi false s')
         | _ => String c (strip_ansi false s')
         end
  end.
Definition stripAnsi : string -> string := strip_ansi false.

Fixpoint utf8ColumnWidth (s : string) : Z :=
  match s with
  | EmptyString => 0
  | String c s' => (if bool_decide (Z.land (Z.of_nat (nat_of_ascii c)) 0xC0 = 0x80) then 0 else 1) + utf8ColumnWidth s'
  end.

(** The segments between the newlines, the last one included. *)
Fixpoint lines_of (s : string) : list string :=
  match s with
  | EmptyString => [EmptyString]
  | String c s' =>
    if bool_decide (c = newline_) then EmptyString :: lines_of s'
    else match lines_of s' with l :: ls => String c l :: ls | [] => [String c EmptyString] end
  end.

(** [s.find(p)]: what is before and behind the first occurrence. *)
Fixpoint find_sub (p s : string) : option (string * string) :=
  match strip_prefix p s with
  | Some rest => Some (EmptyString, rest)
  | None => match s with
            | EmptyString => None
            | String c s' => match find_sub p s' with Some (a, b) => Some (String c a, b) | None => None end
            end
  end.

Definition kQrStart : string := String esc "[30;107m".
Definition kQrEnd : string := String esc "[0m".

Definition emitPlainLines (segment : string) : list Element := map (fun l => color kFg (text l)) (lines_of (stripAnsi segment)).
Definition qr_line (l : string) : Element := size (WidthEqual (utf8ColumnWidth l)) (bgcolor White (color Black (text l))).

Definition pushLines (rawOut : string) : list Element :=
  match find_sub kQrStart rawOut with
  | None => emitPlainLines rawOut
  | Some (before, rest) =>
    match find_sub kQrEnd rest with
    | None => emitPlainLines rawOut
    | Some (qrBlock, after) => emitPlainLines before ++ map qr_line (lines_of qrBlock) ++ emitPlainLines after
    end
  end%list.

(** ** Screen 5 *)

Definition fieldRow (lbl value : string) (active : bool) : Element :=
  row_of active (hbox [cursor_of active; color kDim (size (WidthEqual 20) (text lbl));
    color (if active then kAccent else kFg) (text (value +:+ (if active then "█" else "")))]).

Definition error_lines (e : option Key) : list Element :=
  match e with Some k => [text ""; color kBad (text ("✗ " +:+ t_ k))] | None => [] end.

Definition result_body (r : option GendbResult) : list Element :=
  match r with
  | Some r => [result_line ResultError r; text ""; color kFg (paragraphAlignLeft (output r))]
  | None => []
  end.

Definition any_key_footer : Element := bgcolor kBgAlt (color kDim (text (" " +:+ t_ AnyKeyToList +:+ " "))).

(** The title's end, the body and the footer of a step. *)
Definition wizard_page (w : wizard) (l : link) : string * list Element * Element :=
  match wizardStep w with
  | ChooseType =>
    (t_ WizardNewAccount,
     ([fieldRow (t_ FieldAccountName) (wizName w) (bool_decide (wizField w = 0));
       fieldRow (t_ FieldMethod) (if wizLink w then "link (QR)" else t_ MethodRegister) (bool_decide (wizField w = 1));
       text ""; color kDim (text (t_ WizardNameHint))] ++ error_lines (wizError w))%list,
     footer_of [text " "; keyHint "↑↓" (t_ FooterField); keyHint "↵" (t_ FooterToggleMethod); keyHint "^o" (t_ FooterNext);
       keyHint "esc" (t_ FooterCancel)])
  | RegisterForm =>
    (t_ WizardRegistration +:+ wizName w,
     ([fieldRow "e164 (+...)" (wizE164 w) (bool_decide (wizField w = 0));
       fieldRow (t_ FieldCodeMethod) (wizTransport w) (bool_decide (wizField w = 1))] ++ error_lines (wizError w))%list,
     footer_of [text " "; keyHint "↑↓" (t_ FooterField); keyHint "↵" (t_ FooterToggleCodeMethod); keyHint "^o" (t_ FooterRegister);
       keyHint "esc" (t_ FooterCancel)])
  | RegisterResult =>
    (t_ WizardResult +:+ wizName w, result_body (wizResult w),
     footer_of [text " "; keyHint "g" "captcha"; keyHint "v" (t_ FooterEnterCode); keyHint "esc" (t_ FooterToList)])
  | CaptchaResult =>
    (t_ WizardResult +:+ wizName w, result_body (wizResult w),
     footer_of [text " "; keyHint "v" (t_ FooterEnterCode); keyHint "esc" (t_ FooterToList)])
  | CaptchaForm =>
    ("captcha: " +:+ wizName w,
     [color kDim (paragraphAlignLeft (t_ CaptchaInstructions)); text ""; fieldRow (t_ FieldToken) (wizCaptchaToken w) true],
     footer_of [color kDim (text (t_ FooterTypeToken)); keyHint "^o" (t_ FooterSubmit); keyHint "esc" (t_ FooterCancel)])
  | VerifyForm =>
    (t_ WizardVerify +:+ wizName w, [fieldRow (t_ FieldSmsCode) (wizVerifyCode w) true],
     footer_of [color kDim (text (t_ FooterTypeCode)); keyHint "^o" (t_ FooterConfirm); keyHint "esc" (t_ FooterCancel)])
  | VerifyResult => (t_ WizardResult +:+ wizName w, result_body (wizResult w), any_key_footer)
  | LinkWaiting =>
    (t_ WizardLinking +:+ wizName w,
     ([color kDim (text (t_ LinkWaitingInstructions)); text ""] ++ pushLines (linkOutput l))%list,
     footer_of [text " "; keyHint "esc" (t_ FooterCancelWaiting)])
  | LinkResult =>
    (t_ WizardLinking +:+ wizName w,
     match wizResult w with
     | Some r => ([result_line ResultErrorCancelled r; text ""] ++ pushLines (output r))%list
     | None => []
     end, any_key_footer)
  end.

Definition renderWizard (w : wizard) (l : link) : Element :=
  let '(titleSuffix, body, footer) := wizard_page w l in
  frame kBorder [titlebar (t_ WizardTitlebar +:+ titleSuffix); rule; body_of (vbox body); rule; footer].

(** ** The whole screen *)

Definition kMaxPanelWidth : Z := 110.
Definition panel (content : Element) : Element :=
  bgcolor kBg (hbox [filler; size (WidthLess kMaxPanelWidth) content; filler]).

Definition render (t : tui) : outcome Element :=
  if bool_decide (t_screen t = 0) then mret (panel (renderList (t_list t)))
  else if bool_decide (t_screen t = 1) then mret (panel (renderDetail (t_detail t)))
  else if bool_decide (t_screen t = 2) then mret (renderConfirm (detailName (t_detail t)) (t_confirm t))
  else if bool_decide (t_screen t = 3) then (e ← renderConfig (detailName (t_detail t)) (t_sip t); mret (panel e))
  else if bool_decide (t_screen t = 5) then (e ← renderSignalConfig (detailName (t_detail t)) (t_signal t); mret (panel e))
  else mret (panel (renderWizard (t_wizard t) (t_link t))).
End Screens.

(** ** Every state can be drawn *)

Section drawn.
Context (lang : Lang) (global : GlobalConfig).

Lemma at_key_ok v k : is_Some (v !! k) -> exists s, at_key v k = Ok s.
Proof. intros [s Hs]. exists s. unfold at_key. by rewrite Hs. Qed.

Lemma each_row_ok row fs i : (forall j f, f ∈ fs -> is_ok (row j f) = true) -> is_ok (each_row row i fs) = true.
Proof.
  revert i. induction fs as [|f fs IH]; intros i Hr; [done|]. cbn [each_row].
  pose proof (Hr i f (list_elem_of_here _ _)) as Hf. destruct (row i f) as [r|]; [|done]. cbn [mbind outcome_bind].
  specialize (IH (S i) (fun j g Hg => Hr j g (list_elem_of_further _ _ _ Hg))). by destruct (each_row row (S i) fs).
Qed.

Lemma sip_values_ok v : (forall f, f ∈ kConfigFields -> is_Some (v !! key f)) ->
  forall k, k ∈ key <$> kConfigFields -> exists s, at_key v k = Ok s.
Proof. intros Hv k (f & -> & Hf)%list_elem_of_fmap. by apply at_key_ok, Hv. Qed.

Lemma used_ok v : (forall f, f ∈ kConfigFields -> is_Some (v !! key f)) -> is_ok (sipFieldsInUse v) = true.
Proof.
  intros Hv. pose proof (sip_values_ok v Hv) as Hk. unfold sipFieldsInUse.
  destruct (Hk "sip_host") as [h ->]; [repeat constructor|]. destruct (Hk "sip_extension") as [x ->]; [repeat constructor|].
  destruct (Hk "sip_password") as [p ->]; [repeat constructor|]. cbn. by destruct (str_nonempty h); [|destruct (str_nonempty x)].
Qed.

Lemma warnings_ok v : (forall f, f ∈ kConfigFields -> is_Some (v !! key f)) -> is_ok (configWarnings v) = true.
Proof.
  intros Hv. pose proof (sip_values_ok v Hv) as Hk. unfold configWarnings.
  destruct (Hk "sip_bridge_destination") as [h ->]; [repeat constructor|]. destruct (Hk "sip_bridge_did") as [x ->]; [repeat constructor|].
  cbn. by destruct (str_empty h).
Qed.

Lemma render_ok t : tui_ok t -> is_ok (render lang global t) = true.
Proof.
  intros [_ _ Hed _]. unfold render. repeat (case_bool_decide; [try done|]); [| |done].
  - destruct (Hed SipPage) as [_ Hv]; [done|]. cbn [editor_of fields_of] in Hv. unfold renderConfig.
    pose proof (used_ok _ Hv) as Hu. pose proof (warnings_ok _ Hv) as Hw. destruct (errors_ok _ Hv) as [errs ->].
    destruct (sipFieldsInUse _) as [u|]; [|done]. destruct (configWarnings _) as [w|]; [|done]. cbn [mbind outcome_bind].
    assert (is_ok (each_row (config_row u (editValues (t_sip t)) (editField (t_sip t))) 0 kConfigFields) = true) as Hrows.
    { apply each_row_ok. intros j f Hf. unfold config_row. by destruct (at_key_ok _ _ (Hv f Hf)) as [x ->]. }
    by destruct (each_row _ 0 kConfigFields).
  - destruct (Hed SignalPage) as [_ Hv]; [done|]. cbn [editor_of fields_of] in Hv. unfold renderSignalConfig.
    assert (is_ok (each_row (signal_row (editValues (t_signal t)) (editField (t_signal t))) 0 kSignalConfigFields) = true) as Hrows.
    { apply each_row_ok. intros j f Hf. unfold signal_row. by destruct (at_key_ok _ _ (Hv f Hf)) as [x ->]. }
    by destruct (each_row _ 0 kSignalConfigFields).
Qed.

Context (configPath : string).
Context (opens : nat -> bool) (db_fault : nat -> nat -> bool).
Context (spawns : nat -> spawn) (program : nat -> list string -> db -> string * wait_status * db) (plans : nat -> plan).

Local Abbreviation onEvent := (onEvent lang configPath opens db_fault spawns program plans).
Local Abbreviation tui_step := (tui_step lang configPath opens db_fault spawns program plans).

(** C22: the interface never fails: in every state it can reach, whatever the
    keys, the link thread's steps and the changes of the database by others,
    every key is handled and the screen is drawn without an exception; the
    selected row, the active field and every field read from a form exist; a
    link thread only exists on the wizard's screen, and none is left when the
    interface quits, so that the clean-up after the loop has nothing to do. *)
Theorem tui_never_fails d t e (Hreach : rtc tui_step (start opens db_fault d) t) :
  is_ok (onEvent e t).1 = true /\ is_ok (render lang global t) = true /\
  (accounts (t_list t) <> [] -> is_Some (accounts (t_list t) !! Z.to_nat (selected (t_list t)))) /\
  (forall p, t_screen t = screen_of p -> editor_ok p (editor_of p t)) /\
  (t_screen t <> 4 -> linkThread (t_link t) = None) /\ (quit (t_list t) = true -> leave (t_link t) = t_link t).
Proof.
  pose proof (reachable_ok lang configPath opens db_fault spawns program plans d t Hreach) as Hok. split.
  { pose proof (onEvent_ok lang configPath opens db_fault spawns program plans e t Hok) as H. unfold does in H. by destruct (onEvent e t) as [[] ?]. }
  split; [by apply render_ok|]. split.
  { intros Hne. apply lookup_lt_is_Some_2. destruct (ok_list t Hok). destruct (accounts (t_list t)); [done|]. cbn in *. lia. }
  split; [apply Hok|]. split; [intros Hs; apply ok_no_thread; [done|]; by intros []|].
  intros Hq. unfold leave. by rewrite (reachable_clean lang configPath opens db_fault spawns program plans d t Hreach Hq).
Qed.

End drawn.

(** *** Witness *)

Definition some_global : GlobalConfig := mkGlobal "/x" "k" 0 86400 43200 30.

Lemma tui_never_fails_witness :
  is_ok (Tui.onEvent EN "/c" (fun _ => true) (fun _ _ => false) (fun _ => Starts) still calm Return (pressed to_delete)).1 = true /\
  is_ok (render EN some_global (pressed to_delete)) = true /\
  (accounts (t_list (pressed to_delete)) <> [] ->
     is_Some (accounts (t_list (pressed to_delete)) !! Z.to_nat (selected (t_list (pressed to_delete))))) /\
  (forall p, t_screen (pressed to_delete) = screen_of p -> editor_ok p (editor_of p (pressed to_delete))) /\
  (t_screen (pressed to_delete) <> 4 -> linkThread (t_link (pressed to_delete)) = None) /\
  (quit (t_list (pressed to_delete)) = true -> leave (t_link (pressed to_delete)) = t_link (pressed to_delete)).
Proof.
  eapply (tui_never_fails EN some_global "/c" (fun _ => true) (fun _ _ => false) (fun _ => Starts) still calm one_row).
  apply press_reaches. vm_compute. reflexivity.
Defined.


(** ** What is drawn of a password *)

(** Where the interface keeps a SIP password: the row shown, the form as it was
    opened, the form as it is typed into; and the database and the arguments
    of the children behind it. *)
Record passwords := mkPasswords { pw_row : string; pw_original : string; pw_typed : string; pw_machine : machine }.

(** The state with other passwords in all these places; what children printed
    (saveOutput, lastResult, wizResult, linkOutput) is not one of them. *)
Definition with_password (x : passwords) (t : tui) : tui :=
  let a := detail (t_detail t) in
  let a' := with_config a (server_url a) (sip_host a) (sip_extension a) (pw_row x) (sip_bridge_destination a) (sip_bridge_did a) (sip_srtp a)
    (sip_transport a) (sip_tls_ca_file a) (sip_tls_insecure a) (outgoing_call_target a) (signal_proxy a) (signal_censorship_circumvention a) in
  let e := t_sip t in
  mkTui (t_list t) (t_screen t) (mkDetailing a' (detailName (t_detail t)) (detailError (t_detail t)))
    (mkEditor (<["sip_password" := pw_typed x]> (editValues e)) (<["sip_password" := pw_original x]> (originalValues e))
       (editField e) (saveDone e) (saveOutput e) (saveOk e))
    (t_signal t) (t_confirm t) (t_wizard t) (t_link t) (pw_machine x).

Section masked.
Context (lang : Lang) (global : GlobalConfig) (v : values) (p q : string) (Hlen : String.length p = String.length q).

Lemma same_empty : str_empty p = str_empty q.
Proof using Hlen. clear -Hlen. destruct p, q; cbn in *; congruence. Qed.
Lemma same_nonempty : str_nonempty p = str_nonempty q.
Proof using Hlen. unfold str_nonempty. by rewrite same_empty. Qed.

Lemma at_other pw k : k <> "sip_password" -> at_key (<["sip_password" := pw]> v) k = at_key v k.
Proof. intros Hk. unfold at_key. by rewrite lookup_insert_ne. Qed.
Lemma at_password pw : at_key (<["sip_password" := pw]> v) "sip_password" = Ok pw.
Proof. unfold at_key. by rewrite lookup_insert_eq. Qed.

(** Reads of the other fields do not see the password. *)
Ltac others := repeat match goal with |- context [at_key (<["sip_password" := ?w]> v) ?k] => rewrite (at_other w k) by done end;
  rewrite ?at_password.

Lemma masked_used : sipFieldsInUse (<["sip_password" := p]> v) = sipFieldsInUse (<["sip_password" := q]> v).
Proof using Hlen. unfold sipFieldsInUse. others. cbn. by rewrite same_nonempty. Qed.

Lemma masked_errors : configErrors (<["sip_password" := p]> v) = configErrors (<["sip_password" := q]> v).
Proof using Hlen. unfold configErrors, required. rewrite masked_used. others. cbn. by rewrite same_empty. Qed.

Lemma masked_warnings : configWarnings (<["sip_password" := p]> v) = configWarnings (<["sip_password" := q]> v).
Proof using. unfold configWarnings. by others. Qed.

Lemma masked_row u n i f : f ∈ kConfigFields ->
  config_row u (<["sip_password" := p]> v) n i f = config_row u (<["sip_password" := q]> v) n i f.
Proof using Hlen.
  intros Hf. unfold config_row. destruct (decide (key f = "sip_password")) as [E|Hne]; [|by rewrite !at_other].
  rewrite E, !at_password. cbn [mbind outcome_bind]. rewrite same_empty.
  assert (kind f = Masked) as Hm.
  { apply list_elem_of_In in Hf. cbn in Hf. repeat (destruct Hf as [<-|Hf]; [by cbn in E|]). done. }
  unfold shown_value, str_nonempty. rewrite Hm, same_empty, Hlen. cbn [bool_decide andb]. rewrite (bool_decide_eq_true_2 (Masked = Masked)) by done.
  cbn [andb]. destruct (str_empty q) eqn:Eq; [|done]. cbn [negb]. by rewrite same_empty, Eq.
Qed.

Lemma masked_rows u n i fs : (forall f, f ∈ fs -> f ∈ kConfigFields) ->
  each_row (config_row u (<["sip_password" := p]> v) n) i fs = each_row (config_row u (<["sip_password" := q]> v) n) i fs.
Proof using Hlen.
  revert i. induction fs as [|f fs IH]; intros i Hin; [done|]. cbn [each_row].
  rewrite masked_row by (apply Hin; by left). rewrite IH by (intros; apply Hin; by right). done.
Qed.
End masked.

(** C37: the interface itself draws nothing of the SIP password but the length
    of the one in the form: two states that differ only in the passwords they
    keep (the one stored in the row on screen, the one the form was opened with,
    the one typed into it, and everything behind the interface: the database and
    the arguments of the children) look the same on every screen, as long as the
    typed ones are of the same length (one asterisk is drawn per byte).  This is
    about what the interface keeps: what a child printed is drawn as it is, and
    gendb prints a value it has set, so the result of saving a new password
    shows it ([echo_is_drawn]). *)
Theorem password_is_masked lang global t x y (Hlen : String.length (pw_typed x) = String.length (pw_typed y)) :
  render lang global (with_password x t) = render lang global (with_password y t).
Proof.
  unfold render, with_password. cbn [t_screen t_list t_detail t_sip t_signal t_confirm t_wizard t_link detailName].
  repeat (case_bool_decide; [try done|]); try done. unfold renderConfig. cbn [editValues editField saveDone saveOutput saveOk].
  rewrite (masked_used _ _ _ Hlen), (masked_errors _ _ _ Hlen), (masked_warnings _ (pw_typed x) (pw_typed y)).
  destruct (sipFieldsInUse _) as [u|]; [|done]. destruct (configErrors _) as [errs|]; [|done]. destruct (configWarnings _); [|done].
  cbn [mbind outcome_bind]. by rewrite (masked_rows _ _ _ Hlen) by done.
Qed.

Definition first_passwords : passwords := mkPasswords "stored" "stored" "abc" (mkMachine empty_db 0 []).
Definition other_passwords : passwords := mkPasswords "other" "else" "xyz" (mkMachine one_row 7 [["sip_password"; "xyz"]]%string).

Lemma password_is_masked_witness :
  let t := pressed [Return; Character "c"] in
  render EN some_global (with_password first_passwords t) = render EN some_global (with_password other_passwords t) /\
  at_key (editValues (t_sip (with_password first_passwords t))) "sip_password" = Ok "abc" /\
  at_key (editValues (t_sip (with_password other_passwords t))) "sip_password" = Ok "xyz".
Proof.
  intros t. split; [exact (password_is_masked EN some_global t first_passwords other_passwords eq_refl)|].
  split; vm_compute; reflexivity.
Defined.

(** What gendb says of a password it has set is drawn. *)
Definition saved_with (echo : string) : tui :=
  let t := pressed [Return; Character "c"] in
  let e := t_sip t in
  mkTui (t_list t) (t_screen t) (t_detail t) (mkEditor (editValues e) (originalValues e) (editField e) true echo true)
    (t_signal t) (t_confirm t) (t_wizard t) (t_link t) (t_machine t).
Example echo_is_drawn :
  render EN some_global (saved_with "[config] ab: sip_password=abc") <>
  render EN some_global (saved_with "[config] ab: sip_password=xyz").
Proof. vm_compute. congruence. Qed.

(** ** The QR code in the wizard *)

(** The bytes [printQrAscii] writes. *)
Definition glyph_text (g : glyph) : string := match g with Full => "█" | Upper => "▀" | Lower => "▄" | Blank => " " end.
Definition glyphs_text (l : list glyph) : string := foldr (fun g s => glyph_text g +:+ s) "" l.
Definition printed_text (x : printed) : string :=
  match x with Sgr code => String esc ("[" +:+ code +:+ "m") | Line l => glyphs_text l +:+ String newline_ "" end.
Definition qr_text (qr : QRcode) : string := foldr (fun x s => printed_text x +:+ s) "" (printQrAscii qr).

Lemma find_sub_fresh c p s rest : str_mem c s = false -> find_sub (String c p) (s +:+ String c p +:+ rest) = Some (s, rest).
Proof.
  induction s as [|a s IH]; intros Hs.
  - pose proof (strip_prefix_app (String c p) rest) as E. rewrite str_app_nil_l. destruct (String c p +:+ rest) eqn:Ec; [done|].
    cbn [find_sub]. by rewrite E.
  - cbn in Hs. apply orb_false_iff in Hs as [Ha Hs]. bdec. rewrite (str_app_cons a). cbn [find_sub strip_prefix].
    rewrite bool_decide_eq_false_2 by congruence. by rewrite IH.
Qed.

Lemma glyphs_fresh c l : c ∈ [esc; newline_] -> str_mem c (glyphs_text l) = false.
Proof.
  intros Hc. induction l as [|g l IH]; [done|]. cbn [glyphs_text foldr]. fold (glyphs_text l). rewrite str_mem_app, IH, orb_false_r.
  apply list_elem_of_In in Hc. cbn in Hc. by destruct Hc as [<-|[<-|[]]], g.
Qed.

Lemma glyphs_width l : utf8ColumnWidth (glyphs_text l) = Z.of_nat (length l).
Proof.
  induction l as [|g l IH]; [done|]. cbn [glyphs_text foldr]. fold (glyphs_text l). destruct g; cbn [glyph_text];
    rewrite ?str_app_cons, str_app_nil_l; cbn [utf8ColumnWidth]; rewrite IH; cbn [length];
    repeat match goal with |- context [bool_decide (Z.land ?x ?y = ?z)] =>
      let b := eval vm_compute in (bool_decide (Z.land x y = z)) in change (bool_decide (Z.land x y = z)) with b; cbv iota end; lia.
Qed.

Lemma lines_of_line l rest : str_mem newline_ l = false -> lines_of (l +:+ String newline_ rest) = l :: lines_of rest.
Proof.
  induction l as [|c l IH]; intros Hl.
  - rewrite str_app_nil_l. cbn [lines_of]. by rewrite bool_decide_eq_true_2.
  - cbn in Hl. apply orb_false_iff in Hl as [Hc Hl]. rewrite str_app_cons. cbn [lines_of]. bdec.
    rewrite bool_decide_eq_false_2 by done. by rewrite IH.
Qed.

Definition block_text (ls : list (list glyph)) : string := foldr (fun x s => printed_text (Line x) +:+ s) "" ls.

Lemma block_fresh ls : str_mem esc (block_text ls) = false.
Proof.
  induction ls as [|l ls IH]; [done|]. cbn [block_text foldr]. fold (block_text ls). unfold printed_text.
  rewrite !str_mem_app, IH, glyphs_fresh by (repeat constructor). done.
Qed.

Lemma block_lines ls : lines_of (block_text ls) = (map glyphs_text ls ++ [""])%list.
Proof.
  induction ls as [|l ls IH]; [done|]. cbn [block_text foldr]. fold (block_text ls). unfold printed_text.
  rewrite str_app_assoc, str_app_cons, str_app_nil_l, lines_of_line by (apply glyphs_fresh; repeat constructor). by rewrite IH.
Qed.

Lemma qr_text_block qr : qr_text qr = kQrStart +:+ block_text (qr_lines qr) +:+ kQrEnd.
Proof.
  unfold qr_text, printQrAscii. cbn [foldr]. change (printed_text (Sgr "30;107")) with kQrStart. f_equal.
  induction (qr_lines qr) as [|l ls IH]; [done|]. cbn [map app foldr block_text]. fold (block_text ls).
  by rewrite IH, str_app_assoc.
Qed.

(** The wizard shows the QR code gendb prints, module for module: whatever
    gendb printed before it (without escape sequences) and prints after it, the
    printed lines of the code, quiet zone included, are drawn black on white,
    each as it is and as wide as it has glyphs, followed by one empty line; no
    byte of the colour codes is drawn. *)
Lemma qr_shown_in_wizard qr before after (Hbefore : str_mem esc before = false) :
  pushLines (before +:+ qr_text qr +:+ after) =
    (emitPlainLines before ++
     map (fun l => size (WidthEqual (Z.of_nat (length l))) (bgcolor White (color Black (text (glyphs_text l))))) (qr_lines qr) ++
     [qr_line ""] ++ emitPlainLines after)%list.
Proof.
  unfold pushLines. rewrite qr_text_block, !str_app_assoc. unfold kQrStart at 1 2. rewrite find_sub_fresh by done.
  unfold kQrEnd at 1 2. rewrite find_sub_fresh by apply block_fresh. f_equal. rewrite block_lines, map_app, <- app_assoc. f_equal.
  rewrite map_map. apply map_ext. intros l. unfold qr_line. by rewrite glyphs_width.
Qed.

Definition tiny_code : QRcode := mkQR 1 [1].

Lemma qr_shown_in_wizard_witness :
  pushLines ("scan" +:+ qr_text tiny_code +:+ "done") =
    (emitPlainLines "scan" ++
     map (fun l => size (WidthEqual (Z.of_nat (length l))) (bgcolor White (color Black (text (glyphs_text l))))) (qr_lines tiny_code) ++
     [qr_line ""] ++ emitPlainLines "done")%list.
Proof. exact (qr_shown_in_wizard tiny_code "scan" "done" eq_refl). Defined.
