(* ===== verification/TuiGendb.v ===== *)
(** The terminal interface over the gendb program it runs: what saving a form
    leaves in the database, and what the daemon makes of it. *)

From S2P Require Import Prelude Storage Config AuthSocket ProtocolStores CallSignaling Crypto PreKeys LinkCiphers Handles Provisioning Registration AccountFinisher GendbConfig Gendb GendbSettings I18n TuiLink Tui TuiSafety.

Open Scope Z_scope.

(** ** The child program *)

(** A gendb process: it starts with nothing but the database, and what it
    printed comes back as text. *)
Definition fresh_gendb (d : db) : gendb :=
  mkGendb (mkP (mkConn d None 0) ∅ 0 0) (mkRegistrar (mkHeap ∅ 0 0) 0 0 None []) Socket.fresh_sock [] ∅ 0 [].

Definition gendb_child (env : nat -> environment) (exists_ can_append : string -> bool)
    (loads : db -> option (list string) -> outcome DaemonConfig) (files : string -> boot) (printed : Z -> list note -> string)
    (n : nat) (args : list string) (d : db) : string * wait_status * db :=
  let '(code, _, g') := gendb_main args exists_ can_append (loads d) (env n) files (fresh_gendb d) in
  (printed code (g_said g'), Exited code, committed (conn_of g')).

(** No argument that gendb takes for an option. *)
Definition no_help (s : string) : Prop := one_of s ["--help"; "-h"]%string = false.
Definition no_option (s : string) : Prop := one_of s ["--help"; "-h"; "--e164"; "--config"]%string = false.

Lemma no_option_spec s : no_option s -> no_help s /\ str_eqb s "--e164" = false /\ str_eqb s "--config" = false.
Proof.
  unfold no_option, no_help. rewrite !one_of_cons.
  destruct (str_eqb s "--help"), (str_eqb s "-h"), (str_eqb s "--e164"), (str_eqb s "--config"); done.
Qed.

(** gendb reads the interface's [config set] as it is meant. *)
Lemma parse_set path nm fld v : no_option nm -> no_option fld ->
  parseArgs ["--config"; path; nm; "config"; "set"; fld; v]%string =
  Ok (mkArgs nm "config" ["set"; fld; v]%string EmptyString path).
Proof.
  intros (_ & H1 & H2)%no_option_spec (_ & H3 & H4)%no_option_spec. unfold parseArgs. cbn -[str_eqb].
  change (str_eqb "--config" "--e164") with false. change (str_eqb "--config" "--config") with true.
  cbn -[str_eqb]. rewrite H1, H2. cbn -[str_eqb].
  change (str_eqb "config" "--e164") with false. change (str_eqb "config" "--config") with false. cbn -[str_eqb].
  change (str_eqb "set" "--e164") with false. change (str_eqb "set" "--config") with false. cbn -[str_eqb].
  rewrite H3, H4. done.
Qed.

Lemma run_set env config nm fld v path :
  run_command env config (mkArgs nm "config" ["set"; fld; v]%string EmptyString path) = (cmdConfigSet env config nm fld v ;; mret 0).
Proof. reflexivity. Qed.

Section Child.
Context (env : nat -> environment) (exists_ can_append : string -> bool).
Context (loads : db -> option (list string) -> outcome DaemonConfig) (files : string -> boot) (printed : Z -> list note -> string).
Context (path : string).
(** The configuration file is complete and loads; nothing fails. *)
Context (Hpath : path <> EmptyString) (Hpath_help : no_help path).
Context (Hcomplete : str_nonempty (boot_values (files path)).1 = true /\ str_nonempty (boot_values (files path)).2 = true).
Context (Hloads : forall d, exists config, loads d (getlines <$> config_text (files path)) = Ok config).
Context (Hfault : forall n, env_fault (env n) = no_fault) (Hopen : forall n nm, env_open (env n) nm = true).

Local Abbreviation child := (gendb_child env exists_ can_append loads files printed).

Lemma bootstrap_nothing d can : bootstrapGlobalConfigIfNeeded d exists_ can (files path) = (Ok tt, files path).
Proof using Hcomplete.
  destruct Hcomplete as [H1 H2]. unfold bootstrapGlobalConfigIfNeeded, mbind, comp_bind, gets. unfold str_nonempty in *.
  apply negb_true_iff in H1, H2. by rewrite H1, H2.
Qed.

Lemma child_set n nm fld v f a a' d : no_option nm -> no_option fld -> no_help v ->
  account d !! nm = Some a -> findConfigField fld = Ok f -> field_set f a v = Ok a' ->
  exists said a2, child n ["--config"; path; nm; "config"; "set"; fld; v]%string d =
    (said, Exited 0, set_account (insert nm a2) d) /\ edited fld v a a2.
Proof using Hpath Hpath_help Hcomplete Hloads Hfault Hopen.
  intros Hnm Hfld Hv Hrow Ef Es. unfold gendb_child, gendb_main.
  assert (existsb (fun arg => one_of arg ["--help"; "-h"]%string) ["--config"; path; nm; "config"; "set"; fld; v]%string = false) as ->.
  { cbn [existsb]. unfold no_help in *. rewrite Hpath_help, Hv, (proj1 (no_option_spec _ Hnm)), (proj1 (no_option_spec _ Hfld)).
    reflexivity. }
  rewrite parse_set by done. cbn [configPath].
  assert (resolveGendbConfigPath exists_ path = path) as -> by (by destruct path). rewrite bootstrap_nothing.
  destruct (Hloads d) as [config ->].
  destruct (config_set_result (env n) config nm fld f v a a' (fresh_gendb d) (Hfault n) (Hopen n nm) Hrow Ef Es) as (g' & a2 & E & Hed & Hc).
  unfold gendb_exit, catch_std. rewrite run_set. erewrite bind_ok by exact E. cbn.
  eexists _, a2. split; [|exact Hed]. unfold committed. by rewrite Hc.
Qed.
End Child.

(** ** One field at a time *)

(** A value the field's keys can produce. *)
Definition fits (f : ConfigFieldDef) (v : string) : Prop :=
  match kind f with Enum => one_of v (options f) = true | Bool => one_of v ["yes"; "no"]%string = true | _ => True end.

Lemma one_of_In v l : one_of v l = true -> In v l.
Proof. unfold one_of. intros H. bdec. by apply list_elem_of_In. Qed.

(** Case analysis over the ten fields. *)
Ltac each_field Hf := apply list_elem_of_In in Hf; cbn in Hf; repeat (destruct Hf as [<-|Hf]); [..|done].

Lemma set_takes f v a : f ∈ kConfigFields -> fits f v -> exists cf a', findConfigField (key f) = Ok cf /\ field_set cf a v = Ok a'.
Proof.
  intros Hf Hv. each_field Hf; (eexists; eexists; split; [reflexivity|]); cbn [field_set];
    try (unfold fits in Hv; cbn [kind options] in Hv; rewrite Hv); reflexivity.
Qed.

Lemma no_option_key f : f ∈ kConfigFields -> no_option (key f).
Proof. intros Hf. by each_field Hf. Qed.

(** The form of the row after a field was set is the form with that entry. *)
Lemma form_edited f v a a2 : f ∈ kConfigFields -> fits f v -> edited (key f) v a a2 ->
  form_of a2 = <[key f := v]> (form_of a).
Proof.
  intros Hf Hv [Hget _]. unfold configFields in Hget. rewrite !Forall_cons in Hget. cbn [field_get field_name] in Hget.
  destruct Hget as (_ & H1 & H2 & H3 & H4 & H5 & H6 & H7 & H8 & H9 & H10 & _).
  assert (forall b b', yes_no b = yes_no b' -> b = b') as Hyes by (by intros [] []).
  unfold form_of. each_field Hf; cbn [key] in *; unfold str_eqb, stored in *; cbn in H1, H2, H3, H4, H5, H6, H7, H8, H9, H10;
    try apply Hyes in H9; rewrite ?H1, ?H2, ?H3, ?H4, ?H5, ?H6, ?H7, ?H8, ?H9, ?H10; try reflexivity.
  all: unfold fits in Hv; cbn [kind options] in Hv; apply one_of_In in Hv; cbn in Hv;
    repeat (destruct Hv as [<-|Hv]; [rewrite ?H9; reflexivity|]); done.
Qed.

(** A row after the fields [fs] were set to the form's values, in this order:
    each of the thirteen settings, the identity, the flag and the version. *)
Definition rewritten (v : values) (fs : list ConfigFieldDef) (a a' : AccountRecord) : Prop :=
  Forall (fun f => field_get f a' = if one_of (field_name f) (key <$> fs)
                                    then stored (field_name f) (get_or_new v (field_name f)) else field_get f a) configFields /\
  take_identity a a' = a' /\ enabled a' = enabled a /\
  config_version a' = Nat.iter (length fs) next_version (config_version a).

Lemma rewritten_nil v a : rewritten v [] a a.
Proof. split; [by apply Forall_true|]. by destruct a. Qed.

Lemma rewritten_cons v f fs a a1 a2 :
  edited (key f) (get_or_new v (key f)) a a1 -> rewritten v fs a1 a2 -> rewritten v (f :: fs) a a2.
Proof.
  intros (H1 & Hi1 & He1 & Hv1) (H2 & Hi2 & He2 & Hv2). split; [|split_and!].
  - apply Forall_forall. intros g Hg. rewrite Forall_forall in H1, H2. rewrite (H2 g Hg), (H1 g Hg). cbn [fmap list_fmap].
    rewrite one_of_cons. unfold str_eqb. destruct (one_of (field_name g) (key <$> fs)); [by rewrite orb_true_r|].
    rewrite orb_false_r. case_bool_decide as E; [by rewrite E|done].
  - rewrite <- Hi2, <- Hi1. by destruct a2.
  - congruence.
  - rewrite Hv2, Hv1. cbn [length]. by rewrite Nat.iter_succ_r.
Qed.

(** The entries of the changed fields, written over a form. *)
Definition overwrite (v o : values) (fs : list ConfigFieldDef) (form : values) : values :=
  foldl (fun m f => <[key f := get_or_new v (key f)]> m) form (List.filter (changed v o) fs).

Section Saving.
Context (env : nat -> environment) (exists_ can_append : string -> bool).
Context (loads : db -> option (list string) -> outcome DaemonConfig) (files : string -> boot) (printed : Z -> list note -> string).
Context (path nm : string).
Context (Hpath : path <> EmptyString) (Hpath_help : no_help path) (Hnm : no_option nm).
Context (Hcomplete : str_nonempty (boot_values (files path)).1 = true /\ str_nonempty (boot_values (files path)).2 = true).
Context (Hloads : forall d, exists config, loads d (getlines <$> config_text (files path)) = Ok config).
Context (Hfault : forall n, env_fault (env n) = no_fault) (Hopen : forall n nm, env_open (env n) nm = true).

Local Abbreviation child := (gendb_child env exists_ can_append loads files printed).
Local Abbreviation starts := (fun _ : nat => Starts).

Lemma run_set_child m f v a : f ∈ kConfigFields -> fits f v -> no_help v -> account (m_db m) !! nm = Some a ->
  exists r m' a', runGendb starts child ["--config"; path; nm; "config"; "set"; key f; v]%string m = (Ok r, m') /\ exitCode r = 0 /\
    m_db m' = set_account (insert nm a') (m_db m) /\ form_of a' = <[key f := v]> (form_of a) /\ edited (key f) v a a'.
Proof using Hpath Hpath_help Hnm Hcomplete Hloads Hfault Hopen.
  intros Hf Hv Hh Hrow. destruct (set_takes f v a Hf Hv) as (cf & a0 & Ef & Es).
  destruct (child_set env exists_ can_append loads files printed path Hpath Hpath_help Hcomplete Hloads Hfault Hopen
    (length (m_runs m)) nm (key f) v cf a a0 (m_db m) Hnm (no_option_key f Hf) Hh Hrow Ef Es) as (said & a2 & E & Hed).
  destruct m as [d k runs]. cbn [m_db m_runs] in *. unfold runGendb, log_run, mbind, comp_bind, gets, modify, get. cbn -[gendb_child].
  rewrite E. cbn. eexists _, _, a2. split; [reflexivity|]. split; [done|]. split; [done|]. split; [by apply form_edited|done].
Qed.

Lemma set_account_same d a : account d !! nm = Some a -> set_account (insert nm a) d = d.
Proof. intros H. destruct d. unfold set_account. cbn in *. by rewrite insert_id. Qed.
Lemma set_account_twice d a a' : set_account (insert nm a') (set_account (insert nm a) d) = set_account (insert nm a') d.
Proof. unfold set_account. cbn. by rewrite insert_insert_eq. Qed.

Lemma save_fields_child v o fs : (forall f, f ∈ fs -> f ∈ kConfigFields /\ fits f (get_or_new v (key f)) /\ no_help (get_or_new v (key f))) ->
  forall combined ok m a, account (m_db m) !! nm = Some a ->
  exists text m' a', save_fields path starts child nm v o fs combined ok m = (Ok (text, ok), m') /\
    m_db m' = set_account (insert nm a') (m_db m) /\ form_of a' = overwrite v o fs (form_of a) /\
    rewritten v (List.filter (changed v o) fs) a a'.
Proof using Hpath Hpath_help Hnm Hcomplete Hloads Hfault Hopen.
  induction fs as [|f fs IH]; intros Hfs combined ok m a Hrow; cbn [save_fields].
  - eexists _, m, a. split; [reflexivity|]. rewrite set_account_same by done. split_and!; [done..|apply rewritten_nil].
  - specialize (IH (fun g Hg => Hfs g (list_elem_of_further _ _ _ Hg))). unfold overwrite. cbn [List.filter].
    destruct (changed v o f) eqn:Ec; unfold changed in Ec.
    + apply negb_true_iff in Ec. rewrite Ec. destruct (Hfs f (list_elem_of_here _ _)) as (Hf & Hv & Hh).
      destruct (run_set_child m f _ a Hf Hv Hh Hrow) as (r & m1 & a1 & E & Hr & Hd & Hform & Hed). erewrite bind_ok by exact E.
      rewrite Hr, bool_decide_eq_true_2, andb_true_r by done.
      destruct (IH (String.append combined (output r)) ok m1 a1) as (text & m2 & a2 & E2 & Hd2 & Hform2 & Hsame2).
      { rewrite Hd. cbn. by rewrite lookup_insert_eq. }
      exists text, m2, a2. split; [done|]. rewrite Hd2, Hd, set_account_twice. split; [done|]. split; [|by eapply rewritten_cons].
      rewrite Hform2, Hform. done.
    + apply negb_false_iff in Ec. rewrite Ec. by apply IH.
Qed.
End Saving.

(** ** The daemon accepts what the form accepts *)

Definition form_keys : list string := key <$> kConfigFields.

Lemma overwrite_all v o : (forall k, k ∉ form_keys -> v !! k = o !! k) -> (forall f, f ∈ kConfigFields -> is_Some (v !! key f)) ->
  (forall f, f ∈ kConfigFields -> is_Some (o !! key f)) -> overwrite v o kConfigFields o = v.
Proof.
  intros Hother Hv Ho. unfold overwrite.
  assert (forall fs (m : values), (forall k, foldl (fun m f => <[key f := get_or_new v (key f)]> m) m fs !! k =
    if bool_decide (k ∈ key <$> fs) then Some (get_or_new v k) else m !! k)) as Hfold.
  { induction fs as [|f fs IH]; intros m k; cbn [foldl]; [done|]. rewrite IH. cbn [fmap list_fmap].
    destruct (decide (k ∈ key <$> fs)) as [Hin|Hnin];
      [rewrite !bool_decide_eq_true_2; [done|by right|done]|]. rewrite bool_decide_eq_false_2 by done.
    destruct (decide (k = key f)) as [->|Hne]; [rewrite lookup_insert_eq, bool_decide_eq_true_2; [done|by left]|].
    rewrite lookup_insert_ne by done. rewrite bool_decide_eq_false_2; [done|]. intros [->|Hi]%elem_of_cons; done. }
  apply map_eq. intros k. rewrite Hfold. destruct (decide (k ∈ form_keys)) as [(f & -> & Hf)%list_elem_of_fmap|Hk].
  - destruct (Hv f Hf) as [x Hx], (Ho f Hf) as [y Hy]. destruct (changed v o f) eqn:Ec.
    + rewrite bool_decide_eq_true_2; [unfold get_or_new; by rewrite Hx|]. apply (list_elem_of_fmap_2 key), list_elem_of_In, filter_In.
      split; [by apply list_elem_of_In|done].
    + assert (get_or_new v (key f) = get_or_new o (key f)) as Heq.
      { unfold changed, str_eqb in Ec. apply negb_false_iff in Ec. by bdec. }
      unfold get_or_new in Heq. rewrite Hx, Hy in Heq. cbn in Heq. subst. rewrite Hx, Hy. unfold get_or_new. rewrite Hx. by case_bool_decide.
  - rewrite bool_decide_eq_false_2; [by rewrite Hother|]. intros (f & -> & Hf)%list_elem_of_fmap. apply Hk. apply (list_elem_of_fmap_2 key).
    apply list_elem_of_In, filter_In in Hf as [Hf _]. by apply list_elem_of_In.
Qed.

Lemma form_lookup a : 
  form_of a !! "sip_srtp"%string = Some (if str_empty (sip_srtp a) then "disabled"%string else sip_srtp a) /\
  form_of a !! "sip_transport"%string = Some (if str_empty (sip_transport a) then "udp"%string else sip_transport a) /\
  form_of a !! "sip_tls_ca_file"%string = Some (sip_tls_ca_file a) /\
  form_of a !! "sip_tls_insecure"%string = Some (yes_no (sip_tls_insecure a)).
Proof. by repeat split. Qed.

Lemma form_filled a f : f ∈ kConfigFields -> is_Some (form_of a !! key f).
Proof. intros Hf. each_field Hf; eexists; reflexivity. Qed.

Lemma form_accepted nm a : configErrors (form_of a) = Ok [] ->
  (forall f s, f ∈ kConfigFields -> form_of a !! key f = Some s -> fits f s) -> e164 a <> EmptyString ->
  is_ok (accountConfigFromRecord nm a) = true.
Proof.
  intros Herr Hfits He. destruct (form_lookup a) as (Hs & Ht & Hc & Hi).
  rewrite accepted_row. apply andb_true_intro; split; [apply andb_true_intro; split; [apply andb_true_intro; split|]|].
  - by destruct (e164 a).
  - unfold srtp_known. rewrite one_of_cons.
    assert (In (mkFieldDef "sip_srtp" "sip_srtp" Enum ["disabled"; "optional"; "mandatory"]%string) kConfigFields) as Hin by (cbn; tauto).
    apply list_elem_of_In in Hin. specialize (Hfits _ _ Hin Hs). unfold fits in Hfits. cbn [kind options] in Hfits.
    destruct (sip_srtp a); [done|]. cbn [str_empty] in Hfits. rewrite Hfits. apply orb_true_r.
  - unfold transport_known. rewrite one_of_cons.
    assert (In (mkFieldDef "sip_transport" "sip_transport" Enum ["udp"; "tls"]%string) kConfigFields) as Hin by (cbn; tauto).
    apply list_elem_of_In in Hin. specialize (Hfits _ _ Hin Ht). unfold fits in Hfits. cbn [kind options] in Hfits.
    destruct (sip_transport a); [done|]. cbn [str_empty] in Hfits. rewrite Hfits. apply orb_true_r.
  - unfold tls_ready. destruct (str_eqb (sip_transport a) "tls") eqn:Etls; [|done]. cbn [negb orb].
    unfold str_eqb in Etls. bdec. rewrite Etls in Ht. cbn [str_empty] in Ht.
    unfold configErrors, at_key in Herr. rewrite Ht, Hc, Hi in Herr.
    destruct (sipFieldsInUse (form_of a)) as [u|]; [|done]. cbn [mbind outcome_bind] in Herr.
    destruct (if u then _ else _) as [errs|]; [|done]. cbn in Herr.
    destruct (str_nonempty (sip_tls_ca_file a)); [done|]. destruct (sip_tls_insecure a); [done|]. cbn in Herr.
    by destruct errs.
Qed.

(** C21: saving the SIP form works end to end: when nothing fails, the account
    has a row, the form was filled from it and has no errors, then one key
    makes the interface run gendb once per changed field, every run succeeds,
    the row's form is afterwards the one on the screen (so that opening it
    again shows what was saved), and the daemon accepts the row.  Of the thirteen
    settings exactly those changed on the form have the form's value and all
    others (server_url, signal_proxy and the circumvention flag among them) the
    one they had; the identity, the enabled flag and every other row are as they
    were, and config_version counts the runs.  This is for values that gendb
    does not take for a request for help ([no_help]): "--help" or "-h" typed into
    a field passes the form and is not saved ([help_is_not_saved]). *)
Theorem saved_form_is_accepted lang env exists_ can_append loads files printed path t a
    (Hpath : path <> EmptyString) (Hpath_help : no_help path) (Hnm : no_option (detailName (t_detail t)))
    (Hcomplete : str_nonempty (boot_values (files path)).1 = true /\ str_nonempty (boot_values (files path)).2 = true)
    (Hloads : forall d, exists config, loads d (getlines <$> config_text (files path)) = Ok config)
    (Hfault : forall n, env_fault (env n) = no_fault) (Hopen : forall n nm, env_open (env n) nm = true)
    (Hrow : account (m_db (t_machine t)) !! detailName (t_detail t) = Some a)
    (Horiginal : originalValues (t_sip t) = form_of a)
    (Hothers : forall k, k ∉ form_keys -> editValues (t_sip t) !! k = form_of a !! k)
    (Hvalues : forall f, f ∈ kConfigFields -> exists s, editValues (t_sip t) !! key f = Some s /\ fits f s /\ no_help s)
    (Herrors : configErrors (editValues (t_sip t)) = Ok []) (He164 : e164 a <> EmptyString) :
  let nm := detailName (t_detail t) in
  let v := editValues (t_sip t) in
  let '(o, t') := saveConfig lang path (fun _ => Starts) (gendb_child env exists_ can_append loads files printed) t in
  o = Ok tt /\ saveDone (t_sip t') = true /\ saveOk (t_sip t') = true /\
  m_runs (t_machine t') = m_runs (t_machine t) ++ (set_args path nm v <$> List.filter (changed v (form_of a)) kConfigFields) /\
  exists a', m_db (t_machine t') = set_account (insert nm a') (m_db (t_machine t)) /\ form_of a' = v /\
    rewritten v (List.filter (changed v (form_of a)) kConfigFields) a a' /\ is_ok (accountConfigFromRecord nm a') = true.
Proof.
  intros nm v.
  assert (forall f, f ∈ kConfigFields -> f ∈ kConfigFields /\ fits f (get_or_new v (key f)) /\ no_help (get_or_new v (key f))) as Hall.
  { intros f Hf. destruct (Hvalues f Hf) as (s & Hs & Hfit & Hh). unfold get_or_new. fold v in Hs. by rewrite Hs. }
  destruct (save_fields_child env exists_ can_append loads files printed path nm Hpath Hpath_help Hnm Hcomplete Hloads Hfault Hopen
    v (form_of a) kConfigFields Hall EmptyString true (t_machine t) a Hrow) as (text & m' & a' & E & Hd & Hform & Hsame).
  destruct (save_fields_spec path (fun _ => Starts) (gendb_child env exists_ can_append loads files printed) nm v (form_of a)
    kConfigFields EmptyString true (t_machine t)) as (r2 & m2 & E2 & Hruns & _).
  rewrite E in E2. injection E2 as <- <-.
  rewrite overwrite_all in Hform; [|exact Hothers|intros f Hf; destruct (Hvalues f Hf) as (s & Hs & _); exact (mk_is_Some _ _ Hs)|apply form_filled].
  assert (saveConfig lang path (fun _ => Starts) (gendb_child env exists_ can_append loads files printed) t =
    (Ok tt, put m' (mkTui (t_list t) (t_screen t) (t_detail t)
       (mkEditor v (form_of a) (editField (t_sip t)) true (if str_empty text then tr lang NoChanges else text) true)
       (t_signal t) (t_confirm t) (t_wizard t) (t_link t) (t_machine t)))) as ->.
  { unfold saveConfig, save_page, of_outcome, mbind, comp_bind, gets, ask, lift. cbn [editor_of prj has_t_detail has_t_machine fields_of].
    rewrite Herrors. cbn -[save_fields]. rewrite Horiginal. fold nm v. rewrite E. done. }
  cbn. do 3 (split; [done|]). split; [done|]. exists a'. do 3 (split; [done|]).
  apply form_accepted; rewrite ?Hform; [done| |by rewrite <- (proj1 (proj2 Hsame))].
  intros f s Hf Hs. destruct (Hvalues f Hf) as (s' & Hs' & Hfit & _). unfold v in Hs. congruence.
Qed.

(** ** Witness *)

Definition complete_file : boot :=
  mkBoot (Some (String.append "[global]" (String.append nl (String.append "db_path=/x" (String.append nl (String.append "db_key=k" nl)))))) 0.
Definition toy_child : nat -> list string -> db -> string * wait_status * db :=
  gendb_child (fun _ => toy_env) (fun _ => true) (fun _ => true) (fun _ _ => Ok (mkDaemon (mkGlobal "/x" "k" 0 86400 43200 30) []))
    (fun _ => complete_file) (fun _ _ => "saved"%string).
Definition udp_row : db := set_account (insert "ab"%string (numbered true "udp")) empty_db.

(** The form of "ab" with a host, an extension and a password typed in. *)
Definition typed : list Event := [Return; Character "c"; Character "h"; Tab; Character "1"; Tab; Character "p"].
Definition typed_form : tui :=
  press EN "/c" (fun _ => true) (fun _ _ => false) (fun _ => Starts) toy_child calm typed (start (fun _ => true) (fun _ _ => false) udp_row).

Lemma typed_others k : k ∉ form_keys -> editValues (t_sip typed_form) !! k = form_of (numbered true "udp") !! k.
Proof.
  intros Hk. assert (editValues (t_sip typed_form) = <["sip_password" := "p"]> (<["sip_extension" := "1"]>
    (<["sip_host" := "h"]> (form_of (numbered true "udp")))))%string as -> by (vm_compute; reflexivity).
  rewrite !lookup_insert_ne; [done|..]; intros <-; apply Hk; repeat constructor.
Qed.

Lemma saved_form_is_accepted_witness :
  let t := typed_form in
  let '(o, t') := saveConfig EN "/c" (fun _ => Starts) toy_child t in
  o = Ok tt /\ saveDone (t_sip t') = true /\ saveOk (t_sip t') = true /\
  m_runs (t_machine t') = m_runs (t_machine t) ++
    (set_args "/c" "ab" (editValues (t_sip t)) <$> List.filter (changed (editValues (t_sip t)) (form_of (numbered true "udp"))) kConfigFields) /\
  exists a', m_db (t_machine t') = set_account (insert "ab"%string a') (m_db (t_machine t)) /\ form_of a' = editValues (t_sip t) /\
    rewritten (editValues (t_sip t)) (List.filter (changed (editValues (t_sip t)) (form_of (numbered true "udp"))) kConfigFields)
      (numbered true "udp") a' /\ is_ok (accountConfigFromRecord "ab" a') = true.
Proof.
  refine (saved_form_is_accepted EN (fun _ => toy_env) (fun _ => true) (fun _ => true)
    (fun _ _ => Ok (mkDaemon (mkGlobal "/x" "k" 0 86400 43200 30) [])) (fun _ => complete_file) (fun _ _ => "saved"%string) "/c" typed_form
    (numbered true "udp") _ _ _ _ _ _ _ _ _ typed_others _ _ _).
  - done.
  - reflexivity.
  - reflexivity.
  - vm_compute. by split.
  - intros d. by eexists.
  - reflexivity.
  - reflexivity.
  - vm_compute. reflexivity.
  - vm_compute. reflexivity.
  - intros f Hf. each_field Hf; (eexists; split; [vm_compute; reflexivity|split; [vm_compute; first [reflexivity|exact I]|vm_compute; reflexivity]]).
  - vm_compute. reflexivity.
  - done.
Defined.

(** ** What goes wrong *)

Definition runs_in_order (argss : list (list string)) (d : db) : db := foldl (fun d args => (toy_child 0 args d).2) d argss.
Definition accepted (nm : string) (d : db) : bool :=
  match account d !! nm with Some a => is_ok (accountConfigFromRecord nm a) | None => false end.

(** Switching to TLS with a certificate sends sip_transport before
    sip_tls_ca_file: in between, the daemon rejects the row, and gendb has
    signalled it to reload. *)
Example tls_in_two_steps :
  let set_tls := ["--config"; "/c"; "ab"; "config"; "set"; "sip_transport"; "tls"]%string in
  let set_ca := ["--config"; "/c"; "ab"; "config"; "set"; "sip_tls_ca_file"; "/ca.pem"]%string in
  accepted "ab" udp_row = true /\ accepted "ab" (runs_in_order [set_tls] udp_row) = false /\
  accepted "ab" (runs_in_order [set_tls; set_ca] udp_row) = true.
Proof. vm_compute. repeat split. Qed.

(** A value of "--help" makes gendb print its usage and succeed; the form says
    that it was saved. *)
Example help_is_not_saved :
  let '(_, status, d) := toy_child 0 ["--config"; "/c"; "ab"; "config"; "set"; "sip_password"; "--help"]%string udp_row in
  status = Exited 0 /\ d = udp_row.
Proof. vm_compute. repeat split. Qed.
