(* ===== verification/MainLoop.v ===== *)
(** The daemon's [main] (src/daemon/main.cpp): start, signals, the loop with
    its two reload triggers and its three watchdogs over all accounts, and the
    shutdown.

    This file puts Lifecycle and Watchdog together.  The state of the process
    is one for all accounts; the part of it that one account's watchdogs work
    on is its projection [project] to the state of Watchdog, and a loop of the
    source over a map is a loop of [visit] over the map's names.  Everything
    that happens outside the main thread (signals, callbacks of PJSIP and
    libsignal, gendb changing the database) is a list of [outside] events,
    taken while the loop sleeps, between the two reloads of a pass, and during
    a reload: before it reads the configuration and before each account it
    looks at. *)

From S2P Require Import Prelude Storage Config AuthSocket CallSignaling Calls Watchdog Lifecycle GendbConfig Gendb.
From stdpp Require Import sorting.

Open Scope Z_scope.

(** ** State *)

(** The fields of one [AccountState] that the loop keeps; [w_of] is the object
    they belong to, [w_log] what the loop did to it. *)
Record watch := mkWatch {
  w_of : nat;
  w_connected : bool;
  w_lastReconnect : Z;
  w_alerted : bool;
  w_lastSync : Z;
  w_pool : option string;
  w_log : list action;
}.

(** What the watchdogs work on; the accounts share the database. *)
Record state := mkState { s_daemon : daemon; s_watches : gmap string watch; s_db : db }.

Record process := mkProcess {
  p_state : state;
  g_running : bool;
  g_reloadRequested : bool;
  lastConfigPollMs : Z;
  g_global : GlobalConfig;
  pid_files : gmap string string;
  p_loads : nat;                       (* calls of DaemonConfig::load *)
}.

Definition set_state v p := mkProcess v (g_running p) (g_reloadRequested p) (lastConfigPollMs p) (g_global p) (pid_files p) (p_loads p).
Definition set_running v p := mkProcess (p_state p) v (g_reloadRequested p) (lastConfigPollMs p) (g_global p) (pid_files p) (p_loads p).
Definition set_requested v p := mkProcess (p_state p) (g_running p) v (lastConfigPollMs p) (g_global p) (pid_files p) (p_loads p).
Definition set_lastPoll v p := mkProcess (p_state p) (g_running p) (g_reloadRequested p) v (g_global p) (pid_files p) (p_loads p).
Definition set_files v p := mkProcess (p_state p) (g_running p) (g_reloadRequested p) (lastConfigPollMs p) (g_global p) v (p_loads p).

(** ** One account of the process *)

Definition no_watch : watch := mkWatch 0 true 0 false 0 None [].

Definition project (nm : string) (s : state) : monitored :=
  let w := default no_watch (s_watches s !! nm) in
  mkMonitored (g_accounts (s_daemon s) !! nm ≫= socket) (bridge_account <$> g_sipAccounts (s_daemon s) !! nm)
    (w_connected w) (w_lastReconnect w) (w_alerted w) (w_lastSync w) (w_pool w) (Config.connection (s_db s)) (w_log w).

Definition with_socket (so : option Socket.sock) (a : account) : account :=
  mkLive (incarnation a) (config a) (queue_started a) (handle a) so (calls a).
Definition with_bridge (b : option BridgeAccount) (s : sip_account) : sip_account :=
  mkSip (default (bridge_account s) b) (transport s).
Definition with_watch (m : monitored) (w : watch) : watch :=
  mkWatch (w_of w) (socketConnected m) (lastSocketReconnectAttemptMs m) (deauthorizedAlerted m) (lastStorageSyncMs m)
    (entropy_pool m) (actions m).

Definition write_back (nm : string) (m : monitored) (s : state) : state :=
  let d := s_daemon s in
  mkState (set_sips (alter (with_bridge (m_sip m)) nm (g_sipAccounts d))
            (set_accounts (alter (with_socket (m_socket m)) nm (g_accounts d)) d))
    (alter (with_watch m) nm (s_watches s)) (committed (m_storage m)).

Definition visit (f : Comp monitored unit) (nm : string) : Comp state unit := fun s =>
  let '(o, m) := f (project nm s) in (o, write_back nm m s).

(** The names of a std::map, in the order of its iteration. *)
Definition names {A} (m : gmap string A) : list string := (in_order m).*1.

(** ** The watchdogs of one pass, over all accounts *)

Section Watchdogs.
Context (g : GlobalConfig) (faults : string -> nat -> bool) (answers : string -> tick_answers) (nowMs : Z).

Definition watchdogs : Comp state unit :=
  sips ← gets (fun s => names (g_sipAccounts (s_daemon s)));
  for_each (fun nm => visit (registration_watchdog g (answers nm) nowMs) nm) sips ;;
  accts ← gets (fun s => names (g_accounts (s_daemon s)));
  for_each (fun nm => visit (socket_watchdog (answers nm) nowMs) nm) accts ;;
  accts ← gets (fun s => names (g_accounts (s_daemon s)));
  for_each (fun nm => visit (storage_sync_loop (faults nm) nm g (answers nm) nowMs) nm) accts.

(** Account by account. *)
Definition ticks : Comp state unit :=
  accts ← gets (fun s => names (g_accounts (s_daemon s)));
  for_each (fun nm => visit (tick (faults nm) nm g (answers nm) nowMs) nm) accts.
End Watchdogs.

(** ** Outside events *)

Inductive outside :=
| Hangup                                        (* SIGHUP: onReloadSignal *)
| Stop                                          (* SIGINT, SIGTERM: onSignal *)
| DatabaseChanged (f : db -> db)                (* gendb, in a process of its own *)
| RegState (nm : string) (active : bool) (now : Z)
| Interrupted (nm : string) (err : option Z)
| CallsChanged (nm : string) (c : AccountState). (* the threads of PJSIP and RingRTC *)

Definition occur (e : outside) (p : process) : process :=
  let on_daemon f := set_state (mkState (f (s_daemon (p_state p))) (s_watches (p_state p)) (s_db (p_state p))) p in
  match e with
  | Hangup => set_requested true p
  | Stop => set_running false p
  | DatabaseChanged f => set_state (mkState (s_daemon (p_state p)) (s_watches (p_state p)) (f (s_db (p_state p)))) p
  | RegState nm active now => on_daemon (fun d =>
      set_sips (alter (fun s => mkSip (BridgeAccount_onRegState active now (bridge_account s)) (transport s)) nm (g_sipAccounts d)) d)
  | Interrupted nm err => on_daemon (fun d =>
      set_accounts (alter (fun a => with_socket ((fun s => (Socket.onConnectionInterrupted err s).2) <$> socket a) a) nm (g_accounts d)) d)
  | CallsChanged nm c => on_daemon (fun d =>
      set_accounts (alter (fun a => mkLive (incarnation a) (config a) (queue_started a) (handle a) (socket a) c) nm (g_accounts d)) d)
  end.
Definition occur_all (es : list outside) (p : process) : process := foldl (fun p e => occur e p) p es.

(** ** Reloads *)

(** One call of [DaemonConfig::load]: the file and what SQLite answers. *)
Record reading := mkReading {
  r_file : option (list string); r_open_list : bool; r_list_fault : nat -> bool;
  r_open_account : string -> bool; r_account_fault : string -> nat -> bool }.
Definition read_config (r : reading) (d : db) : outcome DaemonConfig :=
  load d (r_open_list r) (r_list_fault r) (r_open_account r) (r_account_fault r) (r_file r).

(** What happens outside while a reload runs: between the request being taken
    and the configuration being read, and before (and, for what is left of the
    two lists, after) the accounts of its two loops. *)
Record during := mkDuring {
  before_load : list outside;
  while_removing : list (list outside);
  while_updating : list (list outside);
}.
Definition undisturbed : during := mkDuring [] [] [].
Definition after_load (w : during) : list outside := concat (while_removing w) ++ concat (while_updating w).

(** What the outside gives to one pass of the loop. *)
Record pass_input := mkPass {
  asleep : list outside;
  hup_during : during;
  meanwhile : list outside;
  poll_during : during;
  hup_libs : string -> bringup;
  poll_libs : string -> bringup;
  now_ms : Z;
  pass_answers : string -> tick_answers;
  pass_faults : string -> nat -> bool }.

Definition pidFilePath (g : GlobalConfig) : string := String.append (dirName (dbPath g)) "/signal2sip.pid".

Section Main.
(** The n-th call of load; the watchdog fields of the n-th [AccountState], as
    its set-up and initial sync leave them. *)
Context (readings : nat -> reading) (first_sync : nat -> Z) (first_pool : nat -> option string).

Definition new_watch (i : nat) : watch := mkWatch i true 0 false (first_sync i) (first_pool i) [].

(** Every account has the fields of its own object. *)
Definition adopt (d : daemon) (ws : gmap string watch) : gmap string watch :=
  map_imap (fun nm a => Some (match ws !! nm with
    | Some w => if bool_decide (w_of w = incarnation a) then w else new_watch (incarnation a)
    | None => new_watch (incarnation a)
    end)) (g_accounts d).
Definition set_daemon (d : daemon) (p : process) : process :=
  set_state (mkState d (adopt d (s_watches (p_state p))) (s_db (p_state p))) p.

Definition next_config (p : process) : outcome DaemonConfig := read_config (readings (p_loads p)) (s_db (p_state p)).

(** A loop of [reloadConfig] over the accounts, while things happen outside. *)
Fixpoint each {A} (f : A -> daemon -> ended unit * daemon) (w : list (list outside)) (l : list A) (p : process) :
    ended unit * process :=
  match l with
  | [] => (Returned tt, occur_all (concat w) p)
  | x :: l =>
    let p := occur_all (default [] (head w)) p in
    match f x (s_daemon (p_state p)) with
    | (Returned _, d) => each f (tail w) l (set_daemon d p)
    | (r, d) => (r, set_daemon d p)
    end
  end.

Definition and_then (r : ended unit * process) (k : process -> ended unit * process) : ended unit * process :=
  match r with (Returned _, p) => k p | r => r end.

(** The two loops, as in Lifecycle.reloadConfig. *)
Definition diff_accounts (libs : string -> bringup) (w : during) (c : DaemonConfig) (p : process) : ended unit * process :=
  let newByName := by_name (accounts c) in
  and_then (each (remove_account libs newByName) (while_removing w) (in_order (g_accounts (s_daemon (p_state p)))) p)
    (each (update_account libs) (while_updating w) (in_order newByName)).

Definition loaded_with (g : GlobalConfig) (p : process) : process :=
  mkProcess (p_state p) (g_running p) (g_reloadRequested p) (lastConfigPollMs p) g (pid_files p) (S (p_loads p)).

(** [reloadConfig(g_configPath)] *)
Definition reload (libs : string -> bringup) (w : during) (p : process) : ended unit * process :=
  let p := occur_all (before_load w) p in
  match next_config p with
  | Throw (StdError _) => (Returned tt, occur_all (after_load w) (loaded_with (g_global p) p))
  | Throw e => (Uncaught e, loaded_with (g_global p) p)
  | Ok c => diff_accounts libs w c (loaded_with (global c) p)
  end.

(** ** The loop *)

Definition hup_reload (i : pass_input) (p : process) : ended unit * process :=
  if g_reloadRequested p then reload (hup_libs i) (hup_during i) (set_requested false p) else (Returned tt, p).

Definition poll_due (i : pass_input) (p : process) : bool :=
  bool_decide (now_ms i - lastConfigPollMs p >= configPollIntervalSec (g_global p) * 1000).
Definition poll_reload (i : pass_input) (p : process) : ended unit * process :=
  if poll_due i p then reload (poll_libs i) (poll_during i) (set_lastPoll (now_ms i) p) else (Returned tt, p).

Definition run_watchdogs (i : pass_input) (p : process) : ended unit * process :=
  let '(o, s) := watchdogs (g_global p) (pass_faults i) (pass_answers i) (now_ms i) (p_state p) in
  (match o with Ok _ => Returned tt | Throw e => Uncaught e end, set_state s p).

(** The body of the loop. *)
Definition pass (i : pass_input) (p : process) : ended unit * process :=
  and_then (hup_reload i p) (fun p =>
  and_then (poll_reload i (occur_all (meanwhile i) p)) (run_watchdogs i)).

(** How the process ends. *)
Inductive finish :=
| Exits (code : Z)
| Terminated (e : exn)       (* std::terminate *)
| Crashed                    (* a null pointer *)
| StillRunning.

Definition finish_of (r : ended unit) : finish :=
  match r with Returned _ => Exits 0 | Uncaught e => Terminated e | NullDereference => Crashed end.

(** After the loop. *)
Definition shut_down (libs : string -> bringup) (p : process) : finish * process :=
  let '(r, d) := shutdown libs (s_daemon (p_state p)) in
  let p := set_daemon d p in
  (finish_of r, match r with Returned _ => set_files (delete (pidFilePath (g_global p)) (pid_files p)) p | _ => p end).

(** One input per time round the loop. *)
Fixpoint main_loop (down : string -> bringup) (ins : list pass_input) (p : process) : finish * process :=
  match ins with
  | [] => (StillRunning, p)
  | i :: ins =>
    let p := occur_all (asleep i) p in
    if g_running p then
      match pass i p with
      | (Returned _, p) => main_loop down ins p
      | (r, p) => (finish_of r, p)
      end
    else shut_down down p
  end.

(** What [main] meets before its loop. *)
Record boot_input := mkBootInput {
  b_db : db; b_files : gmap string string; b_writable : string -> bool; b_pid : Z;
  b_libs : string -> bringup; b_early : list outside; b_now : Z; b_down : string -> bringup }.

Definition writePidFile (b : boot_input) (g : GlobalConfig) (files : gmap string string) : gmap string string :=
  if b_writable b (pidFilePath g) then <[pidFilePath g := String.append (to_string (b_pid b)) (String (ch 10) EmptyString)]> files else files.

(** The process once the configuration is loaded. *)
Definition booted (b : boot_input) (g : GlobalConfig) : process :=
  mkProcess (mkState initial ∅ (b_db b)) true false 0 g (writePidFile b g (b_files b)) 1.

Definition asks_help (argv : list string) : bool := existsb (fun a => one_of a ["--help"; "-h"]%string) argv.

Definition main (argv : list string) (b : boot_input) (ins : list pass_input) : finish * option process :=
  if asks_help argv then (Exits 0, None) else
  match read_config (readings 0) (b_db b) with
  | Throw (StdError _) => (Exits 1, None)
  | Throw e => (Terminated e, None)
  | Ok c =>
    let p := booted b (global c) in
    match start_all (b_libs b) (accounts c) initial with
    | (Returned _, d) =>
      let p := set_daemon d p in
      if bool_decide (g_accounts d = ∅) then (Exits 1, Some p)
      else let '(f, p) := main_loop (b_down b) ins (set_lastPoll (b_now b) (occur_all (b_early b) p)) in (f, Some p)
    | (r, d) => (finish_of r, Some (set_daemon d p))
    end
  end.
End Main.

(** When nothing happens outside, a reload is Lifecycle's. *)
Lemma each_undisturbed {A} first_sync first_pool (f : A -> daemon -> ended unit * daemon) l p :
  let '(r, p') := each first_sync first_pool f [] l p in loop f l (s_daemon (p_state p)) = (r, s_daemon (p_state p')).
Proof.
  revert p. induction l as [|x l IH]; intros p; [done|]. cbn [each loop head tail default from_option occur_all foldl].
  destruct (f x (s_daemon (p_state p))) as [[[]|e|] d]; [|done..]. exact (IH (set_daemon first_sync first_pool d p)).
Qed.

Lemma reload_undisturbed readings first_sync first_pool libs p :
  let '(r, p') := reload readings first_sync first_pool libs undisturbed p in
  reloadConfig libs (next_config readings p) (s_daemon (p_state p)) = (r, s_daemon (p_state p')).
Proof.
  unfold reload, reloadConfig, undisturbed, diff_accounts. cbn [before_load occur_all foldl while_removing while_updating].
  destruct (next_config readings p) as [c|[w| |]]; [|done..]. cbn [p_state loaded_with].
  pose proof (each_undisturbed first_sync first_pool (remove_account libs (by_name (accounts c)))
    (in_order (g_accounts (s_daemon (p_state p)))) (loaded_with (global c) p)) as H. cbn [p_state loaded_with] in H.
  destruct (each _ _ _ _ _ _) as [r p1]. rewrite H. destruct r as [[]|e|]; [|done..]. cbn [and_then].
  apply each_undisturbed.
Qed.

(** ** One account's part of the state *)

Lemma project_write_ne a b m s : a <> b ->
  project a (write_back b m s) = set_storage (Config.connection (committed (m_storage m))) (project a s).
Proof. intros H. unfold project, write_back. cbn. by rewrite !lookup_alter_ne by done. Qed.

Lemma alter_swap {A} (f h : A -> A) (m : gmap string A) i j : i <> j -> alter f i (alter h j m) = alter h j (alter f i m).
Proof.
  intros H. apply map_eq. intros k. rewrite !lookup_alter. by repeat case_decide; simplify_eq.
Qed.
Lemma alter_twice {A} (f h : A -> A) (m : gmap string A) i : alter f i (alter h i m) = alter (fun x => f (h x)) i m.
Proof.
  apply map_eq. intros k. destruct (decide (k = i)) as [->|H].
  - rewrite !lookup_alter_eq. by destruct (m !! i).
  - by rewrite !lookup_alter_ne by done.
Qed.

Lemma write_commute a b m1 m2 s : a <> b ->
  write_back a m1 (write_back b m2 s) =
  write_back b (set_storage (m_storage m1) m2) (write_back a (set_storage (m_storage m2) m1) s).
Proof.
  intros H. unfold write_back. cbn. by rewrite (alter_swap (with_bridge _)), (alter_swap (with_socket _)),
    (alter_swap (with_watch _)) by done.
Qed.

(** The account of that name is there, with its fields. *)
Definition present (s : state) (nm : string) : Prop :=
  is_Some (g_accounts (s_daemon s) !! nm) /\ is_Some (s_watches s !! nm).
Definition same_sip (m m' : monitored) : Prop := is_Some (m_sip m') <-> is_Some (m_sip m).

Lemma project_write nm m s : present s nm -> same_sip (project nm s) m ->
  project nm (write_back nm m s) = set_storage (Config.connection (committed (m_storage m))) m.
Proof.
  intros [[a Ha] [w Hw]] Hs. unfold same_sip, project in *. unfold write_back. cbn in *.
  rewrite !lookup_alter_eq, Ha, Hw. cbn. rewrite fmap_is_Some in Hs.
  destruct (g_sipAccounts (s_daemon s) !! nm) as [x|], (m_sip m) eqn:Em; cbn in *; destruct m; cbn in *; subst; try done.
  - destruct (proj2 Hs ltac:(by eexists)). done.
  - destruct (proj1 Hs ltac:(by eexists)). done.
Qed.

Lemma write_write nm m1 m2 s : same_sip (project nm s) m1 -> same_sip m1 m2 ->
  write_back nm m2 (write_back nm m1 s) = write_back nm m2 s.
Proof.
  intros H1 H2. unfold write_back. cbn. rewrite !alter_twice. unfold set_sips. cbn.
  assert (forall m : gmap string sip_account, m = g_sipAccounts (s_daemon s) ->
    alter (fun x => with_bridge (m_sip m2) (with_bridge (m_sip m1) x)) nm m = alter (with_bridge (m_sip m2)) nm m) as ->; [|done|done].
  intros x ->. apply alter_ext. intros y Hy. unfold with_bridge. cbn. f_equal. unfold same_sip, project in *. cbn in *.
  rewrite Hy in H1. cbn in H1. destruct (m_sip m2); [done|].
  destruct (proj2 H2 (proj2 H1 ltac:(by eexists))). done.
Qed.

Lemma write_project nm s : present s nm -> write_back nm (project nm s) s = s.
Proof.
  intros [[a Ha] [w Hw]]. destruct s as [d ws db]. unfold write_back, project. cbn in *. rewrite Ha, Hw. cbn.
  rewrite (alter_id (with_socket _)), (alter_id (with_watch _)), (alter_id (with_bridge _)); [by destruct d|..].
  - intros x Hx. rewrite Hx. by destruct x.
  - intros x Hx. rewrite Hw in Hx. injection Hx as <-. by destruct w.
  - intros x Hx. rewrite Ha in Hx. injection Hx as <-. by destruct a.
Qed.

(** [write_back] keeps the names. *)
Definition same_names (s s' : state) : Prop :=
  (forall n, is_Some (g_accounts (s_daemon s') !! n) <-> is_Some (g_accounts (s_daemon s) !! n)) /\
  (forall n, is_Some (g_sipAccounts (s_daemon s') !! n) <-> is_Some (g_sipAccounts (s_daemon s) !! n)) /\
  (forall n, is_Some (s_watches s' !! n) <-> is_Some (s_watches s !! n)).

Lemma write_names nm m s : same_names s (write_back nm m s).
Proof. by split_and!; intros n; cbn; rewrite lookup_alter_is_Some. Qed.

Lemma same_names_present s s' nm : same_names s s' -> present s nm -> present s' nm.
Proof. intros (H1 & _ & H3) [Ha Hw]. split; [by apply H1|by apply H3]. Qed.

(** ** The watchdogs do not fail, and leave the database to the sync *)

(** PJSIP fails with its own error, the contact fetch with a std::exception. *)
Definition documented_answers (w : tick_answers) : Prop :=
  (forall on, pj_outcome (registration w on)) /\ std_outcome (fetched w).

(** Neither reads nor writes the database. *)
Definition local {A} (f : Comp monitored A) : Prop :=
  forall m, exists x m', f m = (Ok x, m') /\ m_storage m' = m_storage m /\ same_sip m m' /\
    forall st, f (set_storage st m) = (Ok x, set_storage st m').

Lemma local_ret {A} (x : A) : local (mret x).
Proof. intros m. by exists x, m. Qed.
Lemma local_bind {A B} (f : Comp monitored A) (k : A -> Comp monitored B) :
  local f -> (forall x, local (k x)) -> local (f ≫= k).
Proof.
  intros Hf Hk m. destruct (Hf m) as (x & m1 & E1 & Hst1 & Hs1 & F1). destruct (Hk x m1) as (y & m2 & E2 & Hst2 & Hs2 & F2).
  exists y, m2. split; [by rewrite (bind_ok _ _ _ _ _ E1)|]. split; [by rewrite Hst2|].
  split; [by unfold same_sip in *; rewrite Hs2|]. intros st. by rewrite (bind_ok _ _ _ _ _ (F1 st)).
Qed.
Lemma local_modify (h : monitored -> monitored) :
  (forall m, m_storage (h m) = m_storage m) -> (forall m, same_sip m (h m)) -> (forall st m, h (set_storage st m) = set_storage st (h m)) ->
  local (modify h).
Proof. intros H1 H2 H3 m. exists tt, (h m). unfold modify. split_and!; try done. intros st. by rewrite H3. Qed.
Lemma local_get {A} (k : monitored -> Comp monitored A) :
  (forall m, local (k m)) -> (forall st m, k (set_storage st m) = k m) -> local (get ≫= k).
Proof.
  intros Hk Hst m. destruct (Hk m m) as (x & m' & E & H1 & H2 & F). exists x, m'. unfold get, mbind, comp_bind.
  split_and!; try done. intros st. by rewrite Hst.
Qed.
Lemma local_when (b : bool) (f : Comp monitored unit) : local f -> local (when b f).
Proof. destruct b; [done|]. intros _. apply local_ret. Qed.

Ltac local_setter := apply local_modify; [by intros []|by intros []|by intros ? []].

Lemma local_setRegistration w nowMs on : pj_outcome (registration w on) -> local (setRegistration w nowMs on).
Proof. intros H m. eexists tt, _. rewrite catch_pj_log by done. split_and!; [done..|]. intros st. by rewrite catch_pj_log. Qed.

Lemma local_when_sip (f : Comp monitored unit) : local f -> local (when_sip f).
Proof. intros H. apply local_get; [|done]. intros m. destruct (m_sip m); [done|apply local_ret]. Qed.

Lemma local_registration g w nowMs : documented_answers w -> local (registration_watchdog g w nowMs).
Proof.
  intros [H _]. apply local_get; [|done]. intros m. destruct (m_sip m) as [sip|]; [|apply local_ret].
  destruct (match m_socket m with Some s => _ | None => _ end); [apply local_ret|]. apply local_when.
  apply local_bind; [by apply local_setRegistration|]. intros _.
  apply local_modify; [by intros []| |by intros ? []]. intros x. unfold same_sip. cbn. by rewrite fmap_is_Some.
Qed.

Lemma reconnect_std r s : std_outcome (Socket.reconnect r s).1.
Proof.
  unfold Socket.reconnect, Socket.doConnect, Socket.disconnectAndDestroyBestEffort.
  destruct r; destruct (Socket.chat s) eqn:Ec; unfold Socket.ffi_error; exec; rewrite ?Ec; cbn; repeat (case_bool_decide; cbn); try done.
  all: by destruct listener_error.
Qed.

(** The attempt, and what follows a success. *)
Lemma local_attempt w k : local k -> local (catch_std (lift_socket tt (Socket.reconnect (attempt w)) ;; k) (fun _ => mret tt)).
Proof.
  intros Hk m. unfold catch_std, lift_socket.
  destruct (m_socket m) as [s|] eqn:Es; unfold mbind, comp_bind; rewrite ?Es.
  - pose proof (reconnect_std (attempt w) s) as Hstd. destruct (Socket.reconnect (attempt w) s) as [[[]|[what| |]] s'] eqn:E; try done.
    + destruct (Hk (set_socket (Some s') m)) as (x & m' & E' & H1 & H2 & F). exists tt, m'. rewrite E'. destruct x.
      split_and!; try done. intros st. cbn. rewrite Es, E. unfold set_socket, set_storage in *. cbn. by rewrite F.
    + exists tt, (set_socket (Some s') m). split_and!; try done. intros st. cbn. by rewrite Es, E.
  - destruct (Hk m) as ([] & m' & E' & H1 & H2 & F). exists tt, m'. rewrite E'. split_and!; try done.
    intros st. cbn. rewrite Es. by rewrite F.
Qed.

Lemma local_socket w nowMs : documented_answers w -> local (socket_watchdog w nowMs).
Proof.
  intros [H _]. apply local_get; [|done]. intros m. destruct (m_socket m) as [s|]; [|apply local_ret].
  apply local_bind; [by apply local_when, local_when_sip, local_setRegistration|]. intros _.
  apply local_bind; [local_setter|]. intros _. destruct (_ && _).
  - apply local_when, local_bind; [local_setter|]. intros _. local_setter.
  - apply local_when, local_bind; [local_setter|]. intros _. apply local_bind; [local_setter|]. intros _.
    apply local_attempt. apply local_bind; [local_setter|]. intros _. apply local_bind; [local_setter|]. intros _.
    by apply local_when_sip, local_setRegistration.
Qed.

(** The sync ends normally and has nothing to do with SIP. *)
Lemma sync_total fault acct g w nowMs m : documented_answers w ->
  exists m', storage_sync_loop fault acct g w nowMs m = (Ok tt, m') /\ same_sip m m'.
Proof.
  intros [_ H]. unfold storage_sync_loop, get. unfold mbind at 1, comp_bind at 1. unfold when.
  destruct (bool_decide _); [|by exists m]. unfold log, modify. unfold mbind at 1, comp_bind at 1. unfold mbind, comp_bind.
  rewrite sync_cases by done. destruct (entropy_pool _) as [[|c p]|], (fetched w); try (by eexists).
  destruct (save_all _ _ _ _ _). by eexists.
Qed.

(** ** Visiting the accounts in turn *)

Definition after (f : Comp monitored unit) (nm : string) (s : state) : state := write_back nm (f (project nm s)).2 s.
Definition keeps_sip (f : Comp monitored unit) : Prop := forall m, same_sip m (f m).2.

Lemma local_keeps_sip f : local f -> keeps_sip f.
Proof. intros H m. destruct (H m) as (x & m' & -> & _ & Hs & _). done. Qed.

Lemma after_names f nm s : same_names s (after f nm s).
Proof. apply write_names. Qed.

Lemma set_storage_same (c : conn) m : m_storage m = c -> set_storage c m = m.
Proof. intros <-. by destruct m. Qed.

(** Two accounts in either order, when one visit leaves the database alone. *)
Lemma after_commute f g a b s : local f -> a <> b -> after f a (after g b s) = after g b (after f a s).
Proof.
  intros Hf Hab. unfold after. destruct (Hf (project a s)) as (x & mf & Ef & Hst & _ & Hframe).
  rewrite (project_write_ne a b), Hframe, Ef, (project_write_ne b a) by done. cbn [snd]. rewrite Hst.
  rewrite (set_storage_same _ (project b s)) by done. by rewrite write_commute.
Qed.

(** Two visits of one account are one. *)
Lemma after_after f g nm s : local f -> keeps_sip g -> present s nm -> after g nm (after f nm s) = after (f ;; g) nm s.
Proof.
  intros Hf Hg Hp. unfold after. destruct (Hf (project nm s)) as (x & mf & Ef & Hst & Hsip & _).
  rewrite (bind_ok _ _ _ _ _ Ef), Ef. cbn [snd]. rewrite project_write by done. rewrite Hst.
  rewrite set_storage_same by done. rewrite write_write; [done|done|apply Hg].
Qed.

Lemma visit_total f nm s : (forall m, (f m).1 = Ok tt) -> visit f nm s = (Ok tt, after f nm s).
Proof. intros H. unfold visit, after. specialize (H (project nm s)). destruct (f (project nm s)) as [o m]. cbn in *. by subst. Qed.

(** The loops as folds. *)
Definition all {A} (F : A -> state -> state) (l : list A) (s : state) : state := foldl (fun s x => F x s) s l.

Lemma for_each_all {A} (F : A -> Comp state unit) (G : A -> state -> state) l s :
  (forall x s, F x s = (Ok tt, G x s)) -> for_each F l s = (Ok tt, all G l s).
Proof. intros H. revert s. induction l as [|x l IH]; intros s; [done|]. cbn [for_each]. rewrite (bind_ok _ _ _ _ _ (H x s)). apply IH. Qed.

Lemma all_names {A} (F : A -> state -> state) l s : (forall x s, same_names s (F x s)) -> same_names s (all F l s).
Proof.
  intros H. revert s. induction l as [|x l IH]; intros s; [by split_and!|]. cbn. destruct (H x s) as (A1 & A2 & A3), (IH (F x s)) as (B1 & B2 & B3).
  unfold all in *. split_and!; intros n; [rewrite B1|rewrite B2|rewrite B3]; auto.
Qed.

Definition commuting (F G : string -> state -> state) : Prop := forall a b s, a <> b -> F a (G b s) = G b (F a s).

Lemma all_past F G l x s : commuting F G -> x ∉ l -> G x (all F l s) = all F l (G x s).
Proof.
  intros H. revert s. induction l as [|y l IH]; intros s Hx; [done|]. apply not_elem_of_cons in Hx as [Hxy Hx].
  cbn. unfold all in *. by rewrite IH, H by done.
Qed.

(** Two loops over the same names are one. *)
Lemma loops_fuse F G l s : commuting F G -> NoDup l -> all G l (all F l s) = all (fun x s => G x (F x s)) l s.
Proof.
  intros H Hl. revert s. induction Hl as [|x l Hx _ IH]; intros s; [done|]. cbn.
  change (all G l (G x (all F l (F x s))) = all (fun x s => G x (F x s)) l (G x (F x s))).
  by rewrite (all_past F G l x (F x s) H Hx), IH.
Qed.

Lemma all_permuted F l l' s : commuting F F -> l ≡ₚ l' -> all F l s = all F l' s.
Proof.
  intros H Hp. revert s. induction Hp as [|x l l' _ IH|x y l|l1 l2 l3 _ IH1 _ IH2]; intros s; [done|apply IH| |by rewrite IH1].
  cbn. destruct (decide (x = y)) as [->|Hne]; [done|]. by rewrite H.
Qed.

Lemma all_idle (F : string -> state -> state) l s : (forall x s', x ∈ l -> same_names s s' -> F x s' = s') -> all F l s = s.
Proof.
  induction l as [|x l IH]; intros H; [done|]. cbn. rewrite H; [|by left|by split_and!].
  apply IH. intros y s' Hy. apply H. by right.
Qed.

Lemma names_elem {A} (m : gmap string A) n : n ∈ names m <-> is_Some (m !! n).
Proof.
  unfold names. rewrite list_elem_of_fmap. split.
  - intros ([k v] & -> & H). apply in_order_elem in H. by eexists.
  - intros [v H]. exists (n, v). split; [done|]. by apply in_order_elem.
Qed.
Lemma names_nodup {A} (m : gmap string A) : NoDup (names m).
Proof. apply in_order_nodup. Qed.

(** Every SIP account belongs to an account, and every account has its fields. *)
Definition well_formed (s : state) : Prop :=
  (forall n, is_Some (g_sipAccounts (s_daemon s) !! n) -> is_Some (g_accounts (s_daemon s) !! n)) /\
  (forall n, is_Some (g_accounts (s_daemon s) !! n) -> is_Some (s_watches s !! n)).

Lemma names_sorted {A} (m : gmap string A) : StronglySorted String.le (names m).
Proof.
  apply StronglySorted_fmap with (R1 := key_le); [done|]. apply StronglySorted_merge_sort.
  - intros x y z. unfold key_le. by apply transitivity.
  - intros x y. unfold key_le. apply total, _.
Qed.
Lemma names_same {A} (m m' : gmap string A) : (forall n, is_Some (m' !! n) <-> is_Some (m !! n)) -> names m' = names m.
Proof.
  intros H. apply (StronglySorted_unique String.le); [apply names_sorted..|].
  apply NoDup_Permutation; [apply names_nodup..|]. intros n. by rewrite !names_elem.
Qed.

Lemma bind_gets {S A B} (f : S -> A) (k : A -> Comp S B) s : (gets f ≫= k) s = k (f s) s.
Proof. done. Qed.
Lemma visit_local nm f s : local f -> visit f nm s = (Ok tt, after f nm s).
Proof. intros H. apply visit_total. intros m. by destruct (H m) as ([] & m' & -> & _). Qed.

Section Equivalence.
#[local] Set Default Proof Using "All".
Context (g : GlobalConfig) (faults : string -> nat -> bool) (answers : string -> tick_answers) (nowMs : Z).
Context (Hdoc : forall nm, documented_answers (answers nm)).

Local Abbreviation reg := (fun nm => registration_watchdog g (answers nm) nowMs).
Local Abbreviation sock := (fun nm => socket_watchdog (answers nm) nowMs).
Local Abbreviation sync := (fun nm => storage_sync_loop (faults nm) nm g (answers nm) nowMs).

Lemma sync_keeps nm : keeps_sip (sync nm).
Proof. intros m. by destruct (sync_total (faults nm) nm g (answers nm) nowMs m (Hdoc nm)) as (m' & -> & H). Qed.
Lemma visit_sync nm s : visit (sync nm) nm s = (Ok tt, after (sync nm) nm s).
Proof. apply visit_total. intros m. by destruct (sync_total (faults nm) nm g (answers nm) nowMs m (Hdoc nm)) as (m' & -> & _). Qed.

Lemma watchdogs_eq s : watchdogs g faults answers nowMs s =
  let s1 := all (fun nm => after (reg nm) nm) (names (g_sipAccounts (s_daemon s))) s in
  let s2 := all (fun nm => after (sock nm) nm) (names (g_accounts (s_daemon s))) s1 in
  (Ok tt, all (fun nm => after (sync nm) nm) (names (g_accounts (s_daemon s))) s2).
Proof.
  unfold watchdogs. rewrite bind_gets. cbv zeta.
  set (s1 := all _ _ s). set (s2 := all _ _ s1).
  rewrite (bind_ok _ _ s tt s1) by (apply for_each_all; intros nm x; by apply visit_local, local_registration).
  assert (same_names s s1) as (N1 & _) by (apply all_names; intros; apply after_names).
  rewrite bind_gets. rewrite (names_same _ _ N1).
  rewrite (bind_ok _ _ s1 tt s2) by (apply for_each_all; intros nm x; by apply visit_local, local_socket).
  assert (same_names s1 s2) as (N2 & _) by (apply all_names; intros; apply after_names).
  rewrite bind_gets.
  rewrite (names_same (g_accounts (s_daemon s)) (g_accounts (s_daemon s2))) by (intros n; by rewrite N2).
  apply for_each_all. intros nm x. apply visit_sync.
Qed.

Lemma all_app {A} (F : A -> state -> state) l1 l2 s : all F (l1 ++ l2) s = all F l2 (all F l1 s).
Proof. apply foldl_app. Qed.

Lemma commuting_local (F G : string -> Comp monitored unit) :
  (forall nm, local (F nm)) -> commuting (fun nm => after (F nm) nm) (fun nm => after (G nm) nm).
Proof. intros H a b s Hab. by apply after_commute. Qed.

(** The registration watchdog over the SIP accounts is one over the accounts. *)
Lemma registration_over_accounts s : well_formed s ->
  all (fun nm => after (reg nm) nm) (names (g_sipAccounts (s_daemon s))) s =
  all (fun nm => after (reg nm) nm) (names (g_accounts (s_daemon s))) s.
Proof.
  intros [Hsip Hw]. set (sips := names (g_sipAccounts (s_daemon s))).
  set (rest := filter (fun n => n ∉ sips) (names (g_accounts (s_daemon s)))).
  rewrite (all_permuted _ (names (g_accounts (s_daemon s))) (sips ++ rest)).
  - rewrite all_app. symmetry. apply all_idle. intros x s' Hx Hn. unfold rest in Hx.
    apply list_elem_of_filter in Hx as [Hno Ha]. apply names_elem in Ha.
    assert (same_names s (all (fun nm => after (reg nm) nm) sips s)) as Hn1 by (apply all_names; intros; apply after_names).
    unfold after, registration_watchdog, get. unfold mbind at 1, comp_bind at 1.
    assert (m_sip (project x s') = None) as ->.
    { apply eq_None_not_Some. intros Hs. apply Hno. apply names_elem. unfold project in Hs. cbn in Hs.
      rewrite fmap_is_Some in Hs. by apply (proj1 (proj2 Hn)), (proj1 (proj2 Hn1)) in Hs. }
    apply write_project. apply (same_names_present _ _ _ Hn), (same_names_present _ _ _ Hn1). split; [done|by apply Hw].
  - apply commuting_local. intros nm. by apply local_registration.
  - apply NoDup_Permutation; [apply names_nodup| |].
    + apply NoDup_app. split; [apply names_nodup|]. split; [|apply NoDup_filter, names_nodup].
      intros x Hx [Hno _]%list_elem_of_filter. done.
    + intros x. unfold rest. rewrite elem_of_app, list_elem_of_filter.
      destruct (decide (x ∈ sips)) as [Hx|Hx]; [|tauto]. split; [by left|]. intros _. apply names_elem, Hsip. by apply names_elem.
Qed.

Lemma visits_are_tick s nm : present s nm ->
  after (sync nm) nm (after (sock nm) nm (after (reg nm) nm s)) = after (tick (faults nm) nm g (answers nm) nowMs) nm s.
Proof.
  intros Hp. assert (local (reg nm)) as Hr by by apply local_registration.
  assert (local (sock nm)) as Hs by by apply local_socket.
  rewrite after_after; [|done|apply sync_keeps|apply (same_names_present s); [apply after_names|done]].
  rewrite after_after; [done|done| |done].
  intros m. destruct (Hs m) as ([] & m1 & E & _ & H1 & _). rewrite (bind_ok _ _ _ _ _ E). unfold same_sip in *. rewrite <- H1.
  apply sync_keeps.
Qed.

Lemma tick_total nm m : (tick (faults nm) nm g (answers nm) nowMs m).1 = Ok tt.
Proof.
  unfold tick. destruct (local_registration g (answers nm) nowMs (Hdoc nm) m) as ([] & m1 & E & _). rewrite (bind_ok _ _ _ _ _ E).
  destruct (local_socket (answers nm) nowMs (Hdoc nm) m1) as ([] & m2 & E2 & _). rewrite (bind_ok _ _ _ _ _ E2).
  by destruct (sync_total (faults nm) nm g (answers nm) nowMs m2 (Hdoc nm)) as (m' & -> & _).
Qed.

Lemma all_agree (F G : string -> state -> state) l s : (forall x s', x ∈ l -> same_names s s' -> F x s' = G x s') -> (forall x s', same_names s' (G x s')) ->
  all F l s = all G l s.
Proof.
  intros H HG. revert s H. induction l as [|x l IH]; intros s H; [done|]. cbn. rewrite (H x s); [|by left|by split_and!].
  apply IH. intros y s' Hy (B1 & B2 & B3). apply H; [by right|]. destruct (HG x s) as (A1 & A2 & A3).
  split_and!; intros n; [rewrite B1|rewrite B2|rewrite B3]; auto.
Qed.

Lemma watchdogs_ticks s : well_formed s ->
  exists s', watchdogs g faults answers nowMs s = (Ok tt, s') /\ ticks g faults answers nowMs s = (Ok tt, s') /\ same_names s s' /\
    s' = all (fun nm => after (tick (faults nm) nm g (answers nm) nowMs) nm) (names (g_accounts (s_daemon s))) s.
Proof.
  intros Hwf. set (F := fun nm => after (tick (faults nm) nm g (answers nm) nowMs) nm).
  exists (all F (names (g_accounts (s_daemon s))) s). split; [|split; [|split; [apply all_names; intros; apply after_names|done]]].
  - rewrite watchdogs_eq. cbv zeta. f_equal. rewrite registration_over_accounts by done.
    rewrite (loops_fuse (fun nm => after (reg nm) nm) (fun nm => after (sock nm) nm));
      [|apply commuting_local; intros; by apply local_registration|apply names_nodup].
    rewrite (loops_fuse _ (fun nm => after (sync nm) nm)); [| |apply names_nodup].
    + apply all_agree; [|intros; apply after_names]. intros x s' Hx Hn. apply visits_are_tick. apply (same_names_present _ _ _ Hn).
      apply names_elem in Hx. split; [done|]. by apply Hwf.
    + intros a b x Hab. rewrite (after_commute (reg a)), (after_commute (sock a)); [done|by apply local_socket|done|by apply local_registration|done].
  - unfold ticks. rewrite bind_gets. apply for_each_all. intros nm x. apply visit_total, tick_total.
Qed.

(** C31: One pass of the three loops of [main] over all accounts (SIP
    registrations, then sockets, then contact syncs, each in the order of the
    names, over one shared database) does to the state exactly what letting
    each account in turn do its three steps does, when PJSIP and the contact
    fetch fail with their documented exceptions: so what is proved of one
    account's [tick] holds in the daemon, whatever the other accounts do. *)
Theorem watchdogs_are_ticks (s : state) (Hs : well_formed s) :
  exists s', watchdogs g faults answers nowMs s = (Ok tt, s') /\ ticks g faults answers nowMs s = (Ok tt, s').
Proof. destruct (watchdogs_ticks s Hs) as (s' & H1 & H2 & _). by exists s'. Qed.
End Equivalence.

(** ** Example *)

Lemma adopt_watches first_sync first_pool d ws n : is_Some (g_accounts d !! n) -> is_Some (adopt first_sync first_pool d ws !! n).
Proof. intros [a Ha]. unfold adopt. rewrite map_lookup_imap, Ha. cbn. by eexists. Qed.

Lemma started_ok libs l : NoDup (map name l) -> (forall cfg, cfg ∈ l -> safe_setup cfg (libs (name cfg))) ->
  running (start_all libs l initial).2 /\ accounted (start_all libs l initial).2.
Proof.
  intros Hl Hs. destruct (start_spec libs l initial Hl (fun _ _ => eq_refl) Hs (proj1 initial_ok) (proj2 initial_ok)) as (d & -> & H). exact H.
Qed.

Lemma pair_names : NoDup (map name [account_named "a" "" 1; account_named "b" "" 1]).
Proof. repeat constructor; intros H; repeat (apply elem_of_cons in H as [[=]|H]); by apply elem_of_nil in H. Qed.
Lemma plain_safe cfg : signalProxy cfg = EmptyString -> safe_setup cfg good.
Proof. intros H. split; [by split|]. split; [|done]. unfold early_failure, Socket.applyProxyConfig. by rewrite H. Qed.
Lemma pair_safe cfg : cfg ∈ [account_named "a" "" 1; account_named "b" "" 1] -> safe_setup cfg good.
Proof. intros H. apply plain_safe. repeat (apply elem_of_cons in H as [->|H]; [done|]). by apply elem_of_nil in H. Qed.
Lemma running_daemon_ok : running running_daemon /\ accounted running_daemon.
Proof. exact (started_ok (fun _ => good) _ pair_names pair_safe). Qed.

(** Two accounts up; the socket of "a" has just dropped, and libsignal can
    reconnect it. *)
Definition sample_state : state := mkState running_daemon (adopt (fun _ => 0) (fun _ => None) running_daemon ∅) (cdb two_accounts).
Definition sample_process : process :=
  mkProcess sample_state true false 0 (mkGlobal "/d/x.db" "k" 60 86400 43200 30) ∅ 1.
Definition dropped_state : state := p_state (occur (Interrupted "a" None) sample_process).
Definition sample_answers : tick_answers := mkAnswers (fun _ => Throw PjError) (Socket.Opened 1 None) 0 0 (Ok []).

Lemma adopted_well_formed first_sync first_pool d db : accounted d -> well_formed (mkState d (adopt first_sync first_pool d ∅) db).
Proof. intros [As _ _]. split; intros n; cbn; [intros [sip H]; by destruct (As n sip H)|apply adopt_watches]. Qed.
Lemma interrupted_well_formed nm err p : well_formed (p_state p) -> well_formed (p_state (occur (Interrupted nm err) p)).
Proof. intros [H1 H2]. split; intros n; cbn; rewrite lookup_alter_is_Some; auto. Qed.
Lemma sample_well_formed : well_formed dropped_state.
Proof.
  apply (interrupted_well_formed "a" None sample_process). exact (adopted_well_formed _ _ running_daemon _ (proj2 running_daemon_ok)).
Qed.

Lemma watchdogs_are_ticks_witness :
  exists s', watchdogs (g_global sample_process) (fun _ => no_fault) (fun _ => sample_answers) 10000 dropped_state = (Ok tt, s') /\
    ticks (g_global sample_process) (fun _ => no_fault) (fun _ => sample_answers) 10000 dropped_state = (Ok tt, s').
Proof.
  apply (watchdogs_are_ticks (g_global sample_process) (fun _ => no_fault) (fun _ => sample_answers) 10000).
  - intros nm. split; [by intros on|done].
  - apply sample_well_formed.
Defined.

(** The drop was seen, SIP taken down, the socket reconnected, SIP brought up. *)
Example dropped_and_back :
  w_log <$> s_watches (watchdogs (g_global sample_process) (fun _ => no_fault) (fun _ => sample_answers) 10000 dropped_state).2 !! "a"%string =
  Some [SetRegistration false 10000; ReconnectSocket 10000; SetRegistration true 10000].
Proof. vm_compute. reflexivity. Qed.
