(* ===== verification/DaemonRun.v ===== *)
(** What [main] (MainLoop) guarantees: the loop never dies of what the outside
    does, every reload trigger is honoured and brings the running accounts to
    the configuration in the database, and a stop request ends the process with
    everything released. *)

From S2P Require Import Prelude Storage Config AuthSocket CallSignaling Calls Watchdog Lifecycle GendbConfig MainLoop.

Open Scope Z_scope.

(** ** States that differ in what sockets, registrations and calls say *)

Definition kept_object (a a' : account) : Prop :=
  incarnation a' = incarnation a /\ config a' = config a /\ queue_started a' = queue_started a /\ handle a' = handle a /\
  (is_Some (socket a) -> is_Some (socket a')).

Record alike (d d' : daemon) : Prop := {
  alike_accounts : forall n, option_Forall2 kept_object (g_accounts d !! n) (g_accounts d' !! n);
  alike_sips : forall n, transport <$> g_sipAccounts d' !! n = transport <$> g_sipAccounts d !! n;
  alike_rest : g_ep d' = g_ep d /\ managers d' = managers d /\ transports d' = transports d;
}.

Lemma kept_object_refl a : kept_object a a.
Proof. by split_and!. Qed.

#[export] Instance alike_preorder : PreOrder alike.
Proof.
  split.
  - intros d. split; [|done|done]. intros n. destruct (_ !! n); constructor. apply kept_object_refl.
  - intros d1 d2 d3 [A1 S1 (E1 & M1 & T1)] [A2 S2 (E2 & M2 & T2)]. split.
    + intros n. specialize (A1 n). specialize (A2 n). destruct A1 as [a b Hab|]; inversion A2 as [x c Hbc|]; subst; constructor.
      destruct Hab as (H1 & H2 & H3 & H4 & H5), Hbc as (K1 & K2 & K3 & K4 & K5). split_and!; try congruence. auto.
    + intros n. by rewrite S2.
    + split_and!; congruence.
Qed.

Lemma alike_there d d' n a : alike d d' -> g_accounts d !! n = Some a -> exists a', g_accounts d' !! n = Some a' /\ kept_object a a'.
Proof. intros [A _ _] H. specialize (A n). rewrite H in A. inversion A; subst. by eexists. Qed.
Lemma alike_back d d' n a' : alike d d' -> g_accounts d' !! n = Some a' -> exists a, g_accounts d !! n = Some a /\ kept_object a a'.
Proof. intros [A _ _] H. specialize (A n). rewrite H in A. inversion A; subst. by eexists. Qed.
Lemma alike_none d d' n : alike d d' -> g_accounts d !! n = None -> g_accounts d' !! n = None.
Proof. intros [A _ _] H. specialize (A n). rewrite H in A. by inversion A. Qed.

Lemma alike_running d d' : alike d d' -> running d -> running d'.
Proof.
  intros H Hr n a' Ha'. destruct (alike_back _ _ _ _ H Ha') as (a & Ha & (_ & _ & -> & -> & Hs)). destruct (Hr n a Ha) as (? & ? & ?). auto.
Qed.

Lemma alike_accounted d d' : alike d d' -> accounted d -> accounted d'.
Proof.
  intros H [As Am At]. destruct (H) as [_ Hs (He & Hm & Ht)]. split.
  - intros n sip Hl. specialize (Hs n). rewrite Hl in Hs. destruct (g_sipAccounts d !! n) as [x|] eqn:Ex; [|done].
    destruct (As n x Ex) as [[a Ha] Hep]. rewrite He. split; [|done]. destruct (alike_there _ _ _ _ H Ha) as (a' & -> & _). by eexists.
  - rewrite Hm. intros i Hi. destruct (Am i Hi) as (n & a & Ha & <-). destruct (alike_there _ _ _ _ H Ha) as (a' & Ha' & (Hi' & _)).
    by exists n, a'.
  - rewrite Ht. intros t Hin. destruct (At t Hin) as (n & sip & Hl & <-). specialize (Hs n). rewrite Hl in Hs.
    destruct (g_sipAccounts d' !! n) as [y|] eqn:Ey; [|done]. exists n, y. split; [done|]. by injection Hs.
Qed.

(** One entry of each map changes. *)
Lemma alike_alter f h nm d : (forall a, g_accounts d !! nm = Some a -> kept_object a (f a)) -> (forall s, transport (h s) = transport s) ->
  alike d (set_sips (alter h nm (g_sipAccounts d)) (set_accounts (alter f nm (g_accounts d)) d)).
Proof.
  intros Hf Hh. split; [| |done]; intros n; cbn; rewrite lookup_alter; case_decide as E; try subst n.
  - destruct (g_accounts d !! nm) eqn:Ea; constructor. by apply Hf.
  - destruct (_ !! n); constructor. apply kept_object_refl.
  - destruct (g_sipAccounts d !! nm); [|done]. cbn. by rewrite Hh.
  - done.
Qed.

Lemma alike_sip h nm d : (forall s, transport (h s) = transport s) -> alike d (set_sips (alter h nm (g_sipAccounts d)) d).
Proof.
  intros Hh. pose proof (alike_alter (fun a => a) h nm d (fun a _ => kept_object_refl a) Hh) as H. rewrite (alter_id (fun a : account => a)) in H by done.
  by destruct d.
Qed.
Lemma alike_account f nm d : (forall a, kept_object a (f a)) -> alike d (set_accounts (alter f nm (g_accounts d)) d).
Proof.
  intros Hf. pose proof (alike_alter f (fun s => s) nm d (fun a _ => Hf a) (fun _ => eq_refl)) as H. rewrite (alter_id (fun s : sip_account => s)) in H by done.
  by destruct d.
Qed.

(** ** Healthy processes *)

Record healthy (p : process) : Prop := {
  healthy_running : running (s_daemon (p_state p));
  healthy_accounted : accounted (s_daemon (p_state p));
  healthy_watches : forall n, is_Some (g_accounts (s_daemon (p_state p)) !! n) -> is_Some (s_watches (p_state p) !! n);
}.

Lemma healthy_well_formed p : healthy p -> well_formed (p_state p).
Proof. intros [_ [As _ _] Hw]. split; [|done]. intros n [sip H]. by destruct (As n sip H). Qed.

Lemma alike_healthy p p' : alike (s_daemon (p_state p)) (s_daemon (p_state p')) ->
  (forall n, is_Some (s_watches (p_state p) !! n) -> is_Some (s_watches (p_state p') !! n)) -> healthy p -> healthy p'.
Proof.
  intros H Hw [H1 H2 H3]. split; [by eapply alike_running|by eapply alike_accounted|].
  intros n [a' Ha']. destruct (alike_back _ _ _ _ H Ha') as (a & Ha & _). apply Hw, H3. by eexists.
Qed.

(** *** Outside events *)

Lemma occur_alike e p : alike (s_daemon (p_state p)) (s_daemon (p_state (occur e p))) /\ s_watches (p_state (occur e p)) = s_watches (p_state p).
Proof.
  split; [|by destruct e]. destruct e as [| |f|nm active now|nm err|nm c]; try done; cbn.
  - by apply alike_sip.
  - apply alike_account. intros a. split_and!; try done. cbn. by rewrite fmap_is_Some.
  - by apply alike_account.
Qed.

Lemma occur_all_alike es p : alike (s_daemon (p_state p)) (s_daemon (p_state (occur_all es p))) /\ s_watches (p_state (occur_all es p)) = s_watches (p_state p).
Proof.
  revert p. induction es as [|e es IH]; intros p; [done|]. cbn. destruct (occur_alike e p) as [H1 H2], (IH (occur e p)) as [H3 H4].
  unfold occur_all in *. split; [by etrans|by rewrite H4].
Qed.

Lemma occur_all_healthy es p : healthy p -> healthy (occur_all es p).
Proof. destruct (occur_all_alike es p) as [H1 H2]. intros H. eapply alike_healthy; [exact H1|by rewrite H2|done]. Qed.

(** *** The watchdogs *)

Definition has_socket (m : monitored) : Prop := is_Some (m_socket m).

Lemma lift_socket_keeps {A} (x : A) f : preserves has_socket (lift_socket x f).
Proof. intros m [s Hs]. unfold lift_socket. rewrite Hs. destruct (f s). by eexists. Qed.

Lemma setRegistration_keeps w nowMs on : preserves has_socket (setRegistration w nowMs on).
Proof.
  apply preserves_catch_pj; [|apply preserves_ret]. apply preserves_bind; [by apply preserves_modify|]. intros _. apply preserves_of_outcome.
Qed.

Lemma when_sip_keeps f : preserves has_socket f -> preserves has_socket (when_sip f).
Proof. intros H. apply preserves_bind; [apply preserves_get|]. intros m. destruct (m_sip m); [done|apply preserves_ret]. Qed.

Ltac socket_stays :=
  repeat match goal with
  | |- preserves _ (modify _) => by apply preserves_modify
  | |- preserves _ (log _) => by apply preserves_modify
  | |- preserves _ get => apply preserves_get
  | |- preserves _ (when_sip _) => apply when_sip_keeps
  | |- preserves _ (setRegistration _ _ _) => apply setRegistration_keeps
  | |- preserves _ (lift_socket _ _) => apply lift_socket_keeps
  | |- preserves _ _ => progress keeps
  end.

Lemma tick_keeps_socket fault acct g w nowMs : preserves has_socket (tick fault acct g w nowMs).
Proof.
  unfold tick. apply preserves_bind; [unfold registration_watchdog; socket_stays|]. intros _.
  apply preserves_bind; [unfold socket_watchdog; socket_stays|]. intros _.
  intros m Hm. by destruct (storage_sync_loop_eq fault acct g w nowMs m) as [->|[st ->]].
Qed.

Lemma after_alike f nm s : preserves has_socket f -> alike (s_daemon s) (s_daemon (after f nm s)).
Proof.
  intros Hf. unfold after, write_back. cbn. apply alike_alter; [|done]. intros a Ha. split_and!; try done. cbn. intros Hs.
  apply Hf. unfold has_socket, project. cbn. by rewrite Ha.
Qed.

Lemma all_alike {A} (F : A -> state -> state) l s : (forall x s, alike (s_daemon s) (s_daemon (F x s))) -> alike (s_daemon s) (s_daemon (all F l s)).
Proof. intros H. revert s. induction l as [|x l IH]; intros s; [done|]. cbn. etrans; [apply (H x)|apply IH]. Qed.

Lemma run_watchdogs_spec i p : healthy p -> (forall nm, documented_answers (pass_answers i nm)) ->
  exists s, run_watchdogs i p = (Returned tt, set_state s p) /\ alike (s_daemon (p_state p)) (s_daemon s) /\
    healthy (set_state s p) /\ watchdogs (g_global p) (pass_faults i) (pass_answers i) (now_ms i) (p_state p) = (Ok tt, s) /\
    ticks (g_global p) (pass_faults i) (pass_answers i) (now_ms i) (p_state p) = (Ok tt, s).
Proof.
  intros Hp Hdoc.
  destruct (watchdogs_ticks (g_global p) (pass_faults i) (pass_answers i) (now_ms i) Hdoc (p_state p) (healthy_well_formed p Hp))
    as (s & E & Et & (_ & _ & Hw) & Es).
  exists s. unfold run_watchdogs. rewrite E. split; [done|].
  assert (alike (s_daemon (p_state p)) (s_daemon s)) as Ha
    by (rewrite Es; apply all_alike; intros; apply after_alike, tick_keeps_socket).
  split; [done|]. split; [|done]. eapply alike_healthy; [exact Ha| |done]. intros n. apply Hw.
Qed.

(** *** The flags *)

Definition is_hangup (e : outside) : bool := match e with Hangup => true | _ => false end.
Definition is_stop (e : outside) : bool := match e with Stop => true | _ => false end.

Lemma occur_all_flags es p : let q := occur_all es p in
  g_reloadRequested q = g_reloadRequested p || existsb is_hangup es /\ g_running q = g_running p && negb (existsb is_stop es) /\
  lastConfigPollMs q = lastConfigPollMs p /\ g_global q = g_global p /\ pid_files q = pid_files p /\ p_loads q = p_loads p.
Proof.
  revert p. induction es as [|e es IH]; intros p; cbv zeta; [cbn; by rewrite orb_false_r, andb_true_r|].
  change (occur_all (e :: es) p) with (occur_all es (occur e p)). cbn [existsb].
  destruct (IH (occur e p)) as (-> & -> & -> & -> & -> & ->).
  destruct e; cbn; destruct (g_reloadRequested p), (g_running p), (existsb is_hangup es), (existsb is_stop es); by split_and!.
Qed.

(** What the events [es] and work on the accounts change of the rest. *)
Record went_by (es : list outside) (p p' : process) : Prop := {
  by_request : g_reloadRequested p' = g_reloadRequested p || existsb is_hangup es;
  by_stop : g_running p' = g_running p && negb (existsb is_stop es);
  by_poll : lastConfigPollMs p' = lastConfigPollMs p;
  by_files : pid_files p' = pid_files p;
}.

Lemma went_by_occur es p : went_by es p (occur_all es p).
Proof. by destruct (occur_all_flags es p) as (H1 & H2 & H3 & _ & H4 & _). Qed.
Lemma went_by_trans es1 es2 p1 p2 p3 : went_by es1 p1 p2 -> went_by es2 p2 p3 -> went_by (es1 ++ es2) p1 p3.
Proof.
  intros [A1 A2 A3 A4] [B1 B2 B3 B4]. split; rewrite ?existsb_app; [|rewrite negb_orb|congruence..].
  - by rewrite B1, A1, orb_assoc.
  - by rewrite B2, A2, andb_assoc.
Qed.

(** ** Reloads *)

(** What a reload makes of one configured account. *)
Definition applied (cfg : AccountConfig) (before after : option account) : Prop :=
  match before with
  | Some a =>
    if bool_decide (configVersion (config a) = configVersion cfg)
    then exists a', after = Some a' /\ incarnation a' = incarnation a /\ config a' = config a
    else after = None \/ exists a', after = Some a' /\ config a' = cfg
  | None => after = None \/ exists a', after = Some a' /\ config a' = cfg
  end.

(** The accounts of [d'], which were those of [d], are those of the configuration. *)
Definition implements (c : DaemonConfig) (d d' : daemon) : Prop :=
  forall n, match by_name (accounts c) !! n with
            | None => g_accounts d' !! n = None
            | Some cfg => applied cfg (g_accounts d !! n) (g_accounts d' !! n)
            end.

(** What keeps the objects keeps what was applied to them. *)
Lemma applied_kept cfg b0 b a a' : option_Forall2 kept_object b0 b -> applied cfg b a ->
  option_Forall2 kept_object a a' -> applied cfg b0 a'.
Proof.
  intros H0 H H2.
  assert (forall P : account -> Prop, (forall x x', kept_object x x' -> P x -> P x') ->
    (a = None \/ exists x, a = Some x /\ P x) -> a' = None \/ exists x, a' = Some x /\ P x) as Hmove.
  { intros P HP [->|(x & -> & Hc)]; inversion H2; subst; [by left|]. right. eexists. split; [done|]. by eapply HP. }
  assert (forall x x', kept_object x x' -> config x = cfg -> config x' = cfg) as Hcfg by (by intros x x' (_ & -> & _)).
  unfold applied in *. destruct H0 as [x0 x (Hi & Hc & _)|]; [|by apply (Hmove _ Hcfg)].
  rewrite Hc in H. case_bool_decide; [|by apply (Hmove _ Hcfg)].
  destruct H as (y & -> & Hi' & Hc'). inversion H2 as [? z (Hi2 & Hc2 & _)|]; subst. exists z. split_and!; [done|congruence|congruence].
Qed.

Lemma implements_alike c d0 d d' d'' : alike d0 d -> implements c d d' -> alike d' d'' -> implements c d0 d''.
Proof.
  intros [H0 _ _] H [H2 _ _] n. specialize (H n). destruct (by_name (accounts c) !! n) as [cfg|].
  - by eapply applied_kept.
  - specialize (H2 n). rewrite H in H2. by inversion H2.
Qed.

Lemma updated_applied cfg before after : updated cfg before after -> applied cfg before after.
Proof.
  unfold updated, applied. destruct before as [a|]; [case_bool_decide|].
  - intros ->. by exists a.
  - intros [->|(a' & s & -> & Hc & _)]; [by left|right; by exists a'].
  - intros [->|(a' & s & -> & Hc & _)]; [by left|right; by exists a'].
Qed.

(** The libraries keep to their documentation while accounts come and go. *)
Definition sound_libs (libs : string -> bringup) : Prop := forall n, documented (libs n) /\ transport_close (libs n) = Ok tt.

Section Run.
Context (readings : nat -> reading) (first_sync : nat -> Z) (first_pool : nat -> option string).

Local Abbreviation reload := (reload readings first_sync first_pool).
Local Abbreviation pass := (pass readings first_sync first_pool).
Local Abbreviation hup_reload := (hup_reload readings first_sync first_pool).
Local Abbreviation poll_reload := (poll_reload readings first_sync first_pool).
Local Abbreviation next_config := (next_config readings).
Local Abbreviation main_loop := (main_loop readings first_sync first_pool).

(** The configuration a reload reads. *)
Definition config_read (w : during) (p : process) : outcome DaemonConfig := next_config (occur_all (before_load w) p).

(** No account of the configuration kills the process when it is set up
    (Lifecycle.safe_setup). *)
Definition sound_reload (libs : string -> bringup) (w : during) (p : process) : Prop :=
  sound_libs libs /\ forall c, config_read w p = Ok c -> forall cfg, cfg ∈ accounts c -> safe_setup cfg (libs (name cfg)).

Definition events_of (w : during) : list outside := before_load w ++ after_load w.

(** What a reload changes of the process. *)
Definition reloaded (w : during) (p p' : process) : Prop :=
  went_by (events_of w) p p' /\
  match config_read w p with
  | Ok c => g_global p' = global c /\ implements c (s_daemon (p_state p)) (s_daemon (p_state p'))
  | Throw _ => g_global p' = g_global p /\ alike (s_daemon (p_state p)) (s_daemon (p_state p'))
  end.

Lemma occur_all_db es p q : s_db (p_state p) = s_db (p_state q) -> s_db (p_state (occur_all es p)) = s_db (p_state (occur_all es q)).
Proof.
  revert p q. induction es as [|e es IH]; intros p q H; [done|]. apply (IH (occur e p) (occur e q)).
  destruct e; cbn; by rewrite ?H.
Qed.

Lemma config_read_same w p q : p_loads p = p_loads q -> s_db (p_state p) = s_db (p_state q) -> config_read w p = config_read w q.
Proof.
  intros H1 H2. unfold config_read, MainLoop.next_config. rewrite (occur_all_db _ p q H2).
  destruct (occur_all_flags (before_load w) p) as (_ & _ & _ & _ & _ & ->), (occur_all_flags (before_load w) q) as (_ & _ & _ & _ & _ & ->).
  by rewrite H1.
Qed.

(** *** The loops over the accounts *)

Local Abbreviation set_daemon := (set_daemon first_sync first_pool).
Local Abbreviation each := (each first_sync first_pool).

Lemma set_daemon_healthy d p : running d -> accounted d -> healthy (set_daemon d p).
Proof. intros Hr Ha. split; [done|done|]. intros n Hn. by apply adopt_watches. Qed.

Lemma concat_step (w : list (list outside)) : concat w = default [] (head w) ++ concat (tail w).
Proof using. by destruct w. Qed.

Lemma kept_trans o1 o2 o3 : option_Forall2 kept_object o1 o2 -> option_Forall2 kept_object o2 o3 -> option_Forall2 kept_object o1 o3.
Proof using.
  intros H1 H2. destruct H1 as [a b (H1 & H3 & H4 & H5 & H6)|]; inversion H2 as [x c (K1 & K2 & K3 & K4 & K5)|]; subst; constructor.
  split_and!; try congruence. auto.
Qed.
Lemma kept_refl o : option_Forall2 kept_object o o.
Proof using. destruct o; constructor. apply kept_object_refl. Qed.

(** Both loops: whatever happens outside, an account the loop does not work on
    is kept, and the others become what one step makes of them. *)
Lemma each_spec {A} (f : string * A -> daemon -> ended unit * daemon) (Q : string * A -> option account -> option account -> Prop) w l p :
  (forall x o o' o1 o2, option_Forall2 kept_object o o' -> Q x o' o1 -> option_Forall2 kept_object o1 o2 -> Q x o o2) ->
  (forall x d, x ∈ l -> running d -> exists d', f x d = (Returned tt, d') /\ running d' /\ (accounted d -> accounted d') /\
     (forall n, n <> x.1 -> g_accounts d' !! n = g_accounts d !! n) /\ Q x (g_accounts d !! x.1) (g_accounts d' !! x.1)) ->
  NoDup l.*1 -> healthy p ->
  exists p', each f w l p = (Returned tt, p') /\ healthy p' /\ went_by (concat w) p p' /\
    p_loads p' = p_loads p /\ g_global p' = g_global p /\
    forall n, (n ∉ l.*1 -> option_Forall2 kept_object (g_accounts (s_daemon (p_state p)) !! n) (g_accounts (s_daemon (p_state p')) !! n)) /\
      forall x, x ∈ l -> x.1 = n -> Q x (g_accounts (s_daemon (p_state p)) !! n) (g_accounts (s_daemon (p_state p')) !! n).
Proof.
  intros HQ. revert w p. induction l as [|x l IH]; intros w p Hf Hnd Hp; cbn [MainLoop.each].
  { destruct (occur_all_alike (concat w) p) as [[Ak _ _] _], (occur_all_flags (concat w) p) as (_ & _ & _ & Hg & _ & Hl).
    eexists. split; [reflexivity|]. split_and!; [by apply occur_all_healthy|apply went_by_occur|done|done|].
    intros n. split; [intros _; apply Ak|]. intros x Hx. by apply elem_of_nil in Hx. }
  set (p0 := occur_all (default [] (head w)) p). destruct (occur_all_alike (default [] (head w)) p) as [[A0 _ _] _]. fold p0 in A0.
  destruct (occur_all_flags (default [] (head w)) p) as (_ & _ & _ & Hg0 & _ & Hl0). fold p0 in Hg0, Hl0.
  pose proof (occur_all_healthy (default [] (head w)) p Hp) as [Hr Ha _]. fold p0 in Hr, Ha.
  destruct (Hf x (s_daemon (p_state p0)) ltac:(by left) Hr) as (d & E & Hr1 & Ha1 & Ho & Hx). rewrite E.
  cbn in Hnd. apply NoDup_cons in Hnd as [Hnew Hnd].
  destruct (IH (tail w) (set_daemon d p0)) as (p' & -> & Hp' & Hby & Hl & Hg & Hacc);
    [intros y d' Hy; apply Hf; by right|done|apply set_daemon_healthy; auto|].
  exists p'. split; [done|]. split; [done|]. split_and!; [|by rewrite Hl, <- Hl0|by rewrite Hg, <- Hg0|].
  { rewrite (concat_step w). eapply went_by_trans; [apply went_by_occur|]. fold p0. destruct Hby. by split. }
  intros n. destruct (Hacc n) as [Hkeep Hmake]. cbn [s_daemon p_state] in Hkeep, Hmake. specialize (A0 n). split.
  - cbn. intros [Hne Hni]%not_elem_of_cons. eapply kept_trans; [exact A0|]. rewrite <- (Ho n Hne). by apply Hkeep.
  - intros y [->|Hy]%elem_of_cons <-.
    + eapply HQ; [exact A0|exact Hx|]. by apply Hkeep.
    + assert (y.1 <> x.1) as Hne by (intros H; apply Hnew; rewrite <- H; apply list_elem_of_fmap; by exists y).
      eapply HQ; [|by apply Hmake|apply kept_refl]. cbn [s_daemon p_state set_state MainLoop.set_daemon]. by rewrite (Ho _ Hne).
Qed.

(** The two loops of a reload. *)
Lemma diff_returns libs w c p : healthy p -> sound_libs libs ->
  (forall cfg, cfg ∈ accounts c -> safe_setup cfg (libs (name cfg))) ->
  exists p', diff_accounts first_sync first_pool libs w c p = (Returned tt, p') /\ healthy p' /\
    went_by (after_load w) p p' /\ p_loads p' = p_loads p /\ g_global p' = g_global p /\
    implements c (s_daemon (p_state p)) (s_daemon (p_state p')).
Proof.
  intros Hp Hl Hs. unfold diff_accounts. set (m := by_name (accounts c)).
  destruct (each_spec (remove_account libs m)
    (fun x before after => if m !! x.1 then option_Forall2 kept_object before after else after = None)
    (while_removing w) (in_order (g_accounts (s_daemon (p_state p)))) p) as (p1 & -> & Hp1 & Hby1 & Hl1 & Hg1 & H1).
  - intros x o o' o1 o2 H0 H H2. destruct (m !! x.1); [by do 2 (eapply kept_trans; [eassumption|])|]. subst o1. by inversion H2.
  - intros x d _ Hr. unfold remove_account. destruct (m !! x.1) as [cfg|]; [exists d; split_and!; try done; apply kept_refl|].
    destruct (teardown_spec (libs x.1) x.1 d (proj1 (Hl _)) Hr) as (d' & E & E1 & _ & Ha). exists d'.
    split_and!; [done|by eapply running_delete|intros H; by apply Ha, Hl| |]; rewrite E1; [intros n Hn; by apply lookup_delete_ne|apply lookup_delete_eq].
  - apply in_order_nodup.
  - done.
  - cbn [and_then].
    destruct (each_spec (update_account libs) (fun x => applied x.2) (while_updating w) (in_order m) p1)
      as (p2 & -> & Hp2 & Hby2 & Hl2 & Hg2 & H2); [| |apply in_order_nodup|done|].
    + intros x o o' o1 o2. apply applied_kept.
    + intros [n cfg] d Hin Hr. apply in_order_elem in Hin. destruct (by_name_spec _ _ _ Hin) as [Hn Hc]. cbn in Hn.
      pose proof (Hs cfg Hc) as Hsafe. rewrite Hn in Hsafe.
      destruct (update_cases libs n cfg d Hn (proj1 Hsafe) Hr) as [(d' & E & Hr' & Ha & Ho & Hu)|Hk].
      2: { exfalso. revert Hk. apply not_killed. by intros c' b [-> ->]. }
      exists d'. split_and!; [done|done|intros H; by apply Ha, Hl|exact Ho|]. by apply updated_applied.
    + exists p2. split; [done|]. split; [done|]. split_and!; [by eapply went_by_trans|congruence|congruence|]. intros n.
      destruct (H1 n) as [K1 M1], (H2 n) as [K2 M2].
      assert (forall a, g_accounts (s_daemon (p_state p)) !! n = Some a -> (n, a) ∈ in_order (g_accounts (s_daemon (p_state p)))) as Hin
        by (intros a Ha; by apply in_order_elem).
      assert (g_accounts (s_daemon (p_state p)) !! n = None -> n ∉ (in_order (g_accounts (s_daemon (p_state p)))).*1) as Hout.
      { intros Ha Hx. apply list_elem_of_fmap in Hx as ([k v] & -> & Hx). apply in_order_elem in Hx. cbn in *. congruence. }
      fold m. destruct (m !! n) as [cfg|] eqn:Em.
      * apply (applied_kept cfg _ (g_accounts (s_daemon (p_state p1)) !! n) (g_accounts (s_daemon (p_state p2)) !! n));
          [|apply (M2 (n, cfg)); [by apply in_order_elem|done]|apply kept_refl].
        destruct (g_accounts (s_daemon (p_state p)) !! n) as [a|] eqn:Ea; [|by apply K1, Hout].
        specialize (M1 (n, a) (Hin a eq_refl) eq_refl). cbn in M1. by rewrite Em in M1.
      * assert (n ∉ (in_order m).*1) as Hni.
        { intros Hx. apply list_elem_of_fmap in Hx as ([k v] & -> & Hx). apply in_order_elem in Hx. cbn in *. congruence. }
        specialize (K2 Hni). assert (g_accounts (s_daemon (p_state p1)) !! n = None) as E1; [|rewrite E1 in K2; by inversion K2].
        destruct (g_accounts (s_daemon (p_state p)) !! n) as [a|] eqn:Ea.
        -- specialize (M1 (n, a) (Hin a eq_refl) eq_refl). cbn in M1. by rewrite Em in M1.
        -- specialize (K1 (Hout eq_refl)). by inversion K1.
Qed.

Lemma reload_returns libs w p : healthy p -> sound_reload libs w p ->
  exists p', reload libs w p = (Returned tt, p') /\ healthy p' /\ reloaded w p p'.
Proof.
  intros Hp [Hl Hs]. unfold MainLoop.reload, reloaded, events_of. unfold config_read in *.
  set (p0 := occur_all (before_load w) p) in *. assert (healthy p0) as Hp0 by by apply occur_all_healthy.
  pose proof (went_by_occur (before_load w) p) as Hby0. fold p0 in Hby0.
  destruct (occur_all_alike (before_load w) p) as [Ha0 _]. fold p0 in Ha0.
  destruct (occur_all_flags (before_load w) p) as (_ & _ & _ & Hg0 & _). fold p0 in Hg0.
  pose proof (load_std (s_db (p_state p0)) (r_open_list (readings (p_loads p0))) (r_list_fault (readings (p_loads p0)))
    (r_open_account (readings (p_loads p0))) (r_account_fault (readings (p_loads p0))) (r_file (readings (p_loads p0)))) as Hstd.
  fold (read_config (readings (p_loads p0)) (s_db (p_state p0))) in Hstd. fold (next_config p0) in Hstd.
  assert (forall g, healthy (loaded_with g p0)) as Hg by (intros g; by destruct Hp0; split).
  destruct (next_config p0) as [c|[x| |]] eqn:Ec; try done.
  - destruct (diff_returns libs w c (loaded_with (global c) p0) (Hg _) Hl (Hs c eq_refl)) as (p' & E & Hp' & Hby & _ & Hgl & Himp).
    exists p'. split; [done|]. split; [done|]. split; [|split; [done|]].
    + eapply went_by_trans; [exact Hby0|]. destruct Hby. by split.
    + eapply implements_alike; [exact Ha0|exact Himp|reflexivity].
  - eexists. split; [reflexivity|]. split; [by apply occur_all_healthy|].
    destruct (occur_all_alike (after_load w) (loaded_with (g_global p0) p0)) as [Ha1 _].
    destruct (occur_all_flags (after_load w) (loaded_with (g_global p0) p0)) as (_ & _ & _ & Hg1 & _).
    split; [|split; [by rewrite Hg1|by etrans]].
    eapply went_by_trans; [exact Hby0|]. destruct (went_by_occur (after_load w) (loaded_with (g_global p0) p0)). by split.
Qed.

(** ** One pass *)

(** What is asked of the outside during a pass. *)
Record sound_pass (i : pass_input) (p : process) : Prop := {
  sound_answers : forall nm, documented_answers (pass_answers i nm);
  sound_hup : g_reloadRequested p = true -> sound_reload (hup_libs i) (hup_during i) (set_requested false p);
  sound_poll : forall p1, hup_reload i p = (Returned tt, p1) -> let q := occur_all (meanwhile i) p1 in
    poll_due i q = true -> sound_reload (poll_libs i) (poll_during i) (set_lastPoll (now_ms i) q);
}.

Lemma hup_returns i p : healthy p -> sound_pass i p ->
  exists p1, hup_reload i p = (Returned tt, p1) /\ healthy p1 /\
    if g_reloadRequested p then reloaded (hup_during i) (set_requested false p) p1 else p1 = p.
Proof.
  intros Hp Hs. unfold MainLoop.hup_reload. destruct (g_reloadRequested p) eqn:E; [|by exists p].
  apply reload_returns; [by destruct Hp; split|by apply (sound_hup _ _ Hs)].
Qed.

Lemma poll_returns i p : healthy p -> (poll_due i p = true -> sound_reload (poll_libs i) (poll_during i) (set_lastPoll (now_ms i) p)) ->
  exists p2, poll_reload i p = (Returned tt, p2) /\ healthy p2 /\
    if poll_due i p then reloaded (poll_during i) (set_lastPoll (now_ms i) p) p2 else p2 = p.
Proof.
  intros Hp Hs. unfold MainLoop.poll_reload. destruct (poll_due i p) eqn:E; [|by exists p].
  apply reload_returns; [by destruct Hp; split|by apply Hs].
Qed.

(** The stages of a pass: [p1] after the first reload, [q] when the outside
    has acted, [p2] after the second reload, [p3] after the watchdogs. *)
Record stages (i : pass_input) (p p1 q p2 p3 : process) : Prop := {
  stage_hup : hup_reload i p = (Returned tt, p1) /\
    if g_reloadRequested p then reloaded (hup_during i) (set_requested false p) p1 else p1 = p;
  stage_q : q = occur_all (meanwhile i) p1;
  stage_poll : if poll_due i q then reloaded (poll_during i) (set_lastPoll (now_ms i) q) p2 else p2 = q;
  stage_watch : exists s, p3 = set_state s p2 /\ alike (s_daemon (p_state p2)) (s_daemon s) /\
    ticks (g_global p2) (pass_faults i) (pass_answers i) (now_ms i) (p_state p2) = (Ok tt, s);
}.

Lemma pass_stages i p : healthy p -> sound_pass i p ->
  exists p1 q p2 p3, pass i p = (Returned tt, p3) /\ healthy p3 /\ stages i p p1 q p2 p3.
Proof.
  intros Hp Hs. destruct (hup_returns i p Hp Hs) as (p1 & E1 & Hp1 & H1).
  set (q := occur_all (meanwhile i) p1). assert (healthy q) as Hq by (by apply occur_all_healthy).
  destruct (poll_returns i q Hq (sound_poll _ _ Hs p1 E1)) as (p2 & E2 & Hp2 & H2).
  destruct (run_watchdogs_spec i p2 Hp2 (sound_answers _ _ Hs)) as (s & E3 & Ha & Hp3 & _ & Et).
  exists p1, q, p2, (set_state s p2). split; [|split; [done|split; [done|done|done|by exists s]]].
  unfold MainLoop.pass. rewrite E1. cbn [and_then]. fold q. rewrite E2. cbn [and_then]. exact E3.
Qed.

(** ** What the loop promises *)

Lemma implements_twice c d d' q d'' : implements c d d' -> alike d' q -> implements c q d'' -> implements c d d''.
Proof.
  intros H1 Ha H2 n. specialize (H1 n). specialize (H2 n). destruct (by_name (accounts c) !! n) as [cfg|]; [|done].
  assert ((g_accounts d' !! n = None \/ exists a', g_accounts d' !! n = Some a' /\ config a' = cfg) ->
    g_accounts d'' !! n = None \/ exists a', g_accounts d'' !! n = Some a' /\ config a' = cfg) as Hnew.
  { intros [Hn|(a' & Ha' & Hc)].
    - rewrite (alike_none _ _ _ Ha Hn) in H2. exact H2.
    - destruct (alike_there _ _ _ _ Ha Ha') as (b & Hb & (_ & Hcb & _)). rewrite Hb in H2. unfold applied in H2.
      rewrite bool_decide_eq_true_2 in H2 by congruence. destruct H2 as (x & -> & _ & Hx). right. exists x. split; [done|congruence]. }
  unfold applied in H1 |- *. destruct (g_accounts d !! n) as [a|]; [|by apply Hnew]. case_bool_decide as Hv; [|by apply Hnew].
  destruct H1 as (a' & Ha' & Hi & Hc). destruct (alike_there _ _ _ _ Ha Ha') as (b & Hb & (Hib & Hcb & _)). rewrite Hb in H2.
  unfold applied in H2. rewrite bool_decide_eq_true_2 in H2 by congruence. destruct H2 as (x & -> & Hix & Hx). exists x. split_and!; congruence.
Qed.

(** The configuration a pass brings the accounts to. *)
Lemma stages_implement i p p1 q p2 p3 c : stages i p p1 q p2 p3 -> g_reloadRequested p = true ->
  config_read (hup_during i) p = Ok c ->
  (poll_due i q = true -> forall c', config_read (poll_during i) q = Ok c' -> c' = c) ->
  implements c (s_daemon (p_state p)) (s_daemon (p_state p3)).
Proof.
  intros [[_ H1] -> H2 (s & -> & Ha & _)] Hreq Hc Hsame. rewrite Hreq in H1. destruct H1 as (_ & H1).
  rewrite (config_read_same _ (set_requested false p) p), Hc in H1 by done. destruct H1 as [_ H1]. cbn in H1.
  destruct (occur_all_alike (meanwhile i) p1) as [Hq _]. cbn [p_state set_state].
  destruct (poll_due i (occur_all (meanwhile i) p1)); [|rewrite H2 in Ha; eapply implements_alike; [reflexivity|exact H1|by etrans]].
  destruct H2 as (_ & H2).
  rewrite (config_read_same _ (set_lastPoll (now_ms i) (occur_all (meanwhile i) p1)) (occur_all (meanwhile i) p1)) in H2 by done.
  destruct (config_read (poll_during i) (occur_all (meanwhile i) p1)) as [c'|e] eqn:Ec'.
  - rewrite (Hsame eq_refl c' eq_refl) in H2. destruct H2 as [_ H2]. eapply implements_alike; [reflexivity| |exact Ha].
    by eapply implements_twice.
  - destruct H2 as [_ H2]. cbn in H2. eapply implements_alike; [reflexivity|exact H1|by do 2 (etrans; [eassumption|])].
Qed.

Lemma loop_pass down i ins p p3 : g_running (occur_all (asleep i) p) = true -> pass i (occur_all (asleep i) p) = (Returned tt, p3) ->
  main_loop down (i :: ins) p = main_loop down ins p3.
Proof. intros Hr E. cbn [MainLoop.main_loop]. by rewrite Hr, E. Qed.

(** What happens outside during a pass with a request open: during the reload,
    after it, and, when the poll is due too, during that. *)
Definition during_pass (i : pass_input) (p1 : process) : list outside :=
  events_of (hup_during i) ++ meanwhile i ++
  if poll_due i (occur_all (meanwhile i) p1) then events_of (poll_during i) else [].

(** The requests that are still open after a pass: those that came during it. *)
Lemma stages_requests i p p1 q p2 p3 : stages i p p1 q p2 p3 -> g_reloadRequested p = true ->
  g_reloadRequested p3 = existsb is_hangup (during_pass i p1).
Proof.
  intros [[_ H1] -> H2 (s & -> & _)] Hreq. rewrite Hreq in H1. cbn [g_reloadRequested set_state].
  destruct H1 as [[Hp1 _ _ _] _]. cbn in Hp1. unfold during_pass. rewrite !existsb_app, <- Hp1.
  destruct (occur_all_flags (meanwhile i) p1) as (Hq & _). rewrite orb_assoc, <- Hq.
  destruct (poll_due i _); [|subst p2; by rewrite orb_false_r]. by destruct H2 as [[-> _ _ _] _].
Qed.

(** A pass with a request open applies the configuration it reads. *)
Lemma pass_applies down i ins p c (Hp : healthy p)
    (Hrun : g_running (occur_all (asleep i) p) = true) (Hs : sound_pass i (occur_all (asleep i) p))
    (Hreq : g_reloadRequested p || existsb is_hangup (asleep i) = true)
    (Hc : config_read (hup_during i) (occur_all (asleep i) p) = Ok c)
    (Hsame : forall p1, hup_reload i (occur_all (asleep i) p) = (Returned tt, p1) -> let q := occur_all (meanwhile i) p1 in
       poll_due i q = true -> forall c', config_read (poll_during i) q = Ok c' -> c' = c) :
  exists p1 p', hup_reload i (occur_all (asleep i) p) = (Returned tt, p1) /\
    main_loop down (i :: ins) p = main_loop down ins p' /\ healthy p' /\
    implements c (s_daemon (p_state p)) (s_daemon (p_state p')) /\
    g_reloadRequested p' = existsb is_hangup (during_pass i p1).
Proof.
  destruct (occur_all_alike (asleep i) p) as [Ha _]. destruct (occur_all_flags (asleep i) p) as (Hr & _). rewrite <- Hr in Hreq.
  destruct (pass_stages i _ (occur_all_healthy _ _ Hp) Hs) as (p1 & q & p2 & p3 & E & Hp3 & Hst). exists p1, p3.
  split; [apply Hst|]. split; [by apply loop_pass|]. split; [done|]. split; [|by eapply stages_requests].
  eapply implements_alike; [exact Ha| |reflexivity]. eapply stages_implement; [exact Hst|done|done|].
  destruct Hst as [[E1 _] -> _ _]. by apply Hsame.
Qed.


(** *** The end of the process *)

(** Nothing is left of any account. *)
Definition released (d : daemon) : Prop :=
  g_accounts d = ∅ /\ g_sipAccounts d = ∅ /\ managers d = ∅ /\ transports d = ∅.

Lemma shut_down_spec down p : healthy p -> sound_libs down ->
  exists p', shut_down first_sync first_pool down p = (Exits 0, p') /\ released (s_daemon (p_state p')) /\
    pid_files p' = delete (pidFilePath (g_global p)) (pid_files p) /\ g_global p' = g_global p.
Proof.
  intros [Hr Ha _] Hl. unfold shut_down. destruct (shutdown_spec down (s_daemon (p_state p)) Hl Hr Ha) as (d & -> & He & Hacc).
  eexists. split; [reflexivity|]. split; [|done]. cbn. split; [done|]. by apply accounted_empty.
Qed.

(** The outside keeps to its documentation as long as the loop runs. *)
Fixpoint sound_run (ins : list pass_input) (p : process) : Prop :=
  match ins with
  | [] => True
  | i :: ins => let p0 := occur_all (asleep i) p in
    g_running p0 = true -> sound_pass i p0 /\ forall p1, pass i p0 = (Returned tt, p1) -> sound_run ins p1
  end.

Lemma loop_ends down ins p : healthy p -> sound_libs down -> sound_run ins p ->
  Exists (fun i => existsb is_stop (asleep i) = true) ins ->
  exists p', main_loop down ins p = (Exits 0, p') /\ released (s_daemon (p_state p')) /\ pid_files p' !! pidFilePath (g_global p') = None.
Proof.
  intros Hp Hl Hs Hstop. revert p Hp Hs. induction Hstop as [i ins Hi|i ins Hstop IH]; intros p Hp Hs; cbn [MainLoop.main_loop sound_run] in *;
    set (p0 := occur_all (asleep i) p) in *; pose proof (occur_all_healthy (asleep i) p Hp) as Hp0; fold p0 in Hp0;
    destruct (occur_all_flags (asleep i) p) as (_ & Hr & _); fold p0 in Hr.
  - rewrite Hi, andb_false_r in Hr. rewrite Hr. destruct (shut_down_spec down p0 Hp0 Hl) as (p' & -> & H1 & H2 & H3).
    exists p'. split_and!; [done|done|]. by rewrite H3, H2, lookup_delete_eq.
  - destruct (g_running p0).
    + destruct (Hs eq_refl) as [Hsp Hnext]. destruct (pass_stages i p0 Hp0 Hsp) as (p1 & q & p2 & p3 & E & Hp3 & _). rewrite E.
      apply IH; [done|by apply Hnext].
    + destruct (shut_down_spec down p0 Hp0 Hl) as (p' & -> & H1 & H2 & H3). exists p'. split_and!; [done|done|]. by rewrite H3, H2, lookup_delete_eq.
Qed.

(** The process when its loop begins. *)
Definition at_loop (b : boot_input) (c : DaemonConfig) (d : daemon) : process :=
  set_lastPoll (b_now b) (occur_all (b_early b) (set_daemon d (booted b (global c)))).

(** What is asked of the outside from the start on. *)
Record sound_boot (b : boot_input) (c : DaemonConfig) (ins : list pass_input) : Prop := {
  boot_libs : forall cfg, cfg ∈ accounts c -> safe_setup cfg (b_libs b (name cfg));
  boot_down : sound_libs (b_down b);
  boot_run : forall d, start_all (b_libs b) (accounts c) initial = (Returned tt, d) -> sound_run ins (at_loop b c d);
}.

Lemma started_healthy b c d : running d -> accounted d -> healthy (at_loop b c d).
Proof.
  intros Hr Ha. assert (healthy (set_daemon d (booted b (global c)))) as H
    by (split; [done|done|]; intros n Hn; by apply adopt_watches).
  pose proof (occur_all_healthy (b_early b) _ H) as H'. by destruct H'; split.
Qed.

End Run.

(** ** Examples *)

Definition sample_reading : reading :=
  mkReading (Some ["[global]"; "db_path=/d/x.db"; "db_key=k"]%string) true no_fault (fun _ => true) (fun _ => no_fault).
Definition sample_row (version : Z) : AccountRecord :=
  Storage.mkAccount "+1" "" "" "" 0 0 0 None None None None None None None
    "" "pbx" "100" "secret" "200" "" "disabled" "udp" "" false "" "" false true version.

(** "a" disappears, "b" gets a new version, "c" comes. *)
Definition sample_edit : db -> db := set_account (fun _ => <["b" := sample_row 2]> (<["c" := sample_row 1]> ∅))%string.
Definition sample_pass (es : list outside) : pass_input :=
  mkPass es (mkDuring [Hangup] [[Interrupted "b" None]] [[]; [RegState "b" true 5]]) [Interrupted "b" None] undisturbed
    (fun _ => good) (fun _ => good) 1000 (fun _ => sample_answers) (fun _ => no_fault).
Definition edited_pass : pass_input := sample_pass [DatabaseChanged sample_edit; Hangup].
Definition sample_config : DaemonConfig := mkDaemon (mkGlobal "/d/x.db" "k" 60 86400 43200 30) [account_named "b" "" 2; account_named "c" "" 1].

Local Abbreviation sample_readings := (fun _ : nat => sample_reading).
Local Abbreviation no_sync := (fun _ : nat => 0).
Local Abbreviation no_pool := (fun _ : nat => @None string).

Lemma good_libs : sound_libs (fun _ => good).
Proof. intros n. split; [apply good_documented|done]. Qed.

Lemma sample_healthy : healthy sample_process.
Proof. split; [exact (proj1 running_daemon_ok)|exact (proj2 running_daemon_ok)|exact (adopt_watches _ _ running_daemon ∅)]. Qed.

Definition plain_config (c : DaemonConfig) : Prop :=
  global c = global sample_config /\ forall cfg, cfg ∈ accounts c -> signalProxy cfg = EmptyString.

Lemma sample_sound c es p : plain_config c -> next_config sample_readings p = Ok c ->
  sound_reload sample_readings (fun _ => good) (hup_during (sample_pass es)) p.
Proof.
  intros [_ Hcfg] E. split; [exact good_libs|]. intros c' Hc cfg H.
  change (next_config sample_readings p = Ok c') in Hc. rewrite E in Hc. injection Hc as <-. by apply plain_safe, Hcfg.
Qed.

(** The poll is not due: the interval of the loaded configuration is 30 s. *)
Lemma sample_no_poll c es p p1 : plain_config c -> next_config sample_readings p = Ok c -> lastConfigPollMs p = 0 -> g_global p = global sample_config ->
  healthy p -> hup_reload sample_readings no_sync no_pool (sample_pass es) p = (Returned tt, p1) ->
  poll_due (sample_pass es) (occur_all (meanwhile (sample_pass es)) p1) = false.
Proof.
  intros Hpl Hc Hl Hg Hp E. assert (lastConfigPollMs p1 = 0 /\ g_global p1 = global sample_config) as [H1 H2].
  { unfold hup_reload in E. destruct (g_reloadRequested p); [|by injection E as <-].
    destruct (reload_returns sample_readings no_sync no_pool (fun _ => good) (hup_during (sample_pass es)) (set_requested false p))
      as (p2 & E2 & _ & [_ _ H1 _] & H2); [by destruct Hp; split|by eapply sample_sound|].
    cbn [hup_libs sample_pass] in E. rewrite E2 in E. injection E as <-.
    change (config_read sample_readings (hup_during (sample_pass es)) (set_requested false p)) with (next_config sample_readings p) in H2.
    rewrite Hc in H2.
    cbn in H1, H2. destruct H2 as [H2 _]. split; [congruence|]. rewrite H2. apply Hpl. }
  destruct (occur_all_flags (meanwhile (sample_pass es)) p1) as (_ & _ & H3 & H4 & _). unfold poll_due. by rewrite H3, H4, H1, H2.
Qed.

Lemma sample_sound_pass c es p : plain_config c -> next_config sample_readings p = Ok c -> lastConfigPollMs p = 0 -> g_global p = global sample_config ->
  healthy p -> sound_pass sample_readings no_sync no_pool (sample_pass es) p.
Proof.
  intros Hpl Hc Hl Hg Hp. split.
  - intros nm. by split.
  - intros _. by eapply sample_sound.
  - intros p1 E q Hdue. unfold q in Hdue. by rewrite (sample_no_poll c es p p1) in Hdue.
Qed.

Lemma sample_plain : plain_config sample_config.
Proof.
  split; [done|]. intros cfg H. cbn in H. repeat (apply elem_of_cons in H as [->|H]; [done|]). by apply elem_of_nil in H.
Qed.

Lemma edited_config : next_config sample_readings (occur_all (asleep edited_pass) sample_process) = Ok sample_config.
Proof. vm_compute. reflexivity. Qed.


(** *** The whole life *)

Definition sample_boot : boot_input :=
  mkBootInput (sample_edit (cdb two_accounts)) ∅ (fun _ => true) 4711 (fun _ => good) [] 0 (fun _ => good).
Definition sample_life : list pass_input := [sample_pass [Interrupted "c" None]; sample_pass [Hangup; Stop]].

Lemma sample_boot_config : read_config sample_reading (b_db sample_boot) = Ok sample_config.
Proof. vm_compute. reflexivity. Qed.

Lemma sample_config_safe cfg : cfg ∈ accounts sample_config -> safe_setup cfg good.
Proof. intros H. by apply plain_safe, sample_plain. Qed.

Lemma sample_config_names : NoDup (map name (accounts sample_config)).
Proof. exact (load_names_nodup _ _ _ _ _ _ _ sample_boot_config). Qed.

Lemma sample_sound_boot : sound_boot sample_readings no_sync no_pool sample_boot sample_config sample_life.
Proof.
  split; [exact sample_config_safe|exact good_libs|]. intros d E.
  assert (running d /\ accounted d) as [Hr Ha].
  { pose proof (started_ok (fun _ => good) _ sample_config_names sample_config_safe) as H.
    change (b_libs sample_boot) with (fun _ : string => good) in E. by rewrite E in H. }
  intros _. split; [|by intros p1 _ Hrun].
  apply (sample_sound_pass sample_config); [exact sample_plain|exact sample_boot_config|reflexivity|reflexivity|].
  apply occur_all_healthy, started_healthy; done.
Qed.


(** It is status 0 here. *)
Example sample_life_status : (main sample_readings no_sync no_pool ["/etc/s.conf"%string] sample_boot sample_life).1 = Exits 0.
Proof. vm_compute. reflexivity. Qed.

(** When no account comes up, [main] returns without removing the pid file it
    has just written. *)
Example pid_file_left :
  let refused := mkBootInput (sample_edit (cdb two_accounts)) ∅ (fun _ => true) 4711
    (fun _ => mkBringup (Ok sample_record) (a_sender sample_account) true (Ok tt) (Socket.Refused 401) (Ok tt) (Ok tt) (Ok tt)
       true (Some 4%nat) (Ok "192.0.2.1:39445"%string) (Ok tt) (fun _ => true) 0 (Ok "aci"%string) true sample_env (Ok tt) (fun _ => true) (Ok tt))
    [] 0 (fun _ => good) in
  let '(f, p) := main sample_readings no_sync no_pool ["/etc/s.conf"%string] refused [] in
  f = Exits 1 /\ is_Some (p ≫= fun p => pid_files p !! "/d/signal2sip.pid"%string).
Proof. vm_compute. split; [reflexivity|by eexists]. Qed.
