(* ===== verification/LiveConfig.v ===== *)
(** An edit made with signal2sip-gendb reaches the daemon that is running: the
    two programs together (GendbSettings, MainLoop, DaemonRun), over one
    database and the pid file one writes and the other reads. *)

From S2P Require Import Prelude Storage Config AuthSocket ProtocolStores CallSignaling Crypto PreKeys LinkCiphers Handles Provisioning Registration AccountFinisher GendbConfig Gendb GendbSettings Watchdog Lifecycle MainLoop DaemonRun.

Open Scope Z_scope.

(** ** The pid file *)

Lemma digits_stop s c t seen acc : all_digits s = true -> digit_of c = None -> digits seen acc (String.append s (String c t)) = digits seen acc s.
Proof.
  intros Hs Hc. revert seen acc Hs. induction s as [|a s IH]; intros seen acc Hs.
  - rewrite str_app_nil_l. cbn [digits]. by rewrite Hc.
  - cbn in Hs. apply andb_true_iff in Hs as [[d Ha]%bool_decide_eq_true_1 Hs]. rewrite str_app_cons. cbn [digits]. rewrite Ha. by apply IH.
Qed.

(** What the daemon writes is what gendb reads. *)
Lemma read_pid pid : 0 <= pid <= int64_max -> read_long (String.append (to_string pid) (String (ch 10) EmptyString)) = pid.
Proof.
  intros Hp. pose proof (to_string_all_digits pid ltac:(lia)) as Ha. pose proof (digits_to_string pid ltac:(lia)) as Hd.
  pose proof (digits_stop (to_string pid) (ch 10) EmptyString false 0 Ha eq_refl) as Hs. rewrite Hd in Hs. unfold read_long.
  destruct (to_string pid) as [|c s]; [done|]. cbn in Ha. apply andb_true_iff in Ha as [[d Hc]%bool_decide_eq_true_1 _].
  destruct (digit_not_space_sign _ _ Hc) as (Hsp & Hm & Hpl). rewrite str_app_cons in *. cbn [skip_space]. rewrite Hsp.
  assert (sign_of (String c (String.append s (String (ch 10) EmptyString))) = (false, String c (String.append s (String (ch 10) EmptyString)))) as ->
    by (cbn; by rewrite !bool_decide_eq_false_2).
  rewrite Hs. cbv iota. unfold int64_max in *. lia.
Qed.

(** The daemon is found and told. *)
Lemma signal_sent env config pid exe g : env_pid_file env (Gendb.pidFilePath config) = Some (String.append (to_string pid) (String (ch 10) EmptyString)) ->
  0 < pid <= int_max -> env_exe env pid = Some exe -> ends_with kDaemonName exe = true -> env_kill env pid = true ->
  signalDaemonBestEffort env config g = say (Signaled pid) g.
Proof.
  intros Hf Hp He Hn Hk. unfold signalDaemonBestEffort. rewrite Hf, read_pid by (unfold int_max, int64_max in *; lia).
  rewrite bool_decide_eq_false_2 by lia. rewrite He, Hn. cbn [negb].
  assert (to_int pid = pid) as ->.
  { unfold to_int, u32, wrap, int_max in *. rewrite Z.mod_small by lia. cbv zeta. rewrite bool_decide_eq_true_2; [done|]. lia. }
  rewrite Hk. by destruct exe.
Qed.

(** ** The row in the loaded configuration *)

Lemma by_name_complete l cfg : cfg ∈ l -> exists x, by_name l !! name cfg = Some x.
Proof.
  intros H. destruct (by_name l !! name cfg) as [x|] eqn:E; [by exists x|]. unfold by_name in E. apply not_elem_of_list_to_map in E.
  destruct E. apply list_elem_of_fmap. exists (name cfg, cfg). split; [done|]. apply list_elem_of_In, in_map_iff. exists cfg. split; [done|].
  by apply list_elem_of_In.
Qed.

(** What the daemon makes of a row. *)
Definition wanted (nm : string) (r : AccountRecord) : option AccountConfig :=
  if enabled r then match accountConfigFromRecord nm r with Ok cfg => Some cfg | Throw _ => None end else None.

Lemma wanted_loaded d open_account account_fault file ini gl c nm r :
  parseIni file = Ok ini -> load_global ini = Ok gl -> load d true no_fault open_account account_fault file = Ok c ->
  Storage.account d !! nm = Some r -> open_account nm = true -> account_fault nm = no_fault -> by_name (accounts c) !! nm = wanted nm r.
Proof.
  intros Hi Hg Hc Hr Ho Hf. destruct (load_result d open_account account_fault file ini gl Hi Hg) as (l & E & _ & Hl).
  rewrite E in Hc. injection Hc as <-. cbn [accounts]. specialize (Hl nm r Hr Ho Hf). unfold wanted.
  destruct (by_name l !! nm) as [x|] eqn:Ex.
  - apply by_name_spec in Ex as [Hn Hin]. destruct (proj1 (Hl x) (conj Hin Hn)) as [-> ->]. done.
  - destruct (enabled r) eqn:He; [|done]. destruct (accountConfigFromRecord nm r) as [cfg|] eqn:Ec; [|done].
    destruct (proj2 (Hl cfg) (conj eq_refl eq_refl)) as [Hin <-]. destruct (by_name_complete l cfg Hin) as [x Hx]. congruence.
Qed.

(** The version of an accepted row is that of the row. *)
Lemma wanted_version nm r cfg : wanted nm r = Some cfg -> configVersion cfg = config_version r.
Proof.
  unfold wanted. destruct (enabled r); [|done]. destruct (accountConfigFromRecord nm r) as [x|] eqn:E; [|done]. intros [= <-].
  unfold accountConfigFromRecord in E. cbv zeta in E.
  repeat match type of E with (if ?b then Throw _ else _) = _ => destruct b; [done|] end. by injection E as <-.
Qed.

(** ** The edit *)

Section Edit.
Context (readings : nat -> reading) (first_sync : nat -> Z) (first_pool : nat -> option string).

(** The daemon reads a complete file, and the account's row without failures. *)
Definition reads_row (r : reading) (nm : string) : Prop :=
  (exists ini gl, parseIni (r_file r) = Ok ini /\ load_global ini = Ok gl) /\ r_open_list r = true /\ r_list_fault r = no_fault /\
  r_open_account r nm = true /\ r_account_fault r nm = no_fault.

(** What becomes of the account. *)
Definition account_is (nm : string) (r : AccountRecord) (d : daemon) : Prop :=
  match wanted nm r with
  | Some cfg => forall x, g_accounts d !! nm = Some x -> Lifecycle.config x = cfg
  | None => g_accounts d !! nm = None
  end.

End Edit.

(** ** Example: a password edited while "a" and "b" run *)

Definition daemon_pid : Z := 4711.
Definition live_process : process :=
  mkProcess (mkState running_daemon (adopt (fun _ => 0) (fun _ => None) running_daemon ∅) (set_account (fun _ => <["b" := sample_row 1]> ∅)%string (cdb two_accounts)))
    true false 0 (mkGlobal "/d/x.db" "k" 60 86400 43200 30)
    (<["/d/signal2sip.pid"%string := String.append (to_string daemon_pid) (String (ch 10) EmptyString)]> ∅) 1.
Definition live_env : environment :=
  mkEnv (env_keys toy_env) (env_ciphers toy_env) (env_parser toy_env) (env_draws toy_env) no_fault (env_ffi toy_env) (env_net toy_env)
    (env_open toy_env) true 0 0 (env_registration toy_env) (env_connect toy_env) (env_exchange toy_env) (env_link toy_env) (env_attempt toy_env)
    (env_late toy_env) (env_events toy_env) (env_can_write toy_env)
    (fun path => pid_files live_process !! path) (fun _ => Some "/opt/signal2sip/signal2sip-daemon"%string) (fun _ => true).
Definition live_config : DaemonConfig := mkDaemon (mkGlobal "/d/x.db" "k" 60 86400 43200 30) [].
Definition live_gendb : gendb := toy_gendb (Config.connection (s_db (p_state live_process))).
Definition edited_gendb : gendb := (cmdConfigSet live_env live_config "b" "sip_password" "new" live_gendb).2.
Definition live_pass : pass_input := sample_pass [DatabaseChanged (fun _ => cdb (conn_of edited_gendb)); Hangup].

Lemma live_healthy : healthy live_process.
Proof. split; [exact (proj1 running_daemon_ok)|exact (proj2 running_daemon_ok)|exact (adopt_watches _ _ running_daemon ∅)]. Qed.

Definition edited_config : DaemonConfig :=
  match next_config (fun _ => sample_reading) (occur_all (asleep live_pass) live_process) with Ok c => c | Throw _ => live_config end.
Lemma edited_config_eq : next_config (fun _ => sample_reading) (occur_all (asleep live_pass) live_process) = Ok edited_config.
Proof. vm_compute. reflexivity. Qed.
Lemma edited_config_plain : plain_config edited_config.
Proof.
  split; [vm_compute; reflexivity|]. intros cfg H. vm_compute in H. repeat (apply elem_of_cons in H as [->|H]; [done|]). by apply elem_of_nil in H.
Qed.

Definition password_field : ConfigField := nth 3 configFields (mkField "" e164 (fun a _ => Ok a)).


(** gendb stores a proxy whose port is not a number, and the daemon dies of it. *)
Example bad_proxy_crashes :
  let '(r, g) := cmdConfigSet live_env live_config "b" "signal_proxy" "host:abc" live_gendb in
  r = Ok tt /\
  (main_loop (fun _ => sample_reading) (fun _ => 0) (fun _ => None) (fun _ => good)
    [sample_pass [DatabaseChanged (fun _ => cdb (conn_of g)); Hangup]] live_process).1 = Crashed.
Proof. vm_compute. split; reflexivity. Qed.
